(** * ADASS2019 array-access benchmark: kernels and test driver

    A shallow embedding of the Python sources of the benchmark:

    - [csub.py], [csubnp-numba.py], [csubnpv.py], [csubnpna.py]: four codings
      of the kernel [subr], which adds the sum of its two indices to every
      element of a 2D numpy array, and the main routine around it;
    - [Run.py]: the driver that builds, runs and times every test program
      and tabulates the relative speeds.

    How the programs are modelled:

    - statements run in a state monad whose exceptions keep the state
      reached so far; array objects live in a store and are passed by
      reference, so that aliasing shows;
    - the element type of the kernels is a parameter (its addition and the
      conversion of an integer operand), instantiated with the integers and
      with IEEE binary64, the dtype of [numpy.zeros];
    - the world outside [Run.py] (subprocesses, the clock) is a parameter,
      and so are the interpreter's built-ins that format floats and print
      lists and bytes;
    - the floats of [Run.py] are exact rationals: its arithmetic is a
      subtraction, a scaling and two divisions, and the claims about it are
      about order and ratios, not about rounding;
    - a [str] is represented by its UTF-8 encoding (Python 3); white space
      is that of Python 3, in its UTF-8 encoding; case folding is that of
      ASCII, which is what the table of tests contains; the three numbers
      that [Run.py] reads from its command line are taken as given. *)

From Stdlib Require Import ZArith QArith Qround Qabs String Ascii Floats Uint63 Sorted.
From stdpp Require Import gmap strings list pretty.

Local Open Scope string_scope.
Local Open Scope list_scope.
Local Open Scope Z_scope.

(** ** Python statements: state and exceptions *)

(** The exceptions that the programs can meet.  [Undefined] is not one of
    Python's: it marks the point where compiled code leaves the behaviour
    that the language defines. *)
Inductive exn : Set :=
| SystemExit (code : Z)
| ZeroDivisionError
| IndexError
| ValueError
| TypeError
| NameError
| Undefined.

Inductive outcome (S A : Type) : Type :=
| Ret (a : A) (s : S)
| Raise (e : exn) (s : S).
Arguments Ret {S A} a s.
Arguments Raise {S A} e s.

Definition M (S A : Type) : Type := S -> outcome S A.

Definition ret {S A : Type} (a : A) : M S A := fun s => Ret a s.
Definition raise {S A : Type} (e : exn) : M S A := fun s => Raise e s.
Definition bind {S A B : Type} (c : M S A) (k : A -> M S B) : M S B :=
  fun s => match c s with
           | Ret a s' => k a s'
           | Raise e s' => Raise e s'
           end.
Definition final_state {S A : Type} (o : outcome S A) : S :=
  match o with Ret _ s => s | Raise _ s => s end.

Declare Scope py_scope.
Delimit Scope py_scope with py.
Notation "x <- c ;; k" := (bind c (fun x => k))
  (at level 100, c at next level, right associativity) : py_scope.
Notation "c ;; k" := (bind c (fun _ => k))
  (at level 100, right associativity) : py_scope.
Local Open Scope py_scope.

(** [for x in l: body x] *)
Fixpoint for_ {S A : Type} (l : list A) (body : A -> M S unit) : M S unit :=
  match l with
  | [] => ret tt
  | x :: l' => body x ;; for_ l' body
  end.

(** A [for] loop that rebinds a local variable on every iteration. *)
Fixpoint for_acc {S A B : Type} (l : list A) (body : A -> B -> M S B) (acc : B)
  : M S B :=
  match l with
  | [] => ret acc
  | x :: l' => acc' <- body x acc ;; for_acc l' body acc'
  end.

(** [range(n)]: empty when [n <= 0]. *)
Definition range (n : Z) : list nat := seq 0 (Z.to_nat n).

(** ** numpy arrays *)

(** A 2D array: its number of columns and its rows.  The column count is
    kept apart so that an array without rows still has a shape. *)
Record ndarray (E : Type) : Type := NdArray { ncols : nat; rows : list (list E) }.
Arguments NdArray {E} ncols rows.
Arguments ncols {E} _.
Arguments rows {E} _.

Definition nrows {E : Type} (a : ndarray E) : nat := length (rows a).

Definition has_shape {E : Type} (ny nx : nat) (a : ndarray E) : Prop :=
  nrows a = ny /\ ncols a = nx /\ Forall (fun r => length r = nx) (rows a).

(** [numpy.zeros((ny,nx))] *)
Definition zeros {E : Type} (zero : E) (ny nx : nat) : ndarray E :=
  NdArray nx (replicate ny (replicate nx zero)).

(** [a[iy,ix]] for non-negative indices; [None] is numpy's IndexError. *)
Definition item {E : Type} (a : ndarray E) (iy ix : nat) : option E :=
  match rows a !! iy with
  | Some r => if decide (ix < ncols a)%nat then r !! ix else None
  | None => None
  end.

(** [a[iy,ix] = v] *)
Definition set_item {E : Type} (a : ndarray E) (iy ix : nat) (v : E)
  : option (ndarray E) :=
  match rows a !! iy with
  | Some r => if decide (ix < ncols a)%nat
              then Some (NdArray (ncols a) (<[iy := <[ix := v]> r]> (rows a)))
              else None
  | None => None
  end.

(** The end of the slice [0:stop] of an axis of length [len]. *)
Definition slice_stop (len : nat) (stop : Z) : nat :=
  if stop <? 0 then Z.to_nat (Z.max 0 (Z.of_nat len + stop))
  else Z.to_nat (Z.min stop (Z.of_nat len)).

(** Broadcasting a 1D value to length [n]: the same length, or length 1. *)
Definition broadcast_list {A : Type} (n : nat) (l : list A) : option (list A) :=
  if decide (length l = n) then Some l
  else match l with
       | [x] => Some (replicate n x)
       | _ => None
       end.

(** [numpy.arange(n)], an integer vector. *)
Definition arange (n : Z) : list Z := Z.of_nat <$> range n.

(** An integer vector that started as [arange(n)] and was incremented [k]
    times by one. *)
Definition incr_after (n k : nat) : list Z :=
  (fun i : nat => Z.of_nat i + Z.of_nat k) <$> seq 0 n.

(** ** The kernels *)

(** A reference to an array object. *)
Definition loc : Type := positive.

Definition lift_option {S A : Type} (e : exn) (o : option A) : M S A :=
  match o with
  | Some a => ret a
  | None => raise e
  end.

Section Kernels.
(** The dtype of the arrays: its addition, how an integer operand is
    converted to it, and its [!=]. *)
Context {E : Type}.
Variable add : E -> E -> E.
Variable of_int : Z -> E.
Variable neqb : E -> E -> bool.

Abbreviation heap := (gmap loc (ndarray E)).

Definition deref (l : loc) : M heap (ndarray E) :=
  fun h => match h !! l with
           | Some a => Ret a h
           | None => Raise NameError h
           end.

Definition store (l : loc) (a : ndarray E) : M heap unit :=
  fun h => Ret tt (<[l := a]> h).

(** [a[iy,ix]] and [a[iy,ix] = v] on the array that [l] refers to.  The
    interpreter checks the bounds ([oob] is IndexError); code compiled by
    numba does not, and what it does out of bounds is outside this model
    ([oob] is then [Undefined]). *)
Definition getitem_or (oob : exn) (l : loc) (iy ix : nat) : M heap E :=
  a <- deref l ;; lift_option oob (item a iy ix).

Definition setitem_or (oob : exn) (l : loc) (iy ix : nat) (v : E) : M heap unit :=
  a <- deref l ;;
  a' <- lift_option oob (set_item a iy ix v) ;;
  store l a'.

Definition getitem := getitem_or IndexError.
Definition setitem := setitem_or IndexError.

(** *** csub.py *)

Definition csub_subr (ina : loc) (nx ny : Z) (out : loc) : M heap unit :=
  for_ (range ny) (fun iy =>
    for_ (range nx) (fun ix =>
      a <- getitem ina iy ix ;;
      setitem out iy ix
        (add (add a (of_int (Z.of_nat ix))) (of_int (Z.of_nat iy))))).

(** *** csubnp-numba.py: the same text under [@numba.jit] *)

Definition csubnp_numba_subr (ina : loc) (nx ny : Z) (out : loc) : M heap unit :=
  for_ (range ny) (fun iy =>
    for_ (range nx) (fun ix =>
      a <- getitem_or Undefined ina iy ix ;;
      setitem_or Undefined out iy ix
        (add (add a (of_int (Z.of_nat ix))) (of_int (Z.of_nat iy))))).

(** *** csubnpv.py *)

(** [v + w] for a 1D array [v] and an integer vector [w], broadcast. *)
Definition add_vec (v : list E) (w : list Z) : option (list E) :=
  if decide (length v = length w)
  then Some (zip_with (fun a z => add a (of_int z)) v w)
  else match v, w with
       | [a], _ => Some ((fun z : Z => add a (of_int z)) <$> w)
       | _, [z] => Some ((fun a : E => add a (of_int z)) <$> v)
       | _, _ => None
       end.

(** [a[iy,0:stop]] *)
Definition getrow (l : loc) (iy : nat) (stop : Z) : M heap (list E) :=
  a <- deref l ;;
  r <- lift_option IndexError (rows a !! iy) ;;
  ret (take (slice_stop (ncols a) stop) r).

(** [a[iy,0:stop] = v] *)
Definition setrow (l : loc) (iy : nat) (stop : Z) (v : list E) : M heap unit :=
  a <- deref l ;;
  r <- lift_option IndexError (rows a !! iy) ;;
  v' <- lift_option ValueError (broadcast_list (slice_stop (ncols a) stop) v) ;;
  store l (NdArray (ncols a)
             (<[iy := v' ++ drop (slice_stop (ncols a) stop) r]> (rows a))).

(** [a[0:stop,ix]] *)
Definition getcol (l : loc) (stop : Z) (ix : nat) : M heap (list E) :=
  a <- deref l ;;
  if decide (ix < ncols a)%nat
  then lift_option IndexError
         (mapM (fun r : list E => r !! ix)
               (take (slice_stop (nrows a) stop) (rows a)))
  else raise IndexError.

(** [a[0:stop,ix] = v] *)
Definition setcol (l : loc) (stop : Z) (ix : nat) (v : list E) : M heap unit :=
  a <- deref l ;;
  if decide (ix < ncols a)%nat
  then v' <- lift_option ValueError
               (broadcast_list (slice_stop (nrows a) stop) v) ;;
       store l (NdArray (ncols a)
                  (imap (fun i r => match v' !! i with
                                    | Some x => <[ix := x]> r
                                    | None => r
                                    end) (rows a)))
  else raise IndexError.

(** [numpy.array(n)] is a 0-d integer array holding [n]; [fill] overwrites
    that one value. *)
Definition array0 (n : Z) : Z := n.
Definition fill (a v : Z) : Z := v.

Definition csubnpv_subr (ina : loc) (nx ny : Z) (out : loc) : M heap unit :=
  if nx >? ny then
    let incr := arange nx in
    let ones := fill (array0 nx) 1 in
    for_acc (range ny) (fun iy incr =>
        r <- getrow ina iy nx ;;
        s <- lift_option ValueError (add_vec r incr) ;;
        setrow out iy nx s ;;
        ret ((fun z : Z => z + ones) <$> incr)) incr ;;
    ret tt
  else
    let incr := arange ny in
    let ones := fill (array0 ny) 1 in
    for_acc (range nx) (fun ix incr =>
        c <- getcol ina ny ix ;;
        s <- lift_option ValueError (add_vec c incr) ;;
        setcol out ny ix s ;;
        ret ((fun z : Z => z + ones) <$> incr)) incr ;;
    ret tt.

(** *** csubnpna.py *)

(** [a + w[NA,:]]: a 2D array plus a row vector, broadcast. *)
Definition add_row_vector (a : ndarray E) (w : list Z) : option (ndarray E) :=
  if decide (ncols a = length w)
  then Some (NdArray (ncols a)
               ((fun r : list E =>
                   zip_with (fun (x : E) (z : Z) => add x (of_int z)) r w)
                  <$> rows a))
  else if decide (ncols a = 1)%nat
  then Some (NdArray (length w)
               ((fun r : list E =>
                   match r with
                   | x :: _ => (fun z : Z => add x (of_int z)) <$> w
                   | [] => []
                   end) <$> rows a))
  else match w with
       | [z] => Some (NdArray (ncols a)
                        ((fun r : list E =>
                            (fun x : E => add x (of_int z)) <$> r) <$> rows a))
       | _ => None
       end.

(** [a + w[:,NA]]: a 2D array plus a column vector, broadcast. *)
Definition add_col_vector (a : ndarray E) (w : list Z) : option (ndarray E) :=
  if decide (nrows a = length w)
  then Some (NdArray (ncols a)
               (zip_with (fun (r : list E) (z : Z) =>
                            (fun x : E => add x (of_int z)) <$> r) (rows a) w))
  else match rows a, w with
       | [r], _ => Some (NdArray (ncols a)
                           ((fun z : Z =>
                               (fun x : E => add x (of_int z)) <$> r) <$> w))
       | _, [z] => Some (NdArray (ncols a)
                           ((fun r : list E =>
                               (fun x : E => add x (of_int z)) <$> r) <$> rows a))
       | _, _ => None
       end.

(** [a[:] = v] *)
Definition assign_all (l : loc) (v : ndarray E) : M heap unit :=
  a <- deref l ;;
  if decide (ncols v = ncols a \/ ncols v = 1%nat)
  then vrows <- lift_option ValueError (broadcast_list (nrows a) (rows v)) ;;
       rows' <- lift_option ValueError (mapM (broadcast_list (ncols a)) vrows) ;;
       store l (NdArray (ncols a) rows')
  else raise ValueError.

Definition csubnpna_subr (ina : loc) (nx ny : Z) (out : loc) : M heap unit :=
  a <- deref ina ;;
  t <- lift_option ValueError (add_row_vector a (arange nx)) ;;
  u <- lift_option ValueError (add_col_vector t (arange ny)) ;;
  assign_all out u.

(** *** The main routine, the same in the four programs *)

(** [for irpt in range(nrpt): subr(ina,nx,ny,out)] *)
Definition call_loop (subr : loc -> Z -> Z -> loc -> M heap unit)
    (nrpt : Z) (ina : loc) (nx ny : Z) (out : loc) : M heap unit :=
  for_ (range nrpt) (fun _ => subr ina nx ny out).

(** The test of the result check, at one element. *)
Definition check_item (ina out : loc) (iy ix : nat) : M heap bool :=
  o <- getitem out iy ix ;;
  a <- getitem ina iy ix ;;
  ret (neqb o (add a (of_int (Z.of_nat ix + Z.of_nat iy)))).

(** The inner loop of the check; it stops at the first difference. *)
Fixpoint check_row (ina out : loc) (iy : nat) (ixs : list nat) : M heap bool :=
  match ixs with
  | [] => ret false
  | ix :: ixs' =>
      bad <- check_item ina out iy ix ;;
      if bad then ret true else check_row ina out iy ixs'
  end.

(** The outer loop of the check; the result is the flag [error]. *)
Fixpoint check_rows (ina out : loc) (nx : Z) (iys : list nat) : M heap bool :=
  match iys with
  | [] => ret false
  | iy :: iys' =>
      error <- check_row ina out iy (range nx) ;;
      if error then ret true else check_rows ina out nx iys'
  end.

Definition check (ina : loc) (nx ny : Z) (out : loc) : M heap bool :=
  check_rows ina out nx (range ny).

(** The input array that the main routine builds:
    [ina[iy,ix] = nx - ix + ny - iy]. *)
Definition main_input (nx ny : Z) : ndarray E :=
  NdArray (Z.to_nat nx)
    ((fun iy : nat =>
        (fun ix : nat => of_int (nx - Z.of_nat ix + ny - Z.of_nat iy)) <$> range nx)
       <$> range ny).

(** *** Closed forms of the results *)

(** The array whose element at row [iy], column [ix] is [f a ix iy], for
    [a] the element of [ina] there. *)
Definition index_map (f : E -> nat -> nat -> E) (ina : ndarray E) : ndarray E :=
  NdArray (ncols ina)
    (imap (fun (iy : nat) (r : list E) =>
             imap (fun (ix : nat) (a : E) => f a ix iy) r) (rows ina)).

(** [ina[iy,ix] + ix + iy] *)
Definition plus_ix_plus_iy (a : E) (ix iy : nat) : E :=
  add (add a (of_int (Z.of_nat ix))) (of_int (Z.of_nat iy)).

(** [ina[iy,ix] + (ix + iy)], the index sum formed in the integers. *)
Definition plus_index_sum (a : E) (ix iy : nat) : E :=
  add a (of_int (Z.of_nat ix + Z.of_nat iy)).

End Kernels.

(** A statement that changes no array object other than [out], whether it
    returns or raises. *)
Definition writes_only {E A : Type} (out : loc) (c : M (gmap loc (ndarray E)) A)
  : Prop :=
  forall (h : gmap loc (ndarray E)) (l : loc),
    l <> out -> final_state (c h) !! l = h !! l.

(** ** The dtypes of the arrays *)

(** Integer arrays, away from overflow. *)
Definition int_of_int (z : Z) : Z := z.

(** float64 arrays, the dtype of [numpy.zeros]: IEEE binary64 addition, and
    the conversion of an integer operand below [2^63], rounded to nearest. *)
Definition float64_of_int (z : Z) : float := PrimFloat.of_uint63 (Uint63.of_Z z).

(** Two arrays of two rows and three columns, and a store that holds them
    as the objects 1 ([ina]) and 2 ([out]). *)
Definition small_ina : ndarray Z := NdArray 3 [[10; 20; 30]; [40; 50; 60]].
Definition small_out : ndarray Z := zeros 0 2 3.
Definition small_heap : gmap loc (ndarray Z) :=
  <[1%positive := small_ina]> (<[2%positive := small_out]> ∅).

(** float64 arrays in which one element is [2^53]: two rows of two columns
    (the [else] branch of csubnpv.py) and two rows of three columns (its
    [nx > ny] branch). *)
Definition big_square : ndarray float :=
  NdArray 2 [[0; 0]; [0; 9007199254740992]]%float.
Definition big_wide : ndarray float :=
  NdArray 3 [[0; 0; 0]; [0; 9007199254740992; 0]]%float.
Definition float_heap (ina : ndarray float) : gmap loc (ndarray float) :=
  <[1%positive := ina]>
    (<[2%positive := zeros 0%float (nrows ina) (ncols ina)]> ∅).

(** Reading [out[iy,ix]] off the store that a call left. *)
Definition out_item {E A : Type} (out : loc) (iy ix : nat)
    (o : outcome (gmap loc (ndarray E)) A) : option E :=
  match final_state o !! out with
  | Some a => item a iy ix
  | None => None
  end.

(** A statement that either returns or ends the program through
    [sys.exit(0)]: it raises nothing else. *)
Definition exits_only {S A : Type} (c : M S A) : Prop :=
  forall s : S, match c s with
                | Ret _ _ => True
                | Raise e _ => e = SystemExit 0
                end.

(** ** Run.py: text *)

(** A Python [str] is represented by its UTF-8 encoding; [bytes] is kept
    apart because [str()] and [split] treat it differently. *)
Inductive text : Type :=
| Str (s : string)
| Bytes (b : string).

Definition byte_in (lo hi : N) (c : ascii) : bool :=
  ((lo <=? N_of_ascii c) && (N_of_ascii c <=? hi))%N.

Definition is_continuation (c : ascii) : bool := byte_in 128 191 c.

(** The second byte of a three-byte sequence: no overlong forms after E0,
    no surrogates after ED. *)
Definition second_of_three (c c1 : ascii) : bool :=
  if byte_in 224 224 c then byte_in 160 191 c1
  else if byte_in 237 237 c then byte_in 128 159 c1
  else is_continuation c1.

(** The second byte of a four-byte sequence: no overlong forms after F0,
    nothing above U+10FFFF after F4. *)
Definition second_of_four (c c1 : ascii) : bool :=
  if byte_in 240 240 c then byte_in 144 191 c1
  else if byte_in 244 244 c then byte_in 128 143 c1
  else is_continuation c1.

Fixpoint utf8_valid (s : string) : bool :=
  match s with
  | EmptyString => true
  | String c s1 =>
      if byte_in 0 127 c then utf8_valid s1
      else if byte_in 194 223 c then
        match s1 with
        | String c1 s2 => is_continuation c1 && utf8_valid s2
        | _ => false
        end
      else if byte_in 224 239 c then
        match s1 with
        | String c1 (String c2 s3) =>
            second_of_three c c1 && is_continuation c2 && utf8_valid s3
        | _ => false
        end
      else if byte_in 240 244 c then
        match s1 with
        | String c1 (String c2 (String c3 s4)) =>
            second_of_four c c1 && is_continuation c2 && is_continuation c3
            && utf8_valid s4
        | _ => false
        end
      else false
  end.

(** [b.decode('utf-8')]; [None] is UnicodeDecodeError. *)
Definition decode_utf8 (b : string) : option string :=
  if utf8_valid b then Some b else None.

(** The characters that [str.split()] takes as white space, among ASCII. *)
Definition py_isspace (c : ascii) : bool := byte_in 9 13 c || byte_in 28 32 c.

(** The other white-space characters of a Python 3 [str], in UTF-8: U+0085
    and U+00A0 take two bytes; U+1680, U+2000 to U+200A, U+2028, U+2029,
    U+202F, U+205F and U+3000 take three. *)
Definition space2 (c c1 : ascii) : bool :=
  byte_in 194 194 c && (byte_in 133 133 c1 || byte_in 160 160 c1).

Definition space3 (c c1 c2 : ascii) : bool :=
  (byte_in 225 225 c && byte_in 154 154 c1 && byte_in 128 128 c2)
  || (byte_in 226 226 c && byte_in 128 128 c1
      && (byte_in 128 138 c2 || byte_in 168 169 c2 || byte_in 175 175 c2))
  || (byte_in 226 226 c && byte_in 129 129 c1 && byte_in 159 159 c2)
  || (byte_in 227 227 c && byte_in 128 128 c1 && byte_in 128 128 c2).

(** The number of bytes of the white-space character that a string starts
    with; 0 when it starts with none. *)
Definition space_length (s : string) : nat :=
  match s with
  | EmptyString => 0
  | String c s1 =>
      if py_isspace c then 1
      else match s1 with
           | EmptyString => 0
           | String c1 s2 =>
               if space2 c c1 then 2
               else match s2 with
                    | EmptyString => 0
                    | String c2 _ => if space3 c c1 c2 then 3 else 0
                    end
           end
  end.

(** The scan of [s.split()]: [skip] counts the bytes still to pass of a
    white-space character, [word] is the word begun. *)
Fixpoint split_go (skip : nat) (word : option string) (s : string) : list string :=
  match s with
  | EmptyString => match word with Some w => [w] | None => [] end
  | String c s' =>
      match skip with
      | S k => split_go k word s'
      | O =>
          match space_length s with
          | S k => match word with
                   | Some w => w :: split_go k None s'
                   | None => split_go k None s'
                   end
          | O => split_go 0 (Some (match word with
                                   | Some w => w +:+ String c EmptyString
                                   | None => String c EmptyString
                                   end)) s'
          end
      end
  end.

(** [s.split()] *)
Definition split (s : string) : list string := split_go 0 None s.

(** [s.split(sep)] for a separator of one character; never empty. *)
Fixpoint split_on (sep : ascii) (s : string) : list string :=
  match s with
  | EmptyString => [EmptyString]
  | String c s' =>
      if Ascii.eqb c sep then EmptyString :: split_on sep s'
      else match split_on sep s' with
           | w :: ws => String c w :: ws
           | [] => [String c EmptyString]
           end
  end.

(** What [print(a, b, ...)] writes: the arguments separated by spaces. *)
Fixpoint join_spaces (args : list string) : string :=
  match args with
  | [] => ""
  | [a] => a
  | a :: rest => a +:+ " " +:+ join_spaces rest
  end.

Fixpoint spaces (n : nat) : string :=
  match n with
  | O => ""
  | S n' => String " "%char (spaces n')
  end.

(** [%ns] and [%nd]: right-justified in a field of [n] characters. *)
Definition rjust (n : nat) (s : string) : string :=
  spaces (n - String.length s) +:+ s.

(** [s.lower()], on ASCII letters. *)
Definition lower_char (c : ascii) : ascii :=
  if byte_in 65 90 c then ascii_of_N (N_of_ascii c + 32) else c.

Fixpoint lower (s : string) : string :=
  match s with
  | EmptyString => EmptyString
  | String c s' => String (lower_char c) (lower s')
  end.

(** [sorted(l, key = lambda s : s.lower())]: stable, so an element goes
    behind those already placed whose key is not greater. *)
Fixpoint insert_by_lower (x : string) (l : list string) : list string :=
  match l with
  | [] => [x]
  | y :: l' => if String.ltb (lower x) (lower y) then x :: y :: l'
               else y :: insert_by_lower x l'
  end.

Definition sorted_by_lower (l : list string) : list string :=
  foldl (fun acc x => insert_by_lower x acc) [] l.

(** [l.index(x)]; [None] is ValueError. *)
Fixpoint index (x : string) (l : list string) : option nat :=
  match l with
  | [] => None
  | y :: l' => if String.eqb x y then Some O else S <$> index x l'
  end.

(** [if not x in l: l.append(x)] *)
Definition append_new (l : list string) (x : string) : list string :=
  if bool_decide (x ∈ l) then l else l ++ [x].

(** ** Run.py: numbers *)

(** [float(n)] *)
Definition float_of_int (n : Z) : Q := inject_Z n.

(** [timedelta.total_seconds()] of a duration in microseconds. *)
Definition total_seconds (microseconds : Z) : Q := microseconds # 1000000.

(** [a / b] on Python floats. *)
Definition truediv {S : Type} (a b : Q) : M S Q :=
  if Qeq_bool b 0 then raise ZeroDivisionError else ret (a / b)%Q.

Definition Qltb (a b : Q) : bool := negb (Qle_bool b a).

(** ** Run.py: test descriptions *)

Record Test : Type := mkTest {
  LangTech : string;       (* Test[0] *)
  CompOpt : string;        (* Test[1] *)
  BuildCommand1 : string;  (* Test[2] *)
  BuildCommand2 : string;  (* Test[3] *)
  ExecCommand : string;    (* Test[4] *)
  Nrpt : Z;                (* Test[5] *)
  CleanupCommand : string  (* Test[6] *)
}.

(** A command: a single string, or a list of strings. *)
Inductive command : Type :=
| CmdStr (s : string)
| CmdList (l : list string).

(** How a subprocess ended: it ran to completion and was reaped, or Popen
    or communicate raised, or the user pressed ctrl-C meanwhile. *)
Inductive process : Type :=
| Exited (stdout stderr : string) (returncode : Z)
| Failed
| Interrupted.

(** ** Run.py: the program *)

Section Run.
(** The world outside the program: what running an argument list through
    [subprocess.Popen] and [communicate] does, and the clock read by
    [datetime.datetime.now()], in microseconds. *)
Variable World : Type.
Variable popen : list string -> World -> process * World.
Variable now : World -> Z * World.

(** Built-ins of the interpreter that are taken as given: [str()] of a list
    and of a bytes object, and the conversions [%w.pf] and [%w.pg] of a
    float. *)
Variable str_of_list : list string -> string.
Variable str_of_bytes : string -> string.
Variable format_f : nat -> nat -> Q -> string.
Variable format_g : nat -> nat -> Q -> string.

(** The state of the run.  [spawned] and [observed] are history variables
    that the program does not have: the argument lists handed to Popen so
    far, and the (language, compiler, time per 1000 iterations) of every test
    that came back without an error status. *)
Record State : Type := mkState {
  world : World;
  terminal : list string;
  Results : ndarray Q;
  spawned : list (list string);
  observed : list (string * string * Q)
}.

Definition set_world (w : World) (s : State) : State :=
  mkState w (terminal s) (Results s) (spawned s) (observed s).
Definition set_terminal (t : list string) (s : State) : State :=
  mkState (world s) t (Results s) (spawned s) (observed s).
Definition set_Results (r : ndarray Q) (s : State) : State :=
  mkState (world s) (terminal s) r (spawned s) (observed s).
Definition set_spawned (l : list (list string)) (s : State) : State :=
  mkState (world s) (terminal s) (Results s) l (observed s).
Definition set_observed (l : list (string * string * Q)) (s : State) : State :=
  mkState (world s) (terminal s) (Results s) (spawned s) l.

(** [print(...)] *)
Definition print (args : list string) : M State unit :=
  fun s => Ret tt (set_terminal (terminal s ++ [join_spaces args]) s).

(** [datetime.datetime.now()] *)
Definition datetime_now : M State Z :=
  fun s => let (t, w) := now (world s) in Ret t (set_world w s).

(** [subprocess.Popen(CommandList, ...)] up to [Proc.wait()]. *)
Definition Popen (CommandList : list string) : M State process :=
  fun s => let (p, w) := popen CommandList (world s) in
           Ret p (set_spawned (spawned s ++ [CommandList]) (set_world w s)).

Definition observe (lang comp : string) (k : Q) : M State unit :=
  fun s => Ret tt (set_observed (observed s ++ [(lang, comp, k)]) s).

Definition str_of_command (Command : command) : string :=
  match Command with
  | CmdStr s => s
  | CmdList l => str_of_list l
  end.

Definition str_of_text (t : text) : string :=
  match t with
  | Str s => s
  | Bytes b => str_of_bytes b
  end.

(** Truth value of [None] or a string. *)
Definition truthy (Status : option string) : bool :=
  match Status with
  | None => false
  | Some s => negb (String.eqb s "")
  end.

(** [Status == None] *)
Definition is_None (Status : option string) : bool :=
  match Status with
  | None => true
  | Some _ => false
  end.

Definition str_of_status (Status : option string) : string :=
  match Status with
  | None => "None"
  | Some s => s
  end.

(** *** ExecuteCommand *)

Definition ExecuteCommand (Command : command)
  : M State (option string * text * text) :=
  let Status := @None string in
  let CommandList := match Command with
                     | CmdStr s => split s
                     | CmdList l => l
                     end in
  let Output := Str "" in
  let Errors := Str "" in
  Proc <- Popen CommandList ;;
  match Proc with
  | Interrupted => raise (SystemExit 0)
  | Failed =>
      ret (Some ("Error executing '" +:+ str_of_command Command +:+ "'"),
           Output, Errors)
  | Exited stdout stderr Result =>
      match decode_utf8 stdout with
      | None =>
          ret (Some ("Error executing '" +:+ str_of_command Command +:+ "'"),
               Bytes stdout, Bytes stderr)
      | Some Output =>
          match decode_utf8 stderr with
          | None =>
              ret (Some ("Error executing '" +:+ str_of_command Command +:+ "'"),
                   Str Output, Bytes stderr)
          | Some Errors =>
              if negb (Result =? 0)
              then ret (Some ("Error executing '" +:+ str_of_command Command +:+ "'"),
                        Str Output, Str Errors)
              else ret (Status, Str Output, Str Errors)
          end
      end
  end.

(** *** BuildAndTimeProgram *)

(** ["%s %d %d %d" % (ExecCommand,Nrpt,Nx,Ny)] *)
Definition run_command (ExecCommand : string) (Nrpt Nx Ny : Z) : command :=
  CmdStr (ExecCommand +:+ " " +:+ pretty Nrpt +:+ " " +:+ pretty Nx
          +:+ " " +:+ pretty Ny).

(** The build commands.  [Errors] is not bound until a command has run;
    the empty string stands for that. *)
Definition build_stage (BuildCommand1 BuildCommand2 : string)
  : M State (option string * text) :=
  let Status := @None string in
  if negb (String.eqb BuildCommand1 "") then
    r <- ExecuteCommand (CmdStr BuildCommand1) ;;
    let '(Status, _, Errors) := r in
    if is_None Status then
      if negb (String.eqb BuildCommand2 "") then
        r <- ExecuteCommand (CmdStr BuildCommand2) ;;
        let '(Status, _, Errors) := r in
        ret (Status, Errors)
      else ret (Status, Errors)
    else ret (Status, Errors)
  else ret (Status, Str "").

(** [Start = now(); r = ExecuteCommand(Command); End = now();
    Elapsed = End - Start], with [Elapsed.total_seconds()]. *)
Definition timed_run (Command : command)
  : M State (option string * text * text * Q) :=
  Start <- datetime_now ;;
  r <- ExecuteCommand Command ;;
  End <- datetime_now ;;
  let Elapsed := End - Start in
  ret (r, total_seconds Elapsed).

(** The cleanup command, run whatever came before. *)
Definition cleanup_stage (CleanupCommand : string)
    (Status : option string) (Secs : Q) (Errors : text)
  : M State (option string * Q * text) :=
  if negb (String.eqb CleanupCommand "") then
    r <- ExecuteCommand (CmdStr CleanupCommand) ;;
    let '(CleanStatus, _, CleanErrors) := r in
    if is_None Status then ret (CleanStatus, Secs, CleanErrors)
    else ret (Status, Secs, Errors)
  else ret (Status, Secs, Errors).

Definition BuildAndTimeProgram
    (BuildCommand1 BuildCommand2 ExecCommand : string) (Nrpt Nx Ny : Z)
    (CleanupCommand : string) : M State (option string * Q * text) :=
  let Secs := 0%Q in
  let Nrpt := if Nrpt <? 2 then 2 else Nrpt in
  built <- build_stage BuildCommand1 BuildCommand2 ;;
  let '(Status, Errors) := built in
  timed <-
    (if is_None Status then
       full <- timed_run (run_command ExecCommand Nrpt Nx Ny) ;;
       let Secs := snd full in
       one <- timed_run (run_command ExecCommand 1 Nx Ny) ;;
       let '(Status, _, Errors) := fst one in
       Secs <- truediv ((Secs - snd one) * float_of_int Nrpt)%Q
                       (float_of_int (Nrpt - 1)) ;;
       ret (Status, Secs, Errors)
     else ret (Status, Secs, Errors)) ;;
  let '(Status, Secs, Errors) := timed in
  cleanup_stage CleanupCommand Status Secs Errors.

(** *** ListVersion *)

(** [t.split("\n")]; a bytes object cannot be split by a [str]. *)
Definition split_lines (t : text) : M State (list string) :=
  match t with
  | Str s => ret (split_on "010"%char s)
  | Bytes _ => raise TypeError
  end.

(** [if (len(Lines) > 0) : if (Lines[0] != "") : print (Lang,":",Lines[0])] *)
Definition print_first_line (Lang : string) (Lines : list string) : M State unit :=
  match Lines with
  | first :: _ =>
      if negb (String.eqb first "") then print [Lang; ":"; first] else ret tt
  | [] => ret tt
  end.

Definition ListVersion (Lang Command : string) : M State unit :=
  r <- ExecuteCommand (CmdStr Command) ;;
  let '(Status, Output, Errors) := r in
  if truthy Status then
    print ["Unable to get version for"; Lang; ":"; str_of_status Status]
  else
    OutputLines <- split_lines Output ;;
    ErrorLines <- split_lines Errors ;;
    print_first_line Lang OutputLines ;;
    print_first_line Lang ErrorLines.

(** *** The main program *)

(** The table of tests, and the three numbers read from the command line. *)
Variable FullTests : list Test.
Variables Ntests Nx Ny : Z.

(** The lists of languages and of compilers, without repeats, sorted. *)
Definition LangTechList : list string :=
  sorted_by_lower (foldl append_new [] (LangTech <$> FullTests)).
Definition CompOptList : list string :=
  sorted_by_lower (foldl append_new [] (CompOpt <$> FullTests)).
Definition NLangTech : nat := length LangTechList.
Definition NCompOpt : nat := length CompOptList.

(** [Results[i,j]] and [Results[i,j] = v] *)
Definition get_Result (i j : nat) : M State Q :=
  fun s => lift_option IndexError (item (Results s) i j) s.
Definition put_Result (i j : nat) (v : Q) : M State unit :=
  fun s => match set_item (Results s) i j v with
           | Some r => Ret tt (set_Results r s)
           | None => Raise IndexError s
           end.

(** "Record the result (the time to perform 1000 iterations) in the
    Results array, using the indices for the language and compiler used." *)
Definition record_result (LangTech CompOpt : string) (KIterSecs : Q)
  : M State unit :=
  LangTechIndex <- lift_option ValueError (index LangTech LangTechList) ;;
  CompOptIndex <- lift_option ValueError (index CompOpt CompOptList) ;;
  if Qltb 0 KIterSecs then
    LowestSoFar <- get_Result LangTechIndex CompOptIndex ;;
    if Qle_bool LowestSoFar 0 then
      put_Result LangTechIndex CompOptIndex KIterSecs
    else if Qltb KIterSecs LowestSoFar then
      put_Result LangTechIndex CompOptIndex KIterSecs
    else ret tt
  else ret tt.

(** The line written for a test that ran. *)
Definition timing_line (test : Test) (Secs KIterSecs : Q) : string :=
  rjust 24 (LangTech test) +:+ " " +:+ rjust 20 (CompOpt test)
  +:+ " Rept: " +:+ rjust 8 (pretty (Nrpt test))
  +:+ " Elap: " +:+ format_f 10 2 Secs
  +:+ " 1K Iter: " +:+ format_g 10 2 KIterSecs.

(** The body of the loop over the tests. *)
Definition time_test (test : Test) : M State unit :=
  let LangTech := LangTech test in
  let CompOpt := CompOpt test in
  let Nrpt := Nrpt test in
  r <- BuildAndTimeProgram (BuildCommand1 test) (BuildCommand2 test)
         (ExecCommand test) Nrpt Nx Ny (CleanupCommand test) ;;
  let '(Status, Secs, Errors) := r in
  if truthy Status then
    print [LangTech; CompOpt; "Error:"; str_of_status Status; str_of_text Errors]
  else
    q <- truediv Secs (float_of_int Nrpt) ;;
    let KIterSecs := (q * 1000)%Q in
    print [timing_line test Secs KIterSecs] ;;
    observe LangTech CompOpt KIterSecs ;;
    record_result LangTech CompOpt KIterSecs.

(** One pass through the full set of tests. *)
Definition run_pass (ITest : nat) : M State unit :=
  print [""] ;;
  (if Ntests >? 1 then
     print ["Starting pass"; pretty (Z.of_nat ITest + 1); "of"; pretty Ntests;
            "through full set of tests"]
   else print ["Running through full set of timing tests"]) ;;
  print [""] ;;
  print ["Arrays used:"; pretty Nx; "columns,"; pretty Ny; "rows"] ;;
  print [""] ;;
  for_ FullTests time_test.

(** The search for the benchmark: state of the loop, and its body. *)
Record fastest : Type := mkFastest {
  First : bool;
  FastestLangTech : string;
  FastestCompOpt : string;
  BenchKIterSecs : Q
}.

Definition look_at (LangTechIndex CompOptIndex : nat) (f : fastest)
  : M State fastest :=
  Result <- get_Result LangTechIndex CompOptIndex ;;
  let '(FastestSoFar, First') :=
    if Qltb 0 Result then
      if First f then (true, false)
      else (Qltb Result (BenchKIterSecs f), First f)
    else (false, First f) in
  if FastestSoFar then
    lang <- lift_option IndexError (LangTechList !! LangTechIndex) ;;
    comp <- lift_option IndexError (CompOptList !! CompOptIndex) ;;
    ret (mkFastest First' lang comp Result)
  else ret (mkFastest First' (FastestLangTech f) (FastestCompOpt f)
              (BenchKIterSecs f)).

Definition find_benchmark : M State fastest :=
  for_acc (range (Z.of_nat NLangTech)) (fun LangTechIndex f =>
    for_acc (range (Z.of_nat NCompOpt)) (fun CompOptIndex f =>
      look_at LangTechIndex CompOptIndex f) f)
    (mkFastest true "" "" 1).

(** The line of the summary for a test. *)
Definition summary_line (test : Test) (KIterSecs RelativeSpeed : Q) : string :=
  rjust 24 (LangTech test) +:+ " " +:+ rjust 20 (CompOpt test)
  +:+ " 1K Iter: " +:+ format_g 10 2 KIterSecs
  +:+ ", Relative time " +:+ format_f 12 2 RelativeSpeed.

(** The summary of relative speeds.  The benchmark that is passed is
    positive, so the division is never by zero. *)
Definition summarise (Bench : Q) (test : Test) : M State unit :=
  let LangTech := LangTech test in
  let CompOpt := CompOpt test in
  LangTechIndex <- lift_option ValueError (index LangTech LangTechList) ;;
  CompOptIndex <- lift_option ValueError (index CompOpt CompOptList) ;;
  KIterSecs <- get_Result LangTechIndex CompOptIndex ;;
  let RelativeSpeed := (KIterSecs / Bench)%Q in
  print [summary_line test KIterSecs RelativeSpeed].

Definition print_summary (Bench : Q) : M State unit :=
  print [""] ;;
  print ["Summary of relative speeds:"] ;;
  print [""] ;;
  for_ FullTests (summarise Bench).

(** The table in .csv format. *)
Definition csv_cell (Bench : Q) (CompOptIndex LangTechIndex : nat)
  : M State string :=
  r <- get_Result LangTechIndex CompOptIndex ;;
  let Result := (r / Bench)%Q in
  let ResultString := "" in
  ret (if Qltb 0 Result then format_f 0 2 Result else ResultString).

Definition print_row (Bench : Q) (CompOpt : string) : M State unit :=
  CompOptIndex <- lift_option ValueError (index CompOpt CompOptList) ;;
  Line <- for_acc (range (Z.of_nat NLangTech)) (fun LangTechIndex Line =>
            ResultString <- csv_cell Bench CompOptIndex LangTechIndex ;;
            ret (Line +:+ "," +:+ ResultString)) CompOpt ;;
  print [Line].

Definition print_table (Bench : Q) : M State unit :=
  print [""] ;;
  print [foldl (fun Line LangTech => Line +:+ "," +:+ LangTech)
           "Compiler" LangTechList] ;;
  for_ CompOptList (print_row Bench).

(** The program from the creation of [Results] on; the history of the
    table starts with the table. *)
Definition run_tests : M State unit :=
  (fun s => Ret tt (set_observed []
                      (set_Results (zeros 0%Q NLangTech NCompOpt) s))) ;;
  for_ (range Ntests) run_pass.

Definition report : M State unit :=
  f <- find_benchmark ;;
  print ["Fastest combination is "; FastestLangTech f; "and"; FastestCompOpt f] ;;
  print_summary (BenchKIterSecs f) ;;
  print_table (BenchKIterSecs f).

(** The version queries that come first. *)
Definition list_versions : M State unit :=
  print [""] ;;
  print ["Versions:"] ;;
  print [""] ;;
  ListVersion "Clang    " "c++ --version" ;;
  ListVersion "Assembler" "c++ --version" ;;
  ListVersion "Gcc      " "g++ --version" ;;
  ListVersion "Gfortran " "gfortran --version" ;;
  ListVersion "R        " "Rscript --version" ;;
  ListVersion "Python2  " "python --version" ;;
  ListVersion "Python3  " "python3 --version" ;;
  ListVersion "Java     " "java -version" ;;
  ListVersion "Node.js  " "node --version" ;;
  ListVersion "Tcl      " "tclsh ver.tcl" ;;
  ListVersion "Swift    " "xcrun swiftc --version" ;;
  ListVersion "Julia    " "julia --version" ;;
  ListVersion "Rust     " "rustc --version" ;;
  ListVersion "Perl/PDL " "pdl -V".

Definition main : M State unit :=
  list_versions ;; run_tests ;; report.

End Run.

Arguments world {World} _.
Arguments terminal {World} _.
Arguments Results {World} _.
Arguments spawned {World} _.
Arguments observed {World} _.
Arguments set_world {World} _ _.
Arguments set_terminal {World} _ _.
Arguments set_Results {World} _ _.
Arguments set_spawned {World} _ _.
Arguments set_observed {World} _ _.

(** The lines that a version query writes for one output stream: its first
    line behind the name, unless that line is empty. *)
Definition version_lines (Lang : string) (stream : string) : list string :=
  match split_on "010"%char stream with
  | first :: _ =>
      if negb (String.eqb first "") then [join_spaces [Lang; ":"; first]] else []
  | [] => []
  end.

(** ** Vocabulary for the results table *)

(** A statement that leaves the table, its history and the terminal alone. *)
Definition silent {World A : Type} (c : M (State World) A) : Prop :=
  forall s : State World,
    Results (final_state (c s)) = Results s /\
    observed (final_state (c s)) = observed s /\
    terminal (final_state (c s)) = terminal s.

(** The positive times per 1000 iterations observed for a pair of labels. *)
Definition positive_times (lang comp : string) (obs : list (string * string * Q))
  : list Q :=
  omap (fun o : string * string * Q =>
          let '(l, c, k) := o in
          if String.eqb l lang && String.eqb c comp && Qltb 0 k
          then Some k else None) obs.

(** [q] is the lowest of [times], or zero when there are none. *)
Definition is_lowest (q : Q) (times : list Q) : Prop :=
  (times = [] /\ q = 0%Q) \/
  (q ∈ times /\ forall k : Q, k ∈ times -> (q <= k)%Q).

(** What the update of a cell leaves in it. *)
Definition updated_cell (LowestSoFar KIterSecs : Q) : Q :=
  if Qle_bool LowestSoFar 0 then KIterSecs
  else if Qltb KIterSecs LowestSoFar then KIterSecs
  else LowestSoFar.

(** The invariant of the table: it has its shape; a cell that is not zero
    holds a positive time that was observed; the cell of a pair of labels
    holds the lowest positive time observed for the pair, or zero. *)
Definition table_ok (FullTests : list Test) (R : ndarray Q)
    (obs : list (string * string * Q)) : Prop :=
  has_shape (length (LangTechList FullTests)) (length (CompOptList FullTests)) R /\
  (forall i j q, item R i j = Some q ->
     q = 0%Q \/ ((0 < q)%Q /\ exists lang comp, (lang, comp, q) ∈ obs)) /\
  (forall lang comp i j,
     index lang (LangTechList FullTests) = Some i ->
     index comp (CompOptList FullTests) = Some j ->
     exists q, item R i j = Some q /\
               is_lowest q (positive_times lang comp obs)).

(** What the search for the benchmark has found among the cells [seen]:
    nothing positive, and then it still has its initial values; or the
    lowest positive entry, with the labels of a cell that holds it. *)
Definition benchmark_of (FullTests : list Test) (R : ndarray Q)
    (seen : nat -> nat -> Prop) (f : fastest) : Prop :=
  (f = mkFastest true "" "" 1 /\
   forall i j q, seen i j -> item R i j = Some q -> ~ (0 < q)%Q) \/
  (First f = false /\ (0 < BenchKIterSecs f)%Q /\
   (exists i j, seen i j /\ item R i j = Some (BenchKIterSecs f) /\
      LangTechList FullTests !! i = Some (FastestLangTech f) /\
      CompOptList FullTests !! j = Some (FastestCompOpt f)) /\
   forall i j q, seen i j -> item R i j = Some q -> (0 < q)%Q ->
                 (BenchKIterSecs f <= q)%Q).

(** ** Vocabulary for the report *)

(** The cell of the table for a pair of labels. *)
Definition cell_of (FullTests : list Test) (R : ndarray Q) (lang comp : string)
  : option Q :=
  match index lang (LangTechList FullTests), index comp (CompOptList FullTests) with
  | Some i, Some j => item R i j
  | _, _ => None
  end.

(** The lines of the summary: for every test its time per 1000 iterations
    and that time divided by the benchmark. *)
Definition summary_lines (format_f format_g : nat -> nat -> Q -> string)
    (FullTests : list Test) (Bench : Q) (R : ndarray Q) : list string :=
  [""; "Summary of relative speeds:"; ""]
  ++ ((fun test : Test =>
         match cell_of FullTests R (LangTech test) (CompOpt test) with
         | Some KIterSecs =>
             summary_line format_f format_g test KIterSecs (KIterSecs / Bench)%Q
         | None => ""
         end) <$> FullTests).

(** A field of the .csv table: the entry divided by the benchmark, to two
    decimals, or nothing when that is not positive. *)
Definition cell_text (format_f : nat -> nat -> Q -> string) (Bench : Q)
    (R : ndarray Q) (CompOptIndex LangTechIndex : nat) : string :=
  match item R LangTechIndex CompOptIndex with
  | Some r => if Qltb 0 (r / Bench)%Q then format_f 0%nat 2%nat (r / Bench)%Q else ""
  | None => ""
  end.

Definition row_text (format_f : nat -> nat -> Q -> string)
    (FullTests : list Test) (Bench : Q) (R : ndarray Q) (comp : string) : string :=
  match index comp (CompOptList FullTests) with
  | Some j =>
      foldl (fun Line i => Line +:+ "," +:+ cell_text format_f Bench R j i)
        comp (seq 0 (NLangTech FullTests))
  | None => ""
  end.

Definition table_lines (format_f : nat -> nat -> Q -> string)
    (FullTests : list Test) (Bench : Q) (R : ndarray Q) : list string :=
  [""; foldl (fun Line LangTech => Line +:+ "," +:+ LangTech) "Compiler"
         (LangTechList FullTests)]
  ++ (row_text format_f FullTests Bench R <$> CompOptList FullTests).

(** ** Run.py: the table of tests *)

Module Registry.

Definition RawCclang : Test :=
  mkTest "C : raw" "clang"
    "c++ -c csub.cpp -o csub.o"
    "c++ -o cmain cmain.cpp csub.o"
    "./cmain" 100000 "rm -f cmain csub.o".
Definition RawCclangO : Test :=
  mkTest "C : raw" "clang -O"
    "c++ -c -O csub.cpp -o csub.o"
    "c++ -o cmain -O cmain.cpp csub.o"
    "./cmain" 1000000 "rm -f cmain csub.o".
Definition RawCclangO1 : Test :=
  mkTest "C : raw" "clang -O1"
    "c++ -c -O1 csub.cpp -o csub.o"
    "c++ -o cmain -O1 cmain.cpp csub.o"
    "./cmain" 1000000 "rm -f cmain csub.o".
Definition RawCclangO2 : Test :=
  mkTest "C : raw" "clang -O2"
    "c++ -c -O2 csub.cpp -o csub.o"
    "c++ -o cmain -O2 cmain.cpp csub.o"
    "./cmain" 1000000 "rm -f cmain csub.o".
Definition RawCclangO3 : Test :=
  mkTest "C : raw" "clang -O3"
    "c++ -c -O3 csub.cpp -o csub.o"
    "c++ -o cmain -O3 cmain.cpp csub.o"
    "./cmain" 1000000 "rm -f cmain csub.o".
Definition RawCclangO3native : Test :=
  mkTest "C : raw" "clang -O3 native"
    "c++ -c -O3 -march=native csub.cpp -o csub.o"
    "c++ -o cmain -O3 -march=native cmain.cpp csub.o"
    "./cmain" 5000000 "rm -f cmain csub.o".
Definition RawCgcc : Test :=
  mkTest "C : raw" "g++"
    "g++ -c csub.cpp -o csub.o"
    "g++ -o cmain cmain.cpp csub.o"
    "./cmain" 100000 "rm -f cmain csub.o".
Definition RawCgccO : Test :=
  mkTest "C : raw" "g++ -O"
    "g++ -c -O csub.cpp -o csub.o"
    "g++ -o cmain -O cmain.cpp csub.o"
    "./cmain" 1000000 "rm -f cmain csub.o".
Definition RawCgccO1 : Test :=
  mkTest "C : raw" "g++ -O1"
    "g++ -c -O1 csub.cpp -o csub.o"
    "g++ -o cmain -O1 cmain.cpp csub.o"
    "./cmain" 1000000 "rm -f cmain csub.o".
Definition RawCgccO2 : Test :=
  mkTest "C : raw" "g++ -O2"
    "g++ -c -O2 csub.cpp -o csub.o"
    "g++ -o cmain -O2 cmain.cpp csub.o"
    "./cmain" 1000000 "rm -f cmain csub.o".
Definition RawCgccO3 : Test :=
  mkTest "C : raw" "g++ -O3"
    "g++ -c -O3 csub.cpp -o csub.o"
    "g++ -o cmain -O3 cmain.cpp csub.o"
    "./cmain" 1000000 "rm -f cmain csub.o".
Definition RawCgccO3native : Test :=
  mkTest "C : raw" "g++ -O3 native"
    "g++ -c -O3 -march=native csub.cpp -o csub.o"
    "g++ -o cmain -O3 -march=native cmain.cpp csub.o"
    "./cmain" 5000000 "rm -f cmain csub.o".
Definition BoostCclang : Test :=
  mkTest "C++ : Boost" "clang"
    "c++ -c cbsub.cpp -o cbsub.o"
    "c++ -o cbmain cbmain.cpp cbsub.o"
    "./cbmain" 5000 "rm -f cbmain cbsub.o".
Definition BoostCclangO : Test :=
  mkTest "C++ : Boost" "clang -O"
    "c++ -c -O cbsub.cpp -o cbsub.o"
    "c++ -o cbmain -O cbmain.cpp cbsub.o"
    "./cbmain" 100000 "rm -f cbmain cbsub.o".
Definition BoostCclangO1 : Test :=
  mkTest "C++ : Boost" "clang -O1"
    "c++ -c -O1 cbsub.cpp -o cbsub.o"
    "c++ -o cbmain -O1 cbmain.cpp cbsub.o"
    "./cbmain" 5000 "rm -f cbmain cbsub.o".
Definition BoostCclangO2 : Test :=
  mkTest "C++ : Boost" "clang -O2"
    "c++ -c -O2 cbsub.cpp -o cbsub.o"
    "c++ -o cbmain -O2 cbmain.cpp cbsub.o"
    "./cbmain" 100000 "rm -f cbmain cbsub.o".
Definition BoostCclangO3 : Test :=
  mkTest "C++ : Boost" "clang -O3"
    "c++ -c -O3 cbsub.cpp -o cbsub.o"
    "c++ -o cbmain -O3 cbmain.cpp cbsub.o"
    "./cbmain" 100000 "rm -f cbmain cbsub.o".
Definition BoostCclangO3native : Test :=
  mkTest "C++ : Boost" "clang -O3 native"
    "c++ -c -O3 -march=native cbsub.cpp -o cbsub.o"
    "c++ -o cbmain -O3 -march=native cbmain.cpp cbsub.o"
    "./cbmain" 100000 "rm -f cbmain cbsub.o".
Definition BoostCgcc : Test :=
  mkTest "C++ : Boost" "g++"
    "g++ -c cbsub.cpp -o cbsub.o"
    "g++ -o cbmain cbmain.cpp cbsub.o"
    "./cbmain" 5000 "rm -f cbmain cbsub.o".
Definition BoostCgccO : Test :=
  mkTest "C++ : Boost" "g++ -O"
    "g++ -c -O cbsub.cpp -o cbsub.o"
    "g++ -o cbmain -O cbmain.cpp cbsub.o"
    "./cbmain" 100000 "rm -f cbmain cbsub.o".
Definition BoostCgccO1 : Test :=
  mkTest "C++ : Boost" "g++ -O1"
    "g++ -c -O1 cbsub.cpp -o cbsub.o"
    "g++ -o cbmain -O1 cbmain.cpp cbsub.o"
    "./cbmain" 3000 "rm -f cbmain cbsub.o".
Definition BoostCgccO2 : Test :=
  mkTest "C++ : Boost" "g++ -O2"
    "g++ -c -O2 cbsub.cpp -o cbsub.o"
    "g++ -o cbmain -O2 cbmain.cpp cbsub.o"
    "./cbmain" 100000 "rm -f cbmain cbsub.o".
Definition BoostCgccO3 : Test :=
  mkTest "C++ : Boost" "g++ -O3"
    "g++ -c -O3 cbsub.cpp -o cbsub.o"
    "g++ -o cbmain -O3 cbmain.cpp cbsub.o"
    "./cbmain" 100000 "rm -f cbmain cbsub.o".
Definition BoostCgccO3native : Test :=
  mkTest "C++ : Boost" "g++ -O3 native"
    "g++ -c -O3 -march=native cbsub.cpp -o cbsub.o"
    "g++ -o cbmain -O3 -march=native cbmain.cpp cbsub.o"
    "./cbmain" 100000 "rm -f cbmain cbsub.o".
Definition BoostCclangNoAssert : Test :=
  mkTest "C++ : Boost no assert" "clang"
    "c++ -c -DBOOST_DISABLE_ASSERTS cbsub.cpp -o cbsub.o"
    "c++ -o cbmain -DBOOST_DISABLE_ASSERTS cbmain.cpp cbsub.o"
    "./cbmain" 5000 "rm -f cbmain cbsub.o".
Definition BoostCclangONoAssert : Test :=
  mkTest "C++ : Boost no assert" "clang -O"
    "c++ -c -O -DBOOST_DISABLE_ASSERTS cbsub.cpp -o cbsub.o"
    "c++ -o cbmain -O -DBOOST_DISABLE_ASSERTS cbmain.cpp cbsub.o"
    "./cbmain" 100000 "rm -f cbmain cbsub.o".
Definition BoostCclangO1NoAssert : Test :=
  mkTest "C++ : Boost no assert" "clang -O1"
    "c++ -c -O1 -DBOOST_DISABLE_ASSERTS cbsub.cpp -o cbsub.o"
    "c++ -o cbmain -O1 -DBOOST_DISABLE_ASSERTS cbmain.cpp cbsub.o"
    "./cbmain" 3000 "rm -f cbmain cbsub.o".
Definition BoostCclangO2NoAssert : Test :=
  mkTest "C++ : Boost no assert" "clang -O2"
    "c++ -c -O2 -DBOOST_DISABLE_ASSERTS cbsub.cpp -o cbsub.o"
    "c++ -o cbmain -O2 -DBOOST_DISABLE_ASSERTS cbmain.cpp cbsub.o"
    "./cbmain" 100000 "rm -f cbmain cbsub.o".
Definition BoostCclangO3NoAssert : Test :=
  mkTest "C++ : Boost no assert" "clang -O3"
    "c++ -c -O3 -DBOOST_DISABLE_ASSERTS cbsub.cpp -o cbsub.o"
    "c++ -o cbmain -O3 -DBOOST_DISABLE_ASSERTS cbmain.cpp cbsub.o"
    "./cbmain" 100000 "rm -f cbmain cbsub.o".
Definition BoostCclangO3nativeNoAssert : Test :=
  mkTest "C++ : Boost no assert" "clang -O3 native"
    "c++ -c -O3 -march=native -DBOOST_DISABLE_ASSERTS cbsub.cpp -o cbsub.o"
    "c++ -o cbmain -O3 -march=native -DBOOST_DISABLE_ASSERTS cbmain.cpp cbsub.o"
    "./cbmain" 100000 "rm -f cbmain cbsub.o".
Definition BoostCgccNoAssert : Test :=
  mkTest "C++ : Boost no assert" "g++"
    "g++ -c -DBOOST_DISABLE_ASSERTS cbsub.cpp -o cbsub.o"
    "g++ -o cbmain -DBOOST_DISABLE_ASSERTS cbmain.cpp cbsub.o"
    "./cbmain" 5000 "rm -f cbmain cbsub.o".
Definition BoostCgccONoAssert : Test :=
  mkTest "C++ : Boost no assert" "g++ -O"
    "g++ -c -O -DBOOST_DISABLE_ASSERTS cbsub.cpp -o cbsub.o"
    "g++ -o cbmain -O -DBOOST_DISABLE_ASSERTS cbmain.cpp cbsub.o"
    "./cbmain" 100000 "rm -f cbmain cbsub.o".
Definition BoostCgccO1NoAssert : Test :=
  mkTest "C++ : Boost no assert" "g++ -O1"
    "g++ -c -O1 -DBOOST_DISABLE_ASSERTS cbsub.cpp -o cbsub.o"
    "g++ -o cbmain -O1 -DBOOST_DISABLE_ASSERTS cbmain.cpp cbsub.o"
    "./cbmain" 100000 "rm -f cbmain cbsub.o".
Definition BoostCgccO2NoAssert : Test :=
  mkTest "C++ : Boost no assert" "g++ -O2"
    "g++ -c -O2 -DBOOST_DISABLE_ASSERTS cbsub.cpp -o cbsub.o"
    "g++ -o cbmain -O2 -DBOOST_DISABLE_ASSERTS cbmain.cpp cbsub.o"
    "./cbmain" 100000 "rm -f cbmain cbsub.o".
Definition BoostCgccO3NoAssert : Test :=
  mkTest "C++ : Boost no assert" "g++ -O3"
    "g++ -c -O3 -DBOOST_DISABLE_ASSERTS cbsub.cpp -o cbsub.o"
    "g++ -o cbmain -O3 -DBOOST_DISABLE_ASSERTS cbmain.cpp cbsub.o"
    "./cbmain" 100000 "rm -f cbmain cbsub.o".
Definition BoostCgccO3nativeNoAssert : Test :=
  mkTest "C++ : Boost no assert" "g++ -O3 native"
    "g++ -c -O3 -march=native -DBOOST_DISABLE_ASSERTS cbsub.cpp -o cbsub.o"
    "g++ -o cbmain -O3 -march=native -DBOOST_DISABLE_ASSERTS cbmain.cpp cbsub.o"
    "./cbmain" 100000 "rm -f cbmain cbsub.o".
Definition CNumRclang : Test :=
  mkTest "C : Num. rec." "clang"
    "c++ -c cnrsub.cpp -o cnrsub.o"
    "c++ -o cnrmain cnrmain.cpp cnrsub.o"
    "./cnrmain" 100000 "rm -f cnrmain cnrsub.o".
Definition CNumRclangO : Test :=
  mkTest "C : Num. rec." "clang -O"
    "c++ -c -O cnrsub.cpp -o cnrsub.o"
    "c++ -o cnrmain -O cnrmain.cpp cnrsub.o"
    "./cnrmain" 1000000 "rm -f cnrmain cnrsub.o".
Definition CNumRclangO1 : Test :=
  mkTest "C : Num. rec." "clang -O1"
    "c++ -c -O1 cnrsub.cpp -o cnrsub.o"
    "c++ -o cnrmain -O1 cnrmain.cpp cnrsub.o"
    "./cnrmain" 1000000 "rm -f cnrmain cnrsub.o".
Definition CNumRclangO2 : Test :=
  mkTest "C : Num. rec." "clang -O2"
    "c++ -c -O2 cnrsub.cpp -o cnrsub.o"
    "c++ -o cnrmain -O2 cnrmain.cpp cnrsub.o"
    "./cnrmain" 1000000 "rm -f cnrmain cnrsub.o".
Definition CNumRclangO3 : Test :=
  mkTest "C : Num. rec." "clang -O3"
    "c++ -c -O3 cnrsub.cpp -o cnrsub.o"
    "c++ -o cnrmain -O3 cnrmain.cpp cnrsub.o"
    "./cnrmain" 1000000 "rm -f cnrmain cnrsub.o".
Definition CNumRclangO3native : Test :=
  mkTest "C : Num. rec." "clang -O3 native"
    "c++ -c -O3 -march=native cnrsub.cpp -o cnrsub.o"
    "c++ -o cnrmain -O3 -march=native cnrmain.cpp cnrsub.o"
    "./cnrmain" 5000000 "rm -f cnrmain cnrsub.o".
Definition CNumRgcc : Test :=
  mkTest "C : Num. rec." "g++"
    "g++ -c cnrsub.cpp -o cnrsub.o"
    "g++ -o cnrmain cnrmain.cpp cnrsub.o"
    "./cnrmain" 100000 "rm -f cnrmain cnrsub.o".
Definition CNumRgccO : Test :=
  mkTest "C : Num. rec." "g++ -O"
    "g++ -c -O cnrsub.cpp -o cnrsub.o"
    "g++ -o cnrmain -O cnrmain.cpp cnrsub.o"
    "./cnrmain" 500000 "rm -f cnrmain cnrsub.o".
Definition CNumRgccO1 : Test :=
  mkTest "C : Num. rec." "g++ -O1"
    "g++ -c -O1 cnrsub.cpp -o cnrsub.o"
    "g++ -o cnrmain -O1 cnrmain.cpp cnrsub.o"
    "./cnrmain" 500000 "rm -f cnrmain cnrsub.o".
Definition CNumRgccO2 : Test :=
  mkTest "C : Num. rec." "g++ -O2"
    "g++ -c -O2 cnrsub.cpp -o cnrsub.o"
    "g++ -o cnrmain -O2 cnrmain.cpp cnrsub.o"
    "./cnrmain" 1000000 "rm -f cnrmain cnrsub.o".
Definition CNumRgccO3 : Test :=
  mkTest "C : Num. rec." "g++ -O3"
    "g++ -c -O3 cnrsub.cpp -o cnrsub.o"
    "g++ -o cnrmain -O3 cnrmain.cpp cnrsub.o"
    "./cnrmain" 1000000 "rm -f cnrmain cnrsub.o".
Definition CNumRgccO3native : Test :=
  mkTest "C : Num. rec." "g++ -O3 native"
    "g++ -c -O3 -march=native cnrsub.cpp -o cnrsub.o"
    "g++ -o cnrmain -O3 -march=native cnrmain.cpp cnrsub.o"
    "./cnrmain" 5000000 "rm -f cnrmain cnrsub.o".
Definition VecCclang : Test :=
  mkTest "C : vectors" "clang"
    "c++ -c cvsub.cpp -o cvsub.o"
    "c++ -o cvmain cvmain.cpp cvsub.o"
    "./cvmain" 100000 "rm -f cvmain cvsub.o".
Definition VecCclangO : Test :=
  mkTest "C : vectors" "clang -O"
    "c++ -c -O cvsub.cpp -o cvsub.o"
    "c++ -o cvmain -O cvmain.cpp cvsub.o"
    "./cvmain" 1000000 "rm -f cvmain cvsub.o".
Definition VecCclangO1 : Test :=
  mkTest "C : vectors" "clang -O1"
    "c++ -c -O1 cvsub.cpp -o cvsub.o"
    "c++ -o cvmain -O1 cvmain.cpp cvsub.o"
    "./cvmain" 1000000 "rm -f cvmain cvsub.o".
Definition VecCclangO2 : Test :=
  mkTest "C : vectors" "clang -O2"
    "c++ -c -O2 cvsub.cpp -o cvsub.o"
    "c++ -o cvmain -O2 cvmain.cpp cvsub.o"
    "./cvmain" 1000000 "rm -f cvmain cvsub.o".
Definition VecCclangO3 : Test :=
  mkTest "C : vectors" "clang -O3"
    "c++ -c -O3 cvsub.cpp -o cvsub.o"
    "c++ -o cvmain -O3 cvmain.cpp cvsub.o"
    "./cvmain" 1000000 "rm -f cvmain cvsub.o".
Definition VecCclangO3native : Test :=
  mkTest "C : vectors" "clang -O3 native"
    "c++ -c -O3 -march=native cvsub.cpp -o cvsub.o"
    "c++ -o cvmain -O3 -march=native cvmain.cpp cvsub.o"
    "./cvmain" 5000000 "rm -f cvmain cvsub.o".
Definition VecCgcc : Test :=
  mkTest "C : vectors" "g++"
    "g++ -c cvsub.cpp -o cvsub.o"
    "g++ -o cvmain cvmain.cpp cvsub.o"
    "./cvmain" 100000 "rm -f cvmain cvsub.o".
Definition VecCgccO : Test :=
  mkTest "C : vectors" "g++ -O"
    "g++ -c -O cvsub.cpp -o cvsub.o"
    "g++ -o cvmain -O cvmain.cpp cvsub.o"
    "./cvmain" 1000000 "rm -f cvmain cvsub.o".
Definition VecCgccO1 : Test :=
  mkTest "C : vectors" "g++ -O1"
    "g++ -c -O1 cvsub.cpp -o cvsub.o"
    "g++ -o cvmain -O1 cvmain.cpp cvsub.o"
    "./cvmain" 1000000 "rm -f cvmain cvsub.o".
Definition VecCgccO2 : Test :=
  mkTest "C : vectors" "g++ -O2"
    "g++ -c -O2 cvsub.cpp -o cvsub.o"
    "g++ -o cvmain -O2 cvmain.cpp cvsub.o"
    "./cvmain" 1000000 "rm -f cvmain cvsub.o".
Definition VecCgccO3 : Test :=
  mkTest "C : vectors" "g++ -O3"
    "g++ -c -O3 cvsub.cpp -o cvsub.o"
    "g++ -o cvmain -O3 cvmain.cpp cvsub.o"
    "./cvmain" 1000000 "rm -f cvmain cvsub.o".
Definition VecCgccO3native : Test :=
  mkTest "C : vectors" "g++ -O3 native"
    "g++ -c -O3 -march=native cvsub.cpp -o cvsub.o"
    "g++ -o cvmain -O3 -march=native cvmain.cpp cvsub.o"
    "./cvmain" 5000000 "rm -f cvmain cvsub.o".
Definition Fortran : Test :=
  mkTest "Fortran" "gfortran"
    "gfortran -c -o cfsub.o cfsub.f"
    "gfortran -o cfmain cfmain.f cfsub.o"
    "./cfmain" 100000 "rm -f cfmain cfsub.o".
Definition FortranO : Test :=
  mkTest "Fortran" "gfortran -O"
    "gfortran -c -o cfsub.o -O cfsub.f"
    "gfortran -o cfmain -O cfmain.f cfsub.o"
    "./cfmain" 500000 "rm -f cfmain cfsub.o".
Definition FortranO1 : Test :=
  mkTest "Fortran" "gfortran -O1"
    "gfortran -c -o cfsub.o -O1 cfsub.f"
    "gfortran -o cfmain -O1 cfmain.f cfsub.o"
    "./cfmain" 500000 "rm -f cfmain cfsub.o".
Definition FortranO2 : Test :=
  mkTest "Fortran" "gfortran -O2"
    "gfortran -c -o cfsub.o -O2 cfsub.f"
    "gfortran -o cfmain -O2 cfmain.f cfsub.o"
    "./cfmain" 500000 "rm -f cfmain cfsub.o".
Definition FortranO3 : Test :=
  mkTest "Fortran" "gfortran -O3"
    "gfortran -c -o cfsub.o -O3 cfsub.f"
    "gfortran -o cfmain -O3 cfmain.f cfsub.o"
    "./cfmain" 500000 "rm -f cfmain cfsub.o".
Definition FortranO3native : Test :=
  mkTest "Fortran" "gfortran -O3 native"
    "gfortran -c -o cfsub.o -O3 -march=native cfsub.f"
    "gfortran -o cfmain -O3 -march=native cfmain.f cfsub.o"
    "./cfmain" 5000000 "rm -f cfmain cfsub.o".
Definition Assembler : Test :=
  mkTest "Assembler" "clang"
    "c++ -c -o subrasavx.o subrasavx.s"
    "c++ -o assmain -O cnrmain.cpp subrasavx.o"
    "./assmain" 5000000 "rm -f assmain subrasavx.o".
Definition Java : Test :=
  mkTest "Java" "Java"
    "javac -g:none csub.java"
    ""
    "java csub" 500000 "rm -f csub.class".
Definition Tcl : Test :=
  mkTest "Tcl : raw" "tclsh"
    ""
    ""
    "tclsh ctest.tcl" 200 "".
Definition Julia : Test :=
  mkTest "Julia" "julia"
    ""
    ""
    "julia csub.jl" 500000 "".
Definition JuliaO0 : Test :=
  mkTest "Julia" "julia -O0"
    ""
    ""
    "julia -O0 csub.jl" 50000 "".
Definition JuliaO1 : Test :=
  mkTest "Julia" "julia -O1"
    ""
    ""
    "julia -O1 csub.jl" 200000 "".
Definition JuliaO2 : Test :=
  mkTest "Julia" "julia -O2"
    ""
    ""
    "julia -O2 csub.jl" 200000 "".
Definition JuliaO3 : Test :=
  mkTest "Julia" "julia -O3"
    ""
    ""
    "julia -O3 csub.jl" 200000 "".
Definition RawR : Test :=
  mkTest "R : raw" "Rscript"
    ""
    ""
    "Rscript csub.r" 5000 "".
Definition Rref : Test :=
  mkTest "R : ref class" "Rscript"
    ""
    ""
    "Rscript csubref.r" 3 "".
Definition Router : Test :=
  mkTest "R : outer" "Rscript"
    ""
    ""
    "Rscript csubouter.r" 20000 "".
Definition Perl : Test :=
  mkTest "Perl" "Perl"
    ""
    ""
    "perl csubraw.pl" 1000 "".
Definition PerlPDLraw : Test :=
  mkTest "Perl/PDL : raw" "Perl/PDL"
    ""
    ""
    "perl csubpdl.pl" 10 "".
Definition PerlPDLvec : Test :=
  mkTest "Perl/PDL : vectors" "Perl/PDL"
    ""
    ""
    "perl csubpdlvec.pl" 30000 "".
Definition PerlPDLary : Test :=
  mkTest "Perl/PDL : arrays" "Perl/PDL"
    ""
    ""
    "perl csubpdlary.pl" 100000 "".
Definition Python2 : Test :=
  mkTest "Python : lists" "Python2"
    ""
    ""
    "python csubraw.py" 1000 "".
Definition Python2np : Test :=
  mkTest "Python : numpy raw" "Python2"
    ""
    ""
    "python csubnp.py" 200 "".
Definition Python2vec : Test :=
  mkTest "Python : vectors" "Python2"
    ""
    ""
    "python csubnpv.py" 50000 "".
Definition Python2ary : Test :=
  mkTest "Python : arrays" "Python2"
    ""
    ""
    "python csubnpna.py" 50000 "".
Definition Python3 : Test :=
  mkTest "Python : lists" "Python3"
    ""
    ""
    "python3 csubraw.py" 1000 "".
Definition Python3np : Test :=
  mkTest "Python : numpy raw" "Python3"
    ""
    ""
    "python3 csubnp.py" 200 "".
Definition Python3vec : Test :=
  mkTest "Python : vectors" "Python3"
    ""
    ""
    "python3 csubnpv.py" 50000 "".
Definition Python3ary : Test :=
  mkTest "Python : arrays" "Python3"
    ""
    ""
    "python3 csubnpna.py" 50000 "".
Definition Rust : Test :=
  mkTest "Rust" "Rustc"
    "rustc crsmain.rs "
    ""
    "./crsmain" 1000 "rm -f crsmain".
Definition RustO : Test :=
  mkTest "Rust" "Rustc -O"
    "rustc -O crsmain.rs "
    ""
    "./crsmain" 100000 "rm -f crsmain".
Definition RustO3 : Test :=
  mkTest "Rust" "Rustc -O3"
    "rustc -C opt-level=3 crsmain.rs "
    ""
    "./crsmain" 100000 "rm -f crsmain".
Definition RustO3native : Test :=
  mkTest "Rust" "Rustc -O3 native"
    "rustc -C target-cpu=native -C opt-level=3 crsmain.rs "
    ""
    "./crsmain" 100000 "rm -f crsmain".
Definition Javascript : Test :=
  mkTest "Javascript" "Node.js"
    ""
    ""
    "node cjstest.js" 100000 "".
Definition JavascriptNoopt : Test :=
  mkTest "Javascript" "Node.js --no-opt"
    ""
    ""
    "node --no-opt cjstest.js" 6000 "".
Definition Swift : Test :=
  mkTest "Swift" "Swiftc"
    "xcrun swiftc -o cstest cstest.swift"
    ""
    "./cstest" 1000 "rm -f cstest".
Definition SwiftOnone : Test :=
  mkTest "Swift" "Swiftc -Onone"
    "xcrun swiftc -o cstest -Onone cstest.swift"
    ""
    "./cstest" 1000 "rm -f cstest".
Definition SwiftO : Test :=
  mkTest "Swift" "Swiftc -O"
    "xcrun swiftc -o cstest -O cstest.swift"
    ""
    "./cstest" 300000 "rm -f cstest".
Definition SwiftOunchecked : Test :=
  mkTest "Swift" "Swiftc -Ounchecked"
    "xcrun swiftc -o cstest -Ounchecked cstest.swift"
    ""
    "./cstest" 500000 "rm -f cstest".

Definition FullTests : list Test :=
  [Swift; SwiftOnone; SwiftO; SwiftOunchecked; Assembler; Fortran; FortranO;
   FortranO1; FortranO2; FortranO3; FortranO3native; RawR; Rref; Router;
   Perl; PerlPDLraw; PerlPDLvec; PerlPDLary; Python2; Python2np; Python2vec;
   Python2ary; Python3; Python3np; Python3vec; Python3ary; Rust; RustO;
   RustO3; RustO3native; Java; Tcl; Julia; JuliaO0; JuliaO1; JuliaO2;
   JuliaO3; Javascript; JavascriptNoopt; RawCclang; RawCclangO; RawCclangO1;
   RawCclangO2; RawCclangO3; RawCclangO3native; RawCgcc; RawCgccO; RawCgccO1;
   RawCgccO2; RawCgccO3; RawCgccO3native; VecCclang; VecCclangO; VecCclangO1;
   VecCclangO2; VecCclangO3; VecCclangO3native; VecCgcc; VecCgccO; VecCgccO1;
   VecCgccO2; VecCgccO3; VecCgccO3native; BoostCclang; BoostCclangO;
   BoostCclangO1; BoostCclangO2; BoostCclangO3; BoostCclangO3native;
   BoostCgcc; BoostCgccO; BoostCgccO1; BoostCgccO2; BoostCgccO3;
   BoostCgccO3native; BoostCclangNoAssert; BoostCclangONoAssert;
   BoostCclangO1NoAssert; BoostCclangO2NoAssert; BoostCclangO3NoAssert;
   BoostCclangO3nativeNoAssert; BoostCgccNoAssert; BoostCgccONoAssert;
   BoostCgccO1NoAssert; BoostCgccO2NoAssert; BoostCgccO3NoAssert;
   BoostCgccO3nativeNoAssert; CNumRclang; CNumRclangO; CNumRclangO1;
   CNumRclangO2; CNumRclangO3; CNumRclangO3native; CNumRgcc; CNumRgccO;
   CNumRgccO1; CNumRgccO2; CNumRgccO3; CNumRgccO3native].

End Registry.

(** ** A scripted world, to run the program on *)

(** The clock, and what the next subprocesses will do and how many
    microseconds each will take.  When the script is exhausted Popen fails. *)
Record scripted : Type := Scripted {
  clock : Z;
  script : list (process * Z)
}.

Definition scripted_popen (CommandList : list string) (w : scripted)
  : process * scripted :=
  match script w with
  | (p, d) :: rest => (p, Scripted (clock w + d) rest)
  | [] => (Failed, w)
  end.

Definition scripted_now (w : scripted) : Z * scripted := (clock w, w).

(** [round()] to the nearest integer, ties to even. *)
Definition round_half_even (x : Q) : Z :=
  match (x - inject_Z (Qfloor x) ?= 1 # 2)%Q with
  | Lt => Qfloor x
  | Gt => Qfloor x + 1
  | Eq => if Z.even (Qfloor x) then Qfloor x else Qfloor x + 1
  end.

Fixpoint zeros_string (n : nat) : string :=
  match n with
  | O => ""
  | S n' => String "0"%char (zeros_string n')
  end.

(** [%w.pf] on an exact rational. *)
Definition fixed_point (w p : nat) (x : Q) : string :=
  let scale := 10 ^ Z.of_nat p in
  let n := round_half_even (Qabs x * inject_Z scale) in
  let digits := pretty (n mod scale) in
  rjust w ((if Qltb x 0 then "-" else "") +:+ pretty (n / scale)
           +:+ (if p is O then ""
                else "." +:+ zeros_string (p - String.length digits) +:+ digits)).

(** [10^e] as a rational. *)
Definition pow10 (e : Z) : Q :=
  if 0 <=? e then inject_Z (10 ^ e) else (/ inject_Z (10 ^ (- e)))%Q.

(** The decimal exponent of a positive rational [x]: the [e] with
    [10^e <= x < 10^(e+1)].  It is the difference of the numbers of digits
    of numerator and denominator, or one less. *)
Definition decimal_exponent (x : Q) : Z :=
  let e := Z.of_nat (String.length (pretty (Qnum x)))
           - Z.of_nat (String.length (pretty (Z.pos (Qden x)))) in
  if Qle_bool (pow10 e) x then e else e - 1.

(** A string of digits without its trailing zeros. *)
Fixpoint strip_zeros (s : string) : string :=
  match s with
  | EmptyString => EmptyString
  | String c s' =>
      match strip_zeros s' with
      | EmptyString => if Ascii.eqb c "0"%char then EmptyString
                       else String c EmptyString
      | t => String c t
      end
  end.

(** A fractional part as it is printed: nothing when no digit is left. *)
Definition fraction (digits : string) : string :=
  match strip_zeros digits with
  | EmptyString => EmptyString
  | t => String "."%char t
  end.

(** [%w.pg] on an exact rational: [p] significant digits ([p = 0] counts as
    1), fixed notation when the decimal exponent [X] of the rounded value
    has [-4 <= X < p] and exponent notation otherwise, trailing zeros and a
    trailing point removed. *)
Definition general_format (w p : nat) (x : Q) : string :=
  let P := Z.of_nat (Nat.max p 1) in
  rjust w
    (if Qeq_bool x 0 then "0"
     else
       let a := Qabs x in
       let e0 := decimal_exponent a in
       let n0 := round_half_even (a / pow10 (e0 - (P - 1))) in
       let carried := n0 =? 10 ^ P in
       let X := if carried then e0 + 1 else e0 in
       let digits := pretty (if carried then 10 ^ (P - 1) else n0) in
       (if Qltb x 0 then "-" else "") +:+
       (if (-4 <=? X) && (X <? P) then
          if 0 <=? X then
            substring 0 (Z.to_nat (X + 1)) digits
            +:+ fraction (substring (Z.to_nat (X + 1)) (Z.to_nat (P - 1 - X)) digits)
          else "0." +:+ zeros_string (Z.to_nat (- X - 1)) +:+ strip_zeros digits
        else
          substring 0 1 digits
          +:+ fraction (substring 1 (Z.to_nat (P - 1)) digits)
          +:+ "e" +:+ (if X <? 0 then "-" else "+")
          +:+ (if Z.abs X <? 10 then "0" else "") +:+ pretty (Z.abs X))).

(** Stand-ins for the other built-ins: the examples do not depend on them. *)
Definition bracketed (l : list string) : string := "[" +:+ join_spaces l +:+ "]".
Definition quoted (b : string) : string := "b'" +:+ b +:+ "'".

Definition scripted_state (w : scripted) : State scripted :=
  mkState scripted w [] (NdArray 0 []) [] [].

(** What a statement returned, if it returned. *)
Definition returned {S A : Type} (o : outcome S A) : option A :=
  match o with
  | Ret a _ => Some a
  | Raise _ _ => None
  end.

(** The program in the scripted world. *)
Definition scripted_ExecuteCommand :=
  ExecuteCommand scripted scripted_popen bracketed.
Definition scripted_BuildAndTimeProgram :=
  BuildAndTimeProgram scripted scripted_popen scripted_now bracketed.
Definition scripted_ListVersion :=
  ListVersion scripted scripted_popen bracketed.
Definition scripted_time_test :=
  time_test scripted scripted_popen scripted_now bracketed quoted
    fixed_point general_format.

Definition newline : string := String "010"%char "".

(** A subprocess that exits with status zero after [d] microseconds and
    writes nothing. *)
Definition quiet_success (d : Z) : process * Z := (Exited "" "" 0, d).

(** The world in which the test [Python3np] takes 2.01 s for its 200
    repeats and 0.01 s for a single one. *)
Definition python_world : scripted :=
  Scripted 0 [quiet_success 2010000; quiet_success 10000].

(** A compiler that writes its version on standard output and a note on
    standard error; one that writes on standard error only, as [java
    -version] does; and one that writes nothing. *)
Definition chatty_world : scripted :=
  Scripted 0 [(Exited ("g++ 9.3.0" +:+ newline +:+ "Copyright" +:+ newline)
                      ("note: using built-in specs" +:+ newline) 0, 7)].
Definition java_world : scripted :=
  Scripted 0 [(Exited "" ("openjdk version 11" +:+ newline) 0, 7)].
Definition mute_world : scripted :=
  Scripted 0 [quiet_success 7].

(** A program that writes the byte FF, which is not UTF-8, and exits with
    status zero. *)
Definition binary_world : scripted :=
  Scripted 0 [(Exited (String "255"%char "") "" 0, 5)].

(** Two tests and two passes: [Python3np] takes 2.2 s then 1.2 s for its 200
    repeats and 0.2 s for one; [Perl] takes 1.1 s then 3.1 s for its 1000
    repeats and 0.1 s for one. *)
Definition two_tests : list Test := [Registry.Python3np; Registry.Perl].
Definition two_passes_world : scripted :=
  Scripted 0 [quiet_success 2200000; quiet_success 200000;
              quiet_success 1100000; quiet_success 100000;
              quiet_success 1200000; quiet_success 200000;
              quiet_success 3100000; quiet_success 100000].
Definition two_passes : outcome (State scripted) unit :=
  (run_tests scripted scripted_popen scripted_now bracketed quoted
     fixed_point general_format two_tests 2 2000 10 ;;
   report scripted fixed_point general_format two_tests)
    (scripted_state two_passes_world).

(** A world in which the test program of [Python3np] fails with all its
    200 repeats, exiting with status 1 after 5 s, and succeeds with a single
    repeat after 1 s; and one pass of the driver over that test alone in
    this world, with the report. *)
Definition failing_python_world : scripted :=
  Scripted 0 [(Exited "" "MemoryError" 1, 5000000); quiet_success 1000000].
Definition one_test : list Test := [Registry.Python3np].
Definition failed_run : outcome (State scripted) unit :=
  (run_tests scripted scripted_popen scripted_now bracketed quoted
     fixed_point general_format one_test 1 2000 10 ;;
   report scripted fixed_point general_format one_test)
    (scripted_state failing_python_world).

(** ** The main routine of the kernel programs *)

(** The names [ina] and [out] of the main routine, as references. *)
Definition ina_var : loc := 1%positive.
Definition out_var : loc := 2%positive.

Section MainRoutine.
Context {E : Type}.
Variable add : E -> E -> E.
Variable of_int : Z -> E.
Variable neqb : E -> E -> bool.

(** Built-ins that are taken as given: [int()] of a command-line argument
    ([None] is its ValueError), and the text that [print] writes for an
    element of an array. *)
Variable int_of_str : string -> option Z.
Variable str_of_item : E -> string.

(** The state of a kernel program: its array objects, and the lines it
    has printed. *)
Record Prog : Type := mkProg {
  arrays : gmap loc (ndarray E);
  stdout : list string
}.

(** A statement that works on the arrays only. *)
Definition on_arrays {A : Type} (c : M (gmap loc (ndarray E)) A) : M Prog A :=
  fun p => match c (arrays p) with
           | Ret a h => Ret a (mkProg h (stdout p))
           | Raise e h => Raise e (mkProg h (stdout p))
           end.

(** [print(...)] *)
Definition echo (args : list string) : M Prog unit :=
  fun p => Ret tt (mkProg (arrays p) (stdout p ++ [join_spaces args])).

(** [int(sys.argv[i])] *)
Definition argv_int (argv : list string) (i : nat) : M Prog Z :=
  a <- lift_option IndexError (argv !! i) ;;
  lift_option ValueError (int_of_str a).

(** The repeat count and the size of the arrays, from the defaults and the
    command line. *)
Definition read_args (nrpt : Z) (argv : list string) : M Prog (Z * Z * Z) :=
  let ny := 10 in
  let nx := 2000 in
  if (1 <? length argv)%nat then
    nrpt <- argv_int argv 1 ;;
    if (2 <? length argv)%nat then
      nx <- argv_int argv 2 ;;
      if (3 <? length argv)%nat then
        ny <- argv_int argv 3 ;;
        ret (nrpt, nx, ny)
      else ret (nrpt, nx, ny)
    else ret (nrpt, nx, ny)
  else ret (nrpt, nx, ny).

(** [name = numpy.zeros((ny,nx))]: the name is bound to a new array of
    zeros; numpy refuses a negative dimension. *)
Definition numpy_zeros (name : loc) (ny nx : Z) : M (gmap loc (ndarray E)) unit :=
  if (ny <? 0) || (nx <? 0) then raise ValueError
  else store name (zeros (of_int 0) (Z.to_nat ny) (Z.to_nat nx)).

(** The loops that set [ina[iy,ix] = nx - ix + ny - iy]. *)
Definition fill_input (ina : loc) (nx ny : Z) : M (gmap loc (ndarray E)) unit :=
  for_ (range ny) (fun iy =>
    for_ (range nx) (fun ix =>
      setitem ina iy ix (of_int (nx - Z.of_nat ix + ny - Z.of_nat iy)))).

(** The result check with what it prints.  The inner loop stops at the
    first element that differs and hands the flag [error] to the outer
    loop, which stops as well. *)
Fixpoint report_row (ina out : loc) (iy : nat) (ixs : list nat) : M Prog bool :=
  match ixs with
  | [] => ret false
  | ix :: ixs' =>
      bad <- on_arrays (check_item add of_int neqb ina out iy ix) ;;
      if bad then
        o <- on_arrays (getitem out iy ix) ;;
        a <- on_arrays (getitem ina iy ix) ;;
        echo ["Error: "; str_of_item o; pretty (Z.of_nat ix);
              pretty (Z.of_nat iy); str_of_item a] ;;
        ret true
      else report_row ina out iy ixs'
  end.

Fixpoint report_rows (ina out : loc) (nx : Z) (iys : list nat) : M Prog bool :=
  match iys with
  | [] => ret false
  | iy :: iys' =>
      error <- report_row ina out iy (range nx) ;;
      if error then ret true else report_rows ina out nx iys'
  end.

Definition result_check (ina : loc) (nx ny : Z) (out : loc) : M Prog unit :=
  report_rows ina out nx (range ny) ;; ret tt.

(** The main routine around a kernel [subr], with the default of the
    program for the repeat count. *)
Definition main_routine (subr : loc -> Z -> Z -> loc -> M (gmap loc (ndarray E)) unit)
    (nrpt : Z) (argv : list string) : M Prog unit :=
  args <- read_args nrpt argv ;;
  let '(nrpt, nx, ny) := args in
  on_arrays (numpy_zeros ina_var ny nx) ;;
  on_arrays (fill_input ina_var nx ny) ;;
  on_arrays (numpy_zeros out_var ny nx) ;;
  echo ["Arrays"; pretty nx; "by"; pretty ny; "count"; pretty nrpt] ;;
  on_arrays (call_loop subr nrpt ina_var nx ny out_var) ;;
  result_check ina_var nx ny out_var.

(** The four programs. *)
Definition csub_main : list string -> M Prog unit :=
  main_routine (csub_subr add of_int) 100.
Definition csubnp_numba_main : list string -> M Prog unit :=
  main_routine (csubnp_numba_subr add of_int) 100.
Definition csubnpv_main : list string -> M Prog unit :=
  main_routine (csubnpv_subr add of_int) 10000.
Definition csubnpna_main : list string -> M Prog unit :=
  main_routine (csubnpna_subr add of_int) 100000.

(** *** Vocabulary for the kernels on a part of an array *)

(** [out] after the elements of its first [m] rows and first [n] columns
    have been replaced by [f] of the elements of [ina] there. *)
Definition block_map (f : E -> nat -> nat -> E) (n m : nat) (ina out : ndarray E)
  : ndarray E :=
  NdArray (ncols out)
    (imap (fun (iy : nat) (ro : list E) =>
             if decide (iy < m)%nat then
               match rows ina !! iy with
               | Some ra => imap (fun (ix : nat) (a : E) => f a ix iy) (take n ra)
                            ++ drop n ro
               | None => ro
               end
             else ro) (rows out)).

(** Whether the result check finds [out[iy,ix]] different from
    [ina[iy,ix] + (ix + iy)]. *)
Definition mismatch (ina out : ndarray E) (iy ix : nat) : bool :=
  match item out iy ix, item ina iy ix with
  | Some o, Some a => neqb o (add a (of_int (Z.of_nat ix + Z.of_nat iy)))
  | _, _ => false
  end.

(** The line that the result check prints for the element at [iy], [ix]. *)
Definition error_line (ina out : ndarray E) (iy ix : nat) : string :=
  match item out iy ix, item ina iy ix with
  | Some o, Some a =>
      join_spaces ["Error: "; str_of_item o; pretty (Z.of_nat ix);
                   pretty (Z.of_nat iy); str_of_item a]
  | _, _ => ""
  end.

End MainRoutine.

Arguments Prog : clear implicits.
Arguments mkProg {E} _ _.
Arguments arrays {E} _.
Arguments stdout {E} _.

(** The command line that the interpreter hands to a script started as
    [python script args...]: the script and its arguments. *)
Definition sys_argv (CommandList : list string) : list string := tail CommandList.

(** A reader of decimal numerals, for the examples: an optional minus sign
    and digits. *)
Fixpoint decimal_digits (acc : Z) (s : string) : option Z :=
  match s with
  | EmptyString => Some acc
  | String c s' =>
      if byte_in 48 57 c
      then decimal_digits (10 * acc + Z.of_N (N_of_ascii c - 48)) s'
      else None
  end.

Definition decimal (s : string) : option Z :=
  match s with
  | EmptyString => None
  | String "-"%char EmptyString => None
  | String "-"%char s' => Z.opp <$> decimal_digits 0 s'
  | _ => decimal_digits 0 s
  end.

(** How the examples print an integer element. *)
Definition str_of_Z (z : Z) : string := pretty z.

(** ** Run.py: the whole program, and more vocabulary *)

(** The argument list that ExecuteCommand hands to Popen for a command. *)
Definition command_words (Command : command) : list string :=
  match Command with
  | CmdStr s => split s
  | CmdList l => l
  end.

(** Whether every character of a string passes a test. *)
Fixpoint all_chars (P : ascii -> bool) (s : string) : bool :=
  match s with
  | EmptyString => true
  | String c s' => P c && all_chars P s'
  end.

(** A string in which no white-space character starts at any place. *)
Fixpoint space_free (s : string) : bool :=
  match s with
  | EmptyString => true
  | String c s' => Nat.eqb (space_length (String c s')) 0 && space_free s'
  end.

(** A word: not empty, and free of white space. *)
Definition is_word (w : string) : bool :=
  negb (String.eqb w "") && space_free w.

(** No white-space character starts inside [w] when [w] is followed by
    [rest]. *)
Fixpoint clear_before (w rest : string) : bool :=
  match w with
  | EmptyString => true
  | String c w' =>
      Nat.eqb (space_length (String c w' +:+ rest)) 0 && clear_before w' rest
  end.

(** The word that [split] has begun, as a string. *)
Definition begun (word : option string) : string :=
  match word with
  | Some w => w
  | None => ""
  end.

(** A string of 7-bit characters. *)
Definition is_ascii (s : string) : bool := all_chars (byte_in 0 127) s.

(** A string without commas, and the fields of a line of a .csv file. *)
Definition comma_free (s : string) : bool :=
  all_chars (fun c => negb (Ascii.eqb c ","%char)) s.
Definition fields (line : string) : list string := split_on ","%char line.

(** The order of [sorted(..., key = lambda s : s.lower())]. *)
Definition lower_le (a b : string) : Prop := String.le (lower a) (lower b).

(** The pair of labels of a test. *)
Definition labels (test : Test) : string * string := (LangTech test, CompOpt test).


Section Program.
Variable World : Type.
Variable popen : list string -> World -> process * World.
Variable now : World -> Z * World.
Variable str_of_list : list string -> string.
Variable str_of_bytes : string -> string.
Variable format_f : nat -> nat -> Q -> string.
Variable format_g : nat -> nat -> Q -> string.

(** [int()] of a command-line argument; [None] is its ValueError. *)
Variable int_of_str : string -> option Z.
Variable FullTests : list Test.

(** [int(sys.argv[i])] *)
Definition sys_argv_int (argv : list string) (i : nat) : M (State World) Z :=
  a <- lift_option IndexError (argv !! i) ;;
  lift_option ValueError (int_of_str a).

(** The number of passes and the size of the arrays, from the defaults
    and the command line. *)
Definition read_sizes (argv : list string) : M (State World) (Z * Z * Z) :=
  let Nx := 2000 in
  let Ny := 10 in
  let Ntests := 1 in
  if (1 <? length argv)%nat then
    Ntests <- sys_argv_int argv 1 ;;
    if (2 <? length argv)%nat then
      Nx <- sys_argv_int argv 2 ;;
      if (3 <? length argv)%nat then
        Ny <- sys_argv_int argv 3 ;;
        ret (Ntests, Nx, Ny)
      else ret (Ntests, Nx, Ny)
    else ret (Ntests, Nx, Ny)
  else ret (Ntests, Nx, Ny).

(** Run.py from its first statement to its last: the version queries,
    then the command line, then the passes and the report. *)
Definition program (argv : list string) : M (State World) unit :=
  list_versions World popen str_of_list ;;
  sizes <- read_sizes argv ;;
  let '(Ntests, Nx, Ny) := sizes in
  run_tests World popen now str_of_list str_of_bytes format_f format_g
    FullTests Ntests Nx Ny ;;
  report World format_f format_g FullTests.

End Program.

(** A statement that, started with a table of the given shape, keeps the
    shape and raises nothing but the exit of an interrupt. *)
Definition keeps_table {World A : Type} (ny nx : nat) (c : M (State World) A) : Prop :=
  forall s : State World,
    has_shape ny nx (Results s) ->
    match c s with
    | Ret _ s' => has_shape ny nx (Results s')
    | Raise e _ => e = SystemExit 0
    end.

(** A statement that ends the program through [sys.exit] only when a
    subprocess was interrupted: in some world, Popen of some argument list
    met the user's ctrl-C. *)
Definition exits_on_interrupt {World A : Type}
    (popen : list string -> World -> process * World)
    (c : M (State World) A) : Prop :=
  forall (s : State World) (code : Z) (s' : State World),
    c s = Raise (SystemExit code) s' ->
    exists (args : list string) (w : World), fst (popen args w) = Interrupted.


(** The order in which the search for the benchmark visits the cells: row
    by row. *)
Definition before (i j i' j' : nat) : Prop :=
  (i < i')%nat \/ (i = i' /\ (j < j')%nat).

(** What the search for the benchmark has found among the cells [seen],
    with the cell it names: no positive entry, and then its initial values;
    or a cell that holds the lowest positive entry and is the first to do
    so, every positive entry before it being strictly greater. *)
Definition first_lowest (FullTests : list Test) (R : ndarray Q)
    (seen : nat -> nat -> Prop) (f : fastest) : Prop :=
  (f = mkFastest true "" "" 1 /\
   forall i j q, seen i j -> item R i j = Some q -> ~ (0 < q)%Q) \/
  (First f = false /\
   exists i0 j0,
     seen i0 j0 /\ item R i0 j0 = Some (BenchKIterSecs f) /\
     (0 < BenchKIterSecs f)%Q /\
     LangTechList FullTests !! i0 = Some (FastestLangTech f) /\
     CompOptList FullTests !! j0 = Some (FastestCompOpt f) /\
     forall i j q, seen i j -> item R i j = Some q -> (0 < q)%Q ->
       (BenchKIterSecs f <= q)%Q /\
       (before i j i0 j0 -> (BenchKIterSecs f < q)%Q)).

(** ** More concrete inputs *)

(** [!=] on integer elements. *)
Definition Z_neqb (x y : Z) : bool := negb (x =? y).

(** [!=] on float64 elements. *)
Definition float64_neqb (x y : float) : bool := negb (PrimFloat.eqb x y).

(** A program on float64 arrays before its first statement. *)
Definition fresh_float_prog : Prog float := mkProg ∅ [].

(** A kernel program before its first statement, and one that holds the
    two small arrays. *)
Definition fresh_prog : Prog Z := mkProg ∅ [].
Definition small_prog : Prog Z := mkProg small_heap [].

(** A world in which the first command exits with status 1 after 5 ms and
    the next one succeeds. *)
Definition broken_build_world : scripted :=
  Scripted 0 [(Exited "" "csub.cpp: No such file" 1, 5000); quiet_success 3000].

(** A test description with a repeat count of zero. *)
Definition zero_count_test : Test :=
  mkTest "C : raw" "clang" "" "" "./cmain" 0 "".

(** A results table for the two tests of [two_tests], and a state that
    holds it. *)
Definition small_table : ndarray Q := NdArray 2 [[1; 0]; [0; 5 # 2]]%Q.
Definition table_state : State scripted :=
  mkState scripted (Scripted 0 []) [] small_table [] [].

(** A table in which two cells hold the lowest time. *)
Definition tied_table : ndarray Q := NdArray 2 [[3; 2]; [2; 0]]%Q.
Definition tied_state : State scripted :=
  mkState scripted (Scripted 0 []) [] tied_table [] [].

(** A world for a compiled test: the two build commands succeed, the
    program exits with status 139 after 5 s when run with all its repeats and
    with status 0 after 1 s when run with one, and the cleanup command
    succeeds. *)
Definition crashing_build_world : scripted :=
  Scripted 0 [quiet_success 900000; quiet_success 400000;
              (Exited "" "Segmentation fault" 139, 5000000);
              quiet_success 1000000; quiet_success 2000].

(** A world in which the run with all the repeats takes 0.2 s and the run
    with a single repeat 0.3 s. *)
Definition slow_start_world : scripted :=
  Scripted 0 [quiet_success 200000; quiet_success 300000].


(** The integers from [start] on, [len] of them. *)
Fixpoint zseq (start : Z) (len : nat) : list Z :=
  match len with
  | O => []
  | S len' => start :: zseq (start + 1) len'
  end.

(** The two sums that the kernels form for the element at row [iy] and
    column [ix] of the float64 array that the main routine builds, and the
    tables of such values for all the elements. *)
Definition loop_sum (nx ny ix iy : Z) : float :=
  PrimFloat.add
    (PrimFloat.add (float64_of_int (nx - ix + ny - iy)) (float64_of_int ix))
    (float64_of_int iy).
Definition index_sum (nx ny ix iy : Z) : float :=
  PrimFloat.add (float64_of_int (nx - ix + ny - iy)) (float64_of_int (ix + iy)).
Definition table_of {B : Type} (f : Z -> Z -> B) (nx ny : nat) : list (list B) :=
  (fun iy : Z => (fun ix : Z => f ix iy) <$> zseq 0 nx) <$> zseq 0 ny.

(** * Properties *)

(** ** Loops *)

Lemma bind_Ret {S A B : Type} (c : M S A) (k : A -> M S B) (s s' : S) (a : A) :
  c s = Ret a s' -> bind c k s = k a s'.
Proof. intros H. unfold bind. now rewrite H. Qed.

Lemma bind_Raise {S A B : Type} (c : M S A) (k : A -> M S B) (s s' : S) (e : exn) :
  c s = Raise e s' -> bind c k s = Raise e s'.
Proof. intros H. unfold bind. now rewrite H. Qed.

Lemma range_of_nat (n : nat) : range (Z.of_nat n) = seq 0 n.
Proof. unfold range. now rewrite Nat2Z.id. Qed.

(** An invariant carried through a counted loop that never raises. *)
Lemma for_seq_rule {S : Type} (I : nat -> S -> Prop) (body : nat -> M S unit)
    (n a : nat) (s : S) :
  I a s ->
  (forall i s0, (a <= i < a + n)%nat -> I i s0 ->
                exists s1, body i s0 = Ret tt s1 /\ I (Datatypes.S i) s1) ->
  exists s', for_ (seq a n) body s = Ret tt s' /\ I (a + n)%nat s'.
Proof.
  revert a s. induction n as [|n IH]; intros a s Ha Hstep; simpl.
  - exists s. rewrite Nat.add_0_r. now split.
  - destruct (Hstep a s) as (s1 & Hb & Hs1); [lia | assumption |].
    destruct (IH (Datatypes.S a) s1) as (s' & Hl & Hs'); [assumption | |].
    + intros i s0 Hi. apply Hstep. lia.
    + exists s'. split.
      * now rewrite (bind_Ret _ _ _ _ _ Hb).
      * now replace (a + Datatypes.S n)%nat with (Datatypes.S a + n)%nat by lia.
Qed.

Lemma for_acc_seq_rule {S B : Type} (I : nat -> B -> S -> Prop)
    (body : nat -> B -> M S B) (n a : nat) (b : B) (s : S) :
  I a b s ->
  (forall i b0 s0, (a <= i < a + n)%nat -> I i b0 s0 ->
                   exists b1 s1, body i b0 s0 = Ret b1 s1 /\ I (Datatypes.S i) b1 s1) ->
  exists b' s', for_acc (seq a n) body b s = Ret b' s' /\ I (a + n)%nat b' s'.
Proof.
  revert a b s. induction n as [|n IH]; intros a b s Ha Hstep; simpl.
  - exists b, s. rewrite Nat.add_0_r. now split.
  - destruct (Hstep a b s) as (b1 & s1 & Hb & Hs1); [lia | assumption |].
    destruct (IH (Datatypes.S a) b1 s1) as (b' & s' & Hl & Hs'); [assumption | |].
    + intros i b0 s0 Hi. apply Hstep. lia.
    + exists b', s'. split.
      * now rewrite (bind_Ret _ _ _ _ _ Hb).
      * now replace (a + Datatypes.S n)%nat with (Datatypes.S a + n)%nat by lia.
Qed.

(** ** Lists written front to back *)

(** Writing position [j] of a list whose first [j] positions already hold
    the new values extends the new prefix by one. *)
Lemma insert_take_drop_next {A : Type} (new old : list A) (j : nat) (v : A) :
  new !! j = Some v -> length new = length old ->
  <[j := v]> (take j new ++ drop j old) = take (S j) new ++ drop (S j) old.
Proof.
  intros Hv Hlen.
  assert (Hj : (j < length new)%nat) by (eapply lookup_lt_Some; eassumption).
  destruct (lookup_lt_is_Some_2 old j) as [o Ho]; [lia |].
  rewrite insert_app_r_alt by (rewrite length_take; lia).
  rewrite length_take, Nat.min_l, Nat.sub_diag by lia.
  rewrite (drop_S old o j Ho). simpl.
  rewrite (take_S_r new j v Hv). now rewrite <- app_assoc.
Qed.

Lemma take_drop_all {A : Type} (new old : list A) :
  length new = length old ->
  take (length new) new ++ drop (length new) old = new.
Proof.
  intros H. rewrite firstn_all, H, drop_all. apply app_nil_r.
Qed.

(** ** Arrays *)

Section ArrayFacts.
Context {E : Type}.
Implicit Types (a o : ndarray E) (f : E -> nat -> nat -> E).

Lemma ndarray_eta a : NdArray (ncols a) (rows a) = a.
Proof. now destruct a. Qed.

Lemma has_shape_row ny nx a iy :
  has_shape ny nx a -> (iy < ny)%nat ->
  exists r, rows a !! iy = Some r /\ length r = nx.
Proof.
  intros (Hr & _ & Hall) Hiy. unfold nrows in Hr.
  destruct (lookup_lt_is_Some_2 (rows a) iy) as [r Hrow]; [lia |].
  exists r. split; [assumption |].
  rewrite Forall_forall in Hall. apply Hall.
  eapply list_elem_of_lookup_2. eassumption.
Qed.

Lemma has_shape_item ny nx a iy ix :
  has_shape ny nx a -> (iy < ny)%nat -> (ix < nx)%nat ->
  exists r x, rows a !! iy = Some r /\ r !! ix = Some x /\ item a iy ix = Some x.
Proof.
  intros Hs Hiy Hix. destruct (has_shape_row _ _ _ _ Hs Hiy) as (r & Hr & Hlen).
  destruct (lookup_lt_is_Some_2 r ix) as [x Hx]; [lia |].
  exists r, x. repeat split; try assumption.
  unfold item. rewrite Hr. destruct Hs as (_ & Hc & _).
  destruct (decide (ix < ncols a)%nat); [assumption | lia].
Qed.

Lemma index_map_row f a iy r :
  rows a !! iy = Some r ->
  rows (index_map f a) !! iy = Some (imap (fun ix x => f x ix iy) r).
Proof. intros H. simpl. now rewrite list_lookup_imap, H. Qed.

Lemma index_map_shape f ny nx a :
  has_shape ny nx a -> has_shape ny nx (index_map f a).
Proof.
  intros (Hr & Hc & Hall). unfold has_shape, nrows in *. simpl.
  rewrite length_imap. repeat split; try assumption.
  apply Forall_forall. intros r Hin.
  apply list_elem_of_lookup in Hin. destruct Hin as [i Hi].
  rewrite list_lookup_imap in Hi.
  destruct (rows a !! i) as [r0|] eqn:Hr0; [| discriminate].
  simpl in Hi. injection Hi as <-. rewrite length_imap.
  rewrite Forall_forall in Hall. apply Hall.
  eapply list_elem_of_lookup_2. eassumption.
Qed.

Lemma index_map_item f a iy ix x :
  item a iy ix = Some x -> item (index_map f a) iy ix = Some (f x ix iy).
Proof.
  unfold item. destruct (rows a !! iy) as [r|] eqn:Hr; [| discriminate].
  rewrite (index_map_row f a iy r Hr). simpl.
  destruct (decide (ix < ncols a)%nat); [| discriminate].
  intros Hx. now rewrite list_lookup_imap, Hx.
Qed.
End ArrayFacts.

(** ** The element-by-element kernels *)

Section KernelFacts.
Context {E : Type}.
Variable add : E -> E -> E.
Variable of_int : Z -> E.

Abbreviation heap := (gmap loc (ndarray E)).
Implicit Types (h : heap) (A O : ndarray E).

Lemma deref_Some h l A : h !! l = Some A -> deref l h = Ret A h.
Proof. intros H. unfold deref. now rewrite H. Qed.

Lemma getitem_or_Some oob h l A iy ix x :
  h !! l = Some A -> item A iy ix = Some x ->
  getitem_or oob l iy ix h = Ret x h.
Proof.
  intros Hl Hx. unfold getitem_or.
  rewrite (bind_Ret _ _ _ _ _ (deref_Some _ _ _ Hl)). now rewrite Hx.
Qed.

Lemma setitem_or_Some oob h l A iy ix v A' :
  h !! l = Some A -> set_item A iy ix v = Some A' ->
  setitem_or oob l iy ix v h = Ret tt (<[l := A']> h).
Proof.
  intros Hl Hx. unfold setitem_or.
  rewrite (bind_Ret _ _ _ _ _ (deref_Some _ _ _ Hl)). now rewrite Hx.
Qed.

(** The row being written sits between the rows already written and the
    rows not yet reached. *)
Lemma lookup_middle_row (new old : list (list E)) (row : list E) (k : nat) :
  (k <= length new)%nat ->
  (take k new ++ row :: drop (S k) old) !! k = Some row.
Proof.
  intros Hk. rewrite lookup_app_r by (rewrite length_take; lia).
  rewrite length_take, Nat.min_l, Nat.sub_diag by lia. reflexivity.
Qed.

Lemma insert_middle_row (new old : list (list E)) (row row' : list E) (k : nat) :
  (k <= length new)%nat ->
  <[k := row']> (take k new ++ row :: drop (S k) old)
  = take k new ++ row' :: drop (S k) old.
Proof.
  intros Hk. rewrite insert_app_r_alt by (rewrite length_take; lia).
  rewrite length_take, Nat.min_l, Nat.sub_diag by lia. reflexivity.
Qed.

(** Both element-by-element kernels are this loop; [oob] is what an
    out-of-bounds index does. *)
Lemma element_loop_closed oob h ina out A O (nx ny : nat) :
  ina <> out -> h !! ina = Some A -> h !! out = Some O ->
  has_shape ny nx A -> has_shape ny nx O ->
  for_ (seq 0 ny) (fun iy =>
    for_ (seq 0 nx) (fun ix =>
      a <- getitem_or oob ina iy ix ;;
      setitem_or oob out iy ix
        (add (add a (of_int (Z.of_nat ix))) (of_int (Z.of_nat iy))))) h
  = Ret tt (<[out := index_map (plus_ix_plus_iy add of_int) A]> h).
Proof.
  intros Hne HA HO HsA HsO.
  set (f := plus_ix_plus_iy add of_int).
  set (new := rows (index_map f A)).
  assert (Hnew : length new = ny).
  { destruct (index_map_shape f ny nx A HsA) as (H & _). exact H. }
  assert (Hold : length (rows O) = ny) by apply HsO.
  assert (HcO : ncols O = nx) by apply HsO.
  match goal with |- for_ _ ?b _ = _ => set (body := b) end.
  destruct (for_seq_rule
    (fun k s => s = <[out := NdArray nx (take k new ++ drop k (rows O))]> h)
    body ny 0 h) as (s' & Hrun & Hs').
  - simpl. rewrite drop_0, <- HcO, ndarray_eta. symmetry. now apply insert_id.
  - intros k s0 [_ Hk] ->. simpl in Hk.
    destruct (has_shape_row ny nx A k HsA Hk) as (ra & Hra & Hlra).
    destruct (has_shape_row ny nx O k HsO Hk) as (ro & Hro & Hlro).
    set (rn := imap (fun ix x => f x ix k) ra).
    assert (Hrn : new !! k = Some rn) by (apply index_map_row; exact Hra).
    assert (Hlrn : length rn = nx) by (unfold rn; now rewrite length_imap).
    unfold body at 1.
    match goal with |- context [for_ _ ?b _] => set (inner := b) end.
    destruct (for_seq_rule
      (fun j s => s = <[out := NdArray nx
                   (take k new ++ (take j rn ++ drop j ro) :: drop (S k) (rows O))]> h)
      inner nx 0 (<[out := NdArray nx (take k new ++ drop k (rows O))]> h))
      as (s1 & Hrun1 & Hs1).
    + simpl. rewrite drop_0. now rewrite (drop_S (rows O) ro k Hro).
    + intros j s2 [_ Hj] ->. simpl in Hj.
      destruct (lookup_lt_is_Some_2 ra j) as [a Ha]; [lia |].
      assert (Hia : item A k j = Some a).
      { unfold item. rewrite Hra. destruct HsA as (_ & Hc & _).
        destruct (decide (j < ncols A)%nat); [assumption | lia]. }
      unfold inner.
      erewrite bind_Ret;
        [| eapply getitem_or_Some; [rewrite lookup_insert_ne by congruence; exact HA | exact Hia]].
      erewrite setitem_or_Some;
        [| apply lookup_insert_eq
         | unfold set_item; simpl; rewrite lookup_middle_row by lia;
           destruct (decide (j < nx)%nat); [reflexivity | lia]].
      eexists. split; [reflexivity |].
      rewrite insert_insert_eq. do 2 f_equal.
      rewrite insert_middle_row by lia. do 2 f_equal.
      apply insert_take_drop_next; [| lia].
      unfold rn. now rewrite list_lookup_imap, Ha.
    + exists s1. split; [exact Hrun1 |]. rewrite Hs1. simpl. do 2 f_equal.
      rewrite <- Hlrn at 1 2. rewrite take_drop_all by lia.
      rewrite (take_S_r new k rn Hrn). now rewrite <- app_assoc.
  - rewrite Hrun, Hs'. simpl. do 2 f_equal.
    rewrite <- Hnew at 1 2. rewrite take_drop_all by lia.
    unfold new, index_map. simpl. f_equal. symmetry. apply HsA.
Qed.

(** ** The vector kernels *)

Lemma arange_of_nat (n : nat) : arange (Z.of_nat n) = Z.of_nat <$> seq 0 n.
Proof. unfold arange. now rewrite range_of_nat. Qed.

Lemma zip_with_index {B C : Type} (g : B -> Z -> C) (d : nat -> Z)
    (l : list B) (n : nat) :
  length l = n ->
  zip_with g l (d <$> seq 0 n) = imap (fun i x => g x (d i)) l.
Proof.
  intros <-. apply list_eq. intros i.
  rewrite lookup_zip_with, list_lookup_imap, list_lookup_fmap.
  destruct (l !! i) as [x|] eqn:Hx; [| reflexivity]. simpl.
  rewrite lookup_seq_lt by (eapply lookup_lt_Some; eassumption).
  reflexivity.
Qed.

Lemma broadcast_list_same {B : Type} (n : nat) (l : list B) :
  length l = n -> broadcast_list n l = Some l.
Proof.
  intros H. unfold broadcast_list.
  destruct (decide (length l = n)); [reflexivity | contradiction].
Qed.

Lemma slice_stop_full (n : nat) : slice_stop n (Z.of_nat n) = n.
Proof.
  unfold slice_stop. destruct (Z.ltb_spec (Z.of_nat n) 0); lia.
Qed.

(** *** csubnpna.py: one broadcast expression *)
Lemma csubnpna_subr_closed h ina out A O (nx ny : nat) :
  h !! ina = Some A -> h !! out = Some O ->
  has_shape ny nx A -> has_shape ny nx O ->
  csubnpna_subr add of_int ina (Z.of_nat nx) (Z.of_nat ny) out h
  = Ret tt (<[out := index_map (plus_ix_plus_iy add of_int) A]> h).
Proof.
  intros HA HO HsA HsO.
  destruct HsA as (HrA & HcA & HallA). destruct HsO as (HrO & HcO & HallO).
  unfold nrows in *. unfold csubnpna_subr.
  rewrite (bind_Ret _ _ _ _ _ (deref_Some _ _ _ HA)).
  rewrite !arange_of_nat. unfold add_row_vector.
  rewrite length_fmap, length_seq.
  destruct (decide (ncols A = nx)); [| contradiction]. simpl.
  unfold bind at 1. simpl. unfold add_col_vector, nrows. simpl.
  rewrite !length_fmap, length_seq.
  destruct (decide (length (rows A) = ny)); [| contradiction]. simpl.
  unfold bind at 1. simpl. unfold assign_all.
  rewrite (bind_Ret _ _ _ _ _ (deref_Some _ _ _ HO)). simpl.
  destruct (decide (ncols A = ncols O \/ ncols A = 1%nat)) as [_|Hn];
    [| exfalso; apply Hn; left; congruence].
  match goal with |- context [broadcast_list _ ?l] => set (new := l) end.
  assert (Hnew : new = rows (index_map (plus_ix_plus_iy add of_int) A)).
  { unfold new. rewrite zip_with_index by (now rewrite length_fmap). simpl.
    rewrite imap_fmap. apply imap_ext. intros iy r Hr. simpl.
    assert (Hlen : length r = nx).
    { rewrite Forall_forall in HallA. apply HallA.
      eapply list_elem_of_lookup_2. eassumption. }
    rewrite zip_with_index by assumption. rewrite fmap_imap. reflexivity. }
  assert (Hshape : has_shape ny nx (index_map (plus_ix_plus_iy add of_int) A)).
  { apply index_map_shape. repeat split; assumption. }
  destruct Hshape as (Hr' & _ & Hall'). unfold nrows in Hr'.
  rewrite broadcast_list_same by (unfold nrows; rewrite Hnew; lia).
  unfold bind at 1. simpl.
  assert (Hm : mapM (broadcast_list (ncols O)) new = Some new).
  { apply mapM_Some, Forall_Forall2_diag. rewrite Hnew.
    eapply Forall_impl; [exact Hall' |]. intros r Hr. simpl in Hr.
    apply broadcast_list_same. lia. }
  rewrite Hm. unfold bind at 1. simpl. unfold store.
  rewrite Hnew. unfold index_map. simpl. do 3 f_equal. congruence.
Qed.

(** *** csubnpv.py: one slice at a time *)

Lemma getrow_Some h l A iy stop r :
  h !! l = Some A -> rows A !! iy = Some r ->
  getrow l iy stop h = Ret (take (slice_stop (ncols A) stop) r) h.
Proof.
  intros Hl Hr. unfold getrow.
  rewrite (bind_Ret _ _ _ _ _ (deref_Some _ _ _ Hl)). now rewrite Hr.
Qed.

Lemma setrow_Some h l A iy stop r v v' :
  h !! l = Some A -> rows A !! iy = Some r ->
  broadcast_list (slice_stop (ncols A) stop) v = Some v' ->
  setrow l iy stop v h
  = Ret tt (<[l := NdArray (ncols A)
                     (<[iy := v' ++ drop (slice_stop (ncols A) stop) r]> (rows A))]> h).
Proof.
  intros Hl Hr Hv. unfold setrow.
  rewrite (bind_Ret _ _ _ _ _ (deref_Some _ _ _ Hl)). rewrite Hr.
  unfold bind at 1. simpl. now rewrite Hv.
Qed.

Lemma incr_after_0 (n : nat) : arange (Z.of_nat n) = incr_after n 0.
Proof.
  rewrite arange_of_nat. unfold incr_after. apply list_fmap_ext.
  intros i x _. lia.
Qed.

Lemma incr_after_S (n k : nat) :
  (fun z : Z => z + fill (array0 (Z.of_nat n)) 1) <$> incr_after n k
  = incr_after n (S k).
Proof.
  unfold incr_after, fill. rewrite <- list_fmap_compose. apply list_fmap_ext.
  intros i x _. simpl. lia.
Qed.

Lemma add_vec_incr (r : list E) (n k : nat) :
  length r = n ->
  add_vec add of_int r (incr_after n k)
  = Some (imap (fun ix x => plus_index_sum add of_int x ix k) r).
Proof.
  intros Hlen. unfold add_vec, incr_after.
  rewrite length_fmap, length_seq.
  destruct (decide (length r = n)); [| contradiction].
  now rewrite zip_with_index by assumption.
Qed.

(** Row [k] of [ina] while the rows before it have been written: it is
    the row that [ina] had at the start, also when [out] is [ina] itself. *)
Lemma getrow_unwritten h ina out A O (nx ny k : nat) (new : list (list E)) ra :
  h !! ina = Some A -> h !! out = Some O ->
  has_shape ny nx A -> has_shape ny nx O ->
  length new = ny -> (k < ny)%nat -> rows A !! k = Some ra ->
  getrow ina k (Z.of_nat nx)
    (<[out := NdArray nx (take k new ++ drop k (rows O))]> h)
  = Ret ra (<[out := NdArray nx (take k new ++ drop k (rows O))]> h).
Proof.
  intros HA HO HsA HsO Hnew Hk Hra.
  assert (Hlra : length ra = nx).
  { destruct (has_shape_row ny nx A k HsA Hk) as (r & Hr & Hl). congruence. }
  assert (HcA : ncols A = nx) by apply HsA.
  destruct (decide (ina = out)) as [-> | Hne].
  - assert (A = O) by congruence. subst O.
    erewrite getrow_Some;
      [| apply lookup_insert_eq
       | simpl; rewrite lookup_app_r by (rewrite length_take; lia);
         rewrite length_take, Nat.min_l, Nat.sub_diag, lookup_drop, Nat.add_0_r by lia;
         exact Hra].
    simpl. now rewrite slice_stop_full, take_ge by lia.
  - erewrite getrow_Some;
      [| rewrite lookup_insert_ne by congruence; exact HA | exact Hra].
    now rewrite HcA, slice_stop_full, take_ge by lia.
Qed.

Lemma csubnpv_subr_rows_closed h ina out A O (nx ny : nat) :
  (ny < nx)%nat ->
  h !! ina = Some A -> h !! out = Some O ->
  has_shape ny nx A -> has_shape ny nx O ->
  csubnpv_subr add of_int ina (Z.of_nat nx) (Z.of_nat ny) out h
  = Ret tt (<[out := index_map (plus_index_sum add of_int) A]> h).
Proof.
  intros Hlt HA HO HsA HsO.
  set (f := plus_index_sum add of_int).
  set (new := rows (index_map f A)).
  assert (Hnew : length new = ny).
  { destruct (index_map_shape f ny nx A HsA) as (H & _). exact H. }
  assert (Hold : length (rows O) = ny) by apply HsO.
  assert (HcO : ncols O = nx) by apply HsO.
  assert (HcA : ncols A = nx) by apply HsA.
  unfold csubnpv_subr.
  destruct (Z.gtb_spec (Z.of_nat nx) (Z.of_nat ny)) as [_|]; [| lia].
  rewrite range_of_nat, incr_after_0.
  match goal with |- context [for_acc _ ?b _] => set (body := b) end.
  destruct (for_acc_seq_rule
    (fun k incr s => incr = incr_after nx k /\
       s = <[out := NdArray nx (take k new ++ drop k (rows O))]> h)
    body ny 0 (incr_after nx 0) h) as (b' & s' & Hrun & _ & Hs').
  - split; [reflexivity |].
    simpl. rewrite drop_0, <- HcO, ndarray_eta. symmetry. now apply insert_id.
  - intros k incr s0 [_ Hk] [-> ->]. simpl in Hk.
    destruct (has_shape_row ny nx A k HsA Hk) as (ra & Hra & Hlra).
    destruct (has_shape_row ny nx O k HsO Hk) as (ro & Hro & Hlro).
    set (rn := imap (fun ix x => f x ix k) ra).
    assert (Hrn : new !! k = Some rn) by (apply index_map_row; exact Hra).
    assert (Hlrn : length rn = nx) by (unfold rn; now rewrite length_imap).
    unfold body.
    rewrite (bind_Ret _ _ _ _ _
               (getrow_unwritten h ina out A O nx ny k new ra HA HO HsA HsO Hnew Hk Hra)).
    rewrite (add_vec_incr ra nx k Hlra). unfold bind at 1. simpl.
    erewrite bind_Ret;
      [| eapply setrow_Some;
         [ apply lookup_insert_eq
         | simpl; rewrite lookup_app_r by (rewrite length_take; lia);
           rewrite length_take, Nat.min_l, Nat.sub_diag, lookup_drop, Nat.add_0_r by lia;
           exact Hro
         | simpl; rewrite slice_stop_full; apply broadcast_list_same; exact Hlrn ]].
    unfold ret. eexists _, _. split; [reflexivity |].
    split; [apply incr_after_S |].
    rewrite insert_insert_eq. simpl. do 2 f_equal.
    rewrite slice_stop_full, drop_ge, app_nil_r by lia.
    apply insert_take_drop_next; [exact Hrn | lia].
  - rewrite (bind_Ret _ _ _ _ _ Hrun). rewrite Hs'. unfold ret. simpl.
    do 2 f_equal. rewrite <- Hnew at 1 2. rewrite take_drop_all by lia.
    unfold new, index_map. simpl. f_equal. symmetry. exact HcA.
Qed.

Lemma getcol_Some h l A stop ix c :
  h !! l = Some A -> (ix < ncols A)%nat ->
  mapM (fun r : list E => r !! ix) (take (slice_stop (nrows A) stop) (rows A)) = Some c ->
  getcol l stop ix h = Ret c h.
Proof.
  intros Hl Hix Hc. unfold getcol.
  rewrite (bind_Ret _ _ _ _ _ (deref_Some _ _ _ Hl)).
  destruct (decide (ix < ncols A)%nat); [| contradiction]. now rewrite Hc.
Qed.

Lemma setcol_Some h l A stop ix v v' :
  h !! l = Some A -> (ix < ncols A)%nat ->
  broadcast_list (slice_stop (nrows A) stop) v = Some v' ->
  setcol l stop ix v h
  = Ret tt (<[l := NdArray (ncols A)
                     (imap (fun i r => match v' !! i with
                                       | Some x => <[ix := x]> r
                                       | None => r
                                       end) (rows A))]> h).
Proof.
  intros Hl Hix Hv. unfold setcol.
  rewrite (bind_Ret _ _ _ _ _ (deref_Some _ _ _ Hl)).
  destruct (decide (ix < ncols A)%nat); [| contradiction]. now rewrite Hv.
Qed.

(** The rows of [out] once the first [k] columns are written. *)
Lemma columns_done_0 (new old : list (list E)) :
  length new = length old ->
  zip_with (fun n o => take 0 n ++ drop 0 o) new old = old.
Proof.
  intros Hlen. apply list_eq. intros i. rewrite lookup_zip_with.
  destruct (old !! i) as [o|] eqn:Ho.
  - destruct (lookup_lt_is_Some_2 new i) as [n Hn].
    { apply lookup_lt_Some in Ho. lia. }
    rewrite Hn. reflexivity.
  - destruct (new !! i); reflexivity.
Qed.

Lemma columns_done_all (new old : list (list E)) (nx : nat) :
  length new = length old ->
  Forall (fun r => length r = nx) new -> Forall (fun r => length r = nx) old ->
  zip_with (fun n o => take nx n ++ drop nx o) new old = new.
Proof.
  intros Hlen Hn Ho. apply list_eq. intros i. rewrite lookup_zip_with.
  destruct (new !! i) as [n|] eqn:Hni; [| reflexivity].
  destruct (lookup_lt_is_Some_2 old i) as [o Hoi].
  { apply lookup_lt_Some in Hni. lia. }
  rewrite Hoi. simpl. f_equal.
  rewrite Forall_forall in Hn, Ho.
  rewrite take_ge, drop_ge, app_nil_r;
    [reflexivity | rewrite (Ho o) | rewrite (Hn n)];
    try lia; eapply list_elem_of_lookup_2; eassumption.
Qed.

(** Column [k] of [ina] while the columns before it have been written: it
    is the column that [ina] had at the start, also when [out] is [ina]
    itself. *)
Lemma getcol_unwritten h ina out A O (nx ny k : nat) (new : list (list E)) c :
  h !! ina = Some A -> h !! out = Some O ->
  has_shape ny nx A -> has_shape ny nx O ->
  length new = ny -> Forall (fun r => length r = nx) new -> (k < nx)%nat ->
  mapM (fun r : list E => r !! k) (rows A) = Some c ->
  getcol ina (Z.of_nat ny) k
    (<[out := NdArray nx (zip_with (fun n o => take k n ++ drop k o) new (rows O))]> h)
  = Ret c (<[out := NdArray nx
               (zip_with (fun n o => take k n ++ drop k o) new (rows O))]> h).
Proof.
  intros HA HO HsA HsO Hnew Hallnew Hk Hc.
  assert (HcA : ncols A = nx) by apply HsA.
  assert (HrA : length (rows A) = ny) by apply HsA.
  destruct (decide (ina = out)) as [-> | Hne].
  - assert (A = O) by congruence. subst O.
    eapply getcol_Some; [apply lookup_insert_eq | simpl; lia |].
    unfold nrows. simpl. rewrite length_zip_with_l_eq by lia.
    rewrite Hnew, slice_stop_full, take_ge by (rewrite length_zip_with_l_eq; lia).
    apply mapM_Some. apply mapM_Some in Hc.
    apply Forall2_same_length_lookup. split.
    + rewrite length_zip_with_l_eq by lia. rewrite Hnew, <- HrA.
      exact (Forall2_length _ _ _ Hc).
    + intros i r x Hr Hx. rewrite lookup_zip_with in Hr.
      destruct (new !! i) as [n|] eqn:Hn; [| discriminate]. simpl in Hr.
      destruct (rows A !! i) as [o|] eqn:Ho; [| discriminate]. simpl in Hr.
      injection Hr as <-.
      destruct (Forall2_lookup_l _ _ _ _ _ Hc Ho) as (x' & Hx' & Hox).
      assert (x' = x) by congruence. subst x'.
      rewrite Forall_forall in Hallnew.
      assert (Hln : length n = nx)
        by (apply Hallnew; eapply list_elem_of_lookup_2; eassumption).
      rewrite lookup_app_r by (rewrite length_take; lia).
      rewrite length_take, Nat.min_l, Nat.sub_diag, lookup_drop, Nat.add_0_r by lia.
      exact Hox.
  - eapply getcol_Some;
      [ rewrite lookup_insert_ne by congruence; exact HA
      | lia
      | unfold nrows; rewrite HrA, slice_stop_full, take_ge by lia; exact Hc ].
Qed.

Lemma csubnpv_subr_columns_closed h ina out A O (nx ny : nat) :
  (nx <= ny)%nat ->
  h !! ina = Some A -> h !! out = Some O ->
  has_shape ny nx A -> has_shape ny nx O ->
  csubnpv_subr add of_int ina (Z.of_nat nx) (Z.of_nat ny) out h
  = Ret tt (<[out := index_map (plus_index_sum add of_int) A]> h).
Proof.
  intros Hle HA HO HsA HsO.
  set (f := plus_index_sum add of_int).
  set (new := rows (index_map f A)).
  destruct (index_map_shape f ny nx A HsA) as (Hnew & _ & Hallnew).
  fold new in Hallnew. unfold nrows in Hnew. fold new in Hnew.
  assert (Hold : length (rows O) = ny) by apply HsO.
  assert (HcO : ncols O = nx) by apply HsO.
  assert (HcA : ncols A = nx) by apply HsA.
  assert (HrA : length (rows A) = ny) by apply HsA.
  unfold csubnpv_subr.
  destruct (Z.gtb_spec (Z.of_nat nx) (Z.of_nat ny)) as [|_]; [lia |].
  rewrite range_of_nat, incr_after_0.
  match goal with |- context [for_acc _ ?b _] => set (body := b) end.
  destruct (for_acc_seq_rule
    (fun k incr s => incr = incr_after ny k /\
       s = <[out := NdArray nx
               (zip_with (fun n o => take k n ++ drop k o) new (rows O))]> h)
    body nx 0 (incr_after ny 0) h) as (b' & s' & Hrun & _ & Hs').
  - split; [reflexivity |].
    rewrite columns_done_0 by lia. rewrite <- HcO, ndarray_eta.
    symmetry. now apply insert_id.
  - intros k incr s0 [_ Hk] [-> ->]. simpl in Hk.
    (* the column of [ina] *)
    assert (Hcol : exists c, mapM (fun r : list E => r !! k) (rows A) = Some c).
    { apply mapM_is_Some. apply Forall_forall. intros r Hr. simpl.
      apply lookup_lt_is_Some_2. destruct HsA as (_ & _ & Hall).
      rewrite Forall_forall in Hall. rewrite (Hall r Hr). exact Hk. }
    destruct Hcol as [c Hc].
    assert (Hc2 := proj1 (mapM_Some _ _ _) Hc).
    assert (Hlc : length c = ny).
    { rewrite <- (Forall2_length _ _ _ Hc2). exact HrA. }
    unfold body.
    rewrite (bind_Ret _ _ _ _ _
               (getcol_unwritten h ina out A O nx ny k new c HA HO HsA HsO Hnew
                  Hallnew Hk Hc)).
    rewrite (add_vec_incr c ny k Hlc). unfold bind at 1. simpl.
    erewrite bind_Ret;
      [| eapply setcol_Some;
         [ apply lookup_insert_eq
         | simpl; lia
         | unfold nrows; simpl; rewrite length_zip_with_l_eq by lia;
           rewrite Hnew, slice_stop_full; apply broadcast_list_same;
           rewrite length_imap; exact Hlc ]].
    unfold ret. eexists _, _. split; [reflexivity |].
    split; [apply incr_after_S |].
    rewrite insert_insert_eq. simpl. do 2 f_equal.
    apply list_eq. intros i.
    rewrite list_lookup_imap, !lookup_zip_with.
    destruct (new !! i) as [n|] eqn:Hni; [| reflexivity]. simpl.
    destruct (rows O !! i) as [o|] eqn:Hoi; [| reflexivity]. simpl. f_equal.
    assert (Hi : (i < ny)%nat) by (apply lookup_lt_Some in Hni; lia).
    destruct (lookup_lt_is_Some_2 (rows A) i) as [ra Hra]; [lia |].
    destruct (Forall2_lookup_l _ _ _ _ _ Hc2 Hra) as (x & Hx & Hrax).
    rewrite list_lookup_imap, Hx. simpl.
    apply insert_take_drop_next.
    + unfold new in Hni. rewrite (index_map_row f A i ra Hra) in Hni.
      injection Hni as <-. rewrite list_lookup_imap, Hrax. simpl.
      unfold f, plus_index_sum. do 3 f_equal. lia.
    + rewrite Forall_forall in Hallnew.
      rewrite (Hallnew n) by (eapply list_elem_of_lookup_2; eassumption).
      destruct HsO as (_ & _ & HallO). rewrite Forall_forall in HallO.
      rewrite (HallO o) by (eapply list_elem_of_lookup_2; eassumption).
      reflexivity.
  - rewrite (bind_Ret _ _ _ _ _ Hrun). rewrite Hs'. unfold ret. simpl.
    do 2 f_equal. rewrite (columns_done_all new (rows O) nx); try lia.
    + unfold new, index_map. simpl. f_equal. symmetry. exact HcA.
    + exact Hallnew.
    + apply HsO.
Qed.

(** ** What the kernels write *)

Lemma writes_only_ret {B : Type} out (b : B) : writes_only (E:=E) out (ret b).
Proof. intros h l _. reflexivity. Qed.

Lemma writes_only_raise {B : Type} out (e : exn) :
  writes_only (E:=E) (A:=B) out (raise e).
Proof. intros h l _. reflexivity. Qed.

Lemma writes_only_bind {B C : Type} out (c : M heap B) (k : B -> M heap C) :
  writes_only out c -> (forall b, writes_only out (k b)) ->
  writes_only out (bind c k).
Proof.
  intros Hc Hk h l Hl. specialize (Hc h l Hl). unfold bind.
  destruct (c h) as [b s|e s]; simpl in *.
  - rewrite <- Hc. now apply Hk.
  - exact Hc.
Qed.

Lemma writes_only_lift_option {B : Type} out (e : exn) (o : option B) :
  writes_only (E:=E) out (lift_option e o).
Proof. destruct o; [apply writes_only_ret | apply writes_only_raise]. Qed.

Lemma writes_only_deref out l : writes_only (E:=E) out (deref l).
Proof. intros h l' _. unfold deref. now destruct (h !! l). Qed.

Lemma writes_only_store out A : writes_only out (store out A).
Proof. intros h l Hl. simpl. now rewrite lookup_insert_ne by congruence. Qed.

Lemma writes_only_for {B : Type} out (l : list B) (body : B -> M heap unit) :
  (forall b, writes_only out (body b)) -> writes_only out (for_ l body).
Proof.
  intros Hb. induction l as [|b l IH]; simpl.
  - apply writes_only_ret.
  - apply writes_only_bind; [apply Hb | intros _; exact IH].
Qed.

Lemma writes_only_for_acc {B C : Type} out (l : list B)
    (body : B -> C -> M heap C) (acc : C) :
  (forall b c, writes_only out (body b c)) ->
  writes_only out (for_acc l body acc).
Proof.
  intros Hb. revert acc. induction l as [|b l IH]; intros acc; simpl.
  - apply writes_only_ret.
  - apply writes_only_bind; [apply Hb | intros c; apply IH].
Qed.

Lemma writes_only_if {B : Type} out (c : bool) (c1 c2 : M heap B) :
  writes_only out c1 -> writes_only out c2 ->
  writes_only out (if c then c1 else c2).
Proof. now destruct c. Qed.

Lemma writes_only_decide {B : Type} out (P : Prop) (d : Decision P)
    (c1 c2 : M heap B) :
  writes_only out c1 -> writes_only out c2 ->
  writes_only out (if d then c1 else c2).
Proof. now destruct d. Qed.

Ltac frame :=
  repeat first
    [ apply writes_only_ret | apply writes_only_raise
    | apply writes_only_lift_option | apply writes_only_deref
    | apply writes_only_store
    | apply writes_only_bind | apply writes_only_for
    | apply writes_only_for_acc | apply writes_only_if
    | apply writes_only_decide | intro ].

Lemma csub_subr_writes_only ina nx ny out :
  writes_only out (csub_subr add of_int ina nx ny out).
Proof.
  unfold csub_subr, getitem, setitem, getitem_or, setitem_or. frame.
Qed.

Lemma csubnp_numba_subr_writes_only ina nx ny out :
  writes_only out (csubnp_numba_subr add of_int ina nx ny out).
Proof.
  unfold csubnp_numba_subr, getitem_or, setitem_or. frame.
Qed.

Lemma csubnpv_subr_writes_only ina nx ny out :
  writes_only out (csubnpv_subr add of_int ina nx ny out).
Proof.
  unfold csubnpv_subr, getrow, setrow, getcol, setcol. frame.
Qed.

Lemma csubnpna_subr_writes_only ina nx ny out :
  writes_only out (csubnpna_subr add of_int ina nx ny out).
Proof. unfold csubnpna_subr, assign_all. frame. Qed.

Lemma call_loop_writes_only (subr : loc -> Z -> Z -> loc -> M heap unit)
    nrpt ina nx ny out :
  writes_only out (subr ina nx ny out) ->
  writes_only out (call_loop subr nrpt ina nx ny out).
Proof. intros H. unfold call_loop. apply writes_only_for. intros _. exact H. Qed.

(** ** The claims about the kernels *)

(** C1.  A call [subr(ina,nx,ny,out)] of csub.py on two distinct arrays of
    [ny] rows and [nx] columns returns normally, changes [out] only, and
    leaves [out[iy,ix] = ina[iy,ix] + ix + iy] at every index in range;
    the kernel is the loop over [range(ny)] around the loop over
    [range(nx)]. *)
Theorem csub_subr_adds_indices h ina out A O (nx ny : nat) :
  ina <> out -> h !! ina = Some A -> h !! out = Some O ->
  has_shape ny nx A -> has_shape ny nx O ->
  (exists O',
     csub_subr add of_int ina (Z.of_nat nx) (Z.of_nat ny) out h
     = Ret tt (<[out := O']> h) /\
     has_shape ny nx O' /\
     forall iy ix, (iy < ny)%nat -> (ix < nx)%nat ->
       exists a, item A iy ix = Some a /\
                 item O' iy ix
                 = Some (add (add a (of_int (Z.of_nat ix))) (of_int (Z.of_nat iy)))) /\
  csub_subr add of_int ina (Z.of_nat nx) (Z.of_nat ny) out
  = for_ (seq 0 ny) (fun iy =>
      for_ (seq 0 nx) (fun ix =>
        a <- getitem ina iy ix ;;
        setitem out iy ix
          (add (add a (of_int (Z.of_nat ix))) (of_int (Z.of_nat iy))))).
Proof.
  intros Hne HA HO HsA HsO.
  assert (Hloop : csub_subr add of_int ina (Z.of_nat nx) (Z.of_nat ny) out
                  = for_ (seq 0 ny) (fun iy =>
                      for_ (seq 0 nx) (fun ix =>
                        a <- getitem ina iy ix ;;
                        setitem out iy ix
                          (add (add a (of_int (Z.of_nat ix))) (of_int (Z.of_nat iy)))))).
  { unfold csub_subr. now rewrite !range_of_nat. }
  split; [| exact Hloop].
  exists (index_map (plus_ix_plus_iy add of_int) A). split; [| split].
  - rewrite Hloop. unfold getitem, setitem.
    now apply (element_loop_closed IndexError h ina out A O nx ny).
  - now apply index_map_shape.
  - intros iy ix Hiy Hix.
    destruct (has_shape_item ny nx A iy ix HsA Hiy Hix) as (r & a & _ & _ & Ha).
    exists a. split; [exact Ha |].
    now apply (index_map_item (plus_ix_plus_iy add of_int)).
Qed.

(** C10.  Each of the four kernels changes no array other than [out]:
    whatever the store, the dimensions passed and the way the call ends,
    an input array [ina] distinct from [out] is the same object after the
    call, and after any number of repeated calls.  (For the code compiled
    by numba this holds up to its first out-of-bounds access, where the
    model stops.)  Hence the result check run after the calls compares
    [out[iy,ix]] with [a + (ix + iy)] for [a] the value that [ina[iy,ix]]
    had before the first call. *)
Theorem subr_leaves_ina_unchanged (neqb : E -> E -> bool) h ina out
    (nx ny nrpt : Z) (subr : loc -> Z -> Z -> loc -> M heap unit) :
  ina <> out ->
  subr ∈ [csub_subr add of_int; csubnp_numba_subr add of_int;
          csubnpv_subr add of_int; csubnpna_subr add of_int] ->
  writes_only out (subr ina nx ny out) /\
  final_state (subr ina nx ny out h) !! ina = h !! ina /\
  final_state (call_loop subr nrpt ina nx ny out h) !! ina = h !! ina /\
  forall A O' iy ix a o,
    h !! ina = Some A ->
    final_state (call_loop subr nrpt ina nx ny out h) !! out = Some O' ->
    item A iy ix = Some a -> item O' iy ix = Some o ->
    check_item add of_int neqb ina out iy ix
      (final_state (call_loop subr nrpt ina nx ny out h))
    = Ret (neqb o (add a (of_int (Z.of_nat ix + Z.of_nat iy))))
          (final_state (call_loop subr nrpt ina nx ny out h)).
Proof.
  intros Hne Hin.
  assert (Hw : writes_only out (subr ina nx ny out)).
  { repeat (apply elem_of_cons in Hin as [-> | Hin]).
    - apply csub_subr_writes_only.
    - apply csubnp_numba_subr_writes_only.
    - apply csubnpv_subr_writes_only.
    - apply csubnpna_subr_writes_only.
    - now apply elem_of_nil in Hin. }
  assert (Hloop := call_loop_writes_only subr nrpt ina nx ny out Hw h ina Hne).
  repeat split; try assumption.
  - now apply Hw.
  - intros A O' iy ix a o HA HO' Ha Ho. unfold check_item, getitem.
    set (h' := final_state (call_loop subr nrpt ina nx ny out h)) in *.
    rewrite (bind_Ret _ _ _ _ _ (getitem_or_Some IndexError h' out O' iy ix o HO' Ho)).
    assert (HA' : h' !! ina = Some A) by congruence.
    now rewrite (bind_Ret _ _ _ _ _ (getitem_or_Some IndexError h' ina A iy ix a HA' Ha)).
Qed.

End KernelFacts.

(** ** The kernels on concrete arrays *)

Example csub_subr_small :
  out_item 2%positive 1 2
    (csub_subr Z.add int_of_int 1%positive 3 2 2%positive small_heap) = Some 63.
Proof. reflexivity. Qed.

(** When [out] is [ina] itself the kernel works in place, and [ina] changes. *)
Example csub_subr_in_place :
  out_item 1%positive 1 2
    (csub_subr Z.add int_of_int 1%positive 3 2 1%positive small_heap) = Some 63.
Proof. reflexivity. Qed.

Lemma small_ina_shape : has_shape 2 3 small_ina.
Proof. repeat split; repeat constructor. Defined.

Lemma small_out_shape : has_shape 2 3 small_out.
Proof. repeat split; repeat constructor. Defined.

Lemma csub_subr_adds_indices_witness :
  exists O',
    csub_subr Z.add int_of_int 1%positive 3 2 2%positive small_heap
    = Ret tt (<[2%positive := O']> small_heap) /\
    has_shape 2 3 O' /\
    forall iy ix, (iy < 2)%nat -> (ix < 3)%nat ->
      exists a, item small_ina iy ix = Some a /\
                item O' iy ix = Some (a + Z.of_nat ix + Z.of_nat iy).
Proof.
  apply (csub_subr_adds_indices Z.add int_of_int small_heap 1%positive 2%positive
           small_ina small_out 3 2).
  - discriminate.
  - reflexivity.
  - reflexivity.
  - exact small_ina_shape.
  - exact small_out_shape.
Defined.

(** On float64 arrays the sliced kernel and the double loop can differ:
    [(2^53 + 1) + 1] rounds to [2^53] twice, [2^53 + (1 + 1)] is exact. *)
Lemma csubnpv_differs_from_loop_float64 :
  (has_shape 2 2 big_square /\
   out_item 2%positive 1 1
     (csub_subr PrimFloat.add float64_of_int 1%positive 2 2 2%positive
        (float_heap big_square)) = Some 9007199254740992%float /\
   out_item 2%positive 1 1
     (csubnpv_subr PrimFloat.add float64_of_int 1%positive 2 2 2%positive
        (float_heap big_square)) = Some 9007199254740994%float /\
   csubnpv_subr PrimFloat.add float64_of_int 1%positive 2 2 2%positive
     (float_heap big_square)
   <> csub_subr PrimFloat.add float64_of_int 1%positive 2 2 2%positive
        (float_heap big_square)) /\
  (has_shape 2 3 big_wide /\
   csubnpv_subr PrimFloat.add float64_of_int 1%positive 3 2 2%positive
     (float_heap big_wide)
   <> csub_subr PrimFloat.add float64_of_int 1%positive 3 2 2%positive
        (float_heap big_wide)).
Proof.
  pose (probe := fun o : outcome (gmap loc (ndarray float)) unit =>
                   match out_item 2%positive 1 1 o with
                   | Some x => PrimFloat.eqb x 9007199254740992%float
                   | None => false
                   end).
  split; [split; [| split; [| split]] | split].
  - repeat split; repeat constructor.
  - vm_compute. reflexivity.
  - vm_compute. reflexivity.
  - intros H. apply (f_equal probe) in H. vm_compute in H. discriminate.
  - repeat split; repeat constructor.
  - intros H. apply (f_equal probe) in H. vm_compute in H. discriminate.
Qed.

(** On the input that the main routine builds, all four kernels leave the
    same float64 store (here for 3 rows of 20 columns and for 4 rows of 3). *)
Example kernels_agree_on_main_input :
  let wide := float_heap (main_input float64_of_int 20 3) in
  let tall := float_heap (main_input float64_of_int 3 4) in
  csubnpv_subr PrimFloat.add float64_of_int 1%positive 20 3 2%positive wide
  = csub_subr PrimFloat.add float64_of_int 1%positive 20 3 2%positive wide /\
  csubnpna_subr PrimFloat.add float64_of_int 1%positive 20 3 2%positive wide
  = csub_subr PrimFloat.add float64_of_int 1%positive 20 3 2%positive wide /\
  csubnpv_subr PrimFloat.add float64_of_int 1%positive 3 4 2%positive tall
  = csub_subr PrimFloat.add float64_of_int 1%positive 3 4 2%positive tall /\
  check PrimFloat.add float64_of_int (fun x y => negb (PrimFloat.eqb x y))
    1%positive 20 3 2%positive
    (final_state
       (call_loop (csubnpv_subr PrimFloat.add float64_of_int) 5 1%positive 20 3
          2%positive wide))
  = Ret false
      (final_state
         (call_loop (csubnpv_subr PrimFloat.add float64_of_int) 5 1%positive 20 3
            2%positive wide)).
Proof. vm_compute. repeat split. Qed.

Lemma subr_leaves_ina_unchanged_witness :
  final_state (csubnpv_subr Z.add int_of_int 1%positive 3 2 2%positive small_heap)
    !! 1%positive = small_heap !! 1%positive /\
  final_state
    (call_loop (csubnpv_subr Z.add int_of_int) 4 1%positive 3 2 2%positive small_heap)
    !! 1%positive = small_heap !! 1%positive.
Proof.
  destruct (subr_leaves_ina_unchanged Z.add int_of_int Z.eqb small_heap
              1%positive 2%positive 3 2 4 (csubnpv_subr Z.add int_of_int))
    as (_ & H1 & H2 & _).
  - discriminate.
  - apply list_elem_of_further, list_elem_of_further, list_elem_of_here.
  - split; [exact H1 | exact H2].
Defined.

(** ** Running commands *)

Section RunFacts.
Variable World : Type.
Variable popen : list string -> World -> process * World.
Variable now : World -> Z * World.
Variable str_of_list : list string -> string.
Variable str_of_bytes : string -> string.
Variable format_f : nat -> nat -> Q -> string.
Variable format_g : nat -> nat -> Q -> string.

Local Abbreviation Execute := (ExecuteCommand World popen str_of_list).
Local Abbreviation BuildAndTime :=
  (BuildAndTimeProgram World popen now str_of_list).
Local Abbreviation error_of c :=
  ("Error executing '" +:+ str_of_command str_of_list c +:+ "'").

Implicit Types (s : State World) (Command : command).

(** C4, as the code has it.  ExecuteCommand hands the command (split at
    white space if it is one string) to Popen exactly once.  If the user
    interrupts, the whole program exits with status 0 and nothing is
    returned.  Otherwise it returns [(Status,Output,Errors)], and [Status]
    is [None] exactly when the subprocess was started, wrote valid UTF-8 on
    both streams and exited with status zero; in every other case [Status]
    is the error string built around the command.  [Output] and [Errors] are
    the captured streams, decoded as far as decoding got, and empty when
    the subprocess could not be run. *)
Theorem ExecuteCommand_status Command s :
  let CommandList := match Command with
                     | CmdStr c => split c
                     | CmdList l => l
                     end in
  let s' := set_spawned (spawned s ++ [CommandList])
              (set_world (snd (popen CommandList (world s))) s) in
  match fst (popen CommandList (world s)) with
  | Interrupted => Execute Command s = Raise (SystemExit 0) s'
  | Failed => Execute Command s = Ret (Some (error_of Command), Str "", Str "") s'
  | Exited stdout stderr Result =>
      exists Status Output Errors,
        Execute Command s = Ret (Status, Output, Errors) s' /\
        (Status = None <->
         Result = 0 /\ utf8_valid stdout = true /\ utf8_valid stderr = true) /\
        (Status = None \/ Status = Some (error_of Command)) /\
        Output = (if utf8_valid stdout then Str stdout else Bytes stdout) /\
        Errors = (if utf8_valid stdout && utf8_valid stderr
                  then Str stderr else Bytes stderr)
  end.
Proof.
  intros CommandList s'. unfold ExecuteCommand. fold CommandList.
  unfold bind, Popen. subst s'.
  destruct (popen CommandList (world s)) as [[out err rc| |] w]; simpl;
    try reflexivity.
  unfold decode_utf8.
  destruct (utf8_valid out) eqn:Hout; simpl.
  - destruct (utf8_valid err) eqn:Herr; simpl.
    + destruct (Z.eqb_spec rc 0) as [-> | Hrc]; simpl.
      * eexists _, _, _. split; [reflexivity |].
        repeat split; auto.
      * eexists _, _, _. split; [reflexivity |].
        repeat split; auto; try discriminate. intros (? & _); contradiction.
    + eexists _, _, _. split; [reflexivity |].
      repeat split; auto; try discriminate. intros (_ & _ & ?); discriminate.
  - eexists _, _, _. split; [reflexivity |].
    repeat split; auto; try discriminate. intros (_ & ? & _); discriminate.
Qed.

(** ** What can be raised *)

Lemma exits_only_ret {B : Type} (b : B) : exits_only (S:=State World) (ret b).
Proof. intros s. exact I. Qed.

Lemma exits_only_bind {B C : Type} (c : M (State World) B) (k : B -> M (State World) C) :
  exits_only c -> (forall b, exits_only (k b)) -> exits_only (bind c k).
Proof.
  intros Hc Hk s. specialize (Hc s). unfold bind.
  destruct (c s) as [b s'|e s']; [apply Hk | exact Hc].
Qed.

Lemma exits_only_datetime_now : exits_only (datetime_now World now).
Proof. intros s. unfold datetime_now. now destruct (now (world s)). Qed.

Lemma exits_only_ExecuteCommand Command : exits_only (Execute Command).
Proof.
  intros s. unfold ExecuteCommand, bind, Popen.
  destruct (popen _ (world s)) as [[out err rc| |] w]; simpl; try easy.
  destruct (decode_utf8 out); [| exact I].
  destruct (decode_utf8 err); [| exact I].
  now destruct (negb (rc =? 0)).
Qed.

Lemma exits_only_truediv (a b : Q) :
  ~ (b == 0)%Q -> exits_only (S:=State World) (truediv a b).
Proof.
  intros Hb s. unfold truediv.
  destruct (Qeq_bool b 0) eqn:Heq; [| exact I].
  apply Qeq_bool_iff in Heq. contradiction.
Qed.

Lemma exits_only_build_stage b1 b2 :
  exits_only (build_stage World popen str_of_list b1 b2).
Proof.
  unfold build_stage.
  destruct (negb (String.eqb b1 "")); [| apply exits_only_ret].
  apply exits_only_bind; [apply exits_only_ExecuteCommand |].
  intros [[Status Output] Errors].
  destruct (is_None Status); [| apply exits_only_ret].
  destruct (negb (String.eqb b2 "")); [| apply exits_only_ret].
  apply exits_only_bind; [apply exits_only_ExecuteCommand |].
  intros [[Status2 Output2] Errors2]. apply exits_only_ret.
Qed.

Lemma exits_only_timed_run Command :
  exits_only (timed_run World popen now str_of_list Command).
Proof.
  unfold timed_run.
  apply exits_only_bind; [apply exits_only_datetime_now | intros Start].
  apply exits_only_bind; [apply exits_only_ExecuteCommand | intros r].
  apply exits_only_bind; [apply exits_only_datetime_now | intros End].
  apply exits_only_ret.
Qed.

Lemma exits_only_cleanup_stage cleanup Status Secs Errors :
  exits_only (cleanup_stage World popen str_of_list cleanup Status Secs Errors).
Proof.
  unfold cleanup_stage.
  destruct (negb (String.eqb cleanup "")); [| apply exits_only_ret].
  apply exits_only_bind; [apply exits_only_ExecuteCommand |].
  intros [[CleanStatus Output] CleanErrors].
  destruct (is_None Status); apply exits_only_ret.
Qed.

Lemma clamp_is_max (Nrpt : Z) : (if Nrpt <? 2 then 2 else Nrpt) = Z.max Nrpt 2.
Proof. destruct (Z.ltb_spec Nrpt 2); lia. Qed.

Lemma float_of_int_nonzero (n : Z) : n <> 0 -> ~ (float_of_int n == 0)%Q.
Proof.
  intros Hn H. unfold float_of_int, inject_Z, Qeq in H. simpl in H. lia.
Qed.

Lemma exits_only_BuildAndTimeProgram b1 b2 exec Nrpt Nx Ny cleanup :
  exits_only (BuildAndTime b1 b2 exec Nrpt Nx Ny cleanup).
Proof.
  unfold BuildAndTimeProgram. rewrite clamp_is_max.
  apply exits_only_bind; [apply exits_only_build_stage |].
  intros [Status Errors].
  apply exits_only_bind; [| intros [[Status' Secs] Errors'];
                            apply exits_only_cleanup_stage].
  destruct (is_None Status); [| apply exits_only_ret].
  apply exits_only_bind; [apply exits_only_timed_run | intros full].
  apply exits_only_bind; [apply exits_only_timed_run | intros one].
  destruct one as [[[Status1 Output1] Errors1] T1]. simpl.
  apply exits_only_bind; [| intros Secs; apply exits_only_ret].
  apply exits_only_truediv, float_of_int_nonzero. lia.
Qed.

(** C8.  Whatever integer is passed as [Nrpt], 0, 1 and the negative ones
    included, BuildAndTimeProgram behaves as it does on [max(Nrpt,2)]: the
    count is raised to at least 2 before anything is run.  The divisor
    [float(Nrpt - 1)] of the overhead adjustment is therefore not zero, and
    the routine never raises ZeroDivisionError: it returns, or the program
    exits on an interrupt. *)
Theorem BuildAndTimeProgram_raises_Nrpt b1 b2 exec Nrpt Nx Ny cleanup s :
  BuildAndTime b1 b2 exec Nrpt Nx Ny cleanup s
  = BuildAndTime b1 b2 exec (Z.max Nrpt 2) Nx Ny cleanup s /\
  2 <= Z.max Nrpt 2 /\
  ~ (float_of_int (Z.max Nrpt 2 - 1) == 0)%Q /\
  match BuildAndTime b1 b2 exec Nrpt Nx Ny cleanup s with
  | Ret _ _ => True
  | Raise e _ => e = SystemExit 0
  end.
Proof.
  split; [| split; [lia | split]].
  - unfold BuildAndTimeProgram. rewrite !clamp_is_max.
    now replace (Z.max (Z.max Nrpt 2) 2) with (Z.max Nrpt 2) by lia.
  - apply float_of_int_nonzero. lia.
  - apply exits_only_BuildAndTimeProgram.
Qed.

(** ** The two timed runs *)

Lemma ExecuteCommand_spawned Command s r s' :
  Execute Command s = Ret r s' ->
  spawned s' = spawned s ++ [match Command with
                             | CmdStr c => split c
                             | CmdList l => l
                             end].
Proof.
  unfold ExecuteCommand, bind, Popen.
  destruct (popen _ (world s)) as [[out err rc| |] w]; simpl.
  - destruct (decode_utf8 out); [destruct (decode_utf8 err) |];
      [destruct (negb (rc =? 0)) | |];
      intros H; injection H as _ <-; reflexivity.
  - intros H; injection H as _ <-; reflexivity.
  - discriminate.
Qed.

Lemma datetime_now_spawned s t s' :
  datetime_now World now s = Ret t s' -> spawned s' = spawned s.
Proof.
  unfold datetime_now. destruct (now (world s)) as [t0 w].
  intros H; injection H as _ <-; reflexivity.
Qed.

Lemma timed_run_spawned Command s r T s' :
  timed_run World popen now str_of_list Command s = Ret (r, T) s' ->
  spawned s' = spawned s ++ [match Command with
                             | CmdStr c => split c
                             | CmdList l => l
                             end].
Proof.
  unfold timed_run, bind.
  destruct (datetime_now World now s) as [t0 s0|e s0] eqn:H0; [| discriminate].
  destruct (Execute Command s0) as [r0 s1|e s1] eqn:H1; [| discriminate].
  destruct (datetime_now World now s1) as [t1 s2|e s2] eqn:H2; [| discriminate].
  unfold ret. intros H; injection H as _ _ <-.
  rewrite (datetime_now_spawned _ _ _ H2), (ExecuteCommand_spawned _ _ _ _ H1).
  now rewrite (datetime_now_spawned _ _ _ H0).
Qed.

Lemma cleanup_stage_result cleanup Status (Secs : Q) Errors s r s' :
  cleanup_stage World popen str_of_list cleanup Status Secs Errors s = Ret r s' ->
  snd (fst r) = Secs /\
  spawned s' = spawned s ++ (if String.eqb cleanup "" then [] else [split cleanup]).
Proof.
  unfold cleanup_stage. destruct (String.eqb cleanup ""); simpl.
  - unfold ret. intros H. injection H as <- <-. now rewrite app_nil_r.
  - unfold bind.
    destruct (Execute (CmdStr cleanup) s) as [[[CleanStatus Output] CleanErrors] s0|e s0]
      eqn:Hrun; [| discriminate].
    apply ExecuteCommand_spawned in Hrun.
    destruct (is_None Status); unfold ret; intros H; injection H as <- <-;
      now split.
Qed.

(** C3, as the code has it.  Once the build commands have succeeded (or
    there are none), BuildAndTimeProgram runs the test program exactly
    twice, first with the repeat count [N = max(Nrpt,2)] and then with a
    single repeat, each run between two readings of the clock; the only
    command it runs after that is the cleanup command.  The seconds it
    returns are not the bare difference of the two elapsed times but that
    difference scaled by [N / (N - 1)]. *)
Theorem BuildAndTimeProgram_timing b1 b2 exec Nrpt Nx Ny cleanup
    s s1 s2 s3 Errors0 r1 r2 (Tfull Tone : Q) :
  build_stage World popen str_of_list b1 b2 s = Ret (None, Errors0) s1 ->
  timed_run World popen now str_of_list
    (run_command exec (Z.max Nrpt 2) Nx Ny) s1 = Ret (r1, Tfull) s2 ->
  timed_run World popen now str_of_list
    (run_command exec 1 Nx Ny) s2 = Ret (r2, Tone) s3 ->
  BuildAndTime b1 b2 exec Nrpt Nx Ny cleanup s
  = cleanup_stage World popen str_of_list cleanup (fst (fst r2))
      ((Tfull - Tone) * float_of_int (Z.max Nrpt 2)
       / float_of_int (Z.max Nrpt 2 - 1))%Q
      (snd r2) s3 /\
  forall Status Secs Errors s',
    BuildAndTime b1 b2 exec Nrpt Nx Ny cleanup s = Ret (Status, Secs, Errors) s' ->
    Secs = ((Tfull - Tone) * float_of_int (Z.max Nrpt 2)
            / float_of_int (Z.max Nrpt 2 - 1))%Q /\
    spawned s'
    = spawned s1
      ++ [split (exec +:+ " " +:+ pretty (Z.max Nrpt 2) +:+ " " +:+ pretty Nx
                 +:+ " " +:+ pretty Ny);
          split (exec +:+ " " +:+ pretty 1 +:+ " " +:+ pretty Nx
                 +:+ " " +:+ pretty Ny)]
      ++ (if String.eqb cleanup "" then [] else [split cleanup]).
Proof.
  intros Hbuild Hfull Hone.
  assert (Hrun : BuildAndTime b1 b2 exec Nrpt Nx Ny cleanup s
                 = cleanup_stage World popen str_of_list cleanup (fst (fst r2))
                     ((Tfull - Tone) * float_of_int (Z.max Nrpt 2)
                      / float_of_int (Z.max Nrpt 2 - 1))%Q
                     (snd r2) s3).
  { unfold BuildAndTimeProgram. rewrite clamp_is_max.
    unfold bind. rewrite Hbuild. simpl. rewrite Hfull. simpl. rewrite Hone.
    destruct r2 as [[Status2 Output2] Errors2]. simpl.
    unfold truediv.
    destruct (Qeq_bool (float_of_int (Z.max Nrpt 2 - 1)) 0) eqn:Hz.
    - apply Qeq_bool_iff in Hz. exfalso. revert Hz.
      apply float_of_int_nonzero. lia.
    - reflexivity. }
  split; [exact Hrun |].
  intros Status Secs Errors s' Hret. rewrite Hrun in Hret.
  apply cleanup_stage_result in Hret as [HSecs Hlog]. simpl in HSecs.
  split; [now symmetry |].
  rewrite Hlog, (timed_run_spawned _ _ _ _ _ Hone).
  rewrite (timed_run_spawned _ _ _ _ _ Hfull). simpl.
  now rewrite <- !app_assoc.
Qed.

(** ** Version queries *)

Lemma ExecuteCommand_no_error_is_decoded Command s Status Output Errors s' :
  Execute Command s = Ret (Status, Output, Errors) s' ->
  truthy Status = false ->
  Status = None /\ exists out err, Output = Str out /\ Errors = Str err.
Proof.
  unfold ExecuteCommand, bind, Popen.
  destruct (popen _ (world s)) as [[out err rc| |] w]; simpl.
  - destruct (decode_utf8 out) as [o|]; [destruct (decode_utf8 err) as [e|] |];
      [destruct (negb (rc =? 0)) | |];
      intros H; injection H as <- <- <- _; simpl; try discriminate.
    intros _. split; [reflexivity | now exists o, e].
  - intros H; injection H as <- _ _ _. discriminate.
  - discriminate.
Qed.

Lemma print_first_line_Ret Lang stream s :
  print_first_line World Lang (split_on "010"%char stream) s
  = Ret tt (set_terminal (terminal s ++ version_lines Lang stream) s).
Proof.
  unfold print_first_line, version_lines.
  destruct (split_on "010"%char stream) as [|first rest].
  - unfold ret. rewrite app_nil_r. now destruct s.
  - destruct (negb (String.eqb first "")).
    + reflexivity.
    + unfold ret. rewrite app_nil_r. now destruct s.
Qed.

(** C7, as the code has it.  ListVersion runs the version query once.  If
    that fails it writes one line, "Unable to get version for", the name and
    the error status.  If it succeeds it writes one line for each of the two
    streams, standard output first and standard error second, whose first
    line is not empty: the name, a colon and that first line.  So it writes
    one line when exactly one stream starts with text, two lines when both
    do, and nothing when neither does. *)
Theorem ListVersion_lines (Lang Command : string) s Status Output Errors s1 :
  Execute (CmdStr Command) s = Ret (Status, Output, Errors) s1 ->
  if truthy Status
  then ListVersion World popen str_of_list Lang Command s
       = Ret tt (set_terminal
                   (terminal s1
                    ++ [join_spaces ["Unable to get version for"; Lang; ":";
                                     str_of_status Status]]) s1)
  else exists out err,
      Output = Str out /\ Errors = Str err /\
      ListVersion World popen str_of_list Lang Command s
      = Ret tt (set_terminal
                  (terminal s1 ++ version_lines Lang out ++ version_lines Lang err)
                  s1).
Proof.
  intros Hrun. unfold ListVersion. rewrite (bind_Ret _ _ _ _ _ Hrun).
  destruct (truthy Status) eqn:Hst; [reflexivity |].
  destruct (ExecuteCommand_no_error_is_decoded _ _ _ _ _ _ Hrun Hst)
    as (_ & out & err & -> & ->).
  exists out, err. repeat split. simpl. unfold bind at 1 2. simpl.
  unfold bind. rewrite print_first_line_Ret, print_first_line_Ret. simpl.
  now rewrite app_assoc.
Qed.

End RunFacts.

(** ** Cells of a table *)

Section CellFacts.
Context {E : Type}.
Implicit Types (a : ndarray E).

Lemma item_Some_bounds a i j x :
  item a i j = Some x ->
  exists r, rows a !! i = Some r /\ r !! j = Some x /\ (j < ncols a)%nat.
Proof.
  unfold item. destruct (rows a !! i) as [r|]; [| discriminate].
  destruct (decide (j < ncols a)%nat); [| discriminate].
  intros H. now exists r.
Qed.

Lemma set_item_Some a i j x v :
  item a i j = Some x -> exists a', set_item a i j v = Some a'.
Proof.
  intros H. destruct (item_Some_bounds a i j x H) as (r & Hr & _ & Hj).
  unfold set_item. rewrite Hr.
  destruct (decide (j < ncols a)%nat); [| contradiction]. eauto.
Qed.

Lemma item_set_item_eq a a' i j x v :
  item a i j = Some x -> set_item a i j v = Some a' -> item a' i j = Some v.
Proof.
  intros H. destruct (item_Some_bounds a i j x H) as (r & Hr & Hx & Hj).
  unfold set_item. rewrite Hr.
  destruct (decide (j < ncols a)%nat); [| contradiction].
  intros Hs. injection Hs as <-. unfold item. simpl.
  rewrite list_lookup_insert_eq by (eapply lookup_lt_Some; eassumption).
  destruct (decide (j < ncols a)%nat); [| contradiction].
  apply list_lookup_insert_eq. eapply lookup_lt_Some; eassumption.
Qed.

Lemma item_set_item_ne a a' i j i' j' v :
  set_item a i j v = Some a' -> (i', j') <> (i, j) ->
  item a' i' j' = item a i' j'.
Proof.
  unfold set_item. destruct (rows a !! i) as [r|] eqn:Hr; [| discriminate].
  destruct (decide (j < ncols a)%nat); [| discriminate].
  intros Hs Hne. injection Hs as <-. unfold item. simpl.
  destruct (decide (i' = i)) as [-> | Hi].
  - rewrite list_lookup_insert_eq by (eapply lookup_lt_Some; eassumption).
    rewrite Hr. destruct (decide (j' < ncols a)%nat); [| reflexivity].
    apply list_lookup_insert_ne. congruence.
  - now rewrite list_lookup_insert_ne by congruence.
Qed.

Lemma set_item_shape ny nx a a' i j v :
  has_shape ny nx a -> set_item a i j v = Some a' -> has_shape ny nx a'.
Proof.
  intros (Hr & Hc & Hall). unfold set_item, nrows in *.
  destruct (rows a !! i) as [r|] eqn:Hri; [| discriminate].
  destruct (decide (j < ncols a)%nat); [| discriminate].
  intros Hs. injection Hs as <-. unfold has_shape, nrows. simpl.
  rewrite length_insert. repeat split; try assumption.
  apply Forall_insert; [assumption |]. rewrite length_insert.
  rewrite Forall_forall in Hall. apply Hall.
  eapply list_elem_of_lookup_2. eassumption.
Qed.

Lemma has_shape_item_Some ny nx a i j :
  has_shape ny nx a -> (i < ny)%nat -> (j < nx)%nat -> is_Some (item a i j).
Proof.
  intros Hs Hi Hj.
  destruct (has_shape_item ny nx a i j Hs Hi Hj) as (_ & x & _ & _ & Hx).
  now exists x.
Qed.

Lemma zeros_shape (zero : E) ny nx : has_shape ny nx (zeros zero ny nx).
Proof.
  unfold has_shape, nrows, zeros. simpl. rewrite length_replicate.
  repeat split. apply Forall_forall. intros r Hr.
  apply elem_of_replicate in Hr as [-> _]. apply length_replicate.
Qed.

Lemma zeros_item (zero : E) ny nx i j x :
  item (zeros zero ny nx) i j = Some x -> x = zero.
Proof.
  intros H. destruct (item_Some_bounds _ _ _ _ H) as (r & Hr & Hx & _).
  simpl in Hr. apply lookup_replicate in Hr as [-> _].
  now apply lookup_replicate in Hx as [-> _].
Qed.
End CellFacts.

(** ** Labels *)

Lemma index_lookup (x : string) (l : list string) (i : nat) :
  index x l = Some i -> l !! i = Some x.
Proof.
  revert i. induction l as [|y l IH]; intros i; simpl; [discriminate |].
  destruct (String.eqb_spec x y) as [-> | Hne].
  - intros H. injection H as <-. reflexivity.
  - destruct (index x l) as [k|]; [| discriminate].
    simpl. intros H. injection H as <-. simpl. now apply IH.
Qed.

Lemma index_inj (x y : string) (l : list string) (i : nat) :
  index x l = Some i -> index y l = Some i -> x = y.
Proof.
  intros Hx Hy. apply index_lookup in Hx, Hy. congruence.
Qed.

Lemma index_elem (x : string) (l : list string) :
  x ∈ l -> is_Some (index x l).
Proof.
  induction l as [|y l IH]; intros Hin; [now apply elem_of_nil in Hin |].
  simpl. destruct (String.eqb_spec x y) as [-> | Hne]; [eauto |].
  apply elem_of_cons in Hin as [-> | Hin]; [contradiction |].
  destruct (IH Hin) as [k ->]. simpl. eauto.
Qed.

Lemma elem_of_append_new (l : list string) (x y : string) :
  y ∈ append_new l x <-> y ∈ l \/ y = x.
Proof.
  unfold append_new. destruct (bool_decide_reflect (x ∈ l)) as [Hin | Hnin].
  - split; [auto | intros [H | ->]; assumption].
  - rewrite elem_of_app, list_elem_of_singleton. reflexivity.
Qed.

Lemma elem_of_foldl_append_new (xs acc : list string) (y : string) :
  y ∈ foldl append_new acc xs <-> y ∈ acc \/ y ∈ xs.
Proof.
  revert acc. induction xs as [|x xs IH]; intros acc; simpl.
  - rewrite elem_of_nil. tauto.
  - rewrite IH, elem_of_append_new, elem_of_cons. tauto.
Qed.

Lemma elem_of_insert_by_lower (x y : string) (l : list string) :
  y ∈ insert_by_lower x l <-> y = x \/ y ∈ l.
Proof.
  induction l as [|z l IH]; simpl.
  - rewrite list_elem_of_singleton, elem_of_nil. tauto.
  - destruct (String.ltb (lower x) (lower z)).
    + rewrite !elem_of_cons. tauto.
    + rewrite !elem_of_cons, IH. tauto.
Qed.

Lemma elem_of_sorted_by_lower (l : list string) (y : string) :
  y ∈ sorted_by_lower l <-> y ∈ l.
Proof.
  unfold sorted_by_lower.
  assert (H : forall acc, y ∈ foldl (fun acc x => insert_by_lower x acc) acc l
                          <-> y ∈ acc \/ y ∈ l).
  { induction l as [|x l IH]; intros acc; simpl.
    - rewrite elem_of_nil. tauto.
    - rewrite IH, elem_of_insert_by_lower, elem_of_cons. tauto. }
  rewrite H, elem_of_nil. tauto.
Qed.

(** ** Times *)

Lemma Qltb_lt (a b : Q) : Qltb a b = true <-> (a < b)%Q.
Proof.
  unfold Qltb. rewrite negb_true_iff. split.
  - intros H. apply Qnot_le_lt. intros Hle.
    apply Qle_bool_iff in Hle. congruence.
  - intros H. destruct (Qle_bool b a) eqn:Hle; [| reflexivity].
    apply Qle_bool_iff in Hle. exfalso. now apply (Qlt_not_le a b).
Qed.

Lemma Qltb_ge (a b : Q) : Qltb a b = false <-> (b <= a)%Q.
Proof.
  unfold Qltb. rewrite negb_false_iff. apply Qle_bool_iff.
Qed.

Lemma positive_times_app lang comp obs l c k :
  positive_times lang comp (obs ++ [(l, c, k)])
  = positive_times lang comp obs
    ++ (if String.eqb l lang && String.eqb c comp && Qltb 0 k then [k] else []).
Proof.
  unfold positive_times. rewrite omap_app. f_equal. simpl.
  now destruct (String.eqb l lang && String.eqb c comp && Qltb 0 k).
Qed.

Lemma positive_times_elem lang comp obs k :
  k ∈ positive_times lang comp obs -> (0 < k)%Q /\ (lang, comp, k) ∈ obs.
Proof.
  unfold positive_times. rewrite list_elem_of_omap.
  intros ([[l c] k0] & Hin & Hk).
  destruct (String.eqb_spec l lang) as [-> |]; [| discriminate].
  destruct (String.eqb_spec c comp) as [-> |]; [| discriminate].
  simpl in Hk. destruct (Qltb 0 k0) eqn:Hpos; [| discriminate].
  injection Hk as <-. split; [now apply Qltb_lt | assumption].
Qed.

Lemma is_lowest_updated (old K : Q) (times : list Q) :
  is_lowest old times -> (forall k, k ∈ times -> (0 < k)%Q) -> (0 < K)%Q ->
  is_lowest (updated_cell old K) (times ++ [K]).
Proof.
  intros Hlow Hpos HK. unfold updated_cell. right.
  destruct (Qle_bool old 0) eqn:Hle.
  - apply Qle_bool_iff in Hle.
    destruct Hlow as [[-> _] | [Hin _]].
    + split; [apply list_elem_of_singleton; reflexivity |].
      intros k Hk. apply list_elem_of_singleton in Hk as ->. apply Qle_refl.
    + exfalso. apply (Qlt_not_le 0 old); [now apply Hpos | assumption].
  - destruct Hlow as [[_ ->] | [Hin Hmin]]; [discriminate |].
    destruct (Qltb K old) eqn:Hlt.
    + apply Qltb_lt in Hlt. split.
      * apply elem_of_app. right. apply list_elem_of_singleton. reflexivity.
      * intros k Hk. apply elem_of_app in Hk as [Hk | Hk].
        -- apply Qle_trans with old; [now apply Qlt_le_weak | now apply Hmin].
        -- apply list_elem_of_singleton in Hk as ->. apply Qle_refl.
    + apply Qltb_ge in Hlt. split.
      * apply elem_of_app. now left.
      * intros k Hk. apply elem_of_app in Hk as [Hk | Hk].
        -- now apply Hmin.
        -- now apply list_elem_of_singleton in Hk as ->.
Qed.

Lemma Qltb_div_positive (q b : Q) :
  (0 < b)%Q -> Qltb 0 (q / b) = Qltb 0 q.
Proof.
  intros Hb. assert (Hinv : (0 < / b)%Q) by now apply Qinv_lt_0_compat.
  destruct (Qltb 0 q) eqn:Hq.
  - apply Qltb_lt. apply Qltb_lt in Hq. unfold Qdiv.
    now apply Qmult_lt_0_compat.
  - apply Qltb_ge. apply Qltb_ge in Hq. unfold Qdiv.
    apply Qle_trans with (0 * / b)%Q;
      [apply Qmult_le_compat_r; [assumption | now apply Qlt_le_weak] |].
    rewrite Qmult_0_l. apply Qle_refl.
Qed.

Lemma Qdiv_same (b : Q) : (0 < b)%Q -> (b / b == 1)%Q.
Proof.
  intros Hb. unfold Qdiv. apply Qmult_inv_r.
  intros H. rewrite H in Hb. now apply (Qlt_irrefl 0).
Qed.

Lemma updated_cell_cases (old K : Q) :
  updated_cell old K = K \/ updated_cell old K = old.
Proof.
  unfold updated_cell. destruct (Qle_bool old 0); [now left |].
  destruct (Qltb K old); [now left | now right].
Qed.

(** ** The driver *)

Section DriverFacts.
Variable World : Type.
Variable popen : list string -> World -> process * World.
Variable now : World -> Z * World.
Variable str_of_list : list string -> string.
Variable str_of_bytes : string -> string.
Variable format_f : nat -> nat -> Q -> string.
Variable format_g : nat -> nat -> Q -> string.
Variable FullTests : list Test.
Variables Ntests Nx Ny : Z.

Local Abbreviation Langs := (LangTechList FullTests).
Local Abbreviation Comps := (CompOptList FullTests).
Local Abbreviation BuildAndTime :=
  (BuildAndTimeProgram World popen now str_of_list).
Local Abbreviation record := (record_result World FullTests).
Local Abbreviation time_one :=
  (time_test World popen now str_of_list str_of_bytes format_f format_g
     FullTests Nx Ny).
Local Abbreviation pass :=
  (run_pass World popen now str_of_list str_of_bytes format_f format_g
     FullTests Ntests Nx Ny).
Local Abbreviation all_tests :=
  (run_tests World popen now str_of_list str_of_bytes format_f format_g
     FullTests Ntests Nx Ny).

Implicit Types (s : State World) (test : Test).

(** *** Statements that leave the table alone *)

Lemma silent_ret {B : Type} (b : B) : silent (World:=World) (ret b).
Proof. intros s. now repeat split. Qed.

Lemma silent_raise {B : Type} (e : exn) : silent (World:=World) (A:=B) (raise e).
Proof. intros s. now repeat split. Qed.

Lemma silent_bind {B D : Type} (c : M (State World) B) (k : B -> M (State World) D) :
  silent c -> (forall b, silent (k b)) -> silent (bind c k).
Proof.
  intros Hc Hk s. destruct (Hc s) as (H1 & H2 & H3). unfold bind.
  destruct (c s) as [b s'|e s']; simpl in *.
  - destruct (Hk b s') as (K1 & K2 & K3). now rewrite K1, K2, K3.
  - now repeat split.
Qed.

Lemma silent_datetime_now : silent (datetime_now World now).
Proof.
  intros s. unfold datetime_now. destruct (now (world s)). now repeat split.
Qed.

Lemma silent_ExecuteCommand Command :
  silent (ExecuteCommand World popen str_of_list Command).
Proof.
  intros s. unfold ExecuteCommand, bind, Popen.
  destruct (popen _ (world s)) as [[out err rc| |] w]; simpl;
    try (now repeat split).
  destruct (decode_utf8 out); [| now repeat split].
  destruct (decode_utf8 err); [| now repeat split].
  destruct (negb (rc =? 0)); now repeat split.
Qed.

Lemma silent_truediv (a b : Q) : silent (World:=World) (truediv a b).
Proof. unfold truediv. destruct (Qeq_bool b 0); [apply silent_raise | apply silent_ret]. Qed.

Lemma silent_BuildAndTimeProgram b1 b2 exec Nrpt0 Nx0 Ny0 cleanup :
  silent (BuildAndTime b1 b2 exec Nrpt0 Nx0 Ny0 cleanup).
Proof.
  unfold BuildAndTimeProgram, build_stage, timed_run, cleanup_stage.
  repeat first
    [ apply silent_ret | apply silent_truediv | apply silent_datetime_now
    | apply silent_ExecuteCommand | apply silent_bind
    | match goal with
      | |- silent (if ?c then _ else _) => destruct c
      | |- silent (let '(_, _) := ?p in _) => destruct p
      | |- silent (match ?p with _ => _ end) => destruct p
      end
    | intro ].
Qed.

(** *** Recording a result *)

Lemma set_Results_same s : set_Results (Results s) s = s.
Proof. now destruct s. Qed.

Lemma record_result_cell lang comp (K : Q) s i j old :
  index lang Langs = Some i -> index comp Comps = Some j ->
  item (Results s) i j = Some old ->
  exists R',
    record lang comp K s = Ret tt (set_Results R' s) /\
    item R' i j = Some (if Qltb 0 K then updated_cell old K else old) /\
    (forall i' j', (i', j') <> (i, j) -> item R' i' j' = item (Results s) i' j') /\
    (forall ny nx, has_shape ny nx (Results s) -> has_shape ny nx R').
Proof.
  intros Hi Hj Hold. unfold record_result. rewrite Hi, Hj.
  unfold bind at 1 2. simpl.
  assert (Hsame : exists R',
             @Ret (State World) unit tt s = Ret tt (set_Results R' s) /\
             item R' i j = Some old /\
             (forall i' j', (i', j') <> (i, j) -> item R' i' j' = item (Results s) i' j') /\
             (forall ny nx, has_shape ny nx (Results s) -> has_shape ny nx R')).
  { exists (Results s). rewrite set_Results_same. auto. }
  assert (Hput : exists R',
             put_Result World i j K s = Ret tt (set_Results R' s) /\
             item R' i j = Some K /\
             (forall i' j', (i', j') <> (i, j) -> item R' i' j' = item (Results s) i' j') /\
             (forall ny nx, has_shape ny nx (Results s) -> has_shape ny nx R')).
  { destruct (set_item_Some (Results s) i j old K Hold) as [R' HR'].
    exists R'. unfold put_Result. rewrite HR'. split; [reflexivity |].
    split; [eapply item_set_item_eq; eassumption |].
    split; [intros i' j' Hne; eapply item_set_item_ne; eassumption |].
    intros ny nx Hs. eapply set_item_shape; eassumption. }
  destruct (Qltb 0 K); [| exact Hsame].
  unfold bind, get_Result. rewrite Hold. simpl. unfold updated_cell.
  destruct (Qle_bool old 0); [exact Hput |].
  destruct (Qltb K old); [exact Hput | exact Hsame].
Qed.

Lemma record_result_unknown lang comp (K : Q) s :
  index lang Langs = None \/ index comp Comps = None ->
  record lang comp K s = Raise ValueError s.
Proof.
  intros H. unfold record_result, bind.
  destruct (index lang Langs); simpl; [| reflexivity].
  destruct (index comp Comps); simpl; [| reflexivity].
  destruct H; discriminate.
Qed.

Lemma table_ok_record lang comp (K : Q) s :
  table_ok FullTests (Results s) (observed s) ->
  table_ok FullTests
    (Results (final_state
       (record lang comp K (set_observed (observed s ++ [(lang, comp, K)]) s))))
    (observed (final_state
       (record lang comp K (set_observed (observed s ++ [(lang, comp, K)]) s)))).
Proof.
  intros (Hshape & Hcells & Hbest).
  set (s1 := set_observed (observed s ++ [(lang, comp, K)]) s).
  assert (Hcells1 : forall i j q, item (Results s) i j = Some q ->
            q = 0%Q \/ ((0 < q)%Q /\ exists l c, (l, c, q) ∈ observed s1)).
  { intros i j q Hq. destruct (Hcells i j q Hq) as [-> | (Hpos & l & c & Hin)];
      [now left | right]. split; [assumption |]. exists l, c.
    simpl. apply elem_of_app. now left. }
  destruct (index lang Langs) as [i0|] eqn:Hi0;
    [destruct (index comp Comps) as [j0|] eqn:Hj0 |].
  - destruct (Hbest lang comp i0 j0 Hi0 Hj0) as (old & Hold & Hlow).
    destruct (record_result_cell lang comp K s1 i0 j0 old Hi0 Hj0 Hold)
      as (R' & Hrun & Hnew & Hother & Hsh).
    rewrite Hrun. simpl. split; [now apply Hsh | split].
    + intros i j q Hq.
      destruct (decide ((i, j) = (i0, j0))) as [Heq | Hne].
      * injection Heq as -> ->. rewrite Hnew in Hq. injection Hq as <-.
        destruct (Qltb 0 K) eqn:HK; [| now apply (Hcells1 i0 j0)].
        destruct (updated_cell_cases old K) as [-> | ->];
          [| now apply (Hcells1 i0 j0)].
        right. split; [now apply Qltb_lt |]. exists lang, comp.
        apply elem_of_app. right. apply list_elem_of_singleton. reflexivity.
      * rewrite (Hother i j Hne) in Hq. now apply (Hcells1 i j).
    + intros l c i j Hi Hj. rewrite positive_times_app.
      destruct (decide ((i, j) = (i0, j0))) as [Heq | Hne].
      * injection Heq as -> ->.
        assert (l = lang) as -> by (eapply index_inj; eassumption).
        assert (c = comp) as -> by (eapply index_inj; eassumption).
        rewrite !String.eqb_refl. simpl. exists
          (if Qltb 0 K then updated_cell old K else old).
        split; [exact Hnew |].
        destruct (Qltb 0 K) eqn:HK; [| now rewrite app_nil_r].
        apply is_lowest_updated; [assumption | | now apply Qltb_lt].
        intros k Hk. now apply positive_times_elem in Hk.
      * rewrite (Hother i j Hne).
        assert (Hoff : String.eqb lang l && String.eqb comp c = false).
        { destruct (String.eqb_spec lang l) as [-> |]; [| reflexivity].
          destruct (String.eqb_spec comp c) as [-> |]; [| reflexivity].
          exfalso. apply Hne. congruence. }
        rewrite Hoff. simpl. rewrite app_nil_r. now apply Hbest.
  - rewrite record_result_unknown by now right. simpl.
    split; [assumption | split; [assumption |]].
    intros l c i j Hi Hj. rewrite positive_times_app.
    assert (Hoff : String.eqb comp c = false).
    { destruct (String.eqb_spec comp c) as [-> |]; [congruence | reflexivity]. }
    rewrite Hoff, andb_false_r. simpl. rewrite app_nil_r. now apply Hbest.
  - rewrite record_result_unknown by now left. simpl.
    split; [assumption | split; [assumption |]].
    intros l c i j Hi Hj. rewrite positive_times_app.
    assert (Hoff : String.eqb lang l = false).
    { destruct (String.eqb_spec lang l) as [-> |]; [congruence | reflexivity]. }
    rewrite Hoff. simpl. rewrite app_nil_r. now apply Hbest.
Qed.

(** *** The search for the benchmark *)

Lemma look_at_step (seen : nat -> nat -> Prop) i j f s q lang comp :
  benchmark_of FullTests (Results s) seen f ->
  item (Results s) i j = Some q ->
  Langs !! i = Some lang -> Comps !! j = Some comp ->
  exists f',
    look_at World FullTests i j f s = Ret f' s /\
    benchmark_of FullTests (Results s)
      (fun i' j' => seen i' j' \/ (i' = i /\ j' = j)) f'.
Proof.
  intros Hf Hq Hlang Hcomp. unfold look_at, bind, get_Result.
  rewrite Hq. simpl.
  destruct (Qltb 0 q) eqn:Hpos.
  - apply Qltb_lt in Hpos.
    destruct Hf as [[-> Hnone] | (Hfirst & Hbench & (i0 & j0 & Hseen & Hcell & Hl & Hc) & Hmin)].
    + simpl. rewrite Hlang, Hcomp. simpl. eexists. split; [reflexivity |].
      right. simpl. repeat split; try assumption.
      * exists i, j. repeat split; auto.
      * intros i' j' q' [Hs | [-> ->]] Hq' Hpos'.
        -- exfalso. eapply Hnone; eassumption.
        -- rewrite Hq in Hq'. injection Hq' as <-. apply Qle_refl.
    + rewrite Hfirst.
      destruct (Qltb q (BenchKIterSecs f)) eqn:Hlt.
      * apply Qltb_lt in Hlt. rewrite Hlang, Hcomp. simpl.
        eexists. split; [reflexivity |].
        right. simpl. repeat split; try assumption.
        -- exists i, j. repeat split; auto.
        -- intros i' j' q' [Hs | [-> ->]] Hq' Hpos'.
           ++ apply Qle_trans with (BenchKIterSecs f);
                [now apply Qlt_le_weak | now apply (Hmin i' j')].
           ++ rewrite Hq in Hq'. injection Hq' as <-. apply Qle_refl.
      * apply Qltb_ge in Hlt. eexists. split; [reflexivity |].
        right. simpl. repeat split; try assumption.
        -- exists i0, j0. repeat split; auto.
        -- intros i' j' q' [Hs | [-> ->]] Hq' Hpos'.
           ++ now apply (Hmin i' j').
           ++ rewrite Hq in Hq'. now injection Hq' as <-.
  - apply Qltb_ge in Hpos. eexists. split; [reflexivity |].
    destruct Hf as [[-> Hnone] | (Hfirst & Hbench & (i0 & j0 & Hseen & Hcell & Hl & Hc) & Hmin)].
    + left. split; [reflexivity |].
      intros i' j' q' [Hs | [-> ->]] Hq'.
      * now apply (Hnone i' j').
      * rewrite Hq in Hq'. injection Hq' as <-. now apply Qle_not_lt.
    + right. simpl. repeat split; try assumption.
      * exists i0, j0. repeat split; auto.
      * intros i' j' q' [Hs | [-> ->]] Hq' Hpos'.
        -- now apply (Hmin i' j').
        -- rewrite Hq in Hq'. injection Hq' as <-.
           exfalso. now apply (Qle_not_lt q 0).
Qed.

Lemma benchmark_of_seen R (seen seen' : nat -> nat -> Prop) f :
  (forall i j, seen i j -> seen' i j) ->
  (forall i j q, seen' i j -> item R i j = Some q -> seen i j) ->
  benchmark_of FullTests R seen f -> benchmark_of FullTests R seen' f.
Proof.
  intros Hup Hdown [[-> Hnone] | (Hfirst & Hbench & (i0 & j0 & Hs & Hrest) & Hmin)].
  - left. split; [reflexivity |]. intros i j q Hs Hq.
    apply (Hnone i j q); [eapply Hdown; eassumption | assumption].
  - right. repeat split; try assumption.
    + exists i0, j0. split; [now apply Hup | assumption].
    + intros i j q Hs' Hq. apply (Hmin i j q); [eapply Hdown; eassumption | assumption].
Qed.

Lemma find_benchmark_found s :
  has_shape (length Langs) (length Comps) (Results s) ->
  exists f,
    find_benchmark World FullTests s = Ret f s /\
    benchmark_of FullTests (Results s) (fun _ _ => True) f.
Proof.
  intros Hshape. unfold find_benchmark, NLangTech, NCompOpt.
  rewrite !range_of_nat.
  match goal with |- context [for_acc _ ?b _] => set (body := b) end.
  destruct (for_acc_seq_rule
    (fun i f s' => s' = s /\
       benchmark_of FullTests (Results s) (fun i' _ => (i' < i)%nat) f)
    body (length Langs) 0 (mkFastest true "" "" 1) s) as (f & s' & Hrun & -> & Hf).
  - split; [reflexivity |]. left. split; [reflexivity |]. intros i j q Hi. lia.
  - intros i f s0 [_ Hi] [-> Hf]. simpl in Hi. unfold body.
    match goal with |- context [for_acc _ ?b _] => set (inner := b) end.
    destruct (for_acc_seq_rule
      (fun j f' s' => s' = s /\
         benchmark_of FullTests (Results s)
           (fun i' j' => (i' < i)%nat \/ (i' = i /\ (j' < j)%nat)) f')
      inner (length Comps) 0 f s) as (f' & s' & Hrun' & -> & Hf').
    + split; [reflexivity |]. revert Hf. apply benchmark_of_seen.
      * intros i' j' H. now left.
      * intros i' j' q [H | [_ H]] _; [assumption | lia].
    + intros j f0 s0 [_ Hj] [-> Hf0]. simpl in Hj. unfold inner.
      destruct (has_shape_item_Some _ _ _ i j Hshape Hi Hj) as [q Hq].
      destruct (lookup_lt_is_Some_2 Langs i Hi) as [lang Hlang].
      destruct (lookup_lt_is_Some_2 Comps j Hj) as [comp Hcomp].
      destruct (look_at_step _ i j f0 s q lang comp Hf0 Hq Hlang Hcomp)
        as (f1 & Hlook & Hf1).
      exists f1, s. split; [exact Hlook |]. split; [reflexivity |].
      revert Hf1. apply benchmark_of_seen.
      * intros i' j' [[H | [-> H]] | [-> ->]]; [now left | right | right]; split; lia.
      * intros i' j' q' [H | [-> H]] _; [now left; left |].
        destruct (decide (j' = j)) as [-> | Hne]; [now right |].
        left. right. split; [reflexivity | lia].
    + exists f', s. split; [exact Hrun' |]. split; [reflexivity |].
      revert Hf'. apply benchmark_of_seen.
      * intros i' j' [H | [-> _]]; lia.
      * intros i' j' q' H Hq'.
        destruct (item_Some_bounds _ _ _ _ Hq') as (r & Hr & Hx & Hlt).
        destruct Hshape as (_ & Hc & _). rewrite Hc in Hlt.
        destruct (decide (i' = i)) as [-> | Hne]; [now right |].
        left. lia.
  - exists f. split; [exact Hrun |]. revert Hf. apply benchmark_of_seen.
    + intros i j _. exact I.
    + intros i j q _ Hq.
      destruct (item_Some_bounds _ _ _ _ Hq) as (r & Hr & _ & _).
      apply lookup_lt_Some in Hr. destruct Hshape as (Hn & _). unfold nrows in Hn.
      simpl. lia.
Qed.

(** *** One test *)

Lemma final_state_bind {B D : Type} (c : M (State World) B)
    (k : B -> M (State World) D) s :
  final_state (bind c k s)
  = match c s with
    | Ret b s' => final_state (k b s')
    | Raise _ s' => s'
    end.
Proof. unfold bind. now destruct (c s). Qed.

Lemma time_test_interrupted test s e s1 :
  BuildAndTime (BuildCommand1 test) (BuildCommand2 test) (ExecCommand test)
    (Nrpt test) Nx Ny (CleanupCommand test) s = Raise e s1 ->
  time_one test s = Raise e s1.
Proof. intros H. unfold time_test. now rewrite (bind_Raise _ _ _ _ _ H). Qed.

Lemma time_test_error test s Status Secs Errors s1 :
  BuildAndTime (BuildCommand1 test) (BuildCommand2 test) (ExecCommand test)
    (Nrpt test) Nx Ny (CleanupCommand test) s = Ret (Status, Secs, Errors) s1 ->
  truthy Status = true ->
  time_one test s
  = Ret tt (set_terminal
              (terminal s1
               ++ [join_spaces [LangTech test; CompOpt test; "Error:";
                                str_of_status Status;
                                str_of_text str_of_bytes Errors]]) s1).
Proof.
  intros H Ht. unfold time_test. rewrite (bind_Ret _ _ _ _ _ H). now rewrite Ht.
Qed.

Lemma time_test_timed test s Status Secs Errors s1 :
  BuildAndTime (BuildCommand1 test) (BuildCommand2 test) (ExecCommand test)
    (Nrpt test) Nx Ny (CleanupCommand test) s = Ret (Status, Secs, Errors) s1 ->
  truthy Status = false -> Nrpt test <> 0 ->
  time_one test s
  = record (LangTech test) (CompOpt test)
      (Secs / float_of_int (Nrpt test) * 1000)%Q
      (set_observed
         (observed s1
          ++ [(LangTech test, CompOpt test,
               (Secs / float_of_int (Nrpt test) * 1000)%Q)])
         (set_terminal
            (terminal s1
             ++ [timing_line format_f format_g test Secs
                   (Secs / float_of_int (Nrpt test) * 1000)%Q]) s1)).
Proof.
  intros H Ht Hn. unfold time_test. rewrite (bind_Ret _ _ _ _ _ H). rewrite Ht.
  unfold truediv.
  destruct (Qeq_bool (float_of_int (Nrpt test)) 0) eqn:Hz.
  - apply Qeq_bool_iff in Hz. exfalso. revert Hz. now apply float_of_int_nonzero.
  - reflexivity.
Qed.

Lemma time_test_no_repeats test s Status Secs Errors s1 :
  BuildAndTime (BuildCommand1 test) (BuildCommand2 test) (ExecCommand test)
    (Nrpt test) Nx Ny (CleanupCommand test) s = Ret (Status, Secs, Errors) s1 ->
  truthy Status = false -> Nrpt test = 0 ->
  time_one test s = Raise ZeroDivisionError s1.
Proof.
  intros H Ht Hn. unfold time_test. rewrite (bind_Ret _ _ _ _ _ H). rewrite Ht, Hn.
  reflexivity.
Qed.

Lemma table_ok_time_test test s :
  table_ok FullTests (Results s) (observed s) ->
  table_ok FullTests (Results (final_state (time_one test s)))
    (observed (final_state (time_one test s))).
Proof.
  intros Hok.
  destruct (silent_BuildAndTimeProgram (BuildCommand1 test) (BuildCommand2 test)
              (ExecCommand test) (Nrpt test) Nx Ny (CleanupCommand test) s)
    as (HR & Hobs & _).
  destruct (BuildAndTime (BuildCommand1 test) (BuildCommand2 test)
              (ExecCommand test) (Nrpt test) Nx Ny (CleanupCommand test) s)
    as [[[Status Secs] Errors] s1 | e s1] eqn:Hrun; simpl in HR, Hobs.
  - destruct (truthy Status) eqn:Ht.
    + rewrite (time_test_error _ _ _ _ _ _ Hrun Ht). simpl. now rewrite HR, Hobs.
    + destruct (Z.eq_dec (Nrpt test) 0) as [Hz | Hnz].
      * rewrite (time_test_no_repeats _ _ _ _ _ _ Hrun Ht Hz). simpl.
        now rewrite HR, Hobs.
      * rewrite (time_test_timed _ _ _ _ _ _ Hrun Ht Hnz).
        match goal with
        | |- context [set_observed _ ?s0] =>
            apply (table_ok_record _ _ _ s0)
        end.
        simpl. now rewrite HR, Hobs.
  - rewrite (time_test_interrupted _ _ _ _ Hrun). simpl. now rewrite HR, Hobs.
Qed.

(** *** All the tests *)

Lemma for_final_state {B : Type} (P : State World -> Prop) (l : list B)
    (body : B -> M (State World) unit) :
  (forall b s, P s -> P (final_state (body b s))) ->
  forall s, P s -> P (final_state (for_ l body s)).
Proof.
  intros Hbody. induction l as [|b l IH]; intros s Hs; simpl; [assumption |].
  rewrite final_state_bind. specialize (Hbody b s Hs).
  destruct (body b s) as [[] s'|e s']; simpl in *; [now apply IH | assumption].
Qed.

Lemma table_ok_tests (tests : list Test) s :
  table_ok FullTests (Results s) (observed s) ->
  table_ok FullTests (Results (final_state (for_ tests time_one s)))
    (observed (final_state (for_ tests time_one s))).
Proof.
  apply (for_final_state (fun s => table_ok FullTests (Results s) (observed s))).
  intros test s0. apply table_ok_time_test.
Qed.

Lemma table_ok_run_pass ITest s :
  table_ok FullTests (Results s) (observed s) ->
  table_ok FullTests (Results (final_state (pass ITest s)))
    (observed (final_state (pass ITest s))).
Proof.
  intros Hok. unfold run_pass.
  destruct (Ntests >? 1); unfold bind, print; simpl; now apply table_ok_tests.
Qed.

Lemma table_ok_zeros :
  table_ok FullTests (zeros 0%Q (NLangTech FullTests) (NCompOpt FullTests)) [].
Proof.
  split; [apply zeros_shape | split].
  - intros i j q Hq. left. now apply zeros_item in Hq.
  - intros lang comp i j Hi Hj.
    apply index_lookup, lookup_lt_Some in Hi, Hj.
    destruct (has_shape_item_Some _ _ _ i j
                (zeros_shape 0%Q (NLangTech FullTests) (NCompOpt FullTests)) Hi Hj)
      as [q Hq].
    exists q. split; [exact Hq |]. left. split; [reflexivity |].
    now apply zeros_item in Hq.
Qed.

Lemma table_ok_run_tests s0 :
  table_ok FullTests (Results (final_state (all_tests s0)))
    (observed (final_state (all_tests s0))).
Proof.
  unfold run_tests. rewrite final_state_bind.
  apply (for_final_state (fun s => table_ok FullTests (Results s) (observed s))).
  - intros ITest s. apply table_ok_run_pass.
  - simpl. apply table_ok_zeros.
Qed.

Lemma table_ok_nonnegative R obs i j q :
  table_ok FullTests R obs -> item R i j = Some q -> (0 <= q)%Q.
Proof.
  intros (_ & Hcells & _) Hq.
  destruct (Hcells i j q Hq) as [-> | [Hpos _]];
    [apply Qle_refl | now apply Qlt_le_weak].
Qed.

Lemma record_result_quiet lang comp (K : Q) s :
  observed (final_state (record lang comp K s)) = observed s /\
  terminal (final_state (record lang comp K s)) = terminal s /\
  (Qltb 0 K = false -> Results (final_state (record lang comp K s)) = Results s).
Proof.
  unfold record_result, bind, get_Result, put_Result.
  destruct (index lang Langs) as [i|]; simpl; [| now repeat split].
  destruct (index comp Comps) as [j|]; simpl; [| now repeat split].
  destruct (Qltb 0 K); simpl; [| now repeat split].
  destruct (item (Results s) i j) as [old|]; simpl; [| now repeat split].
  destruct (Qle_bool old 0); [| destruct (Qltb K old)]; simpl;
    try destruct (set_item (Results s) i j K); simpl; now repeat split.
Qed.

Lemma test_labels_indexed test :
  test ∈ FullTests ->
  is_Some (index (LangTech test) Langs) /\ is_Some (index (CompOpt test) Comps).
Proof.
  intros Hin. split; apply index_elem, elem_of_sorted_by_lower,
    elem_of_foldl_append_new; right; now apply list_elem_of_fmap_2.
Qed.

(** *** The report *)

Lemma set_terminal_same s : set_terminal (terminal s) s = s.
Proof. now destruct s. Qed.

Lemma for_lines {B : Type} (l : list B) (body : B -> M (State World) unit)
    (line : B -> string) (R : ndarray Q) :
  (forall b s, b ∈ l -> Results s = R ->
     body b s = Ret tt (set_terminal (terminal s ++ [line b]) s)) ->
  forall s, Results s = R ->
    for_ l body s = Ret tt (set_terminal (terminal s ++ (line <$> l)) s).
Proof.
  induction l as [|b l IH]; intros Hbody s HR; simpl.
  - unfold ret. now rewrite app_nil_r, set_terminal_same.
  - rewrite (bind_Ret _ _ _ _ _ (Hbody b s (list_elem_of_here b l) HR)).
    rewrite IH.
    + simpl. now rewrite <- app_assoc.
    + intros b' s' Hin. apply Hbody. now apply list_elem_of_further.
    + exact HR.
Qed.

Lemma for_acc_pure {B : Type} (l : list nat) (step : nat -> B -> M (State World) B)
    (g : B -> nat -> B) s :
  (forall i acc, i ∈ l -> step i acc s = Ret (g acc i) s) ->
  forall acc, for_acc l step acc s = Ret (foldl g acc l) s.
Proof.
  induction l as [|i l IH]; intros Hstep acc; simpl; [reflexivity |].
  rewrite (bind_Ret _ _ _ _ _ (Hstep i acc (list_elem_of_here i l))).
  apply IH. intros i' acc' Hin. apply Hstep. now apply list_elem_of_further.
Qed.

Lemma summarise_Ret (Bench : Q) test s :
  has_shape (length Langs) (length Comps) (Results s) ->
  test ∈ FullTests ->
  exists K,
    cell_of FullTests (Results s) (LangTech test) (CompOpt test) = Some K /\
    summarise World format_f format_g FullTests Bench test s
    = Ret tt (set_terminal
                (terminal s
                 ++ [summary_line format_f format_g test K (K / Bench)%Q]) s).
Proof.
  intros Hshape Hin.
  destruct (test_labels_indexed test Hin) as [[i Hi] [j Hj]].
  assert (Hi' := Hi). assert (Hj' := Hj).
  apply index_lookup, lookup_lt_Some in Hi', Hj'.
  destruct (has_shape_item_Some _ _ _ i j Hshape Hi' Hj') as [K HK].
  exists K. unfold cell_of. rewrite Hi, Hj. split; [exact HK |].
  unfold summarise, bind, get_Result. rewrite Hi, Hj. simpl. now rewrite HK.
Qed.

Lemma print_row_Ret (Bench : Q) comp s :
  has_shape (length Langs) (length Comps) (Results s) ->
  comp ∈ Comps ->
  print_row World format_f FullTests Bench comp s
  = Ret tt (set_terminal
              (terminal s ++ [row_text format_f FullTests Bench (Results s) comp]) s).
Proof.
  intros Hshape Hin. destruct (index_elem comp Comps Hin) as [j Hj].
  assert (Hj' := Hj). apply index_lookup, lookup_lt_Some in Hj'.
  unfold print_row, row_text. rewrite Hj. unfold bind at 1. simpl.
  rewrite range_of_nat.
  match goal with |- context [for_acc _ ?b _] => set (step := b) end.
  assert (Hline : for_acc (seq 0 (NLangTech FullTests)) step comp s
                  = Ret (foldl (fun Line i =>
                                  Line +:+ "," +:+ cell_text format_f Bench (Results s) j i)
                           comp (seq 0 (NLangTech FullTests))) s).
  { apply for_acc_pure. intros i Line Hi. apply elem_of_seq in Hi.
    destruct (has_shape_item_Some _ _ _ i j Hshape) as [r Hr];
      [unfold NLangTech in Hi; lia | exact Hj' |].
    unfold step, csv_cell, bind, get_Result, cell_text. rewrite Hr. reflexivity. }
  now rewrite (bind_Ret _ _ _ _ _ Hline).
Qed.

Lemma report_Ret s f :
  has_shape (length Langs) (length Comps) (Results s) ->
  find_benchmark World FullTests s = Ret f s ->
  report World format_f format_g FullTests s
  = Ret tt (set_terminal
              (terminal s
               ++ [join_spaces ["Fastest combination is "; FastestLangTech f;
                                "and"; FastestCompOpt f]]
               ++ summary_lines format_f format_g FullTests (BenchKIterSecs f)
                    (Results s)
               ++ table_lines format_f FullTests (BenchKIterSecs f) (Results s))
              s).
Proof.
  intros Hshape Hf. unfold report. rewrite (bind_Ret _ _ _ _ _ Hf).
  unfold print_summary, print_table, bind, print. simpl.
  rewrite (for_lines FullTests _
             (fun test =>
                match cell_of FullTests (Results s) (LangTech test) (CompOpt test) with
                | Some K => summary_line format_f format_g test K
                              (K / BenchKIterSecs f)%Q
                | None => ""
                end) (Results s)).
  - simpl.
    rewrite (for_lines Comps _
               (row_text format_f FullTests (BenchKIterSecs f) (Results s))
               (Results s)).
    + unfold summary_lines, table_lines, set_terminal. simpl. do 2 f_equal.
      rewrite <- !app_assoc. reflexivity.
    + intros comp s' Hin HR. rewrite <- HR. apply print_row_Ret; [| exact Hin].
      now rewrite HR.
    + reflexivity.
  - intros test s' Hin HR.
    destruct (summarise_Ret (BenchKIterSecs f) test s') as (K & HK & Hrun);
      [now rewrite HR | exact Hin |].
    rewrite HR in HK. now rewrite HK.
  - reflexivity.
Qed.

(** *** The claims about the table *)

(** C5.  A test is observed when BuildAndTimeProgram comes back without an
    error status; its time per 1000 iterations is then recorded.  Recording
    a positive time overwrites the cell of the pair (language, compiler)
    only when the cell is still zero or the new time is strictly lower, and
    touches no other cell.  Hence, wherever the passes end, the cell of every
    pair in the table of tests holds the lowest positive time observed for
    that pair, and zero when no positive time was observed for it. *)
Theorem lowest_time_per_cell :
  (forall test s Status Secs Errors s1,
     BuildAndTime (BuildCommand1 test) (BuildCommand2 test) (ExecCommand test)
       (Nrpt test) Nx Ny (CleanupCommand test) s = Ret (Status, Secs, Errors) s1 ->
     observed (final_state (time_one test s))
     = if truthy Status then observed s
       else if Nrpt test =? 0 then observed s
       else observed s
            ++ [(LangTech test, CompOpt test,
                 (Secs / float_of_int (Nrpt test) * 1000)%Q)]) /\
  (forall lang comp (K : Q) s i j old,
     index lang Langs = Some i -> index comp Comps = Some j ->
     item (Results s) i j = Some old -> (0 < K)%Q ->
     exists R',
       record lang comp K s = Ret tt (set_Results R' s) /\
       item R' i j = Some (updated_cell old K) /\
       (forall i' j', (i', j') <> (i, j) -> item R' i' j' = item (Results s) i' j')) /\
  (forall old K : Q, (0 <= old)%Q ->
     ((old == 0)%Q \/ (K < old)%Q -> updated_cell old K = K) /\
     (~ ((old == 0)%Q \/ (K < old)%Q) -> updated_cell old K = old)) /\
  (forall s0 test,
     test ∈ FullTests ->
     exists i j q,
       index (LangTech test) Langs = Some i /\
       index (CompOpt test) Comps = Some j /\
       item (Results (final_state (all_tests s0))) i j = Some q /\
       is_lowest q (positive_times (LangTech test) (CompOpt test)
                      (observed (final_state (all_tests s0))))).
Proof.
  split; [| split; [| split]].
  - intros test s Status Secs Errors s1 Hrun.
    destruct (silent_BuildAndTimeProgram (BuildCommand1 test) (BuildCommand2 test)
                (ExecCommand test) (Nrpt test) Nx Ny (CleanupCommand test) s)
      as (_ & Hobs & _).
    rewrite Hrun in Hobs. simpl in Hobs.
    destruct (truthy Status) eqn:Ht.
    + rewrite (time_test_error _ _ _ _ _ _ Hrun Ht). simpl. exact Hobs.
    + destruct (Z.eqb_spec (Nrpt test) 0) as [Hz | Hnz].
      * rewrite (time_test_no_repeats _ _ _ _ _ _ Hrun Ht Hz). simpl. exact Hobs.
      * rewrite (time_test_timed _ _ _ _ _ _ Hrun Ht Hnz).
        match goal with
        | |- context [record ?l ?c ?k ?s0] =>
            destruct (record_result_quiet l c k s0) as (-> & _)
        end.
        simpl. now rewrite Hobs.
  - intros lang comp K s i j old Hi Hj Hold HK.
    destruct (record_result_cell lang comp K s i j old Hi Hj Hold)
      as (R' & Hrun & Hnew & Hother & _).
    apply Qltb_lt in HK. rewrite HK in Hnew. now exists R'.
  - intros old K Hold. unfold updated_cell. split.
    + intros [Hz | Hlt].
      * destruct (Qle_bool old 0) eqn:Hle; [reflexivity |].
        assert (H : (old <= 0)%Q) by (rewrite Hz; apply Qle_refl).
        apply Qle_bool_iff in H. congruence.
      * destruct (Qle_bool old 0); [reflexivity |].
        apply Qltb_lt in Hlt. now rewrite Hlt.
    + intros Hnot.
      destruct (Qle_bool old 0) eqn:Hle.
      * exfalso. apply Hnot. left. apply Qle_bool_iff in Hle.
        now apply Qle_antisym.
      * destruct (Qltb K old) eqn:Hlt; [| reflexivity].
        exfalso. apply Hnot. right. now apply Qltb_lt.
  - intros s0 test Hin.
    destruct (test_labels_indexed test Hin) as [[i Hi] [j Hj]].
    destruct (table_ok_run_tests s0) as (_ & _ & Hbest).
    destruct (Hbest _ _ i j Hi Hj) as (q & Hq & Hlow).
    now exists i, j, q.
Qed.

(** What the loop over the tests does with the status that
    BuildAndTimeProgram hands it.  Every entry of the results table is
    nonnegative, after any number of tests and wherever the passes end.  A
    test for which BuildAndTimeProgram returns an error status is reported
    on the terminal in one line and the table stays as it was; so it is for
    a test whose time per 1000 iterations comes out zero or negative, which
    also gets its line.  The benchmark is therefore always positive, and
    when the table holds no positive entry, as it does when no positive
    time was observed, the benchmark is still 1.0 and the fastest language
    and compiler are still the empty strings.  Which status
    BuildAndTimeProgram returns for a test program that failed is another
    matter: it is the status of the last command that it ran. *)
Theorem failed_runs_are_not_stored :
  (forall (tests : list Test) s i j q,
     table_ok FullTests (Results s) (observed s) ->
     item (Results (final_state (for_ tests time_one s))) i j = Some q ->
     (0 <= q)%Q) /\
  (forall s0 i j q,
     item (Results (final_state (all_tests s0))) i j = Some q -> (0 <= q)%Q) /\
  (forall test s Status Secs Errors s1,
     BuildAndTime (BuildCommand1 test) (BuildCommand2 test) (ExecCommand test)
       (Nrpt test) Nx Ny (CleanupCommand test) s = Ret (Status, Secs, Errors) s1 ->
     (truthy Status = true ->
      time_one test s
      = Ret tt (set_terminal
                  (terminal s
                   ++ [join_spaces [LangTech test; CompOpt test; "Error:";
                                    str_of_status Status;
                                    str_of_text str_of_bytes Errors]]) s1) /\
      Results s1 = Results s) /\
     (truthy Status = false -> Nrpt test <> 0 ->
      ~ (0 < Secs / float_of_int (Nrpt test) * 1000)%Q ->
      Results (final_state (time_one test s)) = Results s /\
      terminal (final_state (time_one test s))
      = terminal s
        ++ [timing_line format_f format_g test Secs
              (Secs / float_of_int (Nrpt test) * 1000)%Q])) /\
  (forall s f s',
     has_shape (length Langs) (length Comps) (Results s) ->
     find_benchmark World FullTests s = Ret f s' ->
     (0 < BenchKIterSecs f)%Q) /\
  (forall s,
     has_shape (length Langs) (length Comps) (Results s) ->
     (forall i j q, item (Results s) i j = Some q -> ~ (0 < q)%Q) ->
     find_benchmark World FullTests s = Ret (mkFastest true "" "" 1) s) /\
  (forall s0,
     (forall lang comp k,
        (lang, comp, k) ∈ observed (final_state (all_tests s0)) -> ~ (0 < k)%Q) ->
     find_benchmark World FullTests (final_state (all_tests s0))
     = Ret (mkFastest true "" "" 1) (final_state (all_tests s0)) /\
     exists rest,
       report World format_f format_g FullTests (final_state (all_tests s0))
       = Ret tt (set_terminal
                   (terminal (final_state (all_tests s0))
                    ++ "Fastest combination is   and " :: rest)
                   (final_state (all_tests s0)))).
Proof.
  assert (Hnone : forall s,
     has_shape (length Langs) (length Comps) (Results s) ->
     (forall i j q, item (Results s) i j = Some q -> ~ (0 < q)%Q) ->
     find_benchmark World FullTests s = Ret (mkFastest true "" "" 1) s).
  { intros s Hshape Hzero.
    destruct (find_benchmark_found s Hshape) as (f & Hrun & Hf).
    destruct Hf as [[-> _] | (_ & Hpos & (i & j & _ & Hcell & _) & _)];
      [exact Hrun |].
    exfalso. exact (Hzero i j _ Hcell Hpos). }
  assert (Hquiet : forall test s Status Secs Errors s1,
     BuildAndTime (BuildCommand1 test) (BuildCommand2 test) (ExecCommand test)
       (Nrpt test) Nx Ny (CleanupCommand test) s = Ret (Status, Secs, Errors) s1 ->
     Results s1 = Results s /\ terminal s1 = terminal s).
  { intros test s Status Secs Errors s1 Hrun.
    destruct (silent_BuildAndTimeProgram (BuildCommand1 test) (BuildCommand2 test)
                (ExecCommand test) (Nrpt test) Nx Ny (CleanupCommand test) s)
      as (HR & _ & Hterm).
    rewrite Hrun in HR, Hterm. now split. }
  split; [| split; [| split; [| split; [| split]]]].
  - intros tests s i j q Hok Hq.
    eapply table_ok_nonnegative; [apply (table_ok_tests tests s Hok) | exact Hq].
  - intros s0 i j q Hq.
    eapply table_ok_nonnegative; [apply (table_ok_run_tests s0) | exact Hq].
  - intros test s Status Secs Errors s1 Hrun.
    destruct (Hquiet _ _ _ _ _ _ Hrun) as [HR Hterm]. split.
    + intros Ht. rewrite (time_test_error _ _ _ _ _ _ Hrun Ht).
      now rewrite Hterm.
    + intros Ht Hnz Hnonpos. rewrite (time_test_timed _ _ _ _ _ _ Hrun Ht Hnz).
      match goal with
      | |- context [record ?l ?c ?k ?s0] =>
          destruct (record_result_quiet l c k s0) as (_ & -> & ->)
      end.
      * simpl. now rewrite HR, Hterm.
      * destruct (Qltb 0 _) eqn:Hpos; [| reflexivity].
        apply Qltb_lt in Hpos. contradiction.
  - intros s f s' Hshape Hrun.
    destruct (find_benchmark_found s Hshape) as (f' & Hrun' & Hf').
    rewrite Hrun in Hrun'. injection Hrun' as -> _.
    destruct Hf' as [[-> _] | (_ & Hpos & _)]; [reflexivity | exact Hpos].
  - exact Hnone.
  - intros s0 Hobs. destruct (table_ok_run_tests s0) as (Hshape & Hcells & _).
    assert (Hrun : find_benchmark World FullTests (final_state (all_tests s0))
                   = Ret (mkFastest true "" "" 1) (final_state (all_tests s0))).
    { apply Hnone; [exact Hshape |].
      intros i j q Hq Hpos.
      destruct (Hcells i j q Hq) as [-> | (_ & lang & comp & Hin)].
      - discriminate.
      - now apply (Hobs lang comp q). }
    split; [exact Hrun |].
    eexists. rewrite (report_Ret _ _ Hshape Hrun). reflexivity.
Qed.

(** C6.  Wherever the passes end, the search for the benchmark returns:
    if the table holds a positive entry, the smallest positive entry, with
    the labels of a cell that holds it; if not, 1.0.  The report then
    writes one line of summary for every test of the table of tests, in
    their order: the two labels, the time per 1000 iterations [K] in the
    cell of the test under [%10.2g], and [K] divided by the benchmark under
    [%12.2f].  For a test whose cell holds the benchmark that quotient
    equals 1, and it is printed as 1 is, the printed text depending on the
    value only.  In the .csv table every field is the entry divided by the
    benchmark under [%.2f], or empty when the entry is zero. *)
Theorem report_is_relative_to_fastest s0 :
  exists (f : fastest) (summary : list string),
    find_benchmark World FullTests (final_state (all_tests s0))
    = Ret f (final_state (all_tests s0)) /\
    benchmark_of FullTests (Results (final_state (all_tests s0)))
      (fun _ _ => True) f /\
    report World format_f format_g FullTests (final_state (all_tests s0))
    = Ret tt (set_terminal
                (terminal (final_state (all_tests s0))
                 ++ [join_spaces ["Fastest combination is "; FastestLangTech f;
                                  "and"; FastestCompOpt f]]
                 ++ [""; "Summary of relative speeds:"; ""]
                 ++ summary
                 ++ table_lines format_f FullTests (BenchKIterSecs f)
                      (Results (final_state (all_tests s0))))
                (final_state (all_tests s0))) /\
    length summary = length FullTests /\
    (forall (n : nat) test, FullTests !! n = Some test ->
       exists K : Q,
         cell_of FullTests (Results (final_state (all_tests s0)))
           (LangTech test) (CompOpt test) = Some K /\
         summary !! n
         = Some (rjust 24 (LangTech test) +:+ " " +:+ rjust 20 (CompOpt test)
                 +:+ " 1K Iter: " +:+ format_g 10 2 K
                 +:+ ", Relative time " +:+ format_f 12 2 (K / BenchKIterSecs f)%Q) /\
         ((K == BenchKIterSecs f)%Q ->
          (K / BenchKIterSecs f == 1)%Q /\
          ((forall q q' : Q, (q == q')%Q -> format_f 12 2 q = format_f 12 2 q') ->
           summary !! n
           = Some (rjust 24 (LangTech test) +:+ " " +:+ rjust 20 (CompOpt test)
                   +:+ " 1K Iter: " +:+ format_g 10 2 K
                   +:+ ", Relative time " +:+ format_f 12 2 1%Q)))) /\
    (forall i j q,
       item (Results (final_state (all_tests s0))) i j = Some q ->
       cell_text format_f (BenchKIterSecs f)
         (Results (final_state (all_tests s0))) j i
       = if Qltb 0 q
         then format_f 0%nat 2%nat (q / BenchKIterSecs f)%Q else "") /\
    (forall i j q,
       item (Results (final_state (all_tests s0))) i j = Some q ->
       (q == 0)%Q ->
       cell_text format_f (BenchKIterSecs f)
         (Results (final_state (all_tests s0))) j i = "").
Proof.
  set (s := final_state (all_tests s0)).
  destruct (table_ok_run_tests s0) as (Hshape & Hcells & _). fold s in Hshape, Hcells.
  destruct (find_benchmark_found s Hshape) as (f & Hrun & Hf).
  assert (Hpos : (0 < BenchKIterSecs f)%Q).
  { destruct Hf as [[-> _] | (_ & Hpos & _)]; [reflexivity | exact Hpos]. }
  assert (Hcell : forall i j q, item (Results s) i j = Some q ->
            cell_text format_f (BenchKIterSecs f) (Results s) j i
            = if Qltb 0 q then format_f 0%nat 2%nat (q / BenchKIterSecs f)%Q else "").
  { intros i j q Hq. unfold cell_text. rewrite Hq.
    now rewrite (Qltb_div_positive q _ Hpos). }
  set (line := fun test : Test =>
                 match cell_of FullTests (Results s) (LangTech test) (CompOpt test) with
                 | Some K => summary_line format_f format_g test K
                               (K / BenchKIterSecs f)%Q
                 | None => ""
                 end).
  exists f, (line <$> FullTests).
  split; [exact Hrun |]. split; [exact Hf |].
  split; [| split; [| split; [| split]]].
  - rewrite (report_Ret s f Hshape Hrun). reflexivity.
  - apply length_fmap.
  - intros n test Hn.
    assert (Hin : test ∈ FullTests) by (eapply list_elem_of_lookup_2; exact Hn).
    destruct (summarise_Ret (BenchKIterSecs f) test s Hshape Hin) as (K & HK & _).
    assert (Hline : (line <$> FullTests) !! n
                    = Some (summary_line format_f format_g test K
                              (K / BenchKIterSecs f)%Q)).
    { rewrite list_lookup_fmap, Hn. simpl. unfold line. now rewrite HK. }
    exists K. split; [exact HK |]. split; [exact Hline |].
    intros Hsame.
    assert (Hone : (K / BenchKIterSecs f == 1)%Q).
    { rewrite Hsame. now apply Qdiv_same. }
    split; [exact Hone |]. intros Hvalue. rewrite Hline. unfold summary_line.
    now rewrite (Hvalue _ _ Hone).
  - exact Hcell.
  - intros i j q Hq Hz. rewrite (Hcell i j q Hq).
    assert (Hno : Qltb 0 q = false).
    { apply Qltb_ge. rewrite Hz. apply Qle_refl. }
    now rewrite Hno.
Qed.

End DriverFacts.

(** ** The table of tests *)

(** The 24 languages and 40 compilers of the table of tests, in the order
    of the rows and columns of [Results]. *)
Example registry_labels :
  LangTechList Registry.FullTests
  = ["Assembler"; "C : Num. rec."; "C : raw"; "C : vectors"; "C++ : Boost";
     "C++ : Boost no assert"; "Fortran"; "Java"; "Javascript"; "Julia"; "Perl";
     "Perl/PDL : arrays"; "Perl/PDL : raw"; "Perl/PDL : vectors";
     "Python : arrays"; "Python : lists"; "Python : numpy raw";
     "Python : vectors"; "R : outer"; "R : raw"; "R : ref class"; "Rust";
     "Swift"; "Tcl : raw"] /\
  NCompOpt Registry.FullTests = 40%nat /\
  index "Java" (CompOptList Registry.FullTests) = Some 18%nat /\
  Forall (fun test => 2 <= Nrpt test) Registry.FullTests.
Proof.
  split; [vm_compute; reflexivity |]. split; [vm_compute; reflexivity |].
  split; [vm_compute; reflexivity |].
  apply Forall_forall. intros test Hin.
  repeat (apply elem_of_cons in Hin as [-> | Hin]; [vm_compute; discriminate |]).
  now apply elem_of_nil in Hin.
Qed.

(** ** The program in the scripted world *)

(** A subprocess that exits with status zero is still reported as an error
    when what it wrote is not UTF-8. *)
Lemma exit_zero_can_be_an_error :
  fst (scripted_popen ["./prog"] binary_world)
  = Exited (String "255"%char "") "" 0 /\
  returned (scripted_ExecuteCommand (CmdStr "./prog") (scripted_state binary_world))
  = Some (Some "Error executing './prog'", Bytes (String "255"%char ""), Bytes "").
Proof. split; reflexivity. Qed.

(** For 200 repeats in 2.01 s and one repeat in 0.01 s the seconds
    returned are 2 * 200/199, not 2. *)
Lemma Secs_is_not_the_difference :
  exists Secs,
    returned
      (scripted_BuildAndTimeProgram
         (BuildCommand1 Registry.Python3np) (BuildCommand2 Registry.Python3np)
         (ExecCommand Registry.Python3np) (Nrpt Registry.Python3np) 2000 10
         (CleanupCommand Registry.Python3np) (scripted_state python_world))
    = Some (None, Secs, Str "") /\
    (Secs == 400 # 199)%Q /\
    ~ (Secs == total_seconds 2010000 - total_seconds 10000)%Q.
Proof.
  eexists. split; [vm_compute; reflexivity |]. split.
  - reflexivity.
  - intros H. vm_compute in H. discriminate.
Qed.

Lemma BuildAndTimeProgram_timing_witness :
  exists Secs s3,
    scripted_BuildAndTimeProgram "" "" "python3 csubnp.py" 200 2000 10 ""
      (scripted_state python_world)
    = Ret (None, Secs, Str "") s3 /\
    spawned s3 = [["python3"; "csubnp.py"; "200"; "2000"; "10"];
                  ["python3"; "csubnp.py"; "1"; "2000"; "10"]].
Proof.
  destruct (BuildAndTimeProgram_timing scripted scripted_popen scripted_now
              bracketed "" "" "python3 csubnp.py" 200 2000 10 ""
              (scripted_state python_world) (scripted_state python_world)
              _ _ (Str "") _ _ _ _ eq_refl eq_refl eq_refl) as [Hrun Hlog].
  eexists _, _. split; [exact Hrun |].
  exact (proj2 (Hlog _ _ _ _ Hrun)).
Defined.

(** A version query that writes on both streams gets two lines, one that
    writes nothing gets none. *)
Lemma ListVersion_can_write_two_lines_or_none :
  terminal (final_state
              (scripted_ListVersion "Gcc      " "g++ --version"
                 (scripted_state chatty_world)))
  = ["Gcc       : g++ 9.3.0"; "Gcc       : note: using built-in specs"] /\
  scripted_ListVersion "Tcl      " "tclsh ver.tcl" (scripted_state mute_world)
  = Ret tt (mkState scripted (Scripted 7 []) [] (NdArray 0 [])
              [["tclsh"; "ver.tcl"]] []).
Proof. split; reflexivity. Qed.

Lemma ListVersion_lines_witness :
  exists out err,
    Str "" = Str out /\ Str ("openjdk version 11" +:+ newline) = Str err /\
    scripted_ListVersion "Java     " "java -version" (scripted_state java_world)
    = Ret tt (set_terminal
                ([] ++ version_lines "Java     " out ++ version_lines "Java     " err)
                (mkState scripted (Scripted 7 []) [] (NdArray 0 [])
                   [["java"; "-version"]] [])).
Proof.
  exact (ListVersion_lines scripted scripted_popen bracketed
           "Java     " "java -version" (scripted_state java_world)
           None (Str "") (Str ("openjdk version 11" +:+ newline))
           (mkState scripted (Scripted 7 []) [] (NdArray 0 [])
              [["java"; "-version"]] [])
           eq_refl).
Defined.

(** C9.  The claim fails on the code.  The test [Python3np] of the table
    has no build and no cleanup command.  In a world where its run with all
    the 200 repeats exits with status 1 after 5 s and its run with a single
    repeat exits with status 0 after 1 s, ExecuteCommand returns an error
    status for the first run, but BuildAndTimeProgram returns none: the
    status of the second run has replaced it, unread.  The driver prints a
    timing line for the test, stores [1000 * (5 - 1) / 199] in the results
    table, and reports the test that failed as the fastest combination,
    with the relative time 1.00. *)
Theorem failed_run_becomes_the_baseline :
  returned
    (scripted_ExecuteCommand
       (run_command (ExecCommand Registry.Python3np) (Nrpt Registry.Python3np)
          2000 10)
       (scripted_state failing_python_world))
  = Some (Some "Error executing 'python3 csubnp.py 200 2000 10'",
          Str "", Str "MemoryError") /\
  (exists Secs,
     returned
       (scripted_BuildAndTimeProgram
          (BuildCommand1 Registry.Python3np) (BuildCommand2 Registry.Python3np)
          (ExecCommand Registry.Python3np) (Nrpt Registry.Python3np) 2000 10
          (CleanupCommand Registry.Python3np) (scripted_state failing_python_world))
     = Some (None, Secs, Str "") /\
     (Secs == 800 # 199)%Q) /\
  returned failed_run = Some tt /\
  (exists K,
     rows (Results (final_state failed_run)) = [[K]] /\
     (K == 4000 # 199)%Q /\ (0 < K)%Q) /\
  spawned (final_state failed_run)
  = [["python3"; "csubnp.py"; "200"; "2000"; "10"];
     ["python3"; "csubnp.py"; "1"; "2000"; "10"]] /\
  terminal (final_state failed_run)
  = [""; "Running through full set of timing tests"; "";
     "Arrays used: 2000 columns, 10 rows"; "";
     "      Python : numpy raw              Python3 Rept:      200 Elap:       4.02 1K Iter:         20";
     "Fastest combination is  Python : numpy raw and Python3"; "";
     "Summary of relative speeds:"; "";
     "      Python : numpy raw              Python3 1K Iter:         20, Relative time         1.00";
     ""; "Compiler,Python : numpy raw"; "Python3,1.00"].
Proof.
  split; [vm_compute; reflexivity |].
  split; [eexists; split; [vm_compute; reflexivity | reflexivity] |].
  split; [vm_compute; reflexivity |].
  split; [eexists; split; [vm_compute; reflexivity | split; reflexivity] |].
  split; vm_compute; reflexivity.
Qed.

(** Two passes over two tests: each cell keeps the lower of its two times,
    the other cells stay zero, and the report is relative to the fastest. *)
Example two_passes_report :
  returned two_passes = Some tt /\
  (exists perl python,
     rows (Results (final_state two_passes)) = [[perl; 0%Q]; [0%Q; python]] /\
     (perl == 1000 # 999)%Q /\ (python == 1000 # 199)%Q) /\
  drop 14 (terminal (final_state two_passes))
  = ["Fastest combination is  Perl and Perl"; "";
     "Summary of relative speeds:"; "";
     "      Python : numpy raw              Python3 1K Iter:          5, Relative time         5.02";
     "                    Perl                 Perl 1K Iter:          1, Relative time         1.00";
     ""; "Compiler,Perl,Python : numpy raw"; "Perl,1.00,"; "Python3,,5.02"].
Proof.
  split; [vm_compute; reflexivity |]. split.
  - eexists _, _. split; [vm_compute; reflexivity |]. split; reflexivity.
  - vm_compute. reflexivity.
Qed.

(** What [fixed_point] prints depends on the value of the rational only. *)
Lemma round_half_even_value (x y : Q) :
  (x == y)%Q -> round_half_even x = round_half_even y.
Proof.
  intros H. unfold round_half_even. rewrite (Qfloor_comp _ _ H).
  assert (H' : (x - inject_Z (Qfloor y) == y - inject_Z (Qfloor y))%Q)
    by (rewrite H; reflexivity).
  now rewrite (Qcompare_comp _ _ H' _ _ (Qeq_refl _)).
Qed.

Lemma fixed_point_value (w p : nat) (q q' : Q) :
  (q == q')%Q -> fixed_point w p q = fixed_point w p q'.
Proof.
  intros H. unfold fixed_point, Qltb.
  assert (Hn : round_half_even (Qabs q * inject_Z (10 ^ Z.of_nat p))
               = round_half_even (Qabs q' * inject_Z (10 ^ Z.of_nat p))).
  { apply round_half_even_value. now rewrite H. }
  rewrite Hn. now rewrite (Qleb_comp _ _ (Qeq_refl 0) _ _ H).
Qed.

(** After the two passes the line of the summary for [Perl], whose cell
    holds the benchmark, ends with the relative time 1.00. *)
Lemma report_is_relative_to_fastest_witness :
  exists (f : fastest) (summary : list string),
    find_benchmark scripted two_tests
      (final_state
         (run_tests scripted scripted_popen scripted_now bracketed quoted
            fixed_point general_format two_tests 2 2000 10
            (scripted_state two_passes_world)))
    = Ret f
        (final_state
           (run_tests scripted scripted_popen scripted_now bracketed quoted
              fixed_point general_format two_tests 2 2000 10
              (scripted_state two_passes_world))) /\
    length summary = 2%nat /\
    summary !! 1%nat
    = Some "                    Perl                 Perl 1K Iter:          1, Relative time         1.00".
Proof.
  destruct (report_is_relative_to_fastest scripted scripted_popen scripted_now
              bracketed quoted fixed_point general_format two_tests 2 2000 10
              (scripted_state two_passes_world))
    as (f & summary & Hrun & _ & _ & Hlen & Hlines & _).
  exists f, summary. split; [exact Hrun |]. split; [exact Hlen |].
  destruct (Hlines 1%nat Registry.Perl eq_refl) as (K & HK & _ & Hbench).
  vm_compute in HK. injection HK as <-.
  vm_compute in Hrun. injection Hrun as <-.
  destruct Hbench as [_ Hline]; [reflexivity |].
  rewrite Hline; [vm_compute; reflexivity |].
  intros q q'. apply fixed_point_value.
Defined.

(** * More properties of the kernels *)

(** ** Loops over a list in two parts *)

Lemma for_app {S A : Type} (l1 l2 : list A) (body : A -> M S unit) (s : S) :
  for_ (l1 ++ l2) body s
  = match for_ l1 body s with
    | Ret _ s' => for_ l2 body s'
    | Raise e s' => Raise e s'
    end.
Proof.
  revert s. induction l1 as [|x l1 IH]; intros s; simpl; [reflexivity |].
  unfold bind. destruct (body x s) as [[] s'|e s']; [apply IH | reflexivity].
Qed.

Lemma seq_split (n m : nat) : (n <= m)%nat -> seq 0 m = seq 0 n ++ seq n (m - n).
Proof.
  intros H. replace m with (n + (m - n))%nat at 1 by lia. apply seq_app.
Qed.

(** ** A part of an array *)

Section BlockFacts.
Context {E : Type}.
Variable f : E -> nat -> nat -> E.
Implicit Types (A O : ndarray E).

Lemma block_map_row_below n m A O k ro :
  (m <= k)%nat -> rows O !! k = Some ro ->
  rows (block_map f n m A O) !! k = Some ro.
Proof.
  intros Hk Hro. simpl. rewrite list_lookup_imap, Hro. simpl.
  destruct (decide (k < m)%nat); [lia | reflexivity].
Qed.

Lemma block_map_row_above n m A O k ra ro :
  (k < m)%nat -> rows A !! k = Some ra -> rows O !! k = Some ro ->
  rows (block_map f n m A O) !! k
  = Some (imap (fun ix a => f a ix k) (take n ra) ++ drop n ro).
Proof.
  intros Hk Hra Hro. simpl. rewrite list_lookup_imap, Hro. simpl.
  destruct (decide (k < m)%nat); [| lia]. now rewrite Hra.
Qed.

Lemma block_map_0 n A O : block_map f n 0 A O = O.
Proof.
  unfold block_map. rewrite <- (ndarray_eta O) at 3. f_equal.
  apply list_eq. intros i. rewrite list_lookup_imap.
  destruct (rows O !! i) as [ro|]; [| reflexivity]. simpl.
  destruct (decide (i < 0)%nat); [lia | reflexivity].
Qed.

Lemma block_map_S n k A O ra ro :
  rows A !! k = Some ra -> rows O !! k = Some ro ->
  NdArray (ncols (block_map f n k A O))
    (<[k := imap (fun ix a => f a ix k) (take n ra) ++ drop n ro]>
       (rows (block_map f n k A O)))
  = block_map f n (S k) A O.
Proof.
  intros Hra Hro. unfold block_map at 3. simpl. f_equal.
  apply list_eq. intros i. rewrite !list_lookup_imap.
  destruct (decide (i = k)) as [-> | Hne].
  - rewrite list_lookup_insert_eq
      by (rewrite length_imap; eapply lookup_lt_Some; eassumption).
    rewrite Hro. simpl. destruct (decide (k < S k)%nat); [| lia]. now rewrite Hra.
  - rewrite list_lookup_insert_ne by congruence. rewrite list_lookup_imap.
    destruct (rows O !! i) as [r|]; [| reflexivity]. simpl.
    destruct (decide (i < k)%nat), (decide (i < S k)%nat); try lia; reflexivity.
Qed.

Lemma block_map_shape n m A O R C :
  has_shape R C A -> has_shape R C O -> (n <= C)%nat ->
  has_shape R C (block_map f n m A O).
Proof.
  intros (HrA & HcA & HallA) (HrO & HcO & HallO) Hn.
  unfold has_shape, nrows in *. simpl. rewrite length_imap.
  repeat split; try assumption.
  apply Forall_forall. intros r Hin.
  apply list_elem_of_lookup in Hin as [i Hi]. rewrite list_lookup_imap in Hi.
  destruct (rows O !! i) as [ro|] eqn:Hro; [| discriminate]. simpl in Hi.
  assert (Hlro : length ro = C).
  { rewrite Forall_forall in HallO. apply HallO.
    eapply list_elem_of_lookup_2. eassumption. }
  destruct (decide (i < m)%nat); [| congruence].
  destruct (rows A !! i) as [ra|] eqn:Hra; [| congruence].
  assert (Hlra : length ra = C).
  { rewrite Forall_forall in HallA. apply HallA.
    eapply list_elem_of_lookup_2. eassumption. }
  injection Hi as <-.
  rewrite length_app, length_imap, length_take, length_drop. lia.
Qed.

Lemma block_map_item n m A O R C iy ix :
  has_shape R C A -> has_shape R C O -> (n <= C)%nat -> (m <= R)%nat ->
  item (block_map f n m A O) iy ix
  = if decide (iy < m /\ ix < n)%nat
    then (fun a => f a ix iy) <$> item A iy ix
    else item O iy ix.
Proof.
  intros HsA HsO Hn Hm.
  assert (HcA : ncols A = C) by apply HsA.
  assert (HcO : ncols O = C) by apply HsO.
  destruct (rows O !! iy) as [ro|] eqn:Hro.
  - assert (Hiy : (iy < R)%nat).
    { apply lookup_lt_Some in Hro. destruct HsO as (H & _). unfold nrows in H. lia. }
    destruct (has_shape_row R C A iy HsA Hiy) as (ra & Hra & Hlra).
    destruct (has_shape_row R C O iy HsO Hiy) as (ro' & Hro' & Hlro).
    rewrite Hro in Hro'. injection Hro' as <-.
    destruct (decide (iy < m)%nat) as [Hlt | Hge].
    + unfold item at 1. rewrite (block_map_row_above n m A O iy ra ro Hlt Hra Hro).
      simpl. rewrite HcO.
      destruct (decide (ix < C)%nat) as [Hix | Hix].
      * destruct (decide (ix < n)%nat) as [Hin | Hout].
        -- destruct (decide (iy < m /\ ix < n)%nat) as [_ | Hno]; [| lia].
           rewrite lookup_app_l by (rewrite length_imap, length_take; lia).
           rewrite list_lookup_imap, lookup_take_lt by lia.
           unfold item. rewrite Hra, HcA.
           destruct (decide (ix < C)%nat); [reflexivity | lia].
        -- destruct (decide (iy < m /\ ix < n)%nat) as [Hyes | _]; [lia |].
           rewrite lookup_app_r by (rewrite length_imap, length_take; lia).
           rewrite length_imap, length_take, lookup_drop.
           replace (n + (ix - n `min` length ra))%nat with ix by lia.
           unfold item. rewrite Hro, HcO.
           destruct (decide (ix < C)%nat); [reflexivity | lia].
      * destruct (decide (iy < m /\ ix < n)%nat) as [Hyes | _]; [lia |].
        unfold item. rewrite Hro, HcO.
        destruct (decide (ix < C)%nat); [lia | reflexivity].
    + unfold item at 1. rewrite (block_map_row_below n m A O iy ro) by (lia || assumption).
      destruct (decide (iy < m /\ ix < n)%nat) as [Hyes | _]; [lia |].
      unfold item. now rewrite Hro.
  - assert (Hnone : rows (block_map f n m A O) !! iy = None).
    { simpl. now rewrite list_lookup_imap, Hro. }
    unfold item at 1. rewrite Hnone.
    destruct (decide (iy < m /\ ix < n)%nat) as [[Hyes _] | _].
    + exfalso. apply lookup_ge_None in Hro. destruct HsO as (H & _).
      unfold nrows in H. lia.
    + unfold item. now rewrite Hro.
Qed.

End BlockFacts.

(** ** The element-by-element kernels on a part of the arrays *)

Section LoopKernelFacts.
Context {E : Type}.
Variable add : E -> E -> E.
Variable of_int : Z -> E.

Local Abbreviation heap := (gmap loc (ndarray E)).
Local Abbreviation f := (plus_ix_plus_iy add of_int).
Local Abbreviation element oob ina out iy :=
  (fun ix : nat =>
     a <- getitem_or oob ina iy ix ;;
     setitem_or oob out iy ix
       (add (add a (of_int (Z.of_nat ix))) (of_int (Z.of_nat iy)))).
Local Abbreviation row_loop oob ina out nx :=
  (fun iy : nat => for_ (seq 0 nx) (element oob ina out iy)).

Implicit Types (h : heap) (A O : ndarray E).

(** The loop over the first [n] columns of row [k]. *)
Lemma row_loop_prefix oob h ina out A O k ra ro (n : nat) :
  ina <> out -> h !! ina = Some A -> h !! out = Some O ->
  rows A !! k = Some ra -> rows O !! k = Some ro ->
  (n <= length ra)%nat -> (n <= length ro)%nat ->
  (n <= ncols A)%nat -> (n <= ncols O)%nat ->
  for_ (seq 0 n) (element oob ina out k) h
  = Ret tt (<[out := NdArray (ncols O)
                       (<[k := imap (fun ix a => f a ix k) (take n ra) ++ drop n ro]>
                          (rows O))]> h).
Proof.
  intros Hne HA HO Hra Hro Hnra Hnro HnA HnO.
  assert (Hk : (k < length (rows O))%nat) by (eapply lookup_lt_Some; eassumption).
  destruct (for_seq_rule
    (fun j s => s = <[out := NdArray (ncols O)
                   (<[k := imap (fun ix a => f a ix k) (take j ra) ++ drop j ro]>
                      (rows O))]> h)
    (element oob ina out k) n 0 h) as (s' & Hrun & Hs').
  - simpl. rewrite drop_0, list_insert_id by assumption.
    rewrite ndarray_eta. symmetry. now apply insert_id.
  - intros j s0 [_ Hj] ->. simpl in Hj.
    destruct (lookup_lt_is_Some_2 ra j) as [a Ha]; [lia |].
    destruct (lookup_lt_is_Some_2 ro j) as [o Ho]; [lia |].
    assert (Hia : item A k j = Some a).
    { unfold item. rewrite Hra. destruct (decide (j < ncols A)%nat); [assumption | lia]. }
    erewrite bind_Ret;
      [| eapply getitem_or_Some; [rewrite lookup_insert_ne by congruence; exact HA | exact Hia]].
    erewrite setitem_or_Some;
      [| apply lookup_insert_eq
       | unfold set_item; simpl; rewrite list_lookup_insert_eq by assumption;
         destruct (decide (j < ncols O)%nat); [reflexivity | lia]].
    eexists. split; [reflexivity |].
    rewrite insert_insert_eq. do 2 f_equal.
    rewrite list_insert_insert_eq. f_equal.
    rewrite insert_app_r_alt by (rewrite length_imap, length_take; lia).
    rewrite length_imap, length_take, Nat.min_l, Nat.sub_diag by lia.
    rewrite (drop_S ro o j Ho). simpl.
    rewrite (take_S_r ra j a Ha), imap_app. simpl.
    rewrite length_take, Nat.min_l, Nat.add_0_r by lia.
    now rewrite <- app_assoc.
  - rewrite Hrun, Hs'. reflexivity.
Qed.

(** The loops over the first [m] rows and first [n] columns. *)
Lemma block_loop oob h ina out A O (R C n m : nat) :
  ina <> out -> h !! ina = Some A -> h !! out = Some O ->
  has_shape R C A -> has_shape R C O -> (n <= C)%nat -> (m <= R)%nat ->
  for_ (seq 0 m) (row_loop oob ina out n) h
  = Ret tt (<[out := block_map f n m A O]> h).
Proof.
  intros Hne HA HO HsA HsO Hn Hm.
  destruct (for_seq_rule
    (fun k s => s = <[out := block_map f n k A O]> h)
    (row_loop oob ina out n) m 0 h) as (s' & Hrun & Hs').
  - rewrite block_map_0. symmetry. now apply insert_id.
  - intros k s0 [_ Hk] ->. simpl in Hk.
    destruct (has_shape_row R C A k HsA) as (ra & Hra & Hlra); [lia |].
    destruct (has_shape_row R C O k HsO) as (ro & Hro & Hlro); [lia |].
    assert (HcA : ncols A = C) by apply HsA.
    assert (HcO : ncols O = C) by apply HsO.
    rewrite (row_loop_prefix oob _ ina out A (block_map f n k A O) k ra ro n);
      try assumption; try lia.
    + eexists. split; [reflexivity |].
      rewrite insert_insert_eq. f_equal. now apply block_map_S.
    + now rewrite lookup_insert_ne by congruence.
    + apply lookup_insert_eq.
    + apply block_map_row_below; [lia | assumption].
    + simpl. lia.
  - rewrite Hrun, Hs'. reflexivity.
Qed.

Lemma element_loops_of_Z oob ina out (nx ny : Z) :
  for_ (range ny) (fun iy =>
    for_ (range nx) (fun ix =>
      a <- getitem_or oob ina iy ix ;;
      setitem_or oob out iy ix
        (add (add a (of_int (Z.of_nat ix))) (of_int (Z.of_nat iy)))))
  = for_ (seq 0 (Z.to_nat ny)) (row_loop oob ina out (Z.to_nat nx)).
Proof. reflexivity. Qed.

(** The first index out of range ends the loops. *)
Lemma element_out_of_range oob h ina out A (k j : nat) (rest : list nat) :
  h !! ina = Some A -> item A k j = None ->
  for_ (j :: rest) (element oob ina out k) h = Raise oob h.
Proof.
  intros HA Hnone.
  assert (Hget : getitem_or oob ina k j h = Raise oob h).
  { unfold getitem_or. rewrite (bind_Ret _ _ _ _ _ (deref_Some _ _ _ HA)).
    now rewrite Hnone. }
  simpl. erewrite bind_Raise; [reflexivity |].
  erewrite bind_Raise; [reflexivity | exact Hget].
Qed.

Lemma out_of_range_loop oob h ina out A O (R C n m : nat) :
  ina <> out -> h !! ina = Some A -> h !! out = Some O ->
  has_shape R C A -> has_shape R C O ->
  (0 < n)%nat -> (0 < m)%nat -> (C < n \/ R < m)%nat ->
  for_ (seq 0 m) (row_loop oob ina out n) h
  = Raise oob
      (<[out := block_map f (n `min` C)
                  (if decide (C < n)%nat then 1 `min` R else R) A O]> h).
Proof.
  intros Hne HA HO HsA HsO Hn0 Hm0 Hout.
  assert (HcA : ncols A = C) by apply HsA.
  assert (HrA : length (rows A) = R) by apply HsA.
  destruct (decide (C < n)%nat) as [Hwide | Hfits].
  - (* the columns run out in the first row *)
    destruct m as [|m]; [lia |]. simpl. unfold bind at 1.
    destruct R as [|R'].
    + replace (n `min` C)%nat with C by lia. simpl. rewrite block_map_0.
      rewrite insert_id by assumption.
      destruct n as [|n]; [lia |]. simpl seq.
      rewrite (element_out_of_range oob h ina out A 0 0); [reflexivity | assumption |].
      unfold item. now rewrite (proj2 (lookup_ge_None (rows A) 0)) by lia.
    + replace (n `min` C)%nat with C by lia.
      replace (1 `min` S R')%nat with 1%nat by lia.
      rewrite (seq_split C n) by lia. rewrite for_app.
      destruct (has_shape_row (S R') C A 0 HsA) as (ra & Hra & Hlra); [lia |].
      destruct (has_shape_row (S R') C O 0 HsO) as (ro & Hro & Hlro); [lia |].
      assert (HcO : ncols O = C) by apply HsO.
      rewrite (row_loop_prefix oob h ina out A O 0 ra ro C); try assumption; try lia.
      replace (n - C)%nat with (S (n - C - 1)) by lia. simpl seq.
      rewrite (element_out_of_range oob _ ina out A 0 C).
      * f_equal. f_equal. rewrite <- (block_map_0 f C A O) at 1 2.
        now apply block_map_S.
      * now rewrite lookup_insert_ne by congruence.
      * unfold item. rewrite Hra. destruct (decide (C < ncols A)%nat); [lia | reflexivity].
  - (* the rows run out *)
    destruct Hout as [Hc | Hr]; [contradiction |].
    replace (n `min` C)%nat with n by lia.
    rewrite (seq_split R m) by lia. rewrite for_app.
    rewrite (block_loop oob h ina out A O R C n R); try assumption; try lia.
    replace (m - R)%nat with (S (m - R - 1)) by lia. simpl seq.
    simpl for_. unfold bind at 1.
    destruct n as [|n]; [lia |]. simpl seq.
    rewrite (element_out_of_range oob _ ina out A R 0); [reflexivity | |].
    + now rewrite lookup_insert_ne by congruence.
    + unfold item. now rewrite (proj2 (lookup_ge_None (rows A) R)) by lia.
Qed.

Lemma item_outside (A : ndarray E) (R C iy ix : nat) :
  has_shape R C A -> (R <= iy \/ C <= ix)%nat -> item A iy ix = None.
Proof.
  intros (Hr & Hc & _) Hout. unfold item, nrows in *.
  destruct (rows A !! iy) as [r|] eqn:Hrow; [| reflexivity].
  apply lookup_lt_Some in Hrow.
  destruct (decide (ix < ncols A)%nat); [lia | reflexivity].
Qed.

(** X1.  Called with [nx] and [ny] no larger than the arrays (zero and
    negative values included), the element-by-element [subr] of csub.py and
    of csubnp-numba.py returns normally and rewrites exactly the elements
    of the first [ny] rows and first [nx] columns of [out]; every other
    element of [out] keeps its value. *)
Theorem loop_kernels_write_a_block h ina out A O (R C : nat) (nx ny : Z) :
  ina <> out -> h !! ina = Some A -> h !! out = Some O ->
  has_shape R C A -> has_shape R C O ->
  nx <= Z.of_nat C -> ny <= Z.of_nat R ->
  exists O',
    csub_subr add of_int ina nx ny out h = Ret tt (<[out := O']> h) /\
    csubnp_numba_subr add of_int ina nx ny out h = Ret tt (<[out := O']> h) /\
    has_shape R C O' /\
    forall iy ix,
      item O' iy ix
      = if decide (Z.of_nat iy < ny /\ Z.of_nat ix < nx)
        then (fun a => add (add a (of_int (Z.of_nat ix))) (of_int (Z.of_nat iy)))
               <$> item A iy ix
        else item O iy ix.
Proof.
  intros Hne HA HO HsA HsO Hnx Hny.
  exists (block_map f (Z.to_nat nx) (Z.to_nat ny) A O).
  split; [| split; [| split]].
  - unfold csub_subr, getitem, setitem. rewrite element_loops_of_Z.
    apply (block_loop IndexError h ina out A O R C); try assumption; lia.
  - unfold csubnp_numba_subr. rewrite element_loops_of_Z.
    apply (block_loop Undefined h ina out A O R C); try assumption; lia.
  - apply block_map_shape; try assumption; lia.
  - intros iy ix. rewrite (block_map_item f _ _ A O R C) by (assumption || lia).
    destruct (decide (iy < Z.to_nat ny /\ ix < Z.to_nat nx)%nat),
             (decide (Z.of_nat iy < ny /\ Z.of_nat ix < nx)); try lia; reflexivity.
Qed.

(** X2.  Called with a positive [nx] and [ny] of which one is larger than
    the arrays, the [subr] of csub.py raises IndexError at the first index
    out of range, and the compiled [subr] of csubnp-numba.py leaves the
    defined behaviour there.  The elements written before that point stay
    written: the whole first row when the columns run out, the first [nx]
    columns of every row when the rows run out. *)
Theorem loop_kernels_stop_out_of_range h ina out A O (R C : nat) (nx ny : Z) :
  ina <> out -> h !! ina = Some A -> h !! out = Some O ->
  has_shape R C A -> has_shape R C O ->
  0 < nx -> 0 < ny -> (Z.of_nat C < nx \/ Z.of_nat R < ny) ->
  exists O',
    csub_subr add of_int ina nx ny out h = Raise IndexError (<[out := O']> h) /\
    csubnp_numba_subr add of_int ina nx ny out h = Raise Undefined (<[out := O']> h) /\
    has_shape R C O' /\
    forall iy ix,
      item O' iy ix
      = if decide ((Z.of_nat C < nx /\ iy = 0%nat) \/
                   (nx <= Z.of_nat C /\ Z.of_nat ix < nx))
        then (fun a => add (add a (of_int (Z.of_nat ix))) (of_int (Z.of_nat iy)))
               <$> item A iy ix
        else item O iy ix.
Proof.
  intros Hne HA HO HsA HsO Hnx Hny Hout.
  set (n := Z.to_nat nx). set (m := Z.to_nat ny).
  exists (block_map f (n `min` C) (if decide (C < n)%nat then 1 `min` R else R) A O).
  split; [| split; [| split]].
  - unfold csub_subr, getitem, setitem. rewrite element_loops_of_Z.
    apply (out_of_range_loop IndexError h ina out A O R C); try assumption; lia.
  - unfold csubnp_numba_subr. rewrite element_loops_of_Z.
    apply (out_of_range_loop Undefined h ina out A O R C); try assumption; lia.
  - apply block_map_shape; try assumption; lia.
  - intros iy ix.
    rewrite (block_map_item f _ _ A O R C)
      by (assumption || lia || (destruct (decide (C < n)%nat); lia)).
    destruct (decide (R <= iy \/ C <= ix)%nat) as [Hoff | Hon].
    + rewrite (item_outside A R C iy ix HsA Hoff), (item_outside O R C iy ix HsO Hoff).
      simpl. now repeat destruct (decide _).
    + destruct (decide (C < n)%nat) as [Hwide | Hfits];
        repeat destruct (decide _); try lia; reflexivity.
Qed.

(** *** One array as input and output *)

Lemma row_loop_in_place oob h a A k ra (n : nat) :
  h !! a = Some A -> rows A !! k = Some ra ->
  (n <= length ra)%nat -> (n <= ncols A)%nat ->
  for_ (seq 0 n) (element oob a a k) h
  = Ret tt (<[a := NdArray (ncols A)
                     (<[k := imap (fun ix x => f x ix k) (take n ra) ++ drop n ra]>
                        (rows A))]> h).
Proof.
  intros HA Hra Hnra HnA.
  assert (Hk : (k < length (rows A))%nat) by (eapply lookup_lt_Some; eassumption).
  destruct (for_seq_rule
    (fun j s => s = <[a := NdArray (ncols A)
                   (<[k := imap (fun ix x => f x ix k) (take j ra) ++ drop j ra]>
                      (rows A))]> h)
    (element oob a a k) n 0 h) as (s' & Hrun & Hs').
  - simpl. rewrite drop_0, list_insert_id by assumption.
    rewrite ndarray_eta. symmetry. now apply insert_id.
  - intros j s0 [_ Hj] ->. simpl in Hj.
    destruct (lookup_lt_is_Some_2 ra j) as [x Hx]; [lia |].
    set (row := imap (fun ix x => f x ix k) (take j ra) ++ drop j ra).
    assert (Hrow : row !! j = Some x).
    { unfold row. rewrite lookup_app_r by (rewrite length_imap, length_take; lia).
      rewrite length_imap, length_take, Nat.min_l, Nat.sub_diag by lia.
      now rewrite lookup_drop, Nat.add_0_r. }
    erewrite bind_Ret;
      [| eapply getitem_or_Some;
         [ apply lookup_insert_eq
         | unfold item; simpl; rewrite list_lookup_insert_eq by assumption;
           destruct (decide (j < ncols A)%nat); [exact Hrow | lia] ]].
    erewrite setitem_or_Some;
      [| apply lookup_insert_eq
       | unfold set_item; simpl; rewrite list_lookup_insert_eq by assumption;
         destruct (decide (j < ncols A)%nat); [reflexivity | lia]].
    eexists. split; [reflexivity |].
    rewrite insert_insert_eq. do 2 f_equal.
    rewrite list_insert_insert_eq. f_equal. unfold row.
    rewrite insert_app_r_alt by (rewrite length_imap, length_take; lia).
    rewrite length_imap, length_take, Nat.min_l, Nat.sub_diag by lia.
    rewrite (drop_S ra x j Hx). simpl.
    rewrite (take_S_r ra j x Hx), imap_app. simpl.
    rewrite length_take, Nat.min_l, Nat.add_0_r by lia.
    now rewrite <- app_assoc.
  - rewrite Hrun, Hs'. reflexivity.
Qed.

Lemma block_loop_in_place oob h a A (R C n m : nat) :
  h !! a = Some A -> has_shape R C A -> (n <= C)%nat -> (m <= R)%nat ->
  for_ (seq 0 m) (row_loop oob a a n) h
  = Ret tt (<[a := block_map f n m A A]> h).
Proof.
  intros HA HsA Hn Hm.
  destruct (for_seq_rule
    (fun k s => s = <[a := block_map f n k A A]> h)
    (row_loop oob a a n) m 0 h) as (s' & Hrun & Hs').
  - rewrite block_map_0. symmetry. now apply insert_id.
  - intros k s0 [_ Hk] ->. simpl in Hk.
    destruct (has_shape_row R C A k HsA) as (ra & Hra & Hlra); [lia |].
    assert (HcA : ncols A = C) by apply HsA.
    rewrite (row_loop_in_place oob _ a (block_map f n k A A) k ra n).
    + eexists. split; [reflexivity |].
      rewrite insert_insert_eq. f_equal. now apply block_map_S.
    + apply lookup_insert_eq.
    + apply block_map_row_below; [lia | assumption].
    + lia.
    + simpl. lia.
  - rewrite Hrun, Hs'. reflexivity.
Qed.

(** X24.  Passed one and the same array as [ina] and as [out], the
    element-by-element kernels work in place: each element of the first
    [ny] rows and [nx] columns is read before it is overwritten, so the
    array ends with the indices added to its own former values, and a
    second call adds them once more.  (The broadcasting kernel of
    csubnpna.py does the same on a whole array, see [csubnpna_subr_closed],
    which asks for no distinctness.) *)
Theorem loop_kernels_work_in_place h a A (R C : nat) (nx ny : Z) :
  h !! a = Some A -> has_shape R C A ->
  nx <= Z.of_nat C -> ny <= Z.of_nat R ->
  exists A',
    csub_subr add of_int a nx ny a h = Ret tt (<[a := A']> h) /\
    csubnp_numba_subr add of_int a nx ny a h = Ret tt (<[a := A']> h) /\
    has_shape R C A' /\
    (forall iy ix,
       item A' iy ix
       = if decide (Z.of_nat iy < ny /\ Z.of_nat ix < nx)
         then (fun x => add (add x (of_int (Z.of_nat ix))) (of_int (Z.of_nat iy)))
                <$> item A iy ix
         else item A iy ix) /\
    exists A'',
      csub_subr add of_int a nx ny a (<[a := A']> h) = Ret tt (<[a := A'']> h) /\
      forall iy ix,
        item A'' iy ix
        = if decide (Z.of_nat iy < ny /\ Z.of_nat ix < nx)
          then (fun x => add (add (add (add x (of_int (Z.of_nat ix)))
                                      (of_int (Z.of_nat iy)))
                                 (of_int (Z.of_nat ix))) (of_int (Z.of_nat iy)))
                 <$> item A iy ix
          else item A iy ix.
Proof.
  intros HA HsA Hnx Hny.
  set (n := Z.to_nat nx). set (m := Z.to_nat ny).
  assert (Hn : (n <= C)%nat) by lia. assert (Hm : (m <= R)%nat) by lia.
  assert (Hitem : forall B, has_shape R C B -> forall iy ix,
            item (block_map f n m B B) iy ix
            = if decide (Z.of_nat iy < ny /\ Z.of_nat ix < nx)
              then (fun x => add (add x (of_int (Z.of_nat ix))) (of_int (Z.of_nat iy)))
                     <$> item B iy ix
              else item B iy ix).
  { intros B HsB iy ix. rewrite (block_map_item f n m B B R C) by assumption.
    destruct (decide (iy < m /\ ix < n)%nat),
             (decide (Z.of_nat iy < ny /\ Z.of_nat ix < nx)); try lia; reflexivity. }
  assert (Hs1 : has_shape R C (block_map f n m A A)) by now apply block_map_shape.
  exists (block_map f n m A A). split; [| split; [| split; [| split]]].
  - unfold csub_subr, getitem, setitem. rewrite element_loops_of_Z.
    now apply (block_loop_in_place IndexError h a A R C).
  - unfold csubnp_numba_subr. rewrite element_loops_of_Z.
    now apply (block_loop_in_place Undefined h a A R C).
  - exact Hs1.
  - now apply Hitem.
  - exists (block_map f n m (block_map f n m A A) (block_map f n m A A)). split.
    + unfold csub_subr, getitem, setitem. rewrite element_loops_of_Z.
      rewrite (block_loop_in_place IndexError _ a (block_map f n m A A) R C);
        try assumption; [| apply lookup_insert_eq].
      now rewrite insert_insert_eq.
    + intros iy ix. rewrite (Hitem _ Hs1), (Hitem A HsA).
      destruct (decide (Z.of_nat iy < ny /\ Z.of_nat ix < nx)); [| reflexivity].
      now destruct (item A iy ix).
Qed.

End LoopKernelFacts.

(** ** The four kernels on whole arrays *)

Section KernelAgreement.
Context {E : Type}.
Variable add : E -> E -> E.
Variable of_int : Z -> E.

Local Abbreviation heap := (gmap loc (ndarray E)).
Implicit Types (h : heap) (A O : ndarray E).

Lemma block_map_whole (f : E -> nat -> nat -> E) A (nx ny : nat) :
  has_shape ny nx A -> block_map f nx ny A A = index_map f A.
Proof.
  intros HsA. unfold block_map, index_map. f_equal.
  apply list_eq. intros iy. rewrite !list_lookup_imap.
  destruct (rows A !! iy) as [ra|] eqn:Hra; [| reflexivity]. simpl. f_equal.
  assert (Hiy : (iy < ny)%nat).
  { apply lookup_lt_Some in Hra. destruct HsA as (H & _). unfold nrows in H. lia. }
  destruct (has_shape_row ny nx A iy HsA Hiy) as (r & Hr & Hlen).
  assert (r = ra) by congruence. subst r.
  destruct (decide (iy < ny)%nat); [| lia].
  now rewrite take_ge, drop_ge, app_nil_r by lia.
Qed.

(** The double loop over whole arrays, [out] being a second array or [ina]
    itself. *)
Lemma element_loop_whole oob h ina out A O (nx ny : nat) :
  h !! ina = Some A -> h !! out = Some O ->
  has_shape ny nx A -> has_shape ny nx O ->
  for_ (seq 0 ny) (fun iy =>
    for_ (seq 0 nx) (fun ix =>
      a <- getitem_or oob ina iy ix ;;
      setitem_or oob out iy ix
        (add (add a (of_int (Z.of_nat ix))) (of_int (Z.of_nat iy))))) h
  = Ret tt (<[out := index_map (plus_ix_plus_iy add of_int) A]> h).
Proof.
  intros HA HO HsA HsO. destruct (decide (ina = out)) as [-> | Hne].
  - rewrite (block_loop_in_place add of_int oob h out A ny nx nx ny HA HsA)
      by lia.
    now rewrite (block_map_whole _ A nx ny HsA).
  - now apply element_loop_closed with (O := O).
Qed.

(** C2, as the code has it.  On an input array and an output array of
    shape [(ny,nx)], the output being a second array or the input itself,
    the broadcasting [subr] of csubnpna.py and the numba-compiled [subr] of
    csubnp-numba.py leave the same store as the double loop of csub.py.
    The sliced [subr] of csubnpv.py, in both branches of its [nx > ny]
    split, leaves [out[iy,ix] = ina[iy,ix] + (ix + iy)], the index sum
    being formed in the integers first; that is the result of the double
    loop exactly when the addition of the dtype is exact on the elements of
    [ina], that is when [(a + ix) + iy = a + (ix + iy)] for every element
    [a = ina[iy,ix]]. *)
Theorem vector_kernels_agree_with_loop h ina out A O (nx ny : nat) :
  h !! ina = Some A -> h !! out = Some O ->
  has_shape ny nx A -> has_shape ny nx O ->
  csubnpna_subr add of_int ina (Z.of_nat nx) (Z.of_nat ny) out h
  = csub_subr add of_int ina (Z.of_nat nx) (Z.of_nat ny) out h /\
  csubnp_numba_subr add of_int ina (Z.of_nat nx) (Z.of_nat ny) out h
  = csub_subr add of_int ina (Z.of_nat nx) (Z.of_nat ny) out h /\
  csubnpv_subr add of_int ina (Z.of_nat nx) (Z.of_nat ny) out h
  = Ret tt (<[out := index_map (plus_index_sum add of_int) A]> h) /\
  ((forall (iy ix : nat) (a : E), item A iy ix = Some a ->
      add (add a (of_int (Z.of_nat ix))) (of_int (Z.of_nat iy))
      = add a (of_int (Z.of_nat ix + Z.of_nat iy))) <->
   csubnpv_subr add of_int ina (Z.of_nat nx) (Z.of_nat ny) out h
   = csub_subr add of_int ina (Z.of_nat nx) (Z.of_nat ny) out h).
Proof.
  intros HA HO HsA HsO.
  assert (Hcsub : csub_subr add of_int ina (Z.of_nat nx) (Z.of_nat ny) out h
                  = Ret tt (<[out := index_map (plus_ix_plus_iy add of_int) A]> h)).
  { unfold csub_subr, getitem, setitem. rewrite !range_of_nat.
    now apply element_loop_whole with (O := O). }
  assert (Hvec : csubnpv_subr add of_int ina (Z.of_nat nx) (Z.of_nat ny) out h
                 = Ret tt (<[out := index_map (plus_index_sum add of_int) A]> h)).
  { destruct (le_lt_dec nx ny).
    - now apply csubnpv_subr_columns_closed with (O := O).
    - now apply csubnpv_subr_rows_closed with (O := O). }
  split; [| split; [| split; [exact Hvec |]]].
  - rewrite Hcsub. now apply csubnpna_subr_closed with (O := O).
  - rewrite Hcsub. unfold csubnp_numba_subr. rewrite !range_of_nat.
    now apply element_loop_whole with (O := O).
  - rewrite Hcsub, Hvec. split.
    + intros Hexact. do 2 f_equal. unfold index_map. f_equal.
      apply imap_ext. intros iy r Hr. apply imap_ext. intros ix a Ha.
      symmetry. apply (Hexact iy ix a). unfold item. rewrite Hr.
      destruct (decide (ix < ncols A)%nat) as [_ | Hout]; [exact Ha |].
      exfalso. apply Hout. apply lookup_lt_Some in Ha.
      assert (Hiy : (iy < ny)%nat).
      { apply lookup_lt_Some in Hr. destruct HsA as (H & _). unfold nrows in H. lia. }
      destruct (has_shape_row ny nx A iy HsA Hiy) as (r' & Hr' & Hlen).
      destruct HsA as (_ & Hc & _). assert (r' = r) by congruence. subst r'. lia.
    + intros Heq iy ix a Ha.
      assert (Hstore : (<[out := index_map (plus_index_sum add of_int) A]> h) !! out
                       = (<[out := index_map (plus_ix_plus_iy add of_int) A]> h) !! out)
        by congruence.
      rewrite !lookup_insert_eq in Hstore. injection Hstore as Hrows.
      pose proof (index_map_item (plus_index_sum add of_int) A iy ix a Ha) as H1.
      pose proof (index_map_item (plus_ix_plus_iy add of_int) A iy ix a Ha) as H2.
      unfold item in H1, H2. simpl in H1, H2. rewrite Hrows in H1.
      rewrite H1 in H2. injection H2 as H2. symmetry. exact H2.
Qed.

End KernelAgreement.

(** ** The four kernels, called again and with the wrong shape *)

Section AllKernelFacts.
Context {E : Type}.
Variable add : E -> E -> E.
Variable of_int : Z -> E.

Local Abbreviation heap := (gmap loc (ndarray E)).
Implicit Types (h : heap) (A O : ndarray E).

(** Each kernel stores in [out] an array that depends on [ina] only. *)
Lemma kernel_closed_form ina out A (nx ny : nat)
    (subr : loc -> Z -> Z -> loc -> M heap unit) :
  ina <> out -> has_shape ny nx A ->
  subr ∈ [csub_subr add of_int; csubnp_numba_subr add of_int;
          csubnpv_subr add of_int; csubnpna_subr add of_int] ->
  exists g,
    (g = plus_ix_plus_iy add of_int \/ g = plus_index_sum add of_int) /\
    forall h O, h !! ina = Some A -> h !! out = Some O -> has_shape ny nx O ->
      subr ina (Z.of_nat nx) (Z.of_nat ny) out h
      = Ret tt (<[out := index_map g A]> h).
Proof.
  intros Hne HsA Hin.
  repeat (apply elem_of_cons in Hin as [-> | Hin]).
  - exists (plus_ix_plus_iy add of_int). split; [now left |]. intros h O HA HO HsO.
    unfold csub_subr, getitem, setitem. rewrite !range_of_nat.
    now apply element_loop_closed with (O := O).
  - exists (plus_ix_plus_iy add of_int). split; [now left |]. intros h O HA HO HsO.
    unfold csubnp_numba_subr. rewrite !range_of_nat.
    now apply element_loop_closed with (O := O).
  - exists (plus_index_sum add of_int). split; [now right |]. intros h O HA HO HsO.
    destruct (le_lt_dec nx ny).
    + now apply csubnpv_subr_columns_closed with (O := O).
    + now apply csubnpv_subr_rows_closed with (O := O).
  - exists (plus_ix_plus_iy add of_int). split; [now left |]. intros h O HA HO HsO.
    now apply csubnpna_subr_closed with (O := O).
  - now apply elem_of_nil in Hin.
Qed.

Lemma call_loop_closed h ina out A O F (nx ny : nat) (nrpt : Z)
    (subr : loc -> Z -> Z -> loc -> M heap unit) :
  ina <> out -> h !! ina = Some A -> h !! out = Some O ->
  has_shape ny nx O -> has_shape ny nx F ->
  (forall h O, h !! ina = Some A -> h !! out = Some O -> has_shape ny nx O ->
     subr ina (Z.of_nat nx) (Z.of_nat ny) out h = Ret tt (<[out := F]> h)) ->
  1 <= nrpt ->
  call_loop subr nrpt ina (Z.of_nat nx) (Z.of_nat ny) out h
  = Ret tt (<[out := F]> h).
Proof.
  intros Hne HA HO HsO HsF Hsubr Hn. unfold call_loop, range.
  destruct (Z.to_nat nrpt) as [|k] eqn:Hk; [lia |]. simpl.
  rewrite (bind_Ret _ _ _ _ _ (Hsubr h O HA HO HsO)).
  generalize (seq 1 k). intros l. induction l as [|x l IH]; simpl; [reflexivity |].
  erewrite bind_Ret; [exact IH |].
  rewrite (Hsubr (<[out := F]> h) F).
  - now rewrite insert_insert_eq.
  - now rewrite lookup_insert_ne by congruence.
  - apply lookup_insert_eq.
  - exact HsF.
Qed.

(** X3.  On two distinct arrays of the shape that is passed, calling any
    of the four kernels [nrpt >= 1] times in a row, as the main routine
    does, leaves the store that a single call leaves: the repeats change
    nothing after the first.  With [nrpt <= 0] no call is made and the store
    stays as it was. *)
Theorem repeated_calls_are_one_call h ina out A O (nx ny : nat) (nrpt : Z)
    (subr : loc -> Z -> Z -> loc -> M heap unit) :
  ina <> out -> h !! ina = Some A -> h !! out = Some O ->
  has_shape ny nx A -> has_shape ny nx O ->
  subr ∈ [csub_subr add of_int; csubnp_numba_subr add of_int;
          csubnpv_subr add of_int; csubnpna_subr add of_int] ->
  (1 <= nrpt ->
   call_loop subr nrpt ina (Z.of_nat nx) (Z.of_nat ny) out h
   = subr ina (Z.of_nat nx) (Z.of_nat ny) out h) /\
  (nrpt <= 0 ->
   call_loop subr nrpt ina (Z.of_nat nx) (Z.of_nat ny) out h = Ret tt h).
Proof.
  intros Hne HA HO HsA HsO Hin. split.
  - intros Hn.
    destruct (kernel_closed_form ina out A nx ny subr Hne HsA Hin) as (g & _ & Hsubr).
    rewrite (Hsubr h O HA HO HsO).
    apply call_loop_closed with (A := A) (O := O); try assumption.
    now apply index_map_shape.
  - intros Hn. unfold call_loop, range.
    now replace (Z.to_nat nrpt) with 0%nat by lia.
Qed.

(** X4.  The broadcasting [subr] of csubnpna.py works on whole arrays only:
    when the number of columns of [ina] differs from [nx], or its number of
    rows from [ny], and neither of the two numbers is 1, numpy cannot
    broadcast the operands and the call raises ValueError, leaving every
    array as it was. *)
Theorem csubnpna_needs_the_shape h ina out A (nx ny : Z) :
  h !! ina = Some A ->
  (ncols A <> Z.to_nat nx /\ ncols A <> 1%nat /\ Z.to_nat nx <> 1%nat) \/
  (nrows A <> Z.to_nat ny /\ nrows A <> 1%nat /\ Z.to_nat ny <> 1%nat) ->
  csubnpna_subr add of_int ina nx ny out h = Raise ValueError h.
Proof.
  intros HA Hbad. unfold csubnpna_subr.
  rewrite (bind_Ret _ _ _ _ _ (deref_Some _ _ _ HA)).
  assert (Hlx : length (arange nx) = Z.to_nat nx).
  { unfold arange, range. now rewrite length_fmap, length_seq. }
  assert (Hly : length (arange ny) = Z.to_nat ny).
  { unfold arange, range. now rewrite length_fmap, length_seq. }
  destruct (add_row_vector add of_int A (arange nx)) as [t|] eqn:Ht;
    [| reflexivity].
  assert (Hrows : nrows t = nrows A /\
                  (ncols A = Z.to_nat nx \/ ncols A = 1%nat \/ Z.to_nat nx = 1%nat)).
  { unfold add_row_vector in Ht. rewrite Hlx in Ht.
    destruct (decide (ncols A = Z.to_nat nx)).
    - injection Ht as <-. unfold nrows. simpl. rewrite length_fmap. auto.
    - destruct (decide (ncols A = 1%nat)).
      + injection Ht as <-. unfold nrows. simpl. rewrite length_fmap. auto.
      + destruct (arange nx) as [|z [|z' w]] eqn:Hw; try discriminate.
        injection Ht as <-. unfold nrows. simpl. rewrite length_fmap.
        simpl in Hlx. auto. }
  destruct Hrows as [Hrt Hcols].
  destruct Hbad as [(H1 & H2 & H3) | (H1 & H2 & H3)]; [intuition |].
  unfold bind at 1. simpl.
  assert (Hnone : add_col_vector add of_int t (arange ny) = None).
  { unfold add_col_vector. rewrite Hly, Hrt.
    destruct (decide (nrows A = Z.to_nat ny)); [contradiction |].
    unfold nrows in Hrt, H2. rewrite <- Hrt in H2.
    destruct (rows t) as [|r [|r' rs]]; destruct (arange ny) as [|z [|z' w]];
      simpl in *; try reflexivity; congruence. }
  now rewrite Hnone.
Qed.

End AllKernelFacts.

(** ** The main routine *)

Section MainFacts.
Context {E : Type}.
Variable add : E -> E -> E.
Variable of_int : Z -> E.
Variable neqb : E -> E -> bool.
Variable int_of_str : string -> option Z.
Variable str_of_item : E -> string.

Local Abbreviation heap := (gmap loc (ndarray E)).
Local Abbreviation differs := (mismatch add of_int neqb).
Local Abbreviation row_check := (report_row add of_int neqb str_of_item).
Local Abbreviation rows_check := (report_rows add of_int neqb str_of_item).
Implicit Types (p : Prog E) (h : heap) (A O : ndarray E).

Lemma Prog_eta p : mkProg (arrays p) (stdout p) = p.
Proof. now destruct p. Qed.

Lemma on_arrays_Ret {B : Type} (c : M heap B) p (b : B) h :
  c (arrays p) = Ret b h -> on_arrays c p = Ret b (mkProg h (stdout p)).
Proof. intros H. unfold on_arrays. now rewrite H. Qed.

Lemma on_arrays_Raise {B : Type} (c : M heap B) p (e : exn) h :
  c (arrays p) = Raise e h -> on_arrays c p = Raise e (mkProg h (stdout p)).
Proof. intros H. unfold on_arrays. now rewrite H. Qed.

Lemma on_arrays_pure {B : Type} (c : M heap B) p (b : B) :
  c (arrays p) = Ret b (arrays p) -> on_arrays c p = Ret b p.
Proof. intros H. rewrite (on_arrays_Ret c p b _ H). now rewrite Prog_eta. Qed.

Lemma check_item_Ret h ina out A O iy ix o a :
  h !! ina = Some A -> h !! out = Some O ->
  item O iy ix = Some o -> item A iy ix = Some a ->
  check_item add of_int neqb ina out iy ix h
  = Ret (neqb o (add a (of_int (Z.of_nat ix + Z.of_nat iy)))) h.
Proof.
  intros HA HO Ho Ha. unfold check_item, getitem.
  rewrite (bind_Ret _ _ _ _ _ (getitem_or_Some IndexError h out O iy ix o HO Ho)).
  now rewrite (bind_Ret _ _ _ _ _ (getitem_or_Some IndexError h ina A iy ix a HA Ha)).
Qed.

(** One element of the check: nothing is printed when it agrees, one line
    when it differs. *)
Lemma report_item_agrees p ina out A O iy ix (ixs : list nat) :
  arrays p !! ina = Some A -> arrays p !! out = Some O ->
  is_Some (item O iy ix) -> is_Some (item A iy ix) ->
  differs A O iy ix = false ->
  row_check ina out iy (ix :: ixs) p = row_check ina out iy ixs p.
Proof.
  intros HA HO [o Ho] [a Ha] Hsame. simpl.
  rewrite (bind_Ret _ _ _ _ _
             (on_arrays_pure _ p _ (check_item_Ret _ ina out A O iy ix o a HA HO Ho Ha))).
  unfold mismatch in Hsame. rewrite Ho, Ha in Hsame. now rewrite Hsame.
Qed.

Lemma report_item_differs p ina out A O iy ix (ixs : list nat) :
  arrays p !! ina = Some A -> arrays p !! out = Some O ->
  differs A O iy ix = true ->
  row_check ina out iy (ix :: ixs) p
  = Ret true (mkProg (arrays p) (stdout p ++ [error_line str_of_item A O iy ix])).
Proof.
  intros HA HO Hbad. unfold mismatch in Hbad. unfold error_line.
  destruct (item O iy ix) as [o|] eqn:Ho; [| discriminate].
  destruct (item A iy ix) as [a|] eqn:Ha; [| discriminate].
  simpl.
  rewrite (bind_Ret _ _ _ _ _
             (on_arrays_pure _ p _ (check_item_Ret _ ina out A O iy ix o a HA HO Ho Ha))).
  rewrite Hbad.
  rewrite (bind_Ret _ _ _ _ _
             (on_arrays_pure _ p _ (getitem_or_Some IndexError _ out O iy ix o HO Ho))).
  rewrite (bind_Ret _ _ _ _ _
             (on_arrays_pure _ p _ (getitem_or_Some IndexError _ ina A iy ix a HA Ha))).
  reflexivity.
Qed.

Lemma report_row_agrees p ina out A O iy (ixs : list nat) :
  arrays p !! ina = Some A -> arrays p !! out = Some O ->
  (forall ix, ix ∈ ixs ->
     is_Some (item O iy ix) /\ is_Some (item A iy ix) /\ differs A O iy ix = false) ->
  row_check ina out iy ixs p = Ret false p.
Proof.
  intros HA HO. induction ixs as [|ix ixs IH]; intros Hall; [reflexivity |].
  destruct (Hall ix (list_elem_of_here ix ixs)) as (Ho & Ha & Hsame).
  rewrite (report_item_agrees p ina out A O iy ix ixs HA HO Ho Ha Hsame).
  apply IH. intros ix' Hin. apply Hall. now apply list_elem_of_further.
Qed.

Lemma report_row_differs p ina out A O iy (before after : list nat) ix0 :
  arrays p !! ina = Some A -> arrays p !! out = Some O ->
  (forall ix, ix ∈ before ->
     is_Some (item O iy ix) /\ is_Some (item A iy ix) /\ differs A O iy ix = false) ->
  differs A O iy ix0 = true ->
  row_check ina out iy (before ++ ix0 :: after) p
  = Ret true (mkProg (arrays p) (stdout p ++ [error_line str_of_item A O iy ix0])).
Proof.
  intros HA HO. induction before as [|ix before IH]; intros Hall Hbad.
  - now apply report_item_differs.
  - destruct (Hall ix (list_elem_of_here ix before)) as (Ho & Ha & Hsame).
    rewrite <- app_comm_cons.
    rewrite (report_item_agrees p ina out A O iy ix _ HA HO Ho Ha Hsame).
    apply IH; [| exact Hbad]. intros ix' Hin. apply Hall.
    now apply list_elem_of_further.
Qed.

Lemma report_rows_agree p ina out A O (nx : nat) (iys : list nat) :
  arrays p !! ina = Some A -> arrays p !! out = Some O ->
  (forall iy ix, iy ∈ iys -> (ix < nx)%nat ->
     is_Some (item O iy ix) /\ is_Some (item A iy ix) /\ differs A O iy ix = false) ->
  rows_check ina out (Z.of_nat nx) iys p = Ret false p.
Proof.
  intros HA HO. induction iys as [|iy iys IH]; intros Hall; [reflexivity |].
  assert (Hrow : forall ix, ix ∈ seq 0 nx ->
            is_Some (item O iy ix) /\ is_Some (item A iy ix) /\
            differs A O iy ix = false).
  { intros ix Hin. apply elem_of_seq in Hin.
    apply Hall; [apply list_elem_of_here | lia]. }
  simpl. rewrite range_of_nat.
  rewrite (bind_Ret _ _ _ _ _ (report_row_agrees p ina out A O iy (seq 0 nx) HA HO Hrow)).
  apply IH. intros iy' ix Hin. apply Hall. now apply list_elem_of_further.
Qed.

Lemma report_rows_differ p ina out A O (nx : nat) (before after : list nat) iy0 ix0 :
  arrays p !! ina = Some A -> arrays p !! out = Some O ->
  (forall iy ix, iy ∈ before -> (ix < nx)%nat ->
     is_Some (item O iy ix) /\ is_Some (item A iy ix) /\ differs A O iy ix = false) ->
  (forall ix, (ix < ix0)%nat ->
     is_Some (item O iy0 ix) /\ is_Some (item A iy0 ix) /\ differs A O iy0 ix = false) ->
  (ix0 < nx)%nat -> differs A O iy0 ix0 = true ->
  rows_check ina out (Z.of_nat nx) (before ++ iy0 :: after) p
  = Ret true (mkProg (arrays p) (stdout p ++ [error_line str_of_item A O iy0 ix0])).
Proof.
  intros HA HO. induction before as [|iy before IH]; intros Hall Hrow Hix Hbad.
  - assert (Hpre : forall ix, ix ∈ seq 0 ix0 ->
              is_Some (item O iy0 ix) /\ is_Some (item A iy0 ix) /\
              differs A O iy0 ix = false).
    { intros ix Hin. apply elem_of_seq in Hin. apply Hrow. lia. }
    simpl. rewrite range_of_nat, (seq_split ix0 nx) by lia.
    replace (nx - ix0)%nat with (S (nx - ix0 - 1)) by lia. simpl seq.
    now rewrite (bind_Ret _ _ _ _ _
                   (report_row_differs p ina out A O iy0 (seq 0 ix0)
                      (seq (S ix0) (nx - ix0 - 1)) ix0 HA HO Hpre Hbad)).
  - assert (Hpre : forall ix, ix ∈ seq 0 nx ->
              is_Some (item O iy ix) /\ is_Some (item A iy ix) /\
              differs A O iy ix = false).
    { intros ix Hin. apply elem_of_seq in Hin.
      apply Hall; [apply list_elem_of_here | lia]. }
    rewrite <- app_comm_cons. simpl. rewrite range_of_nat.
    rewrite (bind_Ret _ _ _ _ _ (report_row_agrees p ina out A O iy (seq 0 nx) HA HO Hpre)).
    apply IH; try assumption. intros iy' ix Hin. apply Hall.
    now apply list_elem_of_further.
Qed.

Lemma result_check_clean p ina out A O (nx ny : nat) :
  arrays p !! ina = Some A -> arrays p !! out = Some O ->
  has_shape ny nx A -> has_shape ny nx O ->
  (forall iy ix, (iy < ny)%nat -> (ix < nx)%nat -> differs A O iy ix = false) ->
  result_check add of_int neqb str_of_item ina (Z.of_nat nx) (Z.of_nat ny) out p
  = Ret tt p.
Proof.
  intros HA HO HsA HsO Hsame.
  assert (Hall : forall iy ix, iy ∈ seq 0 ny -> (ix < nx)%nat ->
            is_Some (item O iy ix) /\ is_Some (item A iy ix) /\
            differs A O iy ix = false).
  { intros iy ix Hin Hix. apply elem_of_seq in Hin. split; [| split].
    - apply (has_shape_item_Some ny nx); [assumption | lia | assumption].
    - apply (has_shape_item_Some ny nx); [assumption | lia | assumption].
    - apply Hsame; lia. }
  unfold result_check. rewrite range_of_nat.
  now rewrite (bind_Ret _ _ _ _ _
                 (report_rows_agree p ina out A O nx (seq 0 ny) HA HO Hall)).
Qed.

Lemma result_check_first p ina out A O (nx ny iy0 ix0 : nat) :
  arrays p !! ina = Some A -> arrays p !! out = Some O ->
  has_shape ny nx A -> has_shape ny nx O ->
  (iy0 < ny)%nat -> (ix0 < nx)%nat -> differs A O iy0 ix0 = true ->
  (forall iy ix, (ix < nx)%nat ->
     (iy < iy0 \/ (iy = iy0 /\ ix < ix0))%nat -> differs A O iy ix = false) ->
  result_check add of_int neqb str_of_item ina (Z.of_nat nx) (Z.of_nat ny) out p
  = Ret tt (mkProg (arrays p) (stdout p ++ [error_line str_of_item A O iy0 ix0])).
Proof.
  intros HA HO HsA HsO Hiy Hix Hbad Hfirst.
  assert (Hall : forall iy ix, iy ∈ seq 0 iy0 -> (ix < nx)%nat ->
            is_Some (item O iy ix) /\ is_Some (item A iy ix) /\
            differs A O iy ix = false).
  { intros iy ix Hin Hlt. apply elem_of_seq in Hin. split; [| split].
    - apply (has_shape_item_Some ny nx); [assumption | lia | assumption].
    - apply (has_shape_item_Some ny nx); [assumption | lia | assumption].
    - apply Hfirst; [assumption | lia]. }
  assert (Hrow : forall ix, (ix < ix0)%nat ->
            is_Some (item O iy0 ix) /\ is_Some (item A iy0 ix) /\
            differs A O iy0 ix = false).
  { intros ix Hlt. split; [| split].
    - apply (has_shape_item_Some ny nx); [assumption | lia | lia].
    - apply (has_shape_item_Some ny nx); [assumption | lia | lia].
    - apply Hfirst; lia. }
  unfold result_check.
  rewrite range_of_nat, (seq_split iy0 ny) by lia.
  replace (ny - iy0)%nat with (S (ny - iy0 - 1)) by lia. simpl seq.
  now rewrite (bind_Ret _ _ _ _ _
                 (report_rows_differ p ina out A O nx (seq 0 iy0)
                    (seq (S iy0) (ny - iy0 - 1)) iy0 ix0 HA HO Hall Hrow Hix Hbad)).
Qed.

(** X5.  On arrays of the shape that is passed the result check prints
    nothing when every element of [out] equals [ina[iy,ix] + (ix + iy)],
    and otherwise exactly one line, for the first element that differs in
    the order of the loops (rows first, then columns): the two [break]s end
    the check there, later differences are not reported.  It changes no
    array. *)
Theorem result_check_reports_first_mismatch p ina out A O (nx ny : nat) :
  arrays p !! ina = Some A -> arrays p !! out = Some O ->
  has_shape ny nx A -> has_shape ny nx O ->
  ((forall iy ix, (iy < ny)%nat -> (ix < nx)%nat -> differs A O iy ix = false) ->
   result_check add of_int neqb str_of_item ina (Z.of_nat nx) (Z.of_nat ny) out p
   = Ret tt p) /\
  (forall iy0 ix0,
     (iy0 < ny)%nat -> (ix0 < nx)%nat -> differs A O iy0 ix0 = true ->
     (forall iy ix, (ix < nx)%nat ->
        (iy < iy0 \/ (iy = iy0 /\ ix < ix0))%nat -> differs A O iy ix = false) ->
     result_check add of_int neqb str_of_item ina (Z.of_nat nx) (Z.of_nat ny) out p
     = Ret tt (mkProg (arrays p)
                 (stdout p ++ [error_line str_of_item A O iy0 ix0]))).
Proof.
  intros HA HO HsA HsO. split.
  - now apply result_check_clean.
  - intros iy0 ix0. now apply result_check_first.
Qed.

(** *** The input array *)

Lemma fill_loops_closed h l O (g : nat -> nat -> E) (n m : nat) :
  h !! l = Some O -> has_shape m n O ->
  for_ (seq 0 m) (fun iy => for_ (seq 0 n) (fun ix => setitem l iy ix (g iy ix))) h
  = Ret tt (<[l := NdArray n ((fun iy => g iy <$> seq 0 n) <$> seq 0 m)]> h).
Proof.
  intros HO Hs.
  set (new := (fun iy => g iy <$> seq 0 n) <$> seq 0 m).
  assert (Hnew : length new = m) by (unfold new; now rewrite length_fmap, length_seq).
  assert (Hold : length (rows O) = m) by apply Hs.
  assert (HcO : ncols O = n) by apply Hs.
  match goal with |- for_ _ ?b _ = _ => set (body := b) end.
  destruct (for_seq_rule
    (fun k s => s = <[l := NdArray n (take k new ++ drop k (rows O))]> h)
    body m 0 h) as (s' & Hrun & Hs').
  - simpl. rewrite drop_0, <- HcO, ndarray_eta. symmetry. now apply insert_id.
  - intros k s0 [_ Hk] ->. simpl in Hk.
    destruct (has_shape_row m n O k Hs Hk) as (ro & Hro & Hlro).
    set (rn := g k <$> seq 0 n).
    assert (Hrn : new !! k = Some rn).
    { unfold new. rewrite list_lookup_fmap, lookup_seq_lt by lia. reflexivity. }
    assert (Hlrn : length rn = n) by (unfold rn; now rewrite length_fmap, length_seq).
    unfold body at 1.
    match goal with |- context [for_ _ ?b _] => set (inner := b) end.
    destruct (for_seq_rule
      (fun j s => s = <[l := NdArray n
                   (take k new ++ (take j rn ++ drop j ro) :: drop (S k) (rows O))]> h)
      inner n 0 (<[l := NdArray n (take k new ++ drop k (rows O))]> h))
      as (s1 & Hrun1 & Hs1).
    + simpl. rewrite drop_0. now rewrite (drop_S (rows O) ro k Hro).
    + intros j s2 [_ Hj] ->. simpl in Hj. unfold inner, setitem.
      erewrite setitem_or_Some;
        [| apply lookup_insert_eq
         | unfold set_item; simpl; rewrite lookup_middle_row by lia;
           destruct (decide (j < n)%nat); [reflexivity | lia]].
      eexists. split; [reflexivity |].
      rewrite insert_insert_eq. do 2 f_equal.
      rewrite insert_middle_row by lia. do 2 f_equal.
      apply insert_take_drop_next; [| lia].
      unfold rn. rewrite list_lookup_fmap, lookup_seq_lt by lia. reflexivity.
    + exists s1. split; [exact Hrun1 |]. rewrite Hs1. simpl. do 2 f_equal.
      rewrite <- Hlrn at 1 2. rewrite take_drop_all by lia.
      rewrite (take_S_r new k rn Hrn). now rewrite <- app_assoc.
  - rewrite Hrun, Hs'. simpl. do 2 f_equal.
    rewrite <- Hnew at 1 2. now rewrite take_drop_all by lia.
Qed.

Lemma main_input_shape (nx ny : Z) :
  has_shape (Z.to_nat ny) (Z.to_nat nx) (main_input of_int nx ny).
Proof.
  unfold has_shape, nrows, main_input, range. simpl.
  rewrite length_fmap, length_seq. repeat split.
  apply Forall_fmap, Forall_forall. intros iy _. simpl.
  now rewrite length_fmap, length_seq.
Qed.

Lemma main_input_item (nx ny : Z) (iy ix : nat) :
  (iy < Z.to_nat ny)%nat -> (ix < Z.to_nat nx)%nat ->
  item (main_input of_int nx ny) iy ix
  = Some (of_int (nx - Z.of_nat ix + ny - Z.of_nat iy)).
Proof.
  intros Hiy Hix. unfold item, main_input, range. simpl.
  rewrite list_lookup_fmap, lookup_seq_lt by assumption. simpl.
  destruct (decide (ix < Z.to_nat nx)%nat); [| contradiction].
  now rewrite list_lookup_fmap, lookup_seq_lt by assumption.
Qed.

(** The main routine up to the calls: the two arrays exist and the first
    line is printed. *)
Lemma main_routine_start subr nrpt0 argv p (nrpt nx ny : Z) :
  read_args int_of_str nrpt0 argv p = Ret (nrpt, nx, ny) p ->
  0 <= nx -> 0 <= ny ->
  main_routine add of_int neqb int_of_str str_of_item subr nrpt0 argv p
  = (on_arrays (call_loop subr nrpt ina_var nx ny out_var) ;;
     result_check add of_int neqb str_of_item ina_var nx ny out_var)
      (mkProg (<[out_var := zeros (of_int 0) (Z.to_nat ny) (Z.to_nat nx)]>
                 (<[ina_var := main_input of_int nx ny]> (arrays p)))
              (stdout p ++ [join_spaces ["Arrays"; pretty nx; "by"; pretty ny;
                                         "count"; pretty nrpt]])).
Proof.
  intros Hargs Hnx Hny. unfold main_routine.
  rewrite (bind_Ret _ _ _ _ _ Hargs).
  assert (Hpos : (ny <? 0) || (nx <? 0) = false).
  { destruct (Z.ltb_spec ny 0), (Z.ltb_spec nx 0); simpl; lia. }
  unfold numpy_zeros. rewrite Hpos.
  erewrite bind_Ret; [| apply on_arrays_Ret; reflexivity].
  erewrite bind_Ret;
    [| apply on_arrays_Ret; unfold fill_input, range;
       apply (fill_loops_closed _ ina_var (zeros (of_int 0) (Z.to_nat ny) (Z.to_nat nx))
                (fun iy ix => of_int (nx - Z.of_nat ix + ny - Z.of_nat iy)));
       [apply lookup_insert_eq | apply zeros_shape]].
  erewrite bind_Ret; [| apply on_arrays_Ret; reflexivity].
  unfold echo at 1. unfold bind at 1. simpl arrays. simpl stdout.
  rewrite insert_insert_eq. reflexivity.
Qed.

Lemma main_input_row (nx ny : Z) (iy : nat) r :
  rows (main_input of_int nx ny) !! iy = Some r ->
  Z.of_nat iy < ny /\
  forall ix a, r !! ix = Some a ->
    Z.of_nat ix < nx /\ a = of_int (nx - Z.of_nat ix + ny - Z.of_nat iy).
Proof.
  unfold main_input, range. simpl. rewrite list_lookup_fmap.
  destruct (seq 0 (Z.to_nat ny) !! iy) as [k|] eqn:Hk; [| discriminate].
  apply lookup_seq in Hk as [-> Hiy]. simpl. intros H. injection H as <-.
  split; [lia |]. intros ix a. rewrite list_lookup_fmap.
  destruct (seq 0 (Z.to_nat nx) !! ix) as [j|] eqn:Hj; [| discriminate].
  apply lookup_seq in Hj as [-> Hix]. simpl. intros H. injection H as <-.
  split; [lia | reflexivity].
Qed.

(** X6.  Started with a repeat count of at least 1 and non-negative sizes,
    each of the four programs prints the line with the sizes and the count
    and nothing else, so its result check finds no difference, and it ends
    normally with [ina[iy,ix] = nx - ix + ny - iy] and
    [out[iy,ix] = ina[iy,ix] + (ix + iy)].  This holds when the addition of
    the dtype is exact on the elements that the program itself puts into
    [ina], that is [(a + ix) + iy = a + (ix + iy)] for
    [a = nx - ix + ny - iy], and its [!=] is false on that sum compared
    with itself; nothing is asked of other values of the dtype. *)
Theorem main_routine_passes_its_check
    (subr : loc -> Z -> Z -> loc -> M heap unit) nrpt0 argv p (nrpt nx ny : Z) :
  subr ∈ [csub_subr add of_int; csubnp_numba_subr add of_int;
          csubnpv_subr add of_int; csubnpna_subr add of_int] ->
  read_args int_of_str nrpt0 argv p = Ret (nrpt, nx, ny) p ->
  1 <= nrpt -> 0 <= nx -> 0 <= ny ->
  (forall ix iy : nat, Z.of_nat ix < nx -> Z.of_nat iy < ny ->
     add (add (of_int (nx - Z.of_nat ix + ny - Z.of_nat iy)) (of_int (Z.of_nat ix)))
         (of_int (Z.of_nat iy))
     = add (of_int (nx - Z.of_nat ix + ny - Z.of_nat iy))
           (of_int (Z.of_nat ix + Z.of_nat iy)) /\
     neqb (add (of_int (nx - Z.of_nat ix + ny - Z.of_nat iy))
               (of_int (Z.of_nat ix + Z.of_nat iy)))
          (add (of_int (nx - Z.of_nat ix + ny - Z.of_nat iy))
               (of_int (Z.of_nat ix + Z.of_nat iy))) = false) ->
  main_routine add of_int neqb int_of_str str_of_item subr nrpt0 argv p
  = Ret tt
      (mkProg (<[out_var := index_map (plus_index_sum add of_int)
                              (main_input of_int nx ny)]>
                 (<[ina_var := main_input of_int nx ny]> (arrays p)))
              (stdout p ++ [join_spaces ["Arrays"; pretty nx; "by"; pretty ny;
                                         "count"; pretty nrpt]])).
Proof.
  intros Hin Hargs Hnrpt Hnx Hny Hexact.
  rewrite (main_routine_start subr nrpt0 argv p nrpt nx ny Hargs Hnx Hny).
  set (A := main_input of_int nx ny).
  set (Z0 := zeros (of_int 0) (Z.to_nat ny) (Z.to_nat nx)).
  set (h1 := <[out_var := Z0]> (<[ina_var := A]> (arrays p))).
  assert (Hne : ina_var <> out_var) by discriminate.
  assert (HsA : has_shape (Z.to_nat ny) (Z.to_nat nx) A) by apply main_input_shape.
  assert (HA1 : h1 !! ina_var = Some A).
  { unfold h1. rewrite lookup_insert_ne by congruence. apply lookup_insert_eq. }
  assert (HO1 : h1 !! out_var = Some Z0) by apply lookup_insert_eq.
  destruct (kernel_closed_form add of_int ina_var out_var A _ _ subr Hne HsA Hin)
    as (g & Hg & Hsubr).
  assert (Heq : index_map g A = index_map (plus_index_sum add of_int) A).
  { destruct Hg as [-> | ->]; [| reflexivity].
    unfold index_map. f_equal. apply imap_ext. intros iy r Hr.
    destruct (main_input_row nx ny iy r Hr) as [Hiy Hrow].
    apply imap_ext. intros ix a Ha. destruct (Hrow ix a Ha) as [Hix ->].
    apply (Hexact ix iy Hix Hiy). }
  rewrite Heq in Hsubr.
  set (F := index_map (plus_index_sum add of_int) A) in *.
  assert (HsF : has_shape (Z.to_nat ny) (Z.to_nat nx) F) by now apply index_map_shape.
  assert (Hcalls : call_loop subr nrpt ina_var nx ny out_var h1
                   = Ret tt (<[out_var := F]> h1)).
  { rewrite <- (Z2Nat.id nx), <- (Z2Nat.id ny) by assumption.
    apply call_loop_closed with (A := A) (O := Z0); try assumption.
    apply zeros_shape. }
  erewrite bind_Ret; [| apply on_arrays_Ret; simpl arrays; exact Hcalls].
  simpl stdout. unfold h1. rewrite insert_insert_eq.
  rewrite <- (Z2Nat.id nx), <- (Z2Nat.id ny) at 1 by assumption.
  apply result_check_clean with (A := A) (O := F).
  - simpl. rewrite lookup_insert_ne by congruence. apply lookup_insert_eq.
  - simpl. apply lookup_insert_eq.
  - exact HsA.
  - exact HsF.
  - intros iy ix Hiy Hix. unfold mismatch.
    assert (Ha : item A iy ix = Some (of_int (nx - Z.of_nat ix + ny - Z.of_nat iy)))
      by now apply main_input_item.
    unfold F. rewrite (index_map_item _ A iy ix _ Ha), Ha.
    unfold plus_index_sum. apply (Hexact ix iy); lia.
Qed.

(** X7.  Started with a repeat count of zero or less and arrays of at
    least one row and one column, a program makes no call of its kernel,
    [out] stays all zeros, and the result check reports the very first
    element: the program prints the line with the sizes and then one
    [Error:] line for the indices 0 and 0.  (The dtype is one in which
    [nx + ny] plus zero is not zero, as for integers.) *)
Theorem main_routine_without_calls_reports_an_error
    (subr : loc -> Z -> Z -> loc -> M heap unit) nrpt0 argv p (nrpt nx ny : Z) :
  read_args int_of_str nrpt0 argv p = Ret (nrpt, nx, ny) p ->
  nrpt <= 0 -> 1 <= nx -> 1 <= ny ->
  neqb (of_int 0) (add (of_int (nx - 0 + ny - 0)) (of_int 0)) = true ->
  main_routine add of_int neqb int_of_str str_of_item subr nrpt0 argv p
  = Ret tt
      (mkProg (<[out_var := zeros (of_int 0) (Z.to_nat ny) (Z.to_nat nx)]>
                 (<[ina_var := main_input of_int nx ny]> (arrays p)))
              (stdout p
               ++ [join_spaces ["Arrays"; pretty nx; "by"; pretty ny;
                                "count"; pretty nrpt];
                   join_spaces ["Error: "; str_of_item (of_int 0); "0"; "0";
                                str_of_item (of_int (nx - 0 + ny - 0))]])).
Proof.
  intros Hargs Hnrpt Hnx Hny Hbad.
  rewrite (main_routine_start subr nrpt0 argv p nrpt nx ny Hargs) by lia.
  set (A := main_input of_int nx ny).
  set (Z0 := zeros (of_int 0) (Z.to_nat ny) (Z.to_nat nx)).
  set (h1 := <[out_var := Z0]> (<[ina_var := A]> (arrays p))).
  assert (Hnone : call_loop subr nrpt ina_var nx ny out_var h1 = Ret tt h1).
  { unfold call_loop, range. now replace (Z.to_nat nrpt) with 0%nat by lia. }
  erewrite bind_Ret; [| apply on_arrays_Ret; simpl arrays; exact Hnone].
  simpl stdout.
  assert (Ha : item A 0 0 = Some (of_int (nx - 0 + ny - 0))).
  { unfold A. rewrite main_input_item by lia. reflexivity. }
  assert (Ho : item Z0 0 0 = Some (of_int 0)).
  { destruct (has_shape_item_Some (Z.to_nat ny) (Z.to_nat nx) Z0 0 0) as [o Ho];
      [apply zeros_shape | lia | lia |].
    rewrite Ho. f_equal. now apply zeros_item in Ho. }
  rewrite <- (Z2Nat.id nx), <- (Z2Nat.id ny) at 1 by lia.
  rewrite (result_check_first _ ina_var out_var A Z0 _ _ 0 0).
  - simpl arrays. simpl stdout. unfold error_line. rewrite Ho, Ha.
    now rewrite <- app_assoc.
  - simpl. unfold h1. rewrite lookup_insert_ne by discriminate. apply lookup_insert_eq.
  - simpl. apply lookup_insert_eq.
  - apply main_input_shape.
  - apply zeros_shape.
  - lia.
  - lia.
  - unfold mismatch. rewrite Ho, Ha. exact Hbad.
  - intros iy ix _ Hlt. lia.
Qed.

End MainFacts.

(** * More properties of Run.py *)

(** ** Strings and words *)

Lemma append_assoc (a b c : string) : (a +:+ b) +:+ c = a +:+ (b +:+ c).
Proof.
  induction a as [|x a IH]; [reflexivity |].
  change (String x ((a +:+ b) +:+ c) = String x (a +:+ (b +:+ c))). now rewrite IH.
Qed.

Lemma append_nil_r (a : string) : a +:+ "" = a.
Proof.
  induction a as [|x a IH]; [reflexivity |].
  change (String x (a +:+ "") = String x a). now rewrite IH.
Qed.

Lemma append_cons (x : ascii) (a b : string) : String x a +:+ b = String x (a +:+ b).
Proof. reflexivity. Qed.

Lemma all_chars_app (P : ascii -> bool) (a b : string) :
  all_chars P (a +:+ b) = all_chars P a && all_chars P b.
Proof.
  induction a as [|x a IH]; [reflexivity |].
  rewrite append_cons. simpl. now rewrite IH, andb_assoc.
Qed.

Lemma is_word_nonempty (w : string) : is_word w = true -> w <> "".
Proof.
  unfold is_word. intros H ->. discriminate.
Qed.

Lemma is_word_free (w : string) : is_word w = true -> space_free w = true.
Proof. unfold is_word. now intros [_ H]%andb_true_iff. Qed.

(** *** White space at the head of a string *)

(** A space is no part of a longer white-space character. *)
Lemma space2_space (c : ascii) : space2 c " " = false.
Proof. unfold space2. now destruct (byte_in 194 194 c). Qed.

Lemma space3_space_second (c c2 : ascii) : space3 c " " c2 = false.
Proof.
  unfold space3.
  destruct (byte_in 225 225 c), (byte_in 226 226 c), (byte_in 227 227 c); reflexivity.
Qed.

Lemma space3_space_third (c c1 : ascii) : space3 c c1 " " = false.
Proof.
  unfold space3.
  destruct (byte_in 225 225 c), (byte_in 226 226 c), (byte_in 227 227 c),
    (byte_in 154 154 c1), (byte_in 128 128 c1), (byte_in 129 129 c1); reflexivity.
Qed.

(** A white-space character lies within the string. *)
Lemma space_length_le (s : string) : (space_length s <= String.length s)%nat.
Proof.
  destruct s as [|c [|c1 [|c2 s]]]; simpl; [lia | | |].
  - destruct (py_isspace c); lia.
  - destruct (py_isspace c); [lia |]. destruct (space2 c c1); lia.
  - destruct (py_isspace c); [lia |]. destruct (space2 c c1); [lia |].
    destruct (space3 c c1 c2); lia.
Qed.

(** What follows a string can only add to the white space at its head. *)
Lemma space_length_prefix (v rest : string) :
  space_length (v +:+ rest) = 0%nat -> space_length v = 0%nat.
Proof.
  destruct v as [|c [|c1 [|c2 v]]]; simpl; try easy.
  - destruct (py_isspace c); [discriminate | reflexivity].
  - destruct (py_isspace c); [discriminate |].
    destruct (space2 c c1); [discriminate | reflexivity].
Qed.

(** A space that follows adds nothing. *)
Lemma space_length_before_space (u rest : string) :
  u <> "" -> space_length (u +:+ String " "%char rest) = space_length u.
Proof.
  intros Hu. destruct u as [|c [|c1 [|c2 u]]]; [contradiction | | |]; simpl.
  - destruct (py_isspace c); [reflexivity |]. rewrite space2_space.
    destruct rest as [|c2 rest]; [reflexivity |]. now rewrite space3_space_second.
  - destruct (py_isspace c); [reflexivity |].
    destruct (space2 c c1); [reflexivity |]. now rewrite space3_space_third.
  - reflexivity.
Qed.

Lemma clear_before_snoc (w : string) (c : ascii) (rest : string) :
  clear_before (w +:+ String c "") rest
  = clear_before w (String c rest) && Nat.eqb (space_length (String c rest)) 0.
Proof.
  induction w as [|a w IH].
  - simpl. now rewrite andb_true_r.
  - assert (Happ : String a (w +:+ String c "") +:+ rest
                   = String a w +:+ String c rest).
    { rewrite !append_cons. f_equal. now rewrite append_assoc. }
    rewrite append_cons.
    change (clear_before (String a (w +:+ String c "")) rest)
      with (Nat.eqb (space_length (String a (w +:+ String c "") +:+ rest)) 0
            && clear_before (w +:+ String c "") rest).
    change (clear_before (String a w) (String c rest))
      with (Nat.eqb (space_length (String a w +:+ String c rest)) 0
            && clear_before w (String c rest)).
    rewrite Happ, IH. now rewrite andb_assoc.
Qed.

Lemma clear_before_free (w rest : string) :
  clear_before w rest = true -> space_free w = true.
Proof.
  induction w as [|c w IH]; [reflexivity |].
  change (clear_before (String c w) rest)
    with (Nat.eqb (space_length (String c w +:+ rest)) 0 && clear_before w rest).
  change (space_free (String c w))
    with (Nat.eqb (space_length (String c w)) 0 && space_free w).
  intros [Hc Hw]%andb_true_iff. apply Nat.eqb_eq in Hc.
  apply space_length_prefix in Hc.
  rewrite Hc. simpl. now apply IH.
Qed.

(** *** The words of a string *)

Lemma split_go_words (skip : nat) (word : option string) (s : string) :
  match word with
  | Some w => skip = 0%nat /\ w <> "" /\ clear_before w s = true
  | None => True
  end ->
  Forall (fun w => is_word w = true) (split_go skip word s).
Proof.
  revert skip word. induction s as [|c s IH]; intros skip word Hword.
  - simpl. destruct word as [w|]; [| constructor].
    destruct Hword as (_ & Hne & Hclear). repeat constructor.
    unfold is_word. rewrite (clear_before_free _ _ Hclear), andb_true_r.
    apply negb_true_iff. now apply String.eqb_neq.
  - destruct skip as [|k].
    + change (split_go 0 word (String c s))
        with (match space_length (String c s) with
              | S k => match word with
                       | Some w => w :: split_go k None s
                       | None => split_go k None s
                       end
              | O => split_go 0 (Some (match word with
                                       | Some w => w +:+ String c EmptyString
                                       | None => String c EmptyString
                                       end)) s
              end).
      destruct (space_length (String c s)) as [|k] eqn:Hlen.
      * apply IH. split; [reflexivity |]. destruct word as [w|].
        -- destruct Hword as (_ & Hne & Hclear). split.
           ++ destruct w; discriminate.
           ++ rewrite clear_before_snoc, Hclear, Hlen. reflexivity.
        -- split; [discriminate |].
           change (clear_before (String c "") s)
             with (Nat.eqb (space_length (String c s)) 0 && true).
           now rewrite Hlen.
      * destruct word as [w|]; [| now apply IH].
        destruct Hword as (_ & Hne & Hclear). constructor; [| now apply IH].
        unfold is_word. rewrite (clear_before_free _ _ Hclear), andb_true_r.
        apply negb_true_iff. now apply String.eqb_neq.
    + simpl. apply IH. destruct word as [w|]; [| exact I].
      destruct Hword as (Hk & _). discriminate.
Qed.

(** Reading a stretch without white space extends the word begun. *)
Lemma split_go_stretch (word : option string) (w : string) :
  space_free w = true -> w <> "" ->
  split_go 0 word w = [begun word +:+ w].
Proof.
  revert word. induction w as [|c w IH]; intros word Hfree Hne; [contradiction |].
  change (space_free (String c w))
    with (Nat.eqb (space_length (String c w)) 0 && space_free w) in Hfree.
  apply andb_true_iff in Hfree as [Hc Hfree]. apply Nat.eqb_eq in Hc.
  change (split_go 0 word (String c w))
    with (match space_length (String c w) with
          | S k => match word with
                   | Some w0 => w0 :: split_go k None w
                   | None => split_go k None w
                   end
          | O => split_go 0 (Some (match word with
                                   | Some w0 => w0 +:+ String c EmptyString
                                   | None => String c EmptyString
                                   end)) w
          end).
  rewrite Hc. destruct w as [|c' w'].
  - destruct word; reflexivity.
  - rewrite IH by (assumption || discriminate). f_equal.
    destruct word as [w0|]; simpl.
    + now rewrite append_assoc.
    + reflexivity.
Qed.

Lemma split_go_end (word : option string) (w : string) :
  is_word w = true -> split_go 0 word w = [begun word +:+ w].
Proof.
  intros Hw. apply split_go_stretch; [now apply is_word_free |
                                      now apply is_word_nonempty].
Qed.

(** A space ends the word begun and starts afresh. *)
Lemma split_go_space_skip (skip : nat) (word : option string) (a b : string) :
  (skip <= String.length a)%nat ->
  split_go skip word (a +:+ String " "%char b)
  = split_go skip word a ++ split_go 0 None b.
Proof.
  revert skip word. induction a as [|c a IH]; intros skip word Hskip.
  - simpl in Hskip. replace skip with 0%nat by lia. simpl. now destruct word.
  - rewrite append_cons. destruct skip as [|k].
    + change (split_go 0 word (String c (a +:+ String " "%char b)))
        with (match space_length (String c (a +:+ String " "%char b)) with
              | S k => match word with
                       | Some w => w :: split_go k None (a +:+ String " "%char b)
                       | None => split_go k None (a +:+ String " "%char b)
                       end
              | O => split_go 0 (Some (match word with
                                       | Some w => w +:+ String c EmptyString
                                       | None => String c EmptyString
                                       end)) (a +:+ String " "%char b)
              end).
      change (split_go 0 word (String c a))
        with (match space_length (String c a) with
              | S k => match word with
                       | Some w => w :: split_go k None a
                       | None => split_go k None a
                       end
              | O => split_go 0 (Some (match word with
                                       | Some w => w +:+ String c EmptyString
                                       | None => String c EmptyString
                                       end)) a
              end).
      rewrite <- append_cons, space_length_before_space by discriminate.
      pose proof (space_length_le (String c a)) as Hle. simpl String.length in Hle.
      destruct (space_length (String c a)) as [|k].
      * apply IH. lia.
      * destruct word; rewrite IH by lia; reflexivity.
    + simpl. apply IH. simpl in Hskip. lia.
Qed.

Lemma split_go_space (word : option string) (a b : string) :
  split_go 0 word (a +:+ String " "%char b) = split_go 0 word a ++ split_go 0 None b.
Proof. apply split_go_space_skip. lia. Qed.

Lemma split_join_words (ws : list string) :
  Forall (fun w => is_word w = true) ws -> split (join_spaces ws) = ws.
Proof.
  unfold split. induction ws as [|w ws IH]; intros Hall; [reflexivity |].
  apply Forall_cons in Hall as [Hw Hall].
  destruct ws as [|w' ws'].
  - simpl. now rewrite split_go_end.
  - change (join_spaces (w :: w' :: ws'))
      with (w +:+ String " "%char (join_spaces (w' :: ws'))).
    rewrite split_go_space, split_go_end by assumption.
    now rewrite IH.
Qed.

(** X8.  The words that [Command.split()] hands to Popen for a command
    given as one string are never empty and hold no white space;
    a command put together from such words with single spaces splits back
    into exactly these words; and the words of two strings joined by a
    space are the words of the first followed by the words of the second.
    So nothing in a command string is interpreted: quotes and other shell
    syntax reach the program as they are. *)
Theorem split_yields_the_words :
  (forall s : string, Forall (fun w => is_word w = true) (split s)) /\
  (forall ws : list string,
     Forall (fun w => is_word w = true) ws ->
     command_words (CmdStr (join_spaces ws)) = ws) /\
  (forall (a b : string),
     command_words (CmdStr (a +:+ " " +:+ b))
     = command_words (CmdStr a) ++ command_words (CmdStr b)).
Proof.
  split; [| split].
  - intros s. now apply split_go_words.
  - intros ws Hws. now apply split_join_words.
  - intros a b. simpl. unfold split.
    change (a +:+ " " +:+ b) with (a +:+ String " "%char b).
    apply split_go_space.
Qed.

(** White space beyond ASCII separates words as well: a no-break space
    (U+00A0), an em space (U+2003) and an ideographic space (U+3000) here,
    while an accented letter and a zero-width space (U+200B) are part of
    their word. *)
Example split_at_unicode_spaces :
  split ("a" +:+ String "194" (String "160" "b c")
         +:+ String "226" (String "128" (String "131" "d"))
         +:+ String "227" (String "128" (String "128" "e")))
  = ["a"; "b"; "c"; "d"; "e"] /\
  split ("caf" +:+ String "195" (String "169" " x")
         +:+ String "226" (String "128" (String "139" "y")))
  = ["caf" +:+ String "195" (String "169" "");
     "x" +:+ String "226" (String "128" (String "139" "y"))] /\
  is_word ("a" +:+ String "194" (String "160" "b")) = false.
Proof. repeat split. Qed.

(** ** The command line of a test program *)

(** No white-space character starts with a digit or with a minus sign. *)
Lemma digit_starts_no_space (d : N) (s : string) :
  space_length (String (pretty_N_char d) s) = 0%nat.
Proof.
  destruct d as [|p]; [| do 4 (try destruct p as [p|p|])];
    destruct s as [|c1 [|c2 s]]; reflexivity.
Qed.

Lemma minus_starts_no_space (s : string) :
  space_length (String "-"%char s) = 0%nat.
Proof. destruct s as [|c1 [|c2 s]]; reflexivity. Qed.

Lemma is_word_cons (c : ascii) (s : string) :
  space_length (String c s) = 0%nat -> s = "" \/ is_word s = true ->
  is_word (String c s) = true.
Proof.
  intros Hc Hs. unfold is_word.
  change (space_free (String c s))
    with (Nat.eqb (space_length (String c s)) 0 && space_free s).
  rewrite Hc. simpl. destruct Hs as [-> | Hs]; [reflexivity |].
  now apply is_word_free.
Qed.

Lemma pretty_N_go_word (x : N) (s : string) :
  is_word s = true -> is_word (pretty_N_go x s) = true.
Proof.
  revert s. induction (N.lt_wf_0 x) as [x _ IH]; intros s Hs.
  destruct (N.eq_dec x 0%N) as [-> | Hx]; [now rewrite pretty_N_go_0 |].
  rewrite pretty_N_go_step by lia. apply IH; [apply N.div_lt; lia |].
  apply is_word_cons; [apply digit_starts_no_space | now right].
Qed.

Lemma pretty_N_word (x : N) : is_word (pretty x) = true.
Proof.
  unfold pretty, pretty_N. destruct (decide (x = 0%N)); [reflexivity |].
  rewrite pretty_N_go_step by lia. apply pretty_N_go_word.
  apply is_word_cons; [apply digit_starts_no_space | now left].
Qed.

Lemma pretty_Z_word (z : Z) : is_word (pretty z) = true.
Proof.
  destruct z as [|p|p]; [reflexivity | apply pretty_N_word |].
  change (pretty (Z.neg p)) with (String "-"%char (pretty (N.pos p))).
  apply is_word_cons; [apply minus_starts_no_space | right; apply pretty_N_word].
Qed.

Lemma run_command_words (ExecCommand : string) (Nrpt Nx Ny : Z) :
  command_words (run_command ExecCommand Nrpt Nx Ny)
  = split ExecCommand ++ [pretty Nrpt; pretty Nx; pretty Ny].
Proof.
  unfold run_command, command_words, split.
  change (ExecCommand +:+ " " +:+ pretty Nrpt +:+ " " +:+ pretty Nx +:+ " " +:+ pretty Ny)
    with (ExecCommand +:+ String " "%char
            (pretty Nrpt +:+ String " "%char (pretty Nx +:+ String " "%char (pretty Ny)))).
  rewrite !split_go_space.
  rewrite (split_go_end None (pretty Nrpt)), (split_go_end None (pretty Nx)),
    (split_go_end None (pretty Ny)) by apply pretty_Z_word.
  reflexivity.
Qed.

(** X9.  The command line that BuildAndTimeProgram puts together for a
    test program reaches Popen as the words of [ExecCommand] followed by
    exactly three more arguments, the decimal numerals of the repeat count,
    of [Nx] and of [Ny], in this order, whatever the numbers are. *)
Theorem run_command_passes_three_numbers (ExecCommand : string) (Nrpt Nx Ny : Z) :
  command_words (run_command ExecCommand Nrpt Nx Ny)
  = command_words (CmdStr ExecCommand) ++ [pretty Nrpt; pretty Nx; pretty Ny] /\
  Forall (fun w => is_word w = true) [pretty Nrpt; pretty Nx; pretty Ny] /\
  length (command_words (run_command ExecCommand Nrpt Nx Ny))
  = (length (command_words (CmdStr ExecCommand)) + 3)%nat.
Proof.
  split; [apply run_command_words | split].
  - repeat constructor; apply pretty_Z_word.
  - rewrite run_command_words, length_app. reflexivity.
Qed.

(** X10.  What Run.py passes, the Python test programs read back: for a
    test whose [ExecCommand] is an interpreter and a script, the arguments
    that the script finds in [sys.argv] behind its own name are the repeat
    count, [Nx] and [Ny] of the driver, and the main routine takes them as
    its [nrpt], [nx] and [ny], in place of all three defaults.  ([int()] is
    taken to read a decimal numeral back as the number it stands for.) *)
Theorem test_program_reads_the_numbers {E : Type} (int_of_str : string -> option Z)
    (ExecCommand interpreter script : string) (Nrpt Nx Ny nrpt0 : Z) (p : Prog E) :
  command_words (CmdStr ExecCommand) = [interpreter; script] ->
  int_of_str (pretty Nrpt) = Some Nrpt ->
  int_of_str (pretty Nx) = Some Nx ->
  int_of_str (pretty Ny) = Some Ny ->
  sys_argv (command_words (run_command ExecCommand Nrpt Nx Ny))
  = [script; pretty Nrpt; pretty Nx; pretty Ny] /\
  read_args int_of_str nrpt0
    (sys_argv (command_words (run_command ExecCommand Nrpt Nx Ny))) p
  = Ret (Nrpt, Nx, Ny) p.
Proof.
  intros Hexec Hrpt Hx Hy. rewrite run_command_words.
  simpl in Hexec. rewrite Hexec. simpl. split; [reflexivity |].
  unfold read_args, argv_int, bind. simpl. rewrite Hrpt. simpl.
  rewrite Hx. simpl. now rewrite Hy.
Qed.

(** ** Commands and their output *)

Lemma ascii_is_utf8 (s : string) : is_ascii s = true -> utf8_valid s = true.
Proof.
  unfold is_ascii. induction s as [|c s IH]; [reflexivity |].
  simpl. intros [Hc Hs]%andb_true_iff. rewrite Hc. now apply IH.
Qed.

Lemma bind_Ret_inv {S A B : Type} (c : M S A) (k : A -> M S B) (s s' : S) (b : B) :
  bind c k s = Ret b s' -> exists a s1, c s = Ret a s1 /\ k a s1 = Ret b s'.
Proof.
  unfold bind. destruct (c s) as [a s1|e s1]; [| discriminate]. eauto.
Qed.

Section MoreRunFacts.
Variable World : Type.
Variable popen : list string -> World -> process * World.
Variable now : World -> Z * World.
Variable str_of_list : list string -> string.

Local Abbreviation Execute := (ExecuteCommand World popen str_of_list).
Local Abbreviation BuildAndTime :=
  (BuildAndTimeProgram World popen now str_of_list).
Local Abbreviation build := (build_stage World popen str_of_list).
Local Abbreviation cleanup_with := (cleanup_stage World popen str_of_list).
Local Abbreviation Version := (ListVersion World popen str_of_list).

Implicit Types (s : State World) (Command : command).

(** X11.  When the subprocess runs to its end and writes nothing but
    7-bit characters, decoding cannot fail: ExecuteCommand returns what was
    written, as it was written, and its [Status] is [None] exactly when the
    exit status is zero. *)
Theorem ascii_output_is_returned Command s stdout stderr Result w :
  popen (command_words Command) (world s) = (Exited stdout stderr Result, w) ->
  is_ascii stdout = true -> is_ascii stderr = true ->
  exists Status,
    Execute Command s
    = Ret (Status, Str stdout, Str stderr)
        (set_spawned (spawned s ++ [command_words Command]) (set_world w s)) /\
    (Status = None <-> Result = 0) /\
    (Result <> 0 ->
     Status = Some ("Error executing '" +:+ str_of_command str_of_list Command +:+ "'")).
Proof.
  intros Hrun Hout Herr. unfold ExecuteCommand, bind, Popen.
  fold (command_words Command). rewrite Hrun. simpl. unfold decode_utf8.
  rewrite (ascii_is_utf8 _ Hout), (ascii_is_utf8 _ Herr).
  destruct (Z.eqb_spec Result 0) as [-> | Hne]; simpl.
  - exists None. repeat split; auto. intros H. contradiction.
  - eexists. split; [reflexivity |]. split; [| auto].
    split; [discriminate | contradiction].
Qed.

(** *** The stages of BuildAndTimeProgram *)

Lemma cleanup_stage_outcome cleanup Status (Secs : Q) Errors s r s' :
  cleanup_with cleanup Status Secs Errors s = Ret r s' ->
  (is_None Status = false -> r = (Status, Secs, Errors)) /\
  (cleanup = "" -> r = (Status, Secs, Errors) /\ s' = s) /\
  (cleanup <> "" -> spawned s' = spawned s ++ [split cleanup]).
Proof.
  unfold cleanup_stage. destruct (String.eqb_spec cleanup "") as [-> | Hne]; simpl.
  - unfold ret. intros H. injection H as <- <-. repeat split; auto. contradiction.
  - unfold bind.
    destruct (Execute (CmdStr cleanup) s) as [[[CleanStatus Output] CleanErrors] s0|e s0]
      eqn:Hrun; [| discriminate].
    apply ExecuteCommand_spawned in Hrun.
    destruct (is_None Status) eqn:Hnone; unfold ret; intros H; injection H as <- <-;
      repeat split; auto; try discriminate; contradiction.
Qed.

Lemma build_stage_first_fails b1 b2 s e Output Errors s1 :
  b1 <> "" -> Execute (CmdStr b1) s = Ret (Some e, Output, Errors) s1 ->
  build b1 b2 s = Ret (Some e, Errors) s1.
Proof.
  intros Hne Hrun. unfold build_stage.
  destruct (String.eqb_spec b1 "") as [-> | _]; [contradiction |]. simpl.
  now rewrite (bind_Ret _ _ _ _ _ Hrun).
Qed.

Lemma BuildAndTimeProgram_build_failed b1 b2 exec Nrpt Nx Ny cleanup s e Errors s1 :
  build b1 b2 s = Ret (Some e, Errors) s1 ->
  BuildAndTime b1 b2 exec Nrpt Nx Ny cleanup s
  = cleanup_with cleanup (Some e) 0 Errors s1.
Proof.
  intros Hbuild. unfold BuildAndTimeProgram.
  now rewrite (bind_Ret _ _ _ _ _ Hbuild).
Qed.

(** X12.  When the first build command of a test fails, BuildAndTimeProgram
    runs neither the second build command nor the test program: the only
    command it still runs is the cleanup command, if there is one, and it
    returns the status and the error output of the failed build and 0.0
    seconds, whatever the cleanup command does short of an interrupt. *)
Theorem failed_build_skips_the_test
    b1 b2 exec Nrpt Nx Ny cleanup s e Output Errors s1 :
  b1 <> "" -> Execute (CmdStr b1) s = Ret (Some e, Output, Errors) s1 ->
  build b1 b2 s = Ret (Some e, Errors) s1 /\
  BuildAndTime b1 b2 exec Nrpt Nx Ny cleanup s
  = cleanup_with cleanup (Some e) 0 Errors s1 /\
  forall r s',
    BuildAndTime b1 b2 exec Nrpt Nx Ny cleanup s = Ret r s' ->
    r = (Some e, 0%Q, Errors) /\
    spawned s'
    = spawned s ++ [split b1] ++ (if String.eqb cleanup "" then [] else [split cleanup]).
Proof.
  intros Hne Hrun.
  assert (Hbuild := build_stage_first_fails b1 b2 s e Output Errors s1 Hne Hrun).
  assert (HBAT := BuildAndTimeProgram_build_failed b1 b2 exec Nrpt Nx Ny cleanup
                    s e Errors s1 Hbuild).
  split; [exact Hbuild |]. split; [exact HBAT |].
  intros r s' Hret. rewrite HBAT in Hret.
  destruct (cleanup_stage_outcome _ _ _ _ _ _ _ Hret) as (Hr & Hnone & Hsome).
  split; [now apply Hr |].
  apply ExecuteCommand_spawned in Hrun. simpl in Hrun.
  destruct (String.eqb_spec cleanup "") as [Heq | Hneq].
  - destruct (Hnone Heq) as [_ ->]. now rewrite Hrun.
  - rewrite (Hsome Hneq), Hrun. now rewrite <- app_assoc.
Qed.

Lemma BuildAndTimeProgram_ends_with_cleanup b1 b2 exec Nrpt Nx Ny cleanup s r s' :
  BuildAndTime b1 b2 exec Nrpt Nx Ny cleanup s = Ret r s' ->
  exists Status Secs Errors s3,
    cleanup_with cleanup Status Secs Errors s3 = Ret r s'.
Proof.
  unfold BuildAndTimeProgram. intros H.
  apply bind_Ret_inv in H as ([Status0 Errors0] & s1 & _ & H).
  apply bind_Ret_inv in H as ([[Status Secs] Errors] & s3 & _ & H).
  now exists Status, Secs, Errors, s3.
Qed.

(** X13.  If a test has a cleanup command, the last command that
    BuildAndTimeProgram runs before it returns is that cleanup command,
    whether the build and the runs succeeded or not; and without a cleanup
    command the routine returns the status, seconds and error output that
    the earlier stages left. *)
Theorem cleanup_command_runs_last b1 b2 exec Nrpt Nx Ny cleanup s r s' :
  BuildAndTime b1 b2 exec Nrpt Nx Ny cleanup s = Ret r s' ->
  (cleanup <> "" -> last (spawned s') = Some (split cleanup)) /\
  (cleanup = "" ->
   exists Status Secs Errors,
     r = (Status, Secs, Errors) /\
     (BuildAndTime b1 b2 exec Nrpt Nx Ny "" s = Ret (Status, Secs, Errors) s')).
Proof.
  intros Hret.
  destruct (BuildAndTimeProgram_ends_with_cleanup _ _ _ _ _ _ _ _ _ _ Hret)
    as (Status & Secs & Errors & s3 & Hclean).
  destruct (cleanup_stage_outcome _ _ _ _ _ _ _ Hclean) as (_ & Hnone & Hsome).
  split.
  - intros Hne. rewrite (Hsome Hne). apply last_snoc.
  - intros ->. destruct (Hnone eq_refl) as [-> _].
    exists Status, Secs, Errors. split; [reflexivity | exact Hret].
Qed.

(** *** The version queries *)

Lemma print_first_line_spawned Lang Lines s :
  exists t, print_first_line World Lang Lines s = Ret tt (set_terminal t s).
Proof.
  unfold print_first_line. destruct Lines as [|first rest].
  - exists (terminal s). unfold ret. now destruct s.
  - destruct (negb (String.eqb first "")).
    + eexists. reflexivity.
    + exists (terminal s). unfold ret. now destruct s.
Qed.

(** ExecuteCommand raises only when Popen met an interrupt. *)
Lemma ExecuteCommand_raises Command s e s1 :
  Execute Command s = Raise e s1 ->
  e = SystemExit 0 /\
  fst (popen (command_words Command) (world s)) = Interrupted /\
  spawned s1 = spawned s ++ [command_words Command].
Proof.
  unfold ExecuteCommand, bind, Popen. fold (command_words Command).
  destruct (popen (command_words Command) (world s)) as [p w].
  destruct p as [out err rc| |]; simpl.
  - destruct (decode_utf8 out); [| discriminate].
    destruct (decode_utf8 err); [| discriminate].
    destruct (negb (rc =? 0)); discriminate.
  - discriminate.
  - unfold raise. intros H. injection H as <- <-. now repeat split.
Qed.

(** A version query ends in one of two ways: it returns, having run its
    command, or the program exits because the command was interrupted. *)
Lemma ListVersion_outcome Lang (Command : string) s :
  (exists t s1,
     Version Lang Command s = Ret tt (set_terminal t s1) /\
     spawned s1 = spawned s ++ [split Command] /\
     Results s1 = Results s) \/
  (exists s1,
     Version Lang Command s = Raise (SystemExit 0) s1 /\
     fst (popen (split Command) (world s)) = Interrupted /\
     spawned s1 = spawned s ++ [split Command]).
Proof.
  unfold ListVersion.
  pose proof (silent_ExecuteCommand World popen str_of_list (CmdStr Command) s) as (HR & _).
  destruct (Execute (CmdStr Command) s) as [[[Status Output] Errors] s1|e s1] eqn:Hrun.
  - left. simpl in HR. rewrite (bind_Ret _ _ _ _ _ Hrun).
    assert (Hlog := ExecuteCommand_spawned _ _ _ _ _ _ _ Hrun). simpl in Hlog.
    destruct (truthy Status) eqn:Ht.
    + eexists _, s1. split; [reflexivity |]. now split.
    + destruct (ExecuteCommand_no_error_is_decoded _ _ _ _ _ _ _ _ _ Hrun Ht)
        as (_ & out & err & -> & ->).
      simpl. unfold bind at 1 2. simpl. unfold bind.
      destruct (print_first_line_spawned Lang (split_on "010"%char out) s1) as [t1 ->].
      destruct (print_first_line_spawned Lang (split_on "010"%char err)
                  (set_terminal t1 s1)) as [t2 ->].
      exists t2, s1. split; [reflexivity |]. now split.
  - right. destruct (ExecuteCommand_raises _ _ _ _ Hrun) as (-> & Hint & Hlog).
    exists s1. now rewrite (bind_Raise _ _ _ _ _ Hrun).
Qed.

(** A list of version queries: all of them are run, or the first [k] have
    returned and the next one was interrupted. *)
Lemma queries_outcome (queries : list (string * string)) s :
  (exists t s1,
     for_ queries (fun q => Version (fst q) (snd q)) s = Ret tt (set_terminal t s1) /\
     spawned s1 = spawned s ++ (split ∘ snd <$> queries) /\
     Results s1 = Results s) \/
  (exists (k : nat) (q : string * string) (w : World) s1,
     for_ queries (fun q => Version (fst q) (snd q)) s = Raise (SystemExit 0) s1 /\
     queries !! k = Some q /\
     fst (popen (split (snd q)) w) = Interrupted /\
     spawned s1 = spawned s ++ (split ∘ snd <$> take (S k) queries)).
Proof.
  revert s. induction queries as [|[Lang Command] queries IH]; intros s.
  - left. exists (terminal s), s. simpl. rewrite app_nil_r.
    unfold ret. now destruct s.
  - simpl for_.
    destruct (ListVersion_outcome Lang Command s)
      as [(t & s1 & Hrun & Hlog & HR) | (s1 & Hrun & Hint & Hlog)].
    + rewrite (bind_Ret _ _ _ _ _ Hrun).
      destruct (IH (set_terminal t s1))
        as [(t' & s2 & Hrest & Hlog' & HR')
           | (k & q & w & s2 & Hrest & Hq & Hint & Hlog')].
      * left. exists t', s2. split; [exact Hrest |]. simpl in Hlog', HR'.
        rewrite Hlog', Hlog, HR', HR. simpl. now rewrite <- app_assoc.
      * right. exists (S k), q, w, s2. split; [exact Hrest |].
        split; [exact Hq |]. split; [exact Hint |]. simpl in Hlog'.
        rewrite Hlog', Hlog. simpl. now rewrite <- app_assoc.
    + right. exists 0%nat, (Lang, Command), (world s), s1.
      rewrite (bind_Raise _ _ _ _ _ Hrun). now repeat split.
Qed.

Lemma list_versions_as_loop s :
  list_versions World popen str_of_list s
  = for_ [("Clang    ", "c++ --version"); ("Assembler", "c++ --version");
          ("Gcc      ", "g++ --version"); ("Gfortran ", "gfortran --version");
          ("R        ", "Rscript --version"); ("Python2  ", "python --version");
          ("Python3  ", "python3 --version"); ("Java     ", "java -version");
          ("Node.js  ", "node --version"); ("Tcl      ", "tclsh ver.tcl");
          ("Swift    ", "xcrun swiftc --version"); ("Julia    ", "julia --version");
          ("Rust     ", "rustc --version"); ("Perl/PDL ", "pdl -V")]
      (fun q => Version (fst q) (snd q))
      (set_terminal (terminal s ++ [""; "Versions:"; ""]) s).
Proof.
  destruct s as [w t R sp ob].
  unfold list_versions. unfold bind at 1 2 3. unfold print, set_terminal. simpl.
  rewrite <- !app_assoc. simpl.
  unfold bind.
  repeat match goal with
         | |- context [Version ?l ?c ?s0] => destruct (Version l c s0) as [[] ?|? ?]
         end; reflexivity.
Qed.

(** The listing returns, or the program exits on an interrupt. *)
Lemma list_versions_exits s :
  (exists s1, list_versions World popen str_of_list s = Ret tt s1) \/
  (exists s1, list_versions World popen str_of_list s = Raise (SystemExit 0) s1 /\
              exists args w, fst (popen args w) = Interrupted).
Proof.
  rewrite list_versions_as_loop.
  match goal with
  | |- context [for_ ?qs _ ?s0] =>
      destruct (queries_outcome qs s0)
        as [(t & s1 & Hrun & _) | (k & q & w & s1 & Hrun & _ & Hint & _)]
  end.
  - left. eexists. exact Hrun.
  - right. exists s1. split; [exact Hrun |]. exists (split (snd q)), w. exact Hint.
Qed.


End MoreRunFacts.

(** * More properties of the driver *)

(** ** The lists of labels *)

Lemma NoDup_append_new (l : list string) (x : string) :
  NoDup l -> NoDup (append_new l x).
Proof.
  intros Hl. unfold append_new.
  destruct (bool_decide_reflect (x ∈ l)) as [Hin | Hnin]; [assumption |].
  apply NoDup_app. split; [assumption | split].
  - intros y Hy Hx. apply list_elem_of_singleton in Hx as ->. contradiction.
  - apply NoDup_singleton.
Qed.

Lemma NoDup_foldl_append_new (xs acc : list string) :
  NoDup acc -> NoDup (foldl append_new acc xs).
Proof.
  revert acc. induction xs as [|x xs IH]; intros acc Hacc; simpl; [assumption |].
  now apply IH, NoDup_append_new.
Qed.

Lemma insert_by_lower_perm (x : string) (l : list string) :
  insert_by_lower x l ≡ₚ x :: l.
Proof.
  induction l as [|y l IH]; simpl; [reflexivity |].
  destruct (String.ltb (lower x) (lower y)); [reflexivity |].
  rewrite IH. apply Permutation_swap.
Qed.

Lemma sorted_by_lower_perm (l : list string) : sorted_by_lower l ≡ₚ l.
Proof.
  unfold sorted_by_lower.
  assert (H : forall acc, foldl (fun acc x => insert_by_lower x acc) acc l ≡ₚ acc ++ l).
  { induction l as [|x l IH]; intros acc; simpl.
    - now rewrite app_nil_r.
    - rewrite IH, insert_by_lower_perm. simpl. apply Permutation_middle. }
  now rewrite H.
Qed.

Lemma ltb_true_le (a b : string) : String.ltb a b = true -> String.le a b.
Proof.
  unfold String.ltb, String.le, String.leb.
  now destruct (String.compare a b).
Qed.

Lemma ltb_false_le (a b : string) : String.ltb a b = false -> String.le b a.
Proof.
  unfold String.ltb, String.le, String.leb. rewrite (String.compare_antisym b a).
  now destruct (String.compare a b).
Qed.

Lemma lower_le_trans (a b c : string) : lower_le a b -> lower_le b c -> lower_le a c.
Proof. unfold lower_le. intros Hab Hbc. now transitivity (lower b). Qed.

Lemma insert_by_lower_sorted (x : string) (l : list string) :
  StronglySorted lower_le l -> StronglySorted lower_le (insert_by_lower x l).
Proof.
  induction 1 as [|y l Hsorted IH Hall]; simpl.
  - repeat constructor.
  - destruct (String.ltb (lower x) (lower y)) eqn:Hlt.
    + apply ltb_true_le in Hlt. constructor; [now constructor |].
      constructor; [exact Hlt |].
      eapply Forall_impl; [exact Hall |]. intros z Hz.
      now apply lower_le_trans with y.
    + apply ltb_false_le in Hlt. constructor; [exact IH |].
      apply Forall_forall. intros z Hz.
      apply elem_of_insert_by_lower in Hz as [-> | Hz]; [exact Hlt |].
      rewrite Forall_forall in Hall. now apply Hall.
Qed.

Lemma sorted_by_lower_sorted (l : list string) :
  StronglySorted lower_le (sorted_by_lower l).
Proof.
  unfold sorted_by_lower.
  assert (H : forall acc, StronglySorted lower_le acc ->
                StronglySorted lower_le (foldl (fun acc x => insert_by_lower x acc) acc l)).
  { induction l as [|x l IH]; intros acc Hacc; simpl; [assumption |].
    now apply IH, insert_by_lower_sorted. }
  apply H. constructor.
Qed.

Lemma index_of_lookup (l : list string) (i : nat) (x : string) :
  NoDup l -> l !! i = Some x -> index x l = Some i.
Proof.
  revert i. induction l as [|y l IH]; intros i Hnd Hi; [discriminate |].
  apply NoDup_cons in Hnd as [Hy Hnd]. simpl.
  destruct i as [|i]; simpl in Hi.
  - injection Hi as ->. now rewrite String.eqb_refl.
  - destruct (String.eqb_spec x y) as [-> | Hne].
    + exfalso. apply Hy. eapply list_elem_of_lookup_2. eassumption.
    + now rewrite (IH i Hnd Hi).
Qed.

Section LabelFacts.
Variable FullTests : list Test.

Local Abbreviation Langs := (LangTechList FullTests).
Local Abbreviation Comps := (CompOptList FullTests).

Lemma Langs_NoDup : NoDup Langs.
Proof.
  unfold LangTechList. rewrite sorted_by_lower_perm.
  apply NoDup_foldl_append_new, NoDup_nil_2.
Qed.

Lemma Comps_NoDup : NoDup Comps.
Proof.
  unfold CompOptList. rewrite sorted_by_lower_perm.
  apply NoDup_foldl_append_new, NoDup_nil_2.
Qed.

Lemma elem_of_Langs (x : string) :
  x ∈ Langs <-> exists test, test ∈ FullTests /\ LangTech test = x.
Proof.
  unfold LangTechList.
  rewrite elem_of_sorted_by_lower, elem_of_foldl_append_new, list_elem_of_fmap.
  rewrite elem_of_nil. split.
  - intros [[] | (test & -> & Hin)]. now exists test.
  - intros (test & Hin & <-). right. now exists test.
Qed.

Lemma elem_of_Comps (x : string) :
  x ∈ Comps <-> exists test, test ∈ FullTests /\ CompOpt test = x.
Proof.
  unfold CompOptList.
  rewrite elem_of_sorted_by_lower, elem_of_foldl_append_new, list_elem_of_fmap.
  rewrite elem_of_nil. split.
  - intros [[] | (test & -> & Hin)]. now exists test.
  - intros (test & Hin & <-). right. now exists test.
Qed.

(** X15.  The list of languages that Run.py builds from its table of
    tests holds every language label of the table exactly once and nothing
    else, in ascending order of the labels in lower case; and so does the
    list of compilers for the compiler labels.  Neither is longer than the
    table. *)
Theorem label_lists_are_sorted_sets :
  (NoDup Langs /\
   (forall x, x ∈ Langs <-> exists test, test ∈ FullTests /\ LangTech test = x) /\
   StronglySorted lower_le Langs) /\
  (NoDup Comps /\
   (forall x, x ∈ Comps <-> exists test, test ∈ FullTests /\ CompOpt test = x) /\
   StronglySorted lower_le Comps) /\
  (NLangTech FullTests <= length FullTests)%nat /\
  (NCompOpt FullTests <= length FullTests)%nat.
Proof.
  assert (Hlen : forall (g : Test -> string),
            (length (sorted_by_lower (foldl append_new [] (g <$> FullTests)))
             <= length FullTests)%nat).
  { intros g. rewrite sorted_by_lower_perm.
    assert (H : forall xs acc,
              (length (foldl append_new acc xs) <= length acc + length xs)%nat).
    { induction xs as [|x xs IH]; intros acc; simpl; [lia |].
      etransitivity; [apply IH |]. unfold append_new.
      destruct (bool_decide (x ∈ acc)); [lia |]. rewrite length_app. simpl. lia. }
    etransitivity; [apply H |]. simpl. now rewrite length_fmap. }
  split; [| split; [| split]].
  - split; [apply Langs_NoDup | split; [apply elem_of_Langs |]].
    apply sorted_by_lower_sorted.
  - split; [apply Comps_NoDup | split; [apply elem_of_Comps |]].
    apply sorted_by_lower_sorted.
  - apply (Hlen LangTech).
  - apply (Hlen CompOpt).
Qed.

(** X16.  In the lists of labels, [index] and subscripting are inverse to
    each other, so every pair of labels has its own cell of the results
    table: two tests of the table of tests are recorded in the same cell
    exactly when they carry the same two labels. *)
Theorem tests_share_a_cell_iff_labels :
  (forall i x, Langs !! i = Some x <-> index x Langs = Some i) /\
  (forall j y, Comps !! j = Some y <-> index y Comps = Some j) /\
  (forall test1 test2,
     test1 ∈ FullTests -> test2 ∈ FullTests ->
     exists i1 j1 i2 j2,
       index (LangTech test1) Langs = Some i1 /\
       index (CompOpt test1) Comps = Some j1 /\
       index (LangTech test2) Langs = Some i2 /\
       index (CompOpt test2) Comps = Some j2 /\
       ((i1, j1) = (i2, j2) <-> labels test1 = labels test2)).
Proof.
  split; [| split].
  - intros i x. split; [apply index_of_lookup, Langs_NoDup | apply index_lookup].
  - intros j y. split; [apply index_of_lookup, Comps_NoDup | apply index_lookup].
  - intros test1 test2 Hin1 Hin2.
    destruct (test_labels_indexed FullTests test1 Hin1) as [[i1 Hi1] [j1 Hj1]].
    destruct (test_labels_indexed FullTests test2 Hin2) as [[i2 Hi2] [j2 Hj2]].
    exists i1, j1, i2, j2. repeat split; try assumption.
    + intros Heq. injection Heq as -> ->. unfold labels. f_equal.
      * eapply index_inj; eassumption.
      * eapply index_inj; eassumption.
    + unfold labels. intros Heq. injection Heq as Hl Hc.
      rewrite Hl in Hi1. rewrite Hc in Hj1. congruence.
Qed.

End LabelFacts.

(** ** Where the exit of the program comes from *)

Section InterruptFacts.
Variable World : Type.
Variable popen : list string -> World -> process * World.
Variable now : World -> Z * World.
Variable str_of_list : list string -> string.
Variable str_of_bytes : string -> string.
Variable format_f : nat -> nat -> Q -> string.
Variable format_g : nat -> nat -> Q -> string.
Variable FullTests : list Test.

Local Abbreviation on_interrupt := (exits_on_interrupt popen).

(** A statement that never raises [SystemExit]. *)
Lemma on_interrupt_never {B : Type} (c : M (State World) B) :
  (forall s, match c s with
             | Raise (SystemExit _) _ => False
             | _ => True
             end) ->
  on_interrupt c.
Proof.
  intros Hc s code s' H. specialize (Hc s). rewrite H in Hc. contradiction.
Qed.

Lemma on_interrupt_ret {B : Type} (b : B) : on_interrupt (ret b).
Proof. apply on_interrupt_never. intros s. exact I. Qed.

Lemma on_interrupt_lift_option {B : Type} (e : exn) (o : option B) :
  (forall code, e <> SystemExit code) -> on_interrupt (lift_option e o).
Proof.
  intros He. apply on_interrupt_never. intros s. destruct o; simpl; [exact I |].
  destruct e; try exact I. now apply (He code).
Qed.

Lemma on_interrupt_bind {B C : Type} (c : M (State World) B)
    (k : B -> M (State World) C) :
  on_interrupt c -> (forall b, on_interrupt (k b)) -> on_interrupt (bind c k).
Proof.
  intros Hc Hk s code s' H. unfold bind in H.
  destruct (c s) as [b s1|e s1] eqn:Hcs.
  - eapply Hk. exact H.
  - injection H as -> ->. eapply Hc. exact Hcs.
Qed.

Lemma on_interrupt_for {B : Type} (l : list B) (body : B -> M (State World) unit) :
  (forall b, on_interrupt (body b)) -> on_interrupt (for_ l body).
Proof.
  intros Hb. induction l as [|b l IH]; simpl.
  - apply on_interrupt_ret.
  - apply on_interrupt_bind; [apply Hb | intros _; exact IH].
Qed.

Lemma on_interrupt_print (args : list string) : on_interrupt (print World args).
Proof. apply on_interrupt_never. intros s. exact I. Qed.

Lemma on_interrupt_datetime_now : on_interrupt (datetime_now World now).
Proof.
  apply on_interrupt_never. intros s. unfold datetime_now.
  now destruct (now (world s)).
Qed.

Lemma on_interrupt_truediv (a b : Q) : on_interrupt (truediv a b).
Proof.
  apply on_interrupt_never. intros s. unfold truediv.
  now destruct (Qeq_bool b 0).
Qed.

(** The one place where the program exits. *)
Lemma on_interrupt_ExecuteCommand (Command : command) :
  on_interrupt (ExecuteCommand World popen str_of_list Command).
Proof.
  intros s code s'. unfold ExecuteCommand, bind, Popen.
  destruct (popen _ (world s)) as [p w] eqn:Hp.
  destruct p as [out err rc| |]; simpl.
  - destruct (decode_utf8 out); [| discriminate].
    destruct (decode_utf8 err); [| discriminate].
    destruct (negb (rc =? 0)); discriminate.
  - discriminate.
  - intros _. eexists _, (world s). rewrite Hp. reflexivity.
Qed.

Lemma on_interrupt_build_stage b1 b2 :
  on_interrupt (build_stage World popen str_of_list b1 b2).
Proof.
  unfold build_stage.
  destruct (negb (String.eqb b1 "")); [| apply on_interrupt_ret].
  apply on_interrupt_bind; [apply on_interrupt_ExecuteCommand |].
  intros [[Status Output] Errors].
  destruct (is_None Status); [| apply on_interrupt_ret].
  destruct (negb (String.eqb b2 "")); [| apply on_interrupt_ret].
  apply on_interrupt_bind; [apply on_interrupt_ExecuteCommand |].
  intros [[Status2 Output2] Errors2]. apply on_interrupt_ret.
Qed.

Lemma on_interrupt_timed_run Command :
  on_interrupt (timed_run World popen now str_of_list Command).
Proof.
  unfold timed_run.
  apply on_interrupt_bind; [apply on_interrupt_datetime_now | intros Start].
  apply on_interrupt_bind; [apply on_interrupt_ExecuteCommand | intros r].
  apply on_interrupt_bind; [apply on_interrupt_datetime_now | intros End].
  apply on_interrupt_ret.
Qed.

Lemma on_interrupt_cleanup_stage cleanup Status Secs Errors :
  on_interrupt (cleanup_stage World popen str_of_list cleanup Status Secs Errors).
Proof.
  unfold cleanup_stage.
  destruct (negb (String.eqb cleanup "")); [| apply on_interrupt_ret].
  apply on_interrupt_bind; [apply on_interrupt_ExecuteCommand |].
  intros [[CleanStatus Output] CleanErrors].
  destruct (is_None Status); apply on_interrupt_ret.
Qed.

Lemma on_interrupt_BuildAndTimeProgram b1 b2 exec Nrpt Nx Ny cleanup :
  on_interrupt (BuildAndTimeProgram World popen now str_of_list
                  b1 b2 exec Nrpt Nx Ny cleanup).
Proof.
  unfold BuildAndTimeProgram.
  apply on_interrupt_bind; [apply on_interrupt_build_stage |].
  intros [Status Errors].
  apply on_interrupt_bind; [| intros [[Status' Secs] Errors'];
                              apply on_interrupt_cleanup_stage].
  destruct (is_None Status); [| apply on_interrupt_ret].
  apply on_interrupt_bind; [apply on_interrupt_timed_run | intros full].
  apply on_interrupt_bind; [apply on_interrupt_timed_run | intros one].
  destruct (fst one) as [[Status1 Output1] Errors1].
  apply on_interrupt_bind; [apply on_interrupt_truediv | intros Secs].
  apply on_interrupt_ret.
Qed.

Lemma on_interrupt_record_result lang comp (K : Q) :
  on_interrupt (record_result World FullTests lang comp K).
Proof.
  apply on_interrupt_never. intros s.
  unfold record_result, bind, get_Result, put_Result.
  destruct (index lang (LangTechList FullTests)) as [i|]; simpl; [| exact I].
  destruct (index comp (CompOptList FullTests)) as [j|]; simpl; [| exact I].
  destruct (Qltb 0 K); simpl; [| exact I].
  destruct (item (Results s) i j) as [old|]; simpl; [| exact I].
  destruct (Qle_bool old 0); [| destruct (Qltb K old)]; simpl;
    try destruct (set_item (Results s) i j K); exact I.
Qed.

Lemma on_interrupt_time_test Nx Ny test :
  on_interrupt (time_test World popen now str_of_list str_of_bytes format_f format_g
                  FullTests Nx Ny test).
Proof.
  unfold time_test.
  apply on_interrupt_bind; [apply on_interrupt_BuildAndTimeProgram |].
  intros [[Status Secs] Errors].
  destruct (truthy Status); [apply on_interrupt_print |].
  apply on_interrupt_bind; [apply on_interrupt_truediv | intros q].
  apply on_interrupt_bind; [apply on_interrupt_print | intros _].
  apply on_interrupt_bind; [| intros _; apply on_interrupt_record_result].
  apply on_interrupt_never. intros s. exact I.
Qed.

Lemma on_interrupt_run_tests Ntests Nx Ny :
  on_interrupt (run_tests World popen now str_of_list str_of_bytes format_f format_g
                  FullTests Ntests Nx Ny).
Proof.
  unfold run_tests.
  apply on_interrupt_bind; [apply on_interrupt_never; intros s; exact I | intros _].
  apply on_interrupt_for. intros ITest. unfold run_pass.
  repeat (apply on_interrupt_bind; [| intros _]); try apply on_interrupt_print.
  - destruct (Ntests >? 1); apply on_interrupt_print.
  - apply on_interrupt_for. intros test. apply on_interrupt_time_test.
Qed.

End InterruptFacts.

(** ** What the program can raise *)

Section SafetyFacts.
Variable World : Type.
Variable popen : list string -> World -> process * World.
Variable now : World -> Z * World.
Variable str_of_list : list string -> string.
Variable str_of_bytes : string -> string.
Variable format_f : nat -> nat -> Q -> string.
Variable format_g : nat -> nat -> Q -> string.
Variable int_of_str : string -> option Z.
Variable FullTests : list Test.

Local Abbreviation Langs := (LangTechList FullTests).
Local Abbreviation Comps := (CompOptList FullTests).
Local Abbreviation BuildAndTime :=
  (BuildAndTimeProgram World popen now str_of_list).
Local Abbreviation time_one Nx Ny :=
  (time_test World popen now str_of_list str_of_bytes format_f format_g
     FullTests Nx Ny).
Local Abbreviation keeps :=
  (keeps_table (World:=World) (length Langs) (length Comps)).

Implicit Types (s : State World) (test : Test).

Lemma keeps_table_bind {B D : Type} ny nx (c : M (State World) B)
    (k : B -> M (State World) D) :
  keeps_table ny nx c -> (forall b, keeps_table ny nx (k b)) ->
  keeps_table ny nx (bind c k).
Proof.
  intros Hc Hk s Hs. specialize (Hc s Hs). unfold bind.
  destruct (c s) as [b s'|e s']; [now apply Hk | exact Hc].
Qed.

Lemma keeps_table_print ny nx (args : list string) :
  keeps_table (World:=World) ny nx (print World args).
Proof. intros s Hs. exact Hs. Qed.

Lemma keeps_table_for {B : Type} ny nx (l : list B) (body : B -> M (State World) unit) :
  (forall b, b ∈ l -> keeps_table ny nx (body b)) ->
  keeps_table ny nx (for_ l body).
Proof.
  induction l as [|b l IH]; intros Hbody; simpl.
  - intros s Hs. exact Hs.
  - apply keeps_table_bind; [apply Hbody, list_elem_of_here |].
    intros _. apply IH. intros b' Hin. now apply Hbody, list_elem_of_further.
Qed.

Lemma keeps_table_time_test Nx Ny test :
  test ∈ FullTests -> Nrpt test <> 0 -> keeps (time_one Nx Ny test).
Proof.
  intros Hin Hnz s Hshape.
  pose proof (silent_BuildAndTimeProgram World popen now str_of_list
                (BuildCommand1 test) (BuildCommand2 test) (ExecCommand test)
                (Nrpt test) Nx Ny (CleanupCommand test) s) as (HR & _).
  pose proof (exits_only_BuildAndTimeProgram World popen now str_of_list
                (BuildCommand1 test) (BuildCommand2 test) (ExecCommand test)
                (Nrpt test) Nx Ny (CleanupCommand test) s) as Hex.
  destruct (BuildAndTime (BuildCommand1 test) (BuildCommand2 test)
              (ExecCommand test) (Nrpt test) Nx Ny (CleanupCommand test) s)
    as [[[Status Secs] Errors] s1 | e s1] eqn:Hrun; simpl in HR.
  - destruct (truthy Status) eqn:Ht.
    + rewrite (time_test_error _ _ _ _ _ _ _ _ _ _ _ _ _ _ _ _ Hrun Ht).
      simpl. now rewrite HR.
    + rewrite (time_test_timed _ _ _ _ _ _ _ _ _ _ _ _ _ _ _ _ Hrun Ht Hnz).
      destruct (test_labels_indexed FullTests test Hin) as [[i Hi] [j Hj]].
      match goal with
      | |- context [record_result _ _ ?l ?c ?k ?s0] =>
          assert (Hs0 : Results s0 = Results s) by (simpl; exact HR);
          destruct (has_shape_item_Some (length Langs) (length Comps)
                      (Results s0) i j) as [old Hold];
          [ rewrite Hs0; exact Hshape
          | apply index_lookup, lookup_lt_Some in Hi; exact Hi
          | apply index_lookup, lookup_lt_Some in Hj; exact Hj
          | destruct (record_result_cell World FullTests l c k s0 i j old Hi Hj Hold)
              as (R' & -> & _ & _ & Hsh) ]
      end.
      simpl. apply Hsh. simpl. now rewrite HR.
  - now rewrite (time_test_interrupted _ _ _ _ _ _ _ _ _ _ _ _ _ _ Hrun).
Qed.

Lemma keeps_table_run_pass Ntests Nx Ny (ITest : nat) :
  Forall (fun test => Nrpt test <> 0) FullTests ->
  keeps (run_pass World popen now str_of_list str_of_bytes format_f format_g
           FullTests Ntests Nx Ny ITest).
Proof.
  intros Hnz. unfold run_pass.
  repeat (apply keeps_table_bind; [| intros _]); try apply keeps_table_print.
  - destruct (Ntests >? 1); apply keeps_table_print.
  - apply keeps_table_for. intros test Hin. apply keeps_table_time_test; [exact Hin |].
    rewrite Forall_forall in Hnz. now apply Hnz.
Qed.

Lemma run_tests_outcome Ntests Nx Ny s :
  Forall (fun test => Nrpt test <> 0) FullTests ->
  match run_tests World popen now str_of_list str_of_bytes format_f format_g
          FullTests Ntests Nx Ny s with
  | Ret _ s' => has_shape (length Langs) (length Comps) (Results s')
  | Raise e _ => e = SystemExit 0
  end.
Proof.
  intros Hnz. unfold run_tests. unfold bind at 1.
  apply (keeps_table_for (length Langs) (length Comps)).
  - intros ITest _. now apply keeps_table_run_pass.
  - simpl. apply zeros_shape.
Qed.

Lemma report_returns s :
  has_shape (length Langs) (length Comps) (Results s) ->
  exists s', report World format_f format_g FullTests s = Ret tt s'.
Proof.
  intros Hshape.
  destruct (find_benchmark_found World FullTests s Hshape) as (f & Hf & _).
  eexists. eapply report_Ret; eassumption.
Qed.

Lemma sys_argv_int_outcome argv (i : nat) s :
  (i < length argv)%nat ->
  (exists n, sys_argv_int World int_of_str argv i s = Ret n s) \/
  (sys_argv_int World int_of_str argv i s = Raise ValueError s /\
   exists a, argv !! i = Some a /\ int_of_str a = None).
Proof.
  intros Hi. destruct (lookup_lt_is_Some_2 argv i Hi) as [a Ha].
  unfold sys_argv_int, bind. rewrite Ha. simpl.
  destruct (int_of_str a) as [n|] eqn:Hn; simpl.
  - left. now exists n.
  - right. split; [reflexivity |]. now exists a.
Qed.

Lemma read_sizes_outcome argv s :
  (exists sizes, read_sizes World int_of_str argv s = Ret sizes s) \/
  (read_sizes World int_of_str argv s = Raise ValueError s /\
   exists i a, (1 <= i <= 3)%nat /\ argv !! i = Some a /\ int_of_str a = None).
Proof.
  unfold read_sizes.
  destruct (Nat.ltb_spec 1 (length argv)) as [H1 | _]; [| left; now eexists].
  destruct (sys_argv_int_outcome argv 1 s H1) as [[n1 Hn1] | [Hbad (a & Ha & Hno)]].
  2: { right. rewrite (bind_Raise _ _ _ _ _ Hbad). split; [reflexivity |].
       exists 1%nat, a. repeat split; try assumption; lia. }
  rewrite (bind_Ret _ _ _ _ _ Hn1).
  destruct (Nat.ltb_spec 2 (length argv)) as [H2 | _]; [| left; now eexists].
  destruct (sys_argv_int_outcome argv 2 s H2) as [[n2 Hn2] | [Hbad (a & Ha & Hno)]].
  2: { right. rewrite (bind_Raise _ _ _ _ _ Hbad). split; [reflexivity |].
       exists 2%nat, a. repeat split; try assumption; lia. }
  rewrite (bind_Ret _ _ _ _ _ Hn2).
  destruct (Nat.ltb_spec 3 (length argv)) as [H3 | _]; [| left; now eexists].
  destruct (sys_argv_int_outcome argv 3 s H3) as [[n3 Hn3] | [Hbad (a & Ha & Hno)]].
  2: { right. rewrite (bind_Raise _ _ _ _ _ Hbad). split; [reflexivity |].
       exists 3%nat, a. repeat split; try assumption; lia. }
  rewrite (bind_Ret _ _ _ _ _ Hn3). left. now eexists.
Qed.

(** X17.  As long as no test of the table has a repeat count of zero,
    Run.py as a whole raises nothing of its own: whatever the subprocesses
    do and however long they take, the program either runs to the end of
    its report, or exits with status 0, which it does only when a
    subprocess was interrupted by the user, or stops with the ValueError of
    [int()] on one of its first three command-line arguments.  In
    particular no label is missing from the lists when it is looked up, no
    index falls outside the results table, and no division is by zero. *)
Theorem program_raises_only_exit_or_bad_argument (argv : list string) s :
  Forall (fun test => Nrpt test <> 0) FullTests ->
  match program World popen now str_of_list str_of_bytes format_f format_g
          int_of_str FullTests argv s with
  | Ret _ _ => True
  | Raise e _ =>
      (e = SystemExit 0 /\
       exists (args : list string) (w : World), fst (popen args w) = Interrupted) \/
      (e = ValueError /\
       exists i a, (1 <= i <= 3)%nat /\ argv !! i = Some a /\ int_of_str a = None)
  end.
Proof.
  intros Hnz. unfold program.
  destruct (list_versions_exits World popen str_of_list s)
    as [[s1 Hrun] | (s1 & Hrun & Hint)].
  2: { rewrite (bind_Raise _ _ _ _ _ Hrun). left. now split. }
  rewrite (bind_Ret _ _ _ _ _ Hrun).
  destruct (read_sizes_outcome argv s1)
    as [[[[Ntests Nx] Ny] Hsizes] | [Hbad Hwhy]].
  2: { rewrite (bind_Raise _ _ _ _ _ Hbad). right. now split. }
  rewrite (bind_Ret _ _ _ _ _ Hsizes).
  pose proof (run_tests_outcome Ntests Nx Ny s1 Hnz) as Htests.
  pose proof (on_interrupt_run_tests World popen now str_of_list str_of_bytes
                format_f format_g FullTests Ntests Nx Ny s1) as Hwhy.
  unfold bind.
  destruct (run_tests _ _ _ _ _ _ _ _ _ _ _ _) as [[] s2|e s2].
  - destruct (report_returns s2 Htests) as [s3 ->]. exact I.
  - left. split; [exact Htests |]. subst e. exact (Hwhy 0 s2 eq_refl).
Qed.

(** X18.  A test whose repeat count in the table is zero stops the driver
    as soon as it has been built and run without an error: the time per
    1000 iterations is computed with the count of the table, not with the
    count of at least 2 that BuildAndTimeProgram used, and the division
    raises ZeroDivisionError.  No line is printed for the test, the results
    table is as it was, and the tests behind it in the pass are not run. *)
Theorem zero_repeat_count_stops_the_driver Nx Ny test (rest : list Test)
    s Status Secs Errors s1 :
  Nrpt test = 0 ->
  BuildAndTime (BuildCommand1 test) (BuildCommand2 test) (ExecCommand test)
    (Nrpt test) Nx Ny (CleanupCommand test) s = Ret (Status, Secs, Errors) s1 ->
  truthy Status = false ->
  time_one Nx Ny test s = Raise ZeroDivisionError s1 /\
  for_ (test :: rest) (time_one Nx Ny) s = Raise ZeroDivisionError s1 /\
  terminal s1 = terminal s /\ Results s1 = Results s /\ observed s1 = observed s.
Proof.
  intros Hz Hrun Ht.
  assert (Hone := time_test_no_repeats World popen now str_of_list str_of_bytes
                    format_f format_g FullTests Nx Ny test s Status Secs Errors s1
                    Hrun Ht Hz).
  pose proof (silent_BuildAndTimeProgram World popen now str_of_list
                (BuildCommand1 test) (BuildCommand2 test) (ExecCommand test)
                (Nrpt test) Nx Ny (CleanupCommand test) s) as (HR & Hobs & Hterm).
  rewrite Hrun in HR, Hobs, Hterm. simpl in HR, Hobs, Hterm.
  split; [exact Hone |]. split; [| auto].
  simpl. now rewrite (bind_Raise _ _ _ _ _ Hone).
Qed.

(** ** The time that is recorded *)

Lemma BuildAndTimeProgram_stages b1 b2 exec Nrpt Nx Ny cleanup
    s s1 s2 s3 Errors0 r1 r2 (Tfull Tone : Q) :
  build_stage World popen str_of_list b1 b2 s = Ret (None, Errors0) s1 ->
  timed_run World popen now str_of_list
    (run_command exec (Z.max Nrpt 2) Nx Ny) s1 = Ret (r1, Tfull) s2 ->
  timed_run World popen now str_of_list
    (run_command exec 1 Nx Ny) s2 = Ret (r2, Tone) s3 ->
  BuildAndTime b1 b2 exec Nrpt Nx Ny cleanup s
  = cleanup_stage World popen str_of_list cleanup (fst (fst r2))
      ((Tfull - Tone) * float_of_int (Z.max Nrpt 2)
       / float_of_int (Z.max Nrpt 2 - 1))%Q
      (snd r2) s3.
Proof.
  intros Hbuild Hfull Hone.
  unfold BuildAndTimeProgram. rewrite clamp_is_max.
  unfold bind. rewrite Hbuild. simpl. rewrite Hfull. simpl. rewrite Hone.
  destruct r2 as [[Status2 Output2] Errors2]. simpl.
  unfold truediv.
  destruct (Qeq_bool (float_of_int (Z.max Nrpt 2 - 1)) 0) eqn:Hz.
  - apply Qeq_bool_iff in Hz. exfalso. revert Hz.
    apply float_of_int_nonzero. lia.
  - reflexivity.
Qed.

Lemma Qlt_0_scaled (d c : Q) : (0 < c)%Q -> (0 < d * c)%Q <-> (0 < d)%Q.
Proof.
  intros Hc. rewrite <- (Qmult_lt_r 0 d c Hc). now rewrite Qmult_0_l.
Qed.

Lemma float_of_int_positive (n : Z) : 0 < n -> (0 < float_of_int n)%Q.
Proof. intros Hn. unfold float_of_int, inject_Z, Qlt. simpl. lia. Qed.

(** X19.  For a test with a repeat count [Nrpt >= 2] that builds and runs
    without an error status, the seconds that BuildAndTimeProgram returns
    and the time per 1000 iterations that the driver prints have the sign
    of the difference of the two elapsed times: they are positive exactly
    when the run with all the repeats took longer than the run with a single
    repeat.  When it did not, the driver still prints the line of the test
    but leaves the results table as it was. *)
Theorem time_is_positive_iff_full_run_is_longer Nx Ny test
    s s1 s2 s3 s4 Errors0 r1 r2 (Tfull Tone : Q) Status Secs Errors :
  2 <= Nrpt test ->
  build_stage World popen str_of_list (BuildCommand1 test) (BuildCommand2 test) s
  = Ret (None, Errors0) s1 ->
  timed_run World popen now str_of_list
    (run_command (ExecCommand test) (Nrpt test) Nx Ny) s1 = Ret (r1, Tfull) s2 ->
  timed_run World popen now str_of_list
    (run_command (ExecCommand test) 1 Nx Ny) s2 = Ret (r2, Tone) s3 ->
  BuildAndTime (BuildCommand1 test) (BuildCommand2 test) (ExecCommand test)
    (Nrpt test) Nx Ny (CleanupCommand test) s = Ret (Status, Secs, Errors) s4 ->
  truthy Status = false ->
  exists K : Q,
    observed (final_state (time_one Nx Ny test s))
    = observed s ++ [(LangTech test, CompOpt test, K)] /\
    terminal (final_state (time_one Nx Ny test s))
    = terminal s ++ [timing_line format_f format_g test Secs K] /\
    ((0 < Secs)%Q <-> (Tone < Tfull)%Q) /\
    ((0 < K)%Q <-> (Tone < Tfull)%Q) /\
    ((Tfull <= Tone)%Q ->
     Results (final_state (time_one Nx Ny test s)) = Results s).
Proof.
  intros Hn Hbuild Hfull Hone Hret Ht.
  assert (Hmax : Z.max (Nrpt test) 2 = Nrpt test) by lia.
  rewrite <- Hmax in Hfull.
  assert (Hst := BuildAndTimeProgram_stages _ _ _ _ _ _ (CleanupCommand test)
                   _ _ _ _ _ _ _ _ _ Hbuild Hfull Hone).
  rewrite Hmax in Hst. assert (Hclean := Hret). rewrite Hst in Hclean.
  apply cleanup_stage_result in Hclean as [HSecs _]. simpl in HSecs.
  pose proof (silent_BuildAndTimeProgram World popen now str_of_list
                (BuildCommand1 test) (BuildCommand2 test) (ExecCommand test)
                (Nrpt test) Nx Ny (CleanupCommand test) s) as (HR & Hobs & Hterm).
  rewrite Hret in HR, Hobs, Hterm. simpl in HR, Hobs, Hterm.
  assert (Hnz : Nrpt test <> 0) by lia.
  assert (HN : (0 < float_of_int (Nrpt test))%Q) by (apply float_of_int_positive; lia).
  assert (HN1 : (0 < float_of_int (Nrpt test - 1))%Q)
    by (apply float_of_int_positive; lia).
  assert (Hdiff : (0 < Tfull - Tone)%Q <-> (Tone < Tfull)%Q).
  { symmetry. apply Qlt_minus_iff. }
  assert (HsignS : (0 < Secs)%Q <-> (Tone < Tfull)%Q).
  { rewrite <- Hdiff, HSecs. unfold Qdiv.
    rewrite (Qlt_0_scaled _ _ (Qinv_lt_0_compat _ HN1)).
    apply Qlt_0_scaled. exact HN. }
  assert (HsignK : (0 < Secs / float_of_int (Nrpt test) * 1000)%Q <-> (Tone < Tfull)%Q).
  { rewrite <- HsignS. unfold Qdiv.
    rewrite (Qlt_0_scaled _ 1000 eq_refl).
    apply Qlt_0_scaled. now apply Qinv_lt_0_compat. }
  exists (Secs / float_of_int (Nrpt test) * 1000)%Q.
  rewrite (time_test_timed World popen now str_of_list str_of_bytes format_f format_g
             FullTests Nx Ny test s Status Secs Errors s4 Hret Ht Hnz).
  match goal with
  | |- context [record_result _ _ ?l ?c ?k ?s0] =>
      destruct (record_result_quiet World FullTests l c k s0) as (Hob & Hte & Hsame)
  end.
  split; [rewrite Hob; simpl; now rewrite Hobs |].
  split; [rewrite Hte; simpl; now rewrite Hterm |].
  split; [exact HsignS |]. split; [exact HsignK |].
  intros Hle. rewrite Hsame; [exact HR |].
  apply Qltb_ge. apply Qnot_lt_le. intros Hpos.
  apply HsignK in Hpos. exact (Qlt_not_le _ _ Hpos Hle).
Qed.

(** X26.  Once the build has succeeded, the status that
    BuildAndTimeProgram returns is the status of the run with a single
    repeat or, when that is [None] and the test has a cleanup command, the
    status of the cleanup command; the error output goes with it.  The
    status of the timed run with all the repeats is overwritten unread: the
    result does not depend on it.  So a test program that fails with all
    its repeats but succeeds with one is returned as a success when the
    cleanup succeeds, with the seconds computed from the two elapsed
    times. *)
Theorem timed_run_status_is_overwritten b1 b2 exec Nrpt Nx Ny cleanup
    s s1 s2 s3 Errors0 StatusN OutputN ErrorsN Status1 Output1 Errors1
    (Tfull Tone : Q) :
  build_stage World popen str_of_list b1 b2 s = Ret (None, Errors0) s1 ->
  timed_run World popen now str_of_list
    (run_command exec (Z.max Nrpt 2) Nx Ny) s1
  = Ret ((StatusN, OutputN, ErrorsN), Tfull) s2 ->
  timed_run World popen now str_of_list
    (run_command exec 1 Nx Ny) s2 = Ret ((Status1, Output1, Errors1), Tone) s3 ->
  (cleanup = "" ->
   BuildAndTime b1 b2 exec Nrpt Nx Ny cleanup s
   = Ret (Status1,
          ((Tfull - Tone) * float_of_int (Z.max Nrpt 2)
           / float_of_int (Z.max Nrpt 2 - 1))%Q,
          Errors1) s3) /\
  (cleanup <> "" ->
   forall CleanStatus CleanOutput CleanErrors s4,
     ExecuteCommand World popen str_of_list (CmdStr cleanup) s3
     = Ret (CleanStatus, CleanOutput, CleanErrors) s4 ->
     BuildAndTime b1 b2 exec Nrpt Nx Ny cleanup s
     = Ret (match Status1 with
            | None => (CleanStatus,
                       ((Tfull - Tone) * float_of_int (Z.max Nrpt 2)
                        / float_of_int (Z.max Nrpt 2 - 1))%Q,
                       CleanErrors)
            | Some _ => (Status1,
                         ((Tfull - Tone) * float_of_int (Z.max Nrpt 2)
                          / float_of_int (Z.max Nrpt 2 - 1))%Q,
                         Errors1)
            end) s4) /\
  (cleanup <> "" ->
   forall e s4,
     ExecuteCommand World popen str_of_list (CmdStr cleanup) s3 = Raise e s4 ->
     BuildAndTime b1 b2 exec Nrpt Nx Ny cleanup s = Raise e s4).
Proof.
  intros Hbuild Hfull Hone.
  rewrite (BuildAndTimeProgram_stages _ _ _ _ _ _ cleanup _ _ _ _ _ _ _ _ _
             Hbuild Hfull Hone).
  simpl fst. simpl snd. unfold cleanup_stage.
  split; [| split].
  - intros ->. reflexivity.
  - intros Hne CleanStatus CleanOutput CleanErrors s4 Hclean.
    destruct (String.eqb_spec cleanup "") as [Heq | _]; [contradiction |]. simpl.
    rewrite (bind_Ret _ _ _ _ _ Hclean). now destruct Status1.
  - intros Hne e s4 Hclean.
    destruct (String.eqb_spec cleanup "") as [Heq | _]; [contradiction |]. simpl.
    now rewrite (bind_Raise _ _ _ _ _ Hclean).
Qed.

(** ** The report *)

(** X20.  In the report that follows the passes no relative time lies
    strictly between 0 and 1: the entry of a cell divided by the benchmark
    is 0 for a cell that is still zero, and at least 1 for every other
    cell, because the benchmark is the smallest positive entry of the
    table. *)
Theorem relative_times_are_zero_or_at_least_one Ntests Nx Ny s0 :
  exists f,
    find_benchmark World FullTests
      (final_state (run_tests World popen now str_of_list str_of_bytes
                      format_f format_g FullTests Ntests Nx Ny s0))
    = Ret f (final_state (run_tests World popen now str_of_list str_of_bytes
                            format_f format_g FullTests Ntests Nx Ny s0)) /\
    (0 < BenchKIterSecs f)%Q /\
    forall i j q,
      item (Results (final_state (run_tests World popen now str_of_list str_of_bytes
                                    format_f format_g FullTests Ntests Nx Ny s0)))
        i j = Some q ->
      (q = 0%Q /\ (q / BenchKIterSecs f == 0)%Q) \/
      ((0 < q)%Q /\ (1 <= q / BenchKIterSecs f)%Q).
Proof.
  set (s := final_state (run_tests World popen now str_of_list str_of_bytes
                           format_f format_g FullTests Ntests Nx Ny s0)).
  destruct (table_ok_run_tests World popen now str_of_list str_of_bytes
              format_f format_g FullTests Ntests Nx Ny s0) as (Hshape & Hcells & _).
  fold s in Hshape, Hcells.
  destruct (find_benchmark_found World FullTests s Hshape) as (f & Hrun & Hf).
  assert (Hpos : (0 < BenchKIterSecs f)%Q).
  { destruct Hf as [[-> _] | (_ & Hpos & _)]; [reflexivity | exact Hpos]. }
  exists f. split; [exact Hrun |]. split; [exact Hpos |].
  intros i j q Hq.
  destruct (Hcells i j q Hq) as [-> | [Hq0 _]].
  - left. split; [reflexivity |]. unfold Qdiv. apply Qmult_0_l.
  - right. split; [exact Hq0 |].
    destruct Hf as [[_ Hnone] | (_ & _ & _ & Hmin)].
    + exfalso. exact (Hnone i j q I Hq Hq0).
    + apply Qle_shift_div_l; [exact Hpos |]. rewrite Qmult_1_l.
      exact (Hmin i j q I Hq Hq0).
Qed.

(** *** The table in .csv format *)

Lemma split_on_nonempty (sep : ascii) (s : string) : split_on sep s <> [].
Proof.
  destruct s as [|c s]; simpl; [discriminate |].
  destruct (Ascii.eqb c sep); [discriminate |].
  destruct (split_on sep s); discriminate.
Qed.

Lemma split_on_app (sep : ascii) (a b : string) :
  split_on sep (a +:+ String sep b) = split_on sep a ++ split_on sep b.
Proof.
  induction a as [|c a IH].
  - simpl. now rewrite Ascii.eqb_refl.
  - rewrite append_cons. simpl. destruct (Ascii.eqb c sep).
    + now rewrite IH.
    + rewrite IH. pose proof (split_on_nonempty sep a) as Hne.
      destruct (split_on sep a) as [|w ws]; [contradiction | reflexivity].
Qed.

Lemma fields_comma_free (s : string) : comma_free s = true -> fields s = [s].
Proof.
  unfold fields, comma_free. induction s as [|c s IH]; [reflexivity |].
  simpl. intros [Hc Hs]%andb_true_iff. apply negb_true_iff in Hc.
  rewrite Hc. now rewrite (IH Hs).
Qed.

Lemma fields_joined {B : Type} (text : B -> string) (l : list B) (first : string) :
  comma_free first = true ->
  (forall b, b ∈ l -> comma_free (text b) = true) ->
  fields (foldl (fun Line b => Line +:+ "," +:+ text b) first l)
  = first :: (text <$> l).
Proof.
  intros Hfirst Hall.
  assert (H : forall Line,
            fields (foldl (fun Line b => Line +:+ "," +:+ text b) Line l)
            = fields Line ++ (text <$> l)).
  { induction l as [|b l IH]; intros Line; simpl.
    - now rewrite app_nil_r.
    - rewrite IH by (intros b' Hb'; apply Hall; now apply list_elem_of_further).
      change (Line +:+ "," +:+ text b) with (Line +:+ String ","%char (text b)).
      unfold fields at 1. rewrite split_on_app.
      fold (fields Line). fold (fields (text b)).
      rewrite (fields_comma_free (text b)) by apply Hall, list_elem_of_here.
      now rewrite <- app_assoc. }
  now rewrite H, fields_comma_free.
Qed.

Lemma print_table_Ret (Bench : Q) s :
  has_shape (length Langs) (length Comps) (Results s) ->
  print_table World format_f FullTests Bench s
  = Ret tt (set_terminal
              (terminal s ++ table_lines format_f FullTests Bench (Results s)) s).
Proof.
  intros Hshape. unfold print_table, bind, print. simpl.
  rewrite (for_lines World Comps _
             (row_text format_f FullTests Bench (Results s)) (Results s)).
  - unfold table_lines, set_terminal. simpl. do 2 f_equal.
    now rewrite <- !app_assoc.
  - intros comp s' Hin HR. rewrite <- HR.
    apply print_row_Ret; [now rewrite HR | exact Hin].
  - reflexivity.
Qed.

(** X21.  The table that the report writes in .csv format parses back:
    when no label of the table of tests and no formatted number holds a
    comma, the header line splits at its commas into "Compiler" followed by
    the languages, and the line of each compiler into the compiler followed
    by one field for each language, in the order of the header, so every
    line has the same number of fields.  (The source asks for labels
    without commas; with a comma in a label the fields shift.) *)
Theorem csv_table_parses_back (Bench : Q) s :
  has_shape (length Langs) (length Comps) (Results s) ->
  Forall (fun test => comma_free (LangTech test) = true /\
                      comma_free (CompOpt test) = true) FullTests ->
  (forall i j r, item (Results s) i j = Some r ->
     comma_free (format_f 0%nat 2%nat (r / Bench)%Q) = true) ->
  exists header lines,
    print_table World format_f FullTests Bench s
    = Ret tt (set_terminal (terminal s ++ "" :: header :: lines) s) /\
    fields header = "Compiler" :: Langs /\
    length lines = length Comps /\
    forall j comp,
      Comps !! j = Some comp ->
      exists line,
        lines !! j = Some line /\
        fields line
        = comp :: ((fun i => cell_text format_f Bench (Results s) j i)
                     <$> seq 0 (length Langs)).
Proof.
  intros Hshape Hlabels Hnumbers. rewrite Forall_forall in Hlabels.
  exists (foldl (fun Line LangTech => Line +:+ "," +:+ LangTech) "Compiler" Langs),
         (row_text format_f FullTests Bench (Results s) <$> Comps).
  split; [now apply print_table_Ret |]. split; [| split].
  - rewrite (fields_joined (fun x => x)); [now rewrite list_fmap_id | reflexivity |].
    intros lang Hin. apply elem_of_Langs in Hin as (test & Hin & <-).
    now apply Hlabels.
  - now rewrite length_fmap.
  - intros j comp Hj. exists (row_text format_f FullTests Bench (Results s) comp).
    split; [now rewrite list_lookup_fmap, Hj |].
    unfold row_text.
    rewrite (index_of_lookup Comps j comp (Comps_NoDup FullTests) Hj).
    unfold NLangTech. apply fields_joined.
    + apply list_elem_of_lookup_2, elem_of_Comps in Hj as (test & Hin & <-).
      now apply Hlabels.
    + intros i _. unfold cell_text.
      destruct (item (Results s) i j) as [r|] eqn:Hr; [| reflexivity].
      destruct (Qltb 0 (r / Bench)); [| reflexivity].
      now apply (Hnumbers i j).
Qed.

(** X22.  With a number of passes of zero or less Run.py builds and runs
    no test at all: the loop over the passes prints nothing and starts no
    subprocess, the results table is all zeros, the search for the benchmark
    ends with 1.0 and two empty labels, and every field of the .csv table
    is empty. *)
Theorem no_passes_leave_an_empty_table Ntests Nx Ny s :
  Ntests <= 0 ->
  run_tests World popen now str_of_list str_of_bytes format_f format_g
    FullTests Ntests Nx Ny s
  = Ret tt (set_observed []
              (set_Results (zeros 0%Q (NLangTech FullTests) (NCompOpt FullTests)) s)) /\
  find_benchmark World FullTests
    (set_observed []
       (set_Results (zeros 0%Q (NLangTech FullTests) (NCompOpt FullTests)) s))
  = Ret (mkFastest true "" "" 1)
      (set_observed []
         (set_Results (zeros 0%Q (NLangTech FullTests) (NCompOpt FullTests)) s)) /\
  forall (Bench : Q) j i,
    cell_text format_f Bench
      (zeros 0%Q (NLangTech FullTests) (NCompOpt FullTests)) j i = "".
Proof.
  intros Hn.
  set (s1 := set_observed []
               (set_Results (zeros 0%Q (NLangTech FullTests) (NCompOpt FullTests)) s)).
  split; [| split].
  - unfold run_tests, range. replace (Z.to_nat Ntests) with 0%nat by lia.
    reflexivity.
  - assert (Hshape : has_shape (length Langs) (length Comps) (Results s1))
      by apply zeros_shape.
    destruct (find_benchmark_found World FullTests s1 Hshape) as (f & Hrun & Hf).
    destruct Hf as [[-> _] | (_ & Hpos & (i & j & _ & Hcell & _) & _)];
      [exact Hrun |].
    exfalso. simpl in Hcell. apply zeros_item in Hcell.
    rewrite Hcell in Hpos. discriminate.
  - intros Bench j i. unfold cell_text.
    destruct (item _ i j) as [r|] eqn:Hr; [| reflexivity].
    apply zeros_item in Hr as ->. reflexivity.
Qed.

End SafetyFacts.

(** ** Ties in the search for the benchmark *)

Section TieFacts.
Variable World : Type.
Variable FullTests : list Test.

Local Abbreviation Langs := (LangTechList FullTests).
Local Abbreviation Comps := (CompOptList FullTests).
Implicit Types (s : State World) (f : fastest).

Lemma look_at_first_step (seen : nat -> nat -> Prop) i j f s q lang comp :
  first_lowest FullTests (Results s) seen f ->
  (forall i' j', seen i' j' -> before i' j' i j) ->
  item (Results s) i j = Some q ->
  Langs !! i = Some lang -> Comps !! j = Some comp ->
  exists f',
    look_at World FullTests i j f s = Ret f' s /\
    first_lowest FullTests (Results s)
      (fun i' j' => seen i' j' \/ (i' = i /\ j' = j)) f'.
Proof.
  intros Hf Hseen Hq Hlang Hcomp. unfold look_at, bind, get_Result.
  rewrite Hq. simpl.
  destruct (Qltb 0 q) eqn:Hpos.
  - apply Qltb_lt in Hpos.
    destruct Hf as [[-> Hnone] |
                    (Hfirst & i0 & j0 & Hs0 & Hcell & Hbench & Hl & Hc & Hmin)].
    + simpl. rewrite Hlang, Hcomp. simpl. eexists. split; [reflexivity |].
      right. simpl. split; [reflexivity |]. exists i, j.
      split; [now right |]. do 4 (split; [assumption |]).
      intros i1 j1 q1 [Hs | [-> ->]] Hq1 Hpos1.
      * exfalso. eapply Hnone; eassumption.
      * rewrite Hq in Hq1. injection Hq1 as <-.
        split; [apply Qle_refl | unfold before; lia].
    + rewrite Hfirst.
      destruct (Qltb q (BenchKIterSecs f)) eqn:Hlt.
      * apply Qltb_lt in Hlt. rewrite Hlang, Hcomp. simpl.
        eexists. split; [reflexivity |].
        right. simpl. split; [reflexivity |]. exists i, j.
        split; [now right |]. do 4 (split; [assumption |]).
        intros i1 j1 q1 [Hs | [-> ->]] Hq1 Hpos1.
        -- assert (Hlow : (q < q1)%Q).
           { apply Qlt_le_trans with (BenchKIterSecs f);
               [assumption | now apply (Hmin i1 j1)]. }
           split; [now apply Qlt_le_weak | now intros _].
        -- rewrite Hq in Hq1. injection Hq1 as <-.
           split; [apply Qle_refl | unfold before; lia].
      * apply Qltb_ge in Hlt. eexists. split; [reflexivity |].
        right. simpl. split; [first [reflexivity | assumption] |]. exists i0, j0.
        split; [now left |]. do 4 (split; [assumption |]).
        intros i1 j1 q1 [Hs | [-> ->]] Hq1 Hpos1.
        -- now apply (Hmin i1 j1).
        -- rewrite Hq in Hq1. injection Hq1 as <-. split; [assumption |].
           intros Hb. specialize (Hseen i0 j0 Hs0). unfold before in *. lia.
  - apply Qltb_ge in Hpos. eexists. split; [reflexivity |].
    destruct Hf as [[-> Hnone] |
                    (Hfirst & i0 & j0 & Hs0 & Hcell & Hbench & Hl & Hc & Hmin)].
    + left. split; [reflexivity |].
      intros i' j' q' [Hs | [-> ->]] Hq'.
      * now apply (Hnone i' j').
      * rewrite Hq in Hq'. injection Hq' as <-. now apply Qle_not_lt.
    + right. simpl. split; [first [reflexivity | assumption] |]. exists i0, j0.
      split; [now left |]. do 4 (split; [assumption |]).
      intros i1 j1 q1 [Hs | [-> ->]] Hq1 Hpos1.
      * now apply (Hmin i1 j1).
      * rewrite Hq in Hq1. injection Hq1 as <-.
        exfalso. now apply (Qle_not_lt q 0).
Qed.

Lemma first_lowest_seen R (seen seen' : nat -> nat -> Prop) f :
  (forall i j, seen i j -> seen' i j) ->
  (forall i j q, seen' i j -> item R i j = Some q -> seen i j) ->
  first_lowest FullTests R seen f -> first_lowest FullTests R seen' f.
Proof.
  intros Hup Hdown
    [[-> Hnone] | (Hfirst & i0 & j0 & Hs0 & Hcell & Hbench & Hl & Hc & Hmin)].
  - left. split; [reflexivity |]. intros i j q Hs Hq.
    apply (Hnone i j q); [eapply Hdown; eassumption | assumption].
  - right. split; [assumption |]. exists i0, j0.
    split; [now apply Hup |]. do 4 (split; [assumption |]).
    intros i j q Hs Hq. apply (Hmin i j q); [eapply Hdown; eassumption | assumption].
Qed.

(** X23.  When several cells of the results table hold the lowest positive
    time, the combination that the report names as the fastest is the first
    of them in the order of the search, languages first and compilers
    second, both in their sorted order: a later cell replaces the benchmark
    only if its time is strictly lower, so every positive entry before the
    cell that is named is strictly greater than the benchmark. *)
Theorem fastest_is_the_first_lowest s :
  has_shape (length Langs) (length Comps) (Results s) ->
  exists f,
    find_benchmark World FullTests s = Ret f s /\
    first_lowest FullTests (Results s) (fun _ _ => True) f.
Proof.
  intros Hshape. unfold find_benchmark, NLangTech, NCompOpt.
  rewrite !range_of_nat.
  match goal with |- context [for_acc _ ?b _] => set (body := b) end.
  destruct (for_acc_seq_rule
    (fun i f s' => s' = s /\
       first_lowest FullTests (Results s) (fun i' j' => before i' j' i 0) f)
    body (length Langs) 0 (mkFastest true "" "" 1) s) as (f & s' & Hrun & -> & Hf).
  - split; [reflexivity |]. left. split; [reflexivity |].
    intros i j q Hb. unfold before in Hb. lia.
  - intros i f s0 [_ Hi] [-> Hf]. simpl in Hi. unfold body.
    match goal with |- context [for_acc _ ?b _] => set (inner := b) end.
    destruct (for_acc_seq_rule
      (fun j f' s' => s' = s /\
         first_lowest FullTests (Results s) (fun i' j' => before i' j' i j) f')
      inner (length Comps) 0 f s) as (f' & s' & Hrun' & -> & Hf').
    + now split.
    + intros j f0 s0 [_ Hj] [-> Hf0]. simpl in Hj. unfold inner.
      destruct (has_shape_item_Some _ _ _ i j Hshape Hi Hj) as [q Hq].
      destruct (lookup_lt_is_Some_2 Langs i Hi) as [lang Hlang].
      destruct (lookup_lt_is_Some_2 Comps j Hj) as [comp Hcomp].
      destruct (look_at_first_step _ i j f0 s q lang comp Hf0 (fun _ _ H => H)
                  Hq Hlang Hcomp) as (f1 & Hlook & Hf1).
      exists f1, s. split; [exact Hlook |]. split; [reflexivity |].
      revert Hf1. apply first_lowest_seen; unfold before.
      * intros i' j' [H | [-> ->]]; lia.
      * intros i' j' q' H _.
        destruct (decide (i' = i /\ j' = j)) as [Heq | Hne]; [now right |].
        left. lia.
    + exists f', s. split; [exact Hrun' |]. split; [reflexivity |].
      revert Hf'. apply first_lowest_seen; unfold before.
      * intros i' j' H. lia.
      * intros i' j' q' H Hq'.
        destruct (item_Some_bounds _ _ _ _ Hq') as (r & Hr & Hx & Hlt).
        destruct Hshape as (_ & Hc & _). rewrite Hc in Hlt. lia.
  - exists f. split; [exact Hrun |]. revert Hf. apply first_lowest_seen.
    + intros i j _. exact I.
    + intros i j q _ Hq.
      destruct (item_Some_bounds _ _ _ _ Hq) as (r & Hr & _ & _).
      apply lookup_lt_Some in Hr. destruct Hshape as (Hn & _). unfold nrows in Hn.
      unfold before. simpl. lia.
Qed.

End TieFacts.

(** * The properties on concrete inputs *)

(** ** The kernels *)

Lemma loop_kernels_write_a_block_witness :
  exists O',
    csub_subr Z.add int_of_int 1%positive 2 1 2%positive small_heap
    = Ret tt (<[2%positive := O']> small_heap) /\
    item O' 0 1 = Some 21 /\ item O' 0 2 = Some 0 /\ item O' 1 0 = Some 0.
Proof.
  destruct (loop_kernels_write_a_block Z.add int_of_int small_heap
              1%positive 2%positive small_ina small_out 2 3 2 1)
    as (O' & Hrun & _ & _ & Hitem).
  - discriminate.
  - reflexivity.
  - reflexivity.
  - exact small_ina_shape.
  - exact small_out_shape.
  - lia.
  - lia.
  - exists O'. split; [exact Hrun |]. rewrite !Hitem. repeat split.
Defined.

Lemma loop_kernels_stop_out_of_range_witness :
  exists O',
    csub_subr Z.add int_of_int 1%positive 4 2 2%positive small_heap
    = Raise IndexError (<[2%positive := O']> small_heap) /\
    item O' 0 2 = Some 32 /\ item O' 1 0 = Some 0.
Proof.
  destruct (loop_kernels_stop_out_of_range Z.add int_of_int small_heap
              1%positive 2%positive small_ina small_out 2 3 4 2)
    as (O' & Hrun & _ & _ & Hitem).
  - discriminate.
  - reflexivity.
  - reflexivity.
  - exact small_ina_shape.
  - exact small_out_shape.
  - lia.
  - lia.
  - left. lia.
  - exists O'. split; [exact Hrun |]. rewrite !Hitem. repeat split.
Defined.

Lemma loop_kernels_work_in_place_witness :
  exists A',
    csub_subr Z.add int_of_int 1%positive 3 2 1%positive small_heap
    = Ret tt (<[1%positive := A']> small_heap) /\
    item A' 1 2 = Some 63.
Proof.
  destruct (loop_kernels_work_in_place Z.add int_of_int small_heap
              1%positive small_ina 2 3 3 2)
    as (A' & Hrun & _ & _ & Hitem & _).
  - reflexivity.
  - exact small_ina_shape.
  - lia.
  - lia.
  - exists A'. split; [exact Hrun |]. rewrite Hitem. reflexivity.
Defined.

(** *** float64 arrays of the default size *)

Lemma zseq_lookup (len : nat) (start : Z) (i : nat) :
  (i < len)%nat -> zseq start len !! i = Some (start + Z.of_nat i).
Proof.
  revert start i. induction len as [|len IH]; intros start i Hi; [lia |].
  destruct i as [|i]; simpl.
  - f_equal. lia.
  - rewrite IH by lia. f_equal. lia.
Qed.

Lemma table_of_item {B : Type} (f g : Z -> Z -> B) (nx ny ix iy : nat) :
  table_of f nx ny = table_of g nx ny ->
  (ix < nx)%nat -> (iy < ny)%nat ->
  f (Z.of_nat ix) (Z.of_nat iy) = g (Z.of_nat ix) (Z.of_nat iy).
Proof.
  intros Heq Hix Hiy.
  apply (f_equal (fun t => t !! iy)) in Heq. unfold table_of in Heq.
  rewrite !list_lookup_fmap, zseq_lookup in Heq by assumption. simpl in Heq.
  injection Heq as Heq. apply (f_equal (fun r => r !! ix)) in Heq.
  rewrite !list_lookup_fmap, zseq_lookup in Heq by assumption. simpl in Heq.
  now injection Heq.
Qed.

(** For 10 rows of 2000 columns, the sizes that Run.py passes by default,
    the additions of the kernels are exact on every element that the main
    routine builds, and no sum differs from itself. *)
Lemma default_sums_are_exact :
  table_of (loop_sum 2000 10) 2000 10 = table_of (index_sum 2000 10) 2000 10 /\
  table_of (fun ix iy => float64_neqb (index_sum 2000 10 ix iy)
                                      (index_sum 2000 10 ix iy)) 2000 10
  = table_of (fun _ _ => false) 2000 10.
Proof. split; vm_compute; reflexivity. Qed.

(** The four kernels on the float64 array that the main routine builds
    for 10 rows of 2000 columns. *)
Lemma vector_kernels_agree_with_loop_witness :
  csubnpna_subr PrimFloat.add float64_of_int 1%positive 2000 10 2%positive
    (float_heap (main_input float64_of_int 2000 10))
  = csub_subr PrimFloat.add float64_of_int 1%positive 2000 10 2%positive
      (float_heap (main_input float64_of_int 2000 10)) /\
  csubnpv_subr PrimFloat.add float64_of_int 1%positive 2000 10 2%positive
    (float_heap (main_input float64_of_int 2000 10))
  = csub_subr PrimFloat.add float64_of_int 1%positive 2000 10 2%positive
      (float_heap (main_input float64_of_int 2000 10)).
Proof.
  destruct (vector_kernels_agree_with_loop PrimFloat.add float64_of_int
              (float_heap (main_input float64_of_int 2000 10))
              1%positive 2%positive (main_input float64_of_int 2000 10)
              (zeros 0%float 10 2000) 2000 10)
    as (Hna & _ & _ & Hv).
  - reflexivity.
  - reflexivity.
  - exact (main_input_shape float64_of_int 2000 10).
  - apply zeros_shape.
  - split; [exact Hna |]. apply Hv. intros iy ix a Ha.
    unfold item in Ha.
    destruct (rows (main_input float64_of_int 2000 10) !! iy) as [r|] eqn:Hr;
      [| discriminate].
    destruct (decide (ix < ncols (main_input float64_of_int 2000 10))%nat);
      [| discriminate].
    destruct (main_input_row float64_of_int 2000 10 iy r Hr) as [Hiy Hrow].
    destruct (Hrow ix a Ha) as [Hix ->].
    apply (table_of_item (loop_sum 2000 10) (index_sum 2000 10) 2000 10 ix iy
             (proj1 default_sums_are_exact)); lia.
Defined.

Lemma repeated_calls_are_one_call_witness :
  call_loop (csubnpv_subr Z.add int_of_int) 4 1%positive 3 2 2%positive small_heap
  = csubnpv_subr Z.add int_of_int 1%positive 3 2 2%positive small_heap.
Proof.
  destruct (repeated_calls_are_one_call Z.add int_of_int small_heap
              1%positive 2%positive small_ina small_out 3 2 4
              (csubnpv_subr Z.add int_of_int)) as [Hmany _].
  - discriminate.
  - reflexivity.
  - reflexivity.
  - exact small_ina_shape.
  - exact small_out_shape.
  - apply list_elem_of_further, list_elem_of_further, list_elem_of_here.
  - apply Hmany. lia.
Defined.

Lemma csubnpna_needs_the_shape_witness :
  csubnpna_subr Z.add int_of_int 1%positive 2 2 2%positive small_heap
  = Raise ValueError small_heap.
Proof.
  apply (csubnpna_needs_the_shape Z.add int_of_int small_heap
           1%positive 2%positive small_ina 2 2).
  - reflexivity.
  - left. simpl. lia.
Defined.

(** ** The main routine *)

Lemma result_check_reports_first_mismatch_witness :
  result_check Z.add int_of_int Z_neqb str_of_Z 1%positive 3 2 2%positive small_prog
  = Ret tt (mkProg small_heap ["Error:  0 0 0 10"]).
Proof.
  destruct (result_check_reports_first_mismatch Z.add int_of_int Z_neqb str_of_Z
              small_prog 1%positive 2%positive small_ina small_out 3 2)
    as [_ Hfirst].
  - reflexivity.
  - reflexivity.
  - exact small_ina_shape.
  - exact small_out_shape.
  - apply (Hfirst 0%nat 0%nat).
    + lia.
    + lia.
    + reflexivity.
    + intros iy ix _ Hlt. lia.
Defined.

(** The broadcasting program as Run.py starts it for the test
    [Python3ary], [python3 csubnpna.py 50000 2000 10], on float64 arrays,
    the dtype of [numpy.zeros].  The result check passes, so no element is
    printed. *)
Lemma main_routine_passes_its_check_witness :
  main_routine PrimFloat.add float64_of_int float64_neqb decimal (fun _ => "")
    (csubnpna_subr PrimFloat.add float64_of_int) 100000
    ["csubnpna.py"; "50000"; "2000"; "10"] fresh_float_prog
  = Ret tt
      (mkProg (<[out_var := index_map (plus_index_sum PrimFloat.add float64_of_int)
                              (main_input float64_of_int 2000 10)]>
                 (<[ina_var := main_input float64_of_int 2000 10]> ∅))
              ["Arrays 2000 by 10 count 50000"]).
Proof.
  apply (main_routine_passes_its_check PrimFloat.add float64_of_int float64_neqb
           decimal (fun _ => "") (csubnpna_subr PrimFloat.add float64_of_int) 100000
           ["csubnpna.py"; "50000"; "2000"; "10"] fresh_float_prog 50000 2000 10).
  - apply list_elem_of_further, list_elem_of_further, list_elem_of_further,
      list_elem_of_here.
  - reflexivity.
  - lia.
  - lia.
  - lia.
  - intros ix iy Hix Hiy. split.
    + apply (table_of_item (loop_sum 2000 10) (index_sum 2000 10) 2000 10 ix iy
               (proj1 default_sums_are_exact)); lia.
    + apply (table_of_item
               (fun ix iy => float64_neqb (index_sum 2000 10 ix iy)
                                          (index_sum 2000 10 ix iy))
               (fun _ _ => false) 2000 10 ix iy
               (proj2 default_sums_are_exact)); lia.
Defined.

Lemma main_routine_without_calls_reports_an_error_witness :
  main_routine Z.add int_of_int Z_neqb decimal str_of_Z
    (csub_subr Z.add int_of_int) 100 ["csub.py"; "0"; "4"; "2"] fresh_prog
  = Ret tt
      (mkProg (<[out_var := zeros 0 2 4]> (<[ina_var := main_input int_of_int 4 2]> ∅))
              ["Arrays 4 by 2 count 0"; "Error:  0 0 0 6"]).
Proof.
  apply (main_routine_without_calls_reports_an_error Z.add int_of_int Z_neqb
           decimal str_of_Z (csub_subr Z.add int_of_int) 100
           ["csub.py"; "0"; "4"; "2"] fresh_prog 0 4 2).
  - reflexivity.
  - lia.
  - lia.
  - lia.
  - reflexivity.
Defined.

(** ** Run.py *)

Lemma test_program_reads_the_numbers_witness :
  read_args decimal 10000
    (sys_argv (command_words
                 (run_command (ExecCommand Registry.Python3vec)
                    (Nrpt Registry.Python3vec) 2000 10))) fresh_prog
  = Ret (50000, 2000, 10) fresh_prog.
Proof.
  destruct (test_program_reads_the_numbers decimal
              (ExecCommand Registry.Python3vec) "python3" "csubnpv.py"
              (Nrpt Registry.Python3vec) 2000 10 10000 fresh_prog) as [_ H].
  - reflexivity.
  - reflexivity.
  - reflexivity.
  - reflexivity.
  - exact H.
Defined.

Lemma ascii_output_is_returned_witness :
  exists Status,
    scripted_ExecuteCommand (CmdStr "java -version") (scripted_state java_world)
    = Ret (Status, Str "", Str ("openjdk version 11" +:+ newline))
        (set_spawned [["java"; "-version"]]
           (set_world (Scripted 7 []) (scripted_state java_world))) /\
    (Status = None <-> 0 = 0).
Proof.
  destruct (ascii_output_is_returned scripted scripted_popen bracketed
              (CmdStr "java -version") (scripted_state java_world)
              "" ("openjdk version 11" +:+ newline) 0 (Scripted 7 []))
    as (Status & Hrun & Hiff & _).
  - reflexivity.
  - reflexivity.
  - reflexivity.
  - exists Status. split; [exact Hrun | exact Hiff].
Defined.

Lemma failed_build_skips_the_test_witness :
  exists r s',
    scripted_BuildAndTimeProgram
      (BuildCommand1 Registry.RawCclang) (BuildCommand2 Registry.RawCclang)
      (ExecCommand Registry.RawCclang) (Nrpt Registry.RawCclang) 2000 10
      (CleanupCommand Registry.RawCclang) (scripted_state broken_build_world)
    = Ret r s' /\
    r = (Some "Error executing 'c++ -c csub.cpp -o csub.o'", 0%Q,
         Str "csub.cpp: No such file") /\
    spawned s' = [["c++"; "-c"; "csub.cpp"; "-o"; "csub.o"];
                  ["rm"; "-f"; "cmain"; "csub.o"]].
Proof.
  destruct (failed_build_skips_the_test scripted scripted_popen scripted_now
              bracketed
              (BuildCommand1 Registry.RawCclang) (BuildCommand2 Registry.RawCclang)
              (ExecCommand Registry.RawCclang) (Nrpt Registry.RawCclang) 2000 10
              (CleanupCommand Registry.RawCclang) (scripted_state broken_build_world)
              "Error executing 'c++ -c csub.cpp -o csub.o'" (Str "")
              (Str "csub.cpp: No such file")
              (mkState scripted
                 (Scripted 5000 [quiet_success 3000]) [] (NdArray 0 [])
                 [["c++"; "-c"; "csub.cpp"; "-o"; "csub.o"]] []))
    as (_ & _ & H).
  - discriminate.
  - reflexivity.
  - eexists _, _. split; [reflexivity |]. apply H. reflexivity.
Defined.

Lemma cleanup_command_runs_last_witness :
  last (spawned
          (final_state
             (scripted_BuildAndTimeProgram
                (BuildCommand1 Registry.RawCclang) (BuildCommand2 Registry.RawCclang)
                (ExecCommand Registry.RawCclang) (Nrpt Registry.RawCclang) 2000 10
                (CleanupCommand Registry.RawCclang)
                (scripted_state broken_build_world))))
  = Some ["rm"; "-f"; "cmain"; "csub.o"].
Proof.
  destruct (cleanup_command_runs_last scripted scripted_popen scripted_now bracketed
              (BuildCommand1 Registry.RawCclang) (BuildCommand2 Registry.RawCclang)
              (ExecCommand Registry.RawCclang) (Nrpt Registry.RawCclang) 2000 10
              (CleanupCommand Registry.RawCclang) (scripted_state broken_build_world)
              (Some "Error executing 'c++ -c csub.cpp -o csub.o'", 0%Q,
               Str "csub.cpp: No such file")
              (mkState scripted (Scripted 8000 []) [] (NdArray 0 [])
                 [["c++"; "-c"; "csub.cpp"; "-o"; "csub.o"];
                  ["rm"; "-f"; "cmain"; "csub.o"]] []))
    as [H _].
  - reflexivity.
  - apply H. discriminate.
Defined.

(** ** The table of tests of Run.py *)

(** X25.  The table of tests that Run.py ships meets what the program
    relies on and what its comments ask for: every repeat count is at least
    2, no label holds a comma, the labels fit the columns of 24 and 20
    characters of the printed lines, no two tests carry the same pair of
    labels, so that each test has a cell of its own, no test has a second
    build command without a first (it would not be run), and every test
    has a command to run. *)
Theorem registry_meets_its_constraints :
  Forall (fun test => 2 <= Nrpt test) Registry.FullTests /\
  Forall (fun test => comma_free (LangTech test) = true /\
                      comma_free (CompOpt test) = true) Registry.FullTests /\
  Forall (fun test => (String.length (LangTech test) <= 24)%nat /\
                      (String.length (CompOpt test) <= 20)%nat) Registry.FullTests /\
  NoDup (labels <$> Registry.FullTests) /\
  Forall (fun test => BuildCommand1 test = "" -> BuildCommand2 test = "")
    Registry.FullTests /\
  Forall (fun test => command_words (CmdStr (ExecCommand test)) <> [])
    Registry.FullTests.
Proof.
  repeat split.
  - apply (bool_decide_unpack _). vm_compute. exact I.
  - apply (bool_decide_unpack _). vm_compute. exact I.
  - apply (bool_decide_unpack _). vm_compute. exact I.
  - apply (bool_decide_unpack _). vm_compute. exact I.
  - apply (bool_decide_unpack _). vm_compute. exact I.
  - apply (bool_decide_unpack _). vm_compute. exact I.
Qed.

Lemma registry_counts_not_zero :
  Forall (fun test => Nrpt test <> 0) Registry.FullTests.
Proof. apply (bool_decide_unpack _). vm_compute. exact I. Defined.

(** ** The driver *)



Lemma program_raises_only_exit_or_bad_argument_witness :
  match program scripted scripted_popen scripted_now bracketed quoted
          fixed_point general_format decimal Registry.FullTests ["Run.py"; "two"]
          (scripted_state mute_world) with
  | Ret _ _ => True
  | Raise e _ =>
      (e = SystemExit 0 /\
       exists (args : list string) (w : scripted),
         fst (scripted_popen args w) = Interrupted) \/
      (e = ValueError /\
       exists i a, (1 <= i <= 3)%nat /\ ["Run.py"; "two"] !! i = Some a /\
                   decimal a = None)
  end.
Proof.
  apply (program_raises_only_exit_or_bad_argument scripted scripted_popen
           scripted_now bracketed quoted fixed_point general_format decimal
           Registry.FullTests ["Run.py"; "two"] (scripted_state mute_world)).
  exact registry_counts_not_zero.
Defined.

Lemma zero_repeat_count_stops_the_driver_witness :
  scripted_time_test [zero_count_test] 2000 10 zero_count_test
    (mkState scripted python_world [] (zeros 0%Q 1 1) [] [])
  = Raise ZeroDivisionError
      (mkState scripted (Scripted 2020000 []) [] (zeros 0%Q 1 1)
         [["./cmain"; "2"; "2000"; "10"]; ["./cmain"; "1"; "2000"; "10"]] []).
Proof.
  edestruct (zero_repeat_count_stops_the_driver scripted scripted_popen scripted_now
               bracketed quoted fixed_point general_format [zero_count_test] 2000 10
               zero_count_test []
               (mkState scripted python_world [] (zeros 0%Q 1 1) [] []))
    as (H & _).
  - reflexivity.
  - reflexivity.
  - reflexivity.
  - exact H.
Defined.

(** A world in which the test [Python3np] takes 0.2 s for its 200 repeats
    and 0.3 s for a single one: the time comes out negative and the table
    stays as it was. *)
Lemma time_is_positive_iff_full_run_is_longer_witness :
  exists K : Q,
    observed (final_state
                (scripted_time_test two_tests 2000 10 Registry.Python3np
                   (mkState scripted slow_start_world [] (zeros 0%Q 2 2) [] [])))
    = [("Python : numpy raw", "Python3", K)] /\
    ~ (0 < K)%Q /\
    Results (final_state
               (scripted_time_test two_tests 2000 10 Registry.Python3np
                  (mkState scripted slow_start_world [] (zeros 0%Q 2 2) [] [])))
    = zeros 0%Q 2 2.
Proof.
  edestruct (time_is_positive_iff_full_run_is_longer scripted scripted_popen
               scripted_now bracketed quoted fixed_point general_format two_tests
               2000 10 Registry.Python3np
               (mkState scripted slow_start_world [] (zeros 0%Q 2 2) [] []))
    as (K & Hobs & _ & _ & HK & Hsame).
  - simpl. lia.
  - reflexivity.
  - reflexivity.
  - reflexivity.
  - reflexivity.
  - reflexivity.
  - exists K. split; [exact Hobs |]. split.
    + intros Hpos. apply HK in Hpos. vm_compute in Hpos. discriminate.
    + apply Hsame. vm_compute. discriminate.
Defined.

(** The test [RawCclang] of the table, which has two build commands and a
    cleanup command, when its program crashes with all the repeats: no
    error is returned. *)
Lemma timed_run_status_is_overwritten_witness :
  exists Secs s4,
    scripted_BuildAndTimeProgram
      (BuildCommand1 Registry.RawCclang) (BuildCommand2 Registry.RawCclang)
      (ExecCommand Registry.RawCclang) (Nrpt Registry.RawCclang) 2000 10
      (CleanupCommand Registry.RawCclang) (scripted_state crashing_build_world)
    = Ret (None, Secs, Str "") s4 /\
    (0 < Secs)%Q /\
    length (spawned s4) = 5%nat.
Proof.
  edestruct (timed_run_status_is_overwritten scripted scripted_popen scripted_now
               bracketed
               (BuildCommand1 Registry.RawCclang) (BuildCommand2 Registry.RawCclang)
               (ExecCommand Registry.RawCclang) (Nrpt Registry.RawCclang) 2000 10
               (CleanupCommand Registry.RawCclang)
               (scripted_state crashing_build_world))
    as (_ & Hclean & _).
  - reflexivity.
  - reflexivity.
  - reflexivity.
  - eexists _, _. split; [eapply Hclean; [discriminate | reflexivity] |].
    split; reflexivity.
Defined.

Lemma small_table_shape :
  has_shape (length (LangTechList two_tests)) (length (CompOptList two_tests))
    small_table.
Proof. repeat split; repeat constructor. Defined.

Lemma csv_table_parses_back_witness :
  exists header lines,
    print_table scripted fixed_point two_tests 1 table_state
    = Ret tt (set_terminal ("" :: header :: lines) table_state) /\
    fields header = ["Compiler"; "Perl"; "Python : numpy raw"] /\
    (exists line, lines !! 1%nat = Some line /\ fields line = ["Python3"; ""; "2.50"]).
Proof.
  destruct (csv_table_parses_back scripted fixed_point two_tests 1 table_state)
    as (header & lines & Hrun & Hhead & _ & Hrows).
  - exact small_table_shape.
  - repeat constructor.
  - intros i j r.
    destruct i as [|[|i]]; destruct j as [|[|j]]; simpl;
      try discriminate; intros H; injection H as <-; reflexivity.
  - exists header, lines. split; [exact Hrun |]. split; [exact Hhead |].
    apply (Hrows 1%nat "Python3"). reflexivity.
Defined.

Lemma no_passes_leave_an_empty_table_witness :
  run_tests scripted scripted_popen scripted_now bracketed quoted
    fixed_point general_format two_tests 0 2000 10 (scripted_state python_world)
  = Ret tt (mkState scripted python_world [] (zeros 0%Q 2 2) [] []).
Proof.
  destruct (no_passes_leave_an_empty_table scripted scripted_popen scripted_now
              bracketed quoted fixed_point general_format two_tests 0 2000 10
              (scripted_state python_world)) as (H & _).
  - lia.
  - exact H.
Defined.

Lemma tied_table_shape :
  has_shape (length (LangTechList two_tests)) (length (CompOptList two_tests))
    tied_table.
Proof. repeat split; repeat constructor. Defined.

Lemma fastest_is_the_first_lowest_witness :
  exists f,
    find_benchmark scripted two_tests tied_state = Ret f tied_state /\
    first_lowest two_tests tied_table (fun _ _ => True) f.
Proof.
  exact (fastest_is_the_first_lowest scripted two_tests tied_state tied_table_shape).
Defined.

(** In the table with a tie, the cell named is that of the first language
    with the second compiler, not the equally fast one of the second
    language. *)
Example tie_goes_to_the_first_cell :
  returned (find_benchmark scripted two_tests tied_state)
  = Some (mkFastest false "Perl" "Python3" 2).
Proof. reflexivity. Qed.

(** The vector program on float64 arrays of 3 rows and 20 columns, five
    calls: one line is printed and the check is silent. *)
Example csubnpv_main_float64 :
  stdout (final_state
            (csubnpv_main PrimFloat.add float64_of_int
               (fun x y => negb (PrimFloat.eqb x y)) decimal (fun _ => "")
               ["csubnpv.py"; "5"; "20"; "3"] (mkProg ∅ [])))
  = ["Arrays 20 by 3 count 5"].
Proof. vm_compute. reflexivity. Qed.
